(* ===== verification/_CoqProject ===== *)
-Q . S2P
Prelude.v
GoStr.v
Decimals.v
DecRound.v
DecimalText.v
Uuid.v
Crypto.v
Keys.v
Dates.v
GoUrl.v
Util.v
Money.v
KeyLock.v
Wait.v
Queue.v
Pool.v
Json.v
IpLookup.v
Markdown.v
Visibility.v
Msg.v
RichText.v
Network.v
ImApi.v
GroupMsg.v
Seq.v
NetIp.v
Redis.v
Cache.v
Http.v
Cors.v
TokenBucket.v
ClientIp.v
RateLimit.v
Config.v
Log.v
Db.v
Modules.v
AppContext.v
Model.v
ContextPool.v
Routes.v
Server.v
Tracing.v
Bootstrap.v
TestUtil.v
Pipeline.v
Conformance.v
