(* ===== verification/Prelude.v ===== *)
(** * Verification of octo-lib: overview

    octo-lib is the base library of an instant-messaging server. This
    development models its own logic as executable definitions and proves what
    they promise. Each file models one part of [src/]; the definitions keep the
    names of the Go functions (a trailing underscore, or the type as a prefix,
    where Rocq does not allow the name).

    ** Conventions

    A Go string or byte slice is a [list ascii] (this file); machine integers are
    [Z] with the wrap-around written out ([int32], [int64], [uint32], ... below);
    a float64 is its IEEE bits where its exact value matters (DecRound, Money,
    Json), and a rational without rounding, an infinity or NaN in TokenBucket and
    RateLimit. A call
    returns [Ok], [Err] or [Panicked] ([go] below); a run-time panic is a value,
    never left out. State is passed explicitly; code under a lock is one step, and
    concurrency is an inductive step relation with [reachable] states. Services
    outside the library (redis, MySQL, the IM server, the clock, random bytes,
    ciphers, hashes, name resolution, gin's router, opentracing, viper, the file
    system) are arguments or type classes; what a theorem relies on is a law of
    the class, and every class with laws has a concrete instance in a witness.

    ** Parts

    Shared: this file (outcomes, integers, counting, reachability); GoStr
    ([strings], [strconv], [sort], [utf8], paths); GoUrl ([net/url], addresses);
    NetIp ([net/netip]).

    Values. Decimals, DecRound, DecimalText: [pkg/util/decimal.go], arithmetic,
    rounding and division, texts and encodings. Uuid: [pkg/util/uuid.go]. Crypto:
    [aes.go], [md5.go], [sha.go], [hash.go]. Keys: [rsa.go], [dh.go]. Dates:
    [time.go], [pkg/db/db.go]. Util: the small functions of [pkg/util], URL and
    address checks. Money: [yuan_cent.go]. Json: [json.go] over a model of
    [encoding/json].

    Concurrency. KeyLock ([pkg/keylock]), Wait ([pkg/wait]), Queue
    ([pkg/pool/queue.go]), Pool ([dispatcher.go], [job.go]), Log ([pkg/log]),
    ContextPool (the contexts of [pkg/wkhttp] that handlers share), and the
    throttle at the end of RateLimit.

    Messages. Msg ([common/msg.go], [constant.go]), RichText
    ([common/richtext.go]), Visibility ([contract/searchmsg]), Network
    ([pkg/network]), IpLookup (the web services of [ip.go]), ImApi
    ([config/msg.go], [stream.go], [msg_channel.go]), GroupMsg
    ([config/msg_group.go], [msg_rtc.go], [msg_personal.go]), Model ([model/]),
    Markdown ([pkg/markdown]).
    GroupMsg builds payloads with Json, sends them through ImApi and Network, and
    its theorems read them back with Visibility, the way the search indexer does.

    Storage. Seq ([config/seq.go]), Redis ([pkg/redis]), Cache ([pkg/cache],
    [common/cache.go]; the interface is the class [Cache], its contract
    [CacheLaws], both implementations are instances), Db ([pkg/db]).

    Web. Http ([pkg/wkhttp]: contexts, rendering, authentication against the
    interface [CacheLaws]), Cors ([secure_cors.go]); TokenBucket (the Lua script
    of [ratelimit.go]), ClientIp ([ratelimit_helper.go]) and RateLimit (the three
    middlewares on top of them); Routes (registration, over the interface
    [Engine] with its contract [EngineLaws], and the order in which a chain of
    handlers runs); Server ([server/server.go]); Tracing ([config/tracer.go]).
    Pipeline puts them together: CORS, the allow list, the limiter by address,
    the authentication and the limiter by user in front of one route of a server,
    over the states of all of them.

    Application. Config ([config/config.go]), Modules ([pkg/register],
    [module/module.go]), AppContext ([config/context.go]), Bootstrap (what
    [NewContext] opens, tasks, the search client), TestUtil ([testutil]: a server
    composed of context, cache, engine, tracing and modules).

    Conformance enters the tables of the repository's own tests and evaluates
    them on the definitions.

    ** What is shown

    Safety under interleaving: one holder per key and no lock lost to the
    cleaner, no wake-up lost and first-in first-out order of the queue, at most
    one delivery per registration and no send on a closed channel, no lazily
    made logger over a configured one, warnings thirty seconds apart, a pooled
    context never shared by two handlers.

    Refinement and equivalence: the sharded wait registry refines one map; the
    token bucket kept in redis, which skips the write of a refusal and is dropped
    when idle, refines a bucket that is always there; the redis cache is a map of
    values with deadlines, and the memory cache, which has no clock, answers
    alike as long as nothing is read after its expiry; configuring twice is
    configuring once.

    Security: an accepted URL names, or resolves at the moment of the check to,
    no address of the table of private networks (the unspecified addresses are
    not in that table, and later answers of the name service and redirects are
    not looked at); only well-formed
    sessions pass the authentication, or those an injected parser accepts, and
    every failure of that parser has its answer; credentials go to listed origins
    only, but for preflights, which the first middleware answers for any origin; a
    client passes the limiter at most burst plus rate times elapsed time
    often, whatever others do meanwhile, and a user no more often than that
    behind all the guards of a route, which also let no preflight and nobody
    without a session through; a client address is canonical; visibility fails
    closed, and a rich text is refused for its first fault.

    Composition: every route of a server runs behind recovery and CORS, and
    registering more routes changes none; tracing starts one span per request and
    finishes it once, also when a handler panics; modules are built once and set up after their migrations.

    Arithmetic: decimals are exact on the rationals, rounding and division are
    nearest with the documented ties, division with remainder truncates, Mul
    panics exactly when its exponent overflows, powers with a non-negative integer
    exponent terminate, floats convert exactly.

    Round trips: decimals (text, binary), identifiers (text), dates (a text is
    read exactly when it is the one printed), ciphers, JSON values with every
    number literal kept.

    Invariants across failures: sequence numbers increase through failed writes
    and restarts.

    ** Bounds and fuel

    Parsers and printers recurse on fuel that is the length of their input, which
    each step shortens; the theorems about them are about the functions with that
    fuel, and the round trips show it is enough. JSON nesting is limited to 10000
    levels, as in the library. [Pow] gets 51 calls, enough for exponents below
    2^50 (its theorem says it returns). The search for migrations returns with
    fuel 2 on trees of one level; on others it may not return at all (an example
    in Db). Sequence numbers
    and versions are assumed to stay within an int64 where a theorem says so.

    ** Not modelled

    Generated code ([pkg/wkhook]); the insides of the libraries called (the ants
    pool, machinery, the search client, jaeger, gin's path parameters, gomarkdown,
    the server's sockets, zap's encoders and the rotation of log files), which are
    arguments. Of the modelled files: log lines, [ConfigFileUsed], and the text
    form of a duration. Go values that are no JSON trees (channels, functions) are
    not values of Json; the error of the encoder is reached by numbers that have
    no literal. Time-outs and data races outside the locked sections and
    the pooled contexts are not represented. *)
From stdpp Require Export base tactics list gmap strings sorting.
From Stdlib Require Export ZArith Lia Ascii.


#[global] Open Scope Z_scope.

(** ** Go strings and byte slices

    A Go [string] and a Go [[]byte] are both sequences of bytes, so both are
    [list ascii] here, and a string literal in the scope [go_scope] is the
    list of the UTF-8 bytes of the literal. *)

Abbreviation gostring := (list ascii) (only parsing).

Definition go_literal := list ascii.

Definition go_literal_parse (l : list Byte.byte) : String.string := String.string_of_list_byte l.

Definition go_literal_print (s : String.string) : option (list Byte.byte) :=
  Some (String.list_byte_of_string s).

Declare Scope go_scope.
Delimit Scope go_scope with go.

#[warnings="-via-type-remapping,-via-type-mismatch"]
String Notation go_literal go_literal_parse go_literal_print
  (via String.string mapping [[nil] => String.EmptyString, [cons] => String.String]) : go_scope.

#[global] Open Scope go_scope.

(** The numeric value of a byte, and the byte of a number (mod 256). *)
Definition byte_val (c : ascii) : Z := Z.of_N (N_of_ascii c).
Definition byte_of (z : Z) : ascii := ascii_of_N (Z.to_N (z mod 256)).

(** The byte of the ASCII double quote, which no literal may hold. *)
Definition dquote : ascii := byte_of 34.

(** A literal with every apostrophe turned into a double quote. *)
Definition jq (s : gostring) : gostring :=
  map (fun c => if decide (byte_val c = 39) then dquote else c) s.

(** ** Outcomes of a Go call

    [Ok] is a normal return, [Err] a return with a non-nil error, [Panicked] a
    run-time panic. *)

Inductive go (E A : Type) : Type :=
| Ok (a : A)
| Err (e : E)
| Panicked (msg : gostring).
Arguments Ok {E A} a.
Arguments Err {E A} e.
Arguments Panicked {E A} msg.

Definition go_bind {E A B} (m : go E A) (k : A -> go E B) : go E B :=
  match m with
  | Ok a => k a
  | Err e => Err e
  | Panicked msg => Panicked msg
  end.

Notation "'let!' x := c 'in' k" := (go_bind c (fun x => k))
  (at level 10, x name, c at level 200, k at level 200) : go_scope.

Notation "'let!' ' p := c 'in' k" := (go_bind c (fun x => match x with p => k end))
  (at level 10, p pattern, c at level 200, k at level 200) : go_scope.

Lemma go_bind_Ok {E A B} (m : go E A) (k : A -> go E B) b :
  go_bind m k = Ok b <-> exists a, m = Ok a /\ k a = Ok b.
Proof. destruct m as [a| |]; simpl; split; [eauto|intros (? & [= ->] & ?); done|done|naive_solver..]. Qed.

(** ** Machine integers, kept at their width *)

Definition uwrap (w z : Z) : Z := z mod 2 ^ w.
Definition swrap (w z : Z) : Z := (z + 2 ^ (w - 1)) mod 2 ^ w - 2 ^ (w - 1).

Abbreviation uint8 := (uwrap 8).
Abbreviation uint16 := (uwrap 16).
Abbreviation uint32 := (uwrap 32).
Abbreviation uint64 := (uwrap 64).
Abbreviation int32 := (swrap 32).
Abbreviation int64 := (swrap 64).

Abbreviation MinInt32 := (-2147483648).
Abbreviation MaxInt32 := 2147483647.
Abbreviation MinInt64 := (-9223372036854775808).
Abbreviation MaxInt64 := 9223372036854775807.

Definition in_int32 (z : Z) : Prop := MinInt32 <= z <= MaxInt32.
Definition in_int64 (z : Z) : Prop := MinInt64 <= z <= MaxInt64.

Lemma int32_small z : in_int32 z -> int32 z = z.
Proof. unfold in_int32, swrap. intros. change (2 ^ (32 - 1)) with 2147483648.
  rewrite Z.mod_small; [lia | change (2 ^ 32) with 4294967296; lia]. Qed.

Lemma int64_small z : in_int64 z -> int64 z = z.
Proof. unfold in_int64, swrap. intros. change (2 ^ (64 - 1)) with 9223372036854775808.
  rewrite Z.mod_small; [lia | change (2 ^ 64) with 18446744073709551616; lia]. Qed.

Lemma int32_range z : in_int32 (int32 z).
Proof. unfold in_int32, swrap.
  pose proof (Z.mod_pos_bound (z + 2 ^ (32 - 1)) (2 ^ 32) ltac:(lia)).
  change (2 ^ (32 - 1)) with 2147483648 in *. change (2 ^ 32) with 4294967296 in *. lia. Qed.

Lemma int64_range z : in_int64 (int64 z).
Proof. unfold in_int64, swrap.
  pose proof (Z.mod_pos_bound (z + 2 ^ (64 - 1)) (2 ^ 64) ltac:(lia)).
  change (2 ^ (64 - 1)) with 9223372036854775808 in *.
  change (2 ^ 64) with 18446744073709551616 in *. lia. Qed.

Lemma uwrap_small w z : 0 <= z < 2 ^ w -> uwrap w z = z.
Proof. intros. by apply Z.mod_small. Qed.

Lemma uwrap_range w z : 0 <= w -> 0 <= uwrap w z < 2 ^ w.
Proof. intros. apply Z.mod_pos_bound. lia. Qed.

(** ** Bytes *)

Lemma byte_val_range c : 0 <= byte_val c < 256.
Proof. unfold byte_val. pose proof (N_ascii_bounded c). lia. Qed.

Lemma byte_val_of z : byte_val (byte_of z) = z mod 256.
Proof. unfold byte_val, byte_of.
  pose proof (Z.mod_pos_bound z 256 ltac:(lia)).
  rewrite N_ascii_embedding by lia. lia. Qed.

Lemma byte_of_val c : byte_of (byte_val c) = c.
Proof. unfold byte_of. rewrite Z.mod_small by apply byte_val_range.
  unfold byte_val. rewrite N2Z.id. apply ascii_N_embedding. Qed.

Lemma byte_val_inj c1 c2 : byte_val c1 = byte_val c2 -> c1 = c2.
Proof. intros H. by rewrite <- (byte_of_val c1), H, byte_of_val. Qed.

Create HintDb octo.
#[export] Hint Resolve byte_val_range int32_range int64_range : octo.


(** ** Tactics of the development *)

(** Case analysis on every boolean comparison, leaving linear facts. *)
Ltac zbool :=
  repeat match goal with
  | |- context [?a <=? ?b] => destruct (Z.leb_spec a b)
  | |- context [?a <? ?b] => destruct (Z.ltb_spec a b)
  | |- context [?a =? ?b] => destruct (Z.eqb_spec a b)
  | H : context [?a <=? ?b] |- _ => destruct (Z.leb_spec a b)
  | H : context [?a <? ?b] |- _ => destruct (Z.ltb_spec a b)
  | H : context [?a =? ?b] |- _ => destruct (Z.eqb_spec a b)
  end.

(** Split every [if]/[match] on an atomic scrutinee and simplify. *)
Ltac cases :=
  repeat (case_match || case_decide); simplify_eq/=; try done.

(** ** Lists *)

Lemma take_drop_app_eq {A} (l1 l2 : list A) n :
  n = length l1 -> take n (l1 ++ l2) = l1 /\ drop n (l1 ++ l2) = l2.
Proof. intros ->. split; [apply take_app_length | apply drop_app_length]. Qed.

Lemma Forall_lookup_of {A} (P : A -> Prop) (l : list A) i x :
  Forall P l -> l !! i = Some x -> P x.
Proof. intros HF Hl. by eapply Forall_lookup in HF. Qed.

Lemma map_inj_on {A B} (f : A -> B) (l1 l2 : list A) :
  (forall x y, f x = f y -> x = y) -> map f l1 = map f l2 -> l1 = l2.
Proof.
  intros Hf. revert l2. induction l1 as [|x l1 IH]; intros [|y l2]; simpl; intros H;
    try discriminate; [done|].
  injection H as H1 H2. f_equal; auto.
Qed.

Lemma filter_all {A} (P : A -> Prop) `{!forall x, Decision (P x)} l : Forall P l -> filter P l = l.
Proof. induction 1 as [|x l Hx _ IH]; [done|]. rewrite filter_cons_True by done. by rewrite IH. Qed.

Lemma filter_none {A} (P : A -> Prop) `{!forall x, Decision (P x)} l :
  Forall (fun x => ~ P x) l -> filter P l = [].
Proof. induction 1 as [|x l Hx _ IH]; [done|]. by rewrite filter_cons_False. Qed.

(** ** Positional notation in an arbitrary base, most significant digit first *)

Definition from_digits (b : Z) (l : list Z) : Z := fold_left (fun acc d => acc * b + d) l 0.

Fixpoint to_digits_aux (fuel : nat) (b n : Z) (acc : list Z) : list Z :=
  match fuel with
  | O => acc
  | S f => if n <=? 0 then acc else to_digits_aux f b (n / b) (n mod b :: acc)
  end.

(** The digits of [n]; the empty list for [0].  [log2 n + 1] steps are enough
    for any base of at least two. *)
Definition to_digits (b n : Z) : list Z := to_digits_aux (S (Z.to_nat (Z.log2 n))) b n [].

Definition is_digit (b d : Z) : Prop := 0 <= d < b.

Section Digits.
Context (b : Z) (Hb : 2 <= b).

Lemma fold_digits_acc l acc :
  fold_left (fun acc d => acc * b + d) l acc = acc * b ^ Z.of_nat (length l) + from_digits b l.
Proof using Hb.
  unfold from_digits. revert acc. induction l as [|d l IH]; intros acc; cbn [fold_left length]; [cbn; lia|].
  rewrite IH, (IH (0 * b + d)). rewrite Nat2Z.inj_succ, Z.pow_succ_r by lia. lia.
Qed.

Lemma from_digits_cons d l :
  from_digits b (d :: l) = d * b ^ Z.of_nat (length l) + from_digits b l.
Proof using Hb. unfold from_digits at 1. simpl. apply fold_digits_acc. Qed.

Lemma from_digits_app l1 l2 :
  from_digits b (l1 ++ l2) = from_digits b l1 * b ^ Z.of_nat (length l2) + from_digits b l2.
Proof using Hb. unfold from_digits at 1. rewrite fold_left_app. apply fold_digits_acc. Qed.

Lemma from_digits_bound l :
  Forall (is_digit b) l -> 0 <= from_digits b l < b ^ Z.of_nat (length l).
Proof using Hb.
  induction 1 as [|d l Hd _ IH]; [simpl; unfold from_digits; simpl; lia|].
  rewrite from_digits_cons. unfold is_digit in Hd.
  simpl length. rewrite Nat2Z.inj_succ, Z.pow_succ_r by lia. nia.
Qed.

Lemma from_digits_zeros n : from_digits b (replicate n 0) = 0.
Proof using Hb. induction n as [|n IH]; [done|]. simpl. rewrite from_digits_cons, IH. lia. Qed.

Lemma to_digits_aux_spec fuel n acc :
  n < b ^ Z.of_nat fuel ->
  exists l, to_digits_aux fuel b n acc = l ++ acc /\ Forall (is_digit b) l /\
            (0 <= n -> from_digits b l = n) /\ (0 < n -> exists d l', l = d :: l' /\ d <> 0) /\
            (n <= 0 -> l = []).
Proof using Hb.
  revert n acc. induction fuel as [|f IH]; intros n acc Hn; simpl.
  - exists []. rewrite Z.pow_0_r in Hn. repeat split; try done; try lia.
    intros. assert (n = 0) as -> by lia. done.
  - destruct (Z.leb_spec n 0) as [Hle|Hgt].
    + exists []. repeat split; try done; try lia. intros. assert (n = 0) as -> by lia. done.
    + destruct (IH (n / b) (n mod b :: acc)) as (l & -> & HF & Hv & Hh & Hz).
      { apply Z.div_lt_upper_bound; [lia|]. by rewrite Nat2Z.inj_succ, Z.pow_succ_r in Hn by lia. }
      pose proof (Z.mod_pos_bound n b ltac:(lia)) as Hm.
      pose proof (Z.div_mod n b ltac:(lia)) as Hdm.
      assert (0 <= n / b) as Hq by (apply Z.div_pos; lia).
      exists (l ++ [n mod b]). split; [by rewrite <- app_assoc|]. split.
      { apply Forall_app; split; [done|]. constructor; [done|constructor]. }
      split; [|split; [|lia]].
      * intros _. rewrite from_digits_app, Hv by done.
        unfold from_digits at 1. simpl length. simpl fold_left. rewrite Z.pow_1_r. lia.
      * intros _. destruct (Z.eq_dec (n / b) 0) as [E|E].
        -- rewrite (Hz ltac:(lia)). simpl. exists (n mod b), []. split; [done|lia].
        -- destruct (Hh ltac:(lia)) as (d & l' & -> & Hd). exists d, (l' ++ [n mod b]). done.
Qed.

Lemma to_digits_spec n :
  0 <= n ->
  Forall (is_digit b) (to_digits b n) /\ from_digits b (to_digits b n) = n /\
  (0 < n -> exists d l', to_digits b n = d :: l' /\ d <> 0).
Proof using Hb.
  intros Hn. unfold to_digits.
  destruct (to_digits_aux_spec (S (Z.to_nat (Z.log2 n))) n []) as (l & E & HF & Hv & Hh & _).
  { rewrite Nat2Z.inj_succ, Z2Nat.id by apply Z.log2_nonneg.
    apply Z.lt_le_trans with (2 ^ Z.succ (Z.log2 n)); [|apply Z.pow_le_mono_l; lia].
    destruct (Z.eq_dec n 0) as [->|]; [done|]. apply Z.log2_spec. lia. }
  rewrite app_nil_r in E. rewrite E. auto.
Qed.

Lemma to_digits_digit n : 0 <= n -> Forall (is_digit b) (to_digits b n).
Proof using Hb. intros. by apply to_digits_spec. Qed.

Lemma from_to_digits n : 0 <= n -> from_digits b (to_digits b n) = n.
Proof using Hb. intros. by apply to_digits_spec. Qed.

Lemma to_digits_0 : to_digits b 0 = [].
Proof using Type. done. Qed.

Lemma to_digits_head n : 0 < n -> exists d l', to_digits b n = d :: l' /\ d <> 0.
Proof using Hb. intros. apply to_digits_spec; lia. Qed.

Lemma from_digits_inj l1 l2 :
  length l1 = length l2 -> Forall (is_digit b) l1 -> Forall (is_digit b) l2 ->
  from_digits b l1 = from_digits b l2 -> l1 = l2.
Proof using Hb.
  intros Hlen H1. revert l2 Hlen. induction H1 as [|d1 l1 Hd1 HF1 IH]; intros [|d2 l2] Hlen H2 E;
    try discriminate; [done|].
  apply Forall_cons in H2 as [Hd2 HF2]. simpl in Hlen. injection Hlen as Hlen.
  rewrite !from_digits_cons, Hlen in E.
  pose proof (from_digits_bound l1 HF1) as B1. pose proof (from_digits_bound l2 HF2) as B2.
  rewrite Hlen in B1. unfold is_digit in *.
  assert (d1 = d2) as -> by nia. f_equal. apply IH; auto. lia.
Qed.

Lemma from_digits_head_bounds d l :
  Forall (is_digit b) (d :: l) -> d <> 0 ->
  b ^ Z.of_nat (length l) <= from_digits b (d :: l) < b ^ Z.of_nat (S (length l)).
Proof using Hb.
  intros HF Hd. pose proof (from_digits_bound _ HF) as B. split; [|simpl length in B; lia].
  apply Forall_cons in HF as [Hd' HF]. rewrite from_digits_cons.
  pose proof (from_digits_bound _ HF). unfold is_digit in Hd'. nia.
Qed.

(** The digit list of a number is the only one without a leading zero. *)
Lemma to_from_digits d l :
  Forall (is_digit b) (d :: l) -> d <> 0 ->
  to_digits b (from_digits b (d :: l)) = d :: l.
Proof using Hb.
  intros HF Hd. pose proof (from_digits_head_bounds d l HF Hd) as [B1 B2].
  set (n := from_digits b (d :: l)) in *.
  assert (0 < n) as Hn.
  { assert (0 < b ^ Z.of_nat (length l)) by (apply Z.pow_pos_nonneg; lia). lia. }
  destruct (to_digits_spec n ltac:(lia)) as (HF' & Hv & Hh).
  destruct (Hh Hn) as (d' & l' & E & Hd'). rewrite E in *.
  pose proof (from_digits_head_bounds d' l' HF' Hd') as [C1 C2]. rewrite Hv in C1, C2.
  assert (length l' = length l) as Hlen.
  { assert (Z.of_nat (length l) < Z.of_nat (S (length l')))
      by (apply (Z.pow_lt_mono_r_iff b); lia).
    assert (Z.of_nat (length l') < Z.of_nat (S (length l)))
      by (apply (Z.pow_lt_mono_r_iff b); lia). lia. }
  apply from_digits_inj; auto. simpl. lia.
Qed.
End Digits.

(** ** Big-endian bytes *)

(** [big.Int.Bytes] of a non-negative number, and [big.Int.SetBytes]. *)
Definition be_bytes (n : Z) : gostring := map byte_of (to_digits 256 n).
Definition be_val (s : gostring) : Z := from_digits 256 (map byte_val s).

(** [binary.BigEndian.PutUint16/32/64]: exactly [n] bytes. *)
Fixpoint be_fixed (n : nat) (z : Z) : gostring :=
  match n with
  | O => []
  | S k => byte_of (z / 256 ^ Z.of_nat k) :: be_fixed k z
  end.

Lemma byte_val_digits l : Forall (is_digit 256) l -> map byte_val (map byte_of l) = l.
Proof.
  induction 1 as [|d l Hd _ IH]; simpl; [done|]. unfold is_digit in Hd.
  rewrite byte_val_of, Z.mod_small, IH; done.
Qed.

Lemma be_val_bytes n : 0 <= n -> be_val (be_bytes n) = n.
Proof.
  intros. unfold be_val, be_bytes. rewrite byte_val_digits by (apply to_digits_digit; lia).
  apply from_to_digits; lia.
Qed.

Lemma be_fixed_length n z : length (be_fixed n z) = n.
Proof. induction n; simpl; congruence. Qed.

Lemma be_val_cons c s : be_val (c :: s) = byte_val c * 256 ^ Z.of_nat (length s) + be_val s.
Proof. unfold be_val. simpl. rewrite from_digits_cons, length_map by lia. done. Qed.

Lemma be_val_app a b : be_val (a ++ b) = be_val a * 256 ^ Z.of_nat (length b) + be_val b.
Proof. unfold be_val. rewrite map_app, from_digits_app, length_map by lia. done. Qed.

Lemma be_val_fixed n z : be_val (be_fixed n z) = z mod 256 ^ Z.of_nat n.
Proof.
  induction n as [|n IH]; [by rewrite Z.mod_1_r|].
  cbn [be_fixed]. rewrite be_val_cons, IH, be_fixed_length, byte_val_of, Nat2Z.inj_succ, Z.pow_succ_r by lia.
  assert (0 < 256 ^ Z.of_nat n) by (apply Z.pow_pos_nonneg; lia).
  rewrite (Z.mul_comm 256 (256 ^ _)), Z.rem_mul_r by lia. lia.
Qed.

Lemma be_val_range s : 0 <= be_val s < 256 ^ Z.of_nat (length s).
Proof.
  unfold be_val. rewrite <- (length_map byte_val). apply from_digits_bound; [lia|].
  apply Forall_forall. intros z Hz. apply list_elem_of_fmap in Hz as (c & -> & _). apply byte_val_range.
Qed.

(** Byte strings of one length are told apart by their values. *)
Lemma be_val_inj a b : length a = length b -> be_val a = be_val b -> a = b.
Proof.
  revert b. induction a as [|c a IH]; intros [|d b] Hl; try done. injection Hl as Hl.
  rewrite !be_val_cons, Hl. pose proof (be_val_range a) as Ha. pose proof (be_val_range b) as Hb. rewrite Hl in Ha.
  set (P := 256 ^ Z.of_nat (length b)) in *. intros E.
  assert (byte_val c = byte_val d) as Hcd by nia.
  f_equal; [by apply byte_val_inj|apply IH; [done|nia]].
Qed.

(** ** Counting the threads of a list that satisfy a test *)

Fixpoint count_if {A} (P : A -> bool) (l : list A) : Z :=
  match l with
  | [] => 0
  | x :: l' => (if P x then 1 else 0) + count_if P l'
  end.

Lemma count_if_nonneg {A} (P : A -> bool) l : 0 <= count_if P l.
Proof. induction l as [|x l IH]; simpl; [lia|]. destruct (P x); lia. Qed.

Lemma count_if_insert {A} (P : A -> bool) l i x y :
  l !! i = Some x ->
  count_if P (<[i := y]> l) = count_if P l - (if P x then 1 else 0) + (if P y then 1 else 0).
Proof.
  revert i. induction l as [|z l IH]; intros [|i] H; try done; simpl in *.
  - injection H as ->. lia.
  - rewrite (IH i H). lia.
Qed.

Lemma count_if_pos {A} (P : A -> bool) l i x : l !! i = Some x -> P x = true -> 1 <= count_if P l.
Proof.
  revert i. induction l as [|z l IH]; intros [|i] H HP; try done; simpl in *.
  - injection H as ->. rewrite HP. pose proof (count_if_nonneg P l). lia.
  - specialize (IH i H HP). destruct (P z); lia.
Qed.

Lemma count_if_zero {A} (P : A -> bool) l : count_if P l = 0 <-> forall i x, l !! i = Some x -> P x = false.
Proof.
  split.
  - intros H i x Hx. destruct (P x) eqn:E; [|done]. pose proof (count_if_pos P l i x Hx E). lia.
  - induction l as [|z l IH]; intros H; [done|]. simpl. rewrite (H O z) by done.
    rewrite IH; [done|]. intros i x Hx. by apply (H (S i)).
Qed.

Lemma count_if_two {A} (P : A -> bool) l i j x y :
  l !! i = Some x -> l !! j = Some y -> i <> j -> P x = true -> P y = true -> 2 <= count_if P l.
Proof.
  revert i j. induction l as [|z l IH]; intros [|i] [|j] Hi Hj Hij Hx Hy; try done; simpl in *.
  - injection Hi as ->. rewrite Hx. pose proof (count_if_pos P l j y Hj Hy). lia.
  - injection Hj as ->. rewrite Hy. pose proof (count_if_pos P l i x Hi Hx). lia.
  - specialize (IH i j Hi Hj ltac:(congruence) Hx Hy). destruct (P z); lia.
Qed.

Lemma count_if_ge_1 {A} (P : A -> bool) l : 1 <= count_if P l -> exists i x, l !! i = Some x /\ P x = true.
Proof.
  induction l as [|z l IH]; simpl; [lia|]. destruct (P z) eqn:E; intros H.
  - exists O, z. done.
  - destruct IH as (i & x & ? & ?); [lia|]. by exists (S i), x.
Qed.

Lemma count_if_ext {A} (P Q : A -> bool) l :
  (forall i x, l !! i = Some x -> P x = Q x) -> count_if P l = count_if Q l.
Proof.
  induction l as [|z l IH]; intros H; [done|]. simpl. rewrite (H O z) by done. f_equal. apply IH.
  intros i x Hx. by apply (H (S i)).
Qed.

(** ** Reachability *)

Inductive reachable {S} (init : S -> Prop) (step : S -> S -> Prop) : S -> Prop :=
| reach_init s : init s -> reachable init step s
| reach_step s s' : reachable init step s -> step s s' -> reachable init step s'.

(** An invariant of the initial states and of the steps holds in every reachable state. *)
Lemma reachable_invariant {S} (init : S -> Prop) (step : S -> S -> Prop) (I : S -> Prop) :
  (forall s, init s -> I s) -> (forall s s', I s -> step s s' -> I s') ->
  forall s, reachable init step s -> I s.
Proof. intros H0 HS s. induction 1; eauto. Qed.
