(* ===== verification/GoStr.v ===== *)
(** * GoStr: the part of Go's [strings], [strconv], [sort] and [unicode/utf8]
    that the program uses

    Definitions here model the language's standard library as it is
    documented; they have no entry in the map of the development.  Go strings
    are byte lists ([gostring]).  Functions that return an index in Go with
    [-1] for "not found" return an [option nat] here. *)
From S2P Require Import Prelude.



(** ** Character classes of [byte] *)

Definition in_range (lo hi : Z) (c : ascii) : bool := (lo <=? byte_val c) && (byte_val c <=? hi).

Definition ascii_digit (c : ascii) : bool := in_range 48 57 c.
Definition ascii_upper (c : ascii) : bool := in_range 65 90 c.
Definition ascii_lower (c : ascii) : bool := in_range 97 122 c.

Definition digit_char (d : Z) : ascii := byte_of (48 + d).
Definition char_digit (c : ascii) : Z := byte_val c - 48.

Lemma in_range_spec lo hi c : in_range lo hi c = true <-> lo <= byte_val c <= hi.
Proof. unfold in_range. rewrite andb_true_iff, !Z.leb_le. done. Qed.

Lemma digit_char_val d : is_digit 10 d -> byte_val (digit_char d) = 48 + d.
Proof. unfold is_digit, digit_char. intros. rewrite byte_val_of, Z.mod_small; lia. Qed.

Lemma digit_char_is_digit d : is_digit 10 d -> ascii_digit (digit_char d) = true.
Proof. intros H. apply in_range_spec. rewrite digit_char_val by done. unfold is_digit in H. lia. Qed.

Lemma char_digit_of d : is_digit 10 d -> char_digit (digit_char d) = d.
Proof. intros. unfold char_digit. rewrite digit_char_val by done. lia. Qed.

Lemma char_digit_digit c : ascii_digit c = true -> is_digit 10 (char_digit c).
Proof. unfold ascii_digit, is_digit, char_digit. rewrite in_range_spec. lia. Qed.

Lemma digit_char_of c : ascii_digit c = true -> digit_char (char_digit c) = c.
Proof.
  unfold digit_char, char_digit. intros. replace (48 + (byte_val c - 48)) with (byte_val c) by lia.
  apply byte_of_val.
Qed.

Lemma map_char_digit_chars l : Forall (is_digit 10) l -> map char_digit (map digit_char l) = l.
Proof. induction 1; simpl; [done|]. rewrite char_digit_of by done. by f_equal. Qed.

(** ** [strings]: prefixes, suffixes, searching *)

Definition eqs (a b : gostring) : bool := bool_decide (a = b).

Lemma eqs_spec a b : eqs a b = true <-> a = b.
Proof. apply bool_decide_eq_true. Qed.

Lemma eqs_false a b : eqs a b = false <-> a <> b.
Proof. rewrite <- not_true_iff_false. by rewrite eqs_spec. Qed.

Lemma eqs_refl a : eqs a a = true.
Proof. by apply eqs_spec. Qed.

Fixpoint HasPrefix (s p : gostring) {struct p} : bool :=
  match p, s with
  | [], _ => true
  | c :: p', d :: s' => bool_decide (c = d) && HasPrefix s' p'
  | _ :: _, [] => false
  end.

Definition HasSuffix (s p : gostring) : bool :=
  (length p <=? length s)%nat && eqs (drop (length s - length p) s) p.

Lemma HasPrefix_spec s p : HasPrefix s p = true <-> exists r, s = p ++ r.
Proof.
  revert s. induction p as [|c p IH]; intros s; simpl.
  - split; [by exists s|done].
  - destruct s as [|d s]; [split; [done|intros [r ?]; done]|].
    rewrite andb_true_iff, bool_decide_eq_true, IH. split.
    + intros [-> [r ->]]. by exists r.
    + intros [r [= -> ->]]. eauto.
Qed.

Lemma HasPrefix_app p r : HasPrefix (p ++ r) p = true.
Proof. apply HasPrefix_spec. eauto. Qed.

Lemma HasSuffix_spec s p : HasSuffix s p = true <-> exists r, s = r ++ p.
Proof.
  unfold HasSuffix. rewrite andb_true_iff, Nat.leb_le, eqs_spec. split.
  - intros [Hl Hd]. exists (take (length s - length p) s). rewrite <- Hd at 2. by rewrite take_drop.
  - intros [r ->]. rewrite length_app. split; [lia|].
    replace (length r + length p - length p)%nat with (length r) by lia. by rewrite drop_app_length.
Qed.

(** [strings.IndexByte]: the first position of a byte. *)
Fixpoint IndexByte (s : gostring) (c : ascii) : option nat :=
  match s with
  | [] => None
  | d :: s' => if bool_decide (d = c) then Some O else S <$> IndexByte s' c
  end.

(** [strings.IndexAny] for a set of single-byte characters. *)
Fixpoint IndexAny (s chars : gostring) : option nat :=
  match s with
  | [] => None
  | d :: s' => if bool_decide (d ∈ chars) then Some O else S <$> IndexAny s' chars
  end.

(** [strings.Index]: the first position of a substring. *)
Fixpoint Index (s sub : gostring) : option nat :=
  if HasPrefix s sub then Some O
  else match s with
       | [] => None
       | _ :: s' => S <$> Index s' sub
       end.

(** [strings.LastIndexByte]. *)
Definition LastIndexByte (s : gostring) (c : ascii) : option nat :=
  (fun i => length s - 1 - i)%nat <$> IndexByte (rev s) c.

Definition ContainsByte (s : gostring) (c : ascii) : bool := bool_decide (c ∈ s).

Lemma IndexByte_Some s c i :
  IndexByte s c = Some i <-> exists a b, s = a ++ c :: b /\ length a = i /\ c ∉ a.
Proof.
  revert i. induction s as [|d s IH]; intros i; simpl.
  - split; [done|]. intros (a & b & H & _). by destruct a.
  - case_bool_decide as E.
    + subst d. split.
      * intros [= <-]. exists [], s. split_and!; [done..|]. apply not_elem_of_nil.
      * intros (a & b & H & Hl & Hn). destruct a as [|x a]; simplify_eq/=; [done|].
        apply not_elem_of_cons in Hn. naive_solver.
    + rewrite fmap_Some. setoid_rewrite IH. split.
      * intros (j & (a & b & -> & <- & Hn) & ->). exists (d :: a), b.
        split_and!; [done..|]. apply not_elem_of_cons. naive_solver.
      * intros (a & b & H & Hl & Hn). destruct a as [|x a]; simplify_eq/=.
        apply not_elem_of_cons in Hn as [? ?]. eexists. split; [|done]. naive_solver.
Qed.

Lemma IndexByte_None s c : IndexByte s c = None <-> c ∉ s.
Proof.
  induction s as [|d s IH]; simpl; [split; [intros _; apply not_elem_of_nil|done]|].
  case_bool_decide as E.
  - split; [done|]. intros H. apply not_elem_of_cons in H. naive_solver.
  - rewrite fmap_None, IH, not_elem_of_cons. naive_solver.
Qed.

Lemma IndexByte_app a b c : c ∉ a -> IndexByte (a ++ c :: b) c = Some (length a).
Proof.
  intros Hn. induction a as [|d a IH]; cbn; [by rewrite bool_decide_eq_true_2|].
  apply not_elem_of_cons in Hn as [Hd Hn]. rewrite bool_decide_eq_false_2 by congruence. by rewrite IH.
Qed.

Lemma LastIndexByte_app x y c : c ∉ y -> LastIndexByte (x ++ c :: y) c = Some (length x).
Proof.
  intros Hy. unfold LastIndexByte. rewrite rev_app_distr. cbn [rev]. rewrite <- app_assoc. cbn [app].
  rewrite IndexByte_app by (by rewrite list_elem_of_In, <- in_rev, <- list_elem_of_In).
  cbn. rewrite length_rev, length_app. cbn. f_equal. lia.
Qed.

Lemma IndexAny_None s cs : IndexAny s cs = None <-> Forall (fun c => c ∉ cs) s.
Proof.
  induction s as [|d s IH]; simpl; [split; [constructor|done]|].
  case_bool_decide as E.
  - split; [done|]. intros H. apply Forall_cons in H as [H _]. done.
  - rewrite fmap_None, IH, Forall_cons. naive_solver.
Qed.

(** ** [strings.Split] by a one-byte separator and [strings.Join] *)

Fixpoint Split (s : gostring) (sep : ascii) : list gostring :=
  match s with
  | [] => [[]]
  | c :: s' =>
    if bool_decide (c = sep) then [] :: Split s' sep
    else match Split s' sep with
         | [] => [[c]]
         | p :: ps => (c :: p) :: ps
         end
  end.

Fixpoint Join (parts : list gostring) (sep : gostring) : gostring :=
  match parts with
  | [] => []
  | [p] => p
  | p :: ps => p ++ sep ++ Join ps sep
  end.

Lemma Split_not_nil s sep : Split s sep <> [].
Proof. destruct s as [|c s]; simpl; [done|]. case_bool_decide; [done|]. by destruct (Split s sep). Qed.

Lemma Split_notin s sep : sep ∉ s -> Split s sep = [s].
Proof.
  induction s as [|c s IH]; simpl; [done|]. intros H. apply not_elem_of_cons in H as [H1 H2].
  rewrite bool_decide_eq_false_2 by naive_solver. by rewrite IH.
Qed.

Lemma Split_app a b sep : sep ∉ a -> Split (a ++ sep :: b) sep = a :: Split b sep.
Proof.
  induction a as [|c a IH]; simpl; intros H.
  - by rewrite bool_decide_eq_true_2.
  - apply not_elem_of_cons in H as [H1 H2].
    rewrite bool_decide_eq_false_2 by naive_solver. by rewrite IH.
Qed.

Lemma Split_pieces s sep : Forall (fun p => sep ∉ p) (Split s sep).
Proof.
  induction s as [|c s IH]; simpl.
  - constructor; [apply not_elem_of_nil|constructor].
  - case_bool_decide.
    + constructor; [apply not_elem_of_nil|done].
    + destruct (Split s sep) as [|p ps]; constructor; try constructor;
        try (apply Forall_cons in IH as [??]); rewrite ?not_elem_of_cons; try naive_solver.
      split; [naive_solver|apply not_elem_of_nil].
Qed.

Lemma Join_Split s sep : Join (Split s sep) [sep] = s.
Proof.
  induction s as [|c s IH]; simpl; [done|].
  pose proof (Split_not_nil s sep) as Hn.
  case_bool_decide as E.
  - subst. destruct (Split s sep) as [|p ps]; [done|]. simpl in *. by rewrite IH.
  - destruct (Split s sep) as [|p ps]; [done|]. destruct ps; simpl in *; by rewrite <- IH.
Qed.

(** [strings.Cut] by a one-byte separator: before, after, found. *)
Definition Cut (s : gostring) (sep : ascii) : gostring * gostring * bool :=
  match IndexByte s sep with
  | Some i => (take i s, drop (S i) s, true)
  | None => (s, [], false)
  end.

(** [strings.Repeat]. *)
Definition Repeat (s : gostring) (n : nat) : gostring := concat (replicate n s).

(** [strings.Replace(s, old, "", -1)] for a one-byte [old]. *)
Definition RemoveByte (s : gostring) (c : ascii) : gostring := filter (fun d => d ≠ c) s.

(** [strings.TrimRight(s, cutset)] for a one-byte cutset. *)
Fixpoint drop_while (p : ascii -> bool) (s : gostring) : gostring :=
  match s with
  | [] => []
  | c :: s' => if p c then drop_while p s' else s
  end.

Definition TrimRightByte (s : gostring) (c : ascii) : gostring :=
  rev (drop_while (fun d => bool_decide (d = c)) (rev s)).

Lemma drop_while_split p s :
  exists pre, s = pre ++ drop_while p s /\ Forall (fun c => p c = true) pre /\
              match drop_while p s with [] => True | c :: _ => p c = false end.
Proof.
  induction s as [|c s (pre & E & HF & HH)]; simpl; [by exists []|].
  destruct (p c) eqn:Hp.
  - exists (c :: pre). simpl. split; [by f_equal|]. split; [by constructor|done].
  - exists []. auto.
Qed.

Lemma rev_replicate {A} n (x : A) : rev (replicate n x) = replicate n x.
Proof. induction n as [|n IH]; simpl; [done|]. by rewrite IH, <- replicate_cons_app. Qed.

Lemma TrimRightByte_split s c :
  exists n, s = TrimRightByte s c ++ replicate n c.
Proof.
  unfold TrimRightByte.
  destruct (drop_while_split (fun d => bool_decide (d = c)) (rev s)) as (pre & E & HF & _).
  exists (length pre).
  assert (pre = replicate (length pre) c) as Hpre.
  { clear E. induction HF as [|d pre Hd _ IH]; [done|]. simpl.
    apply bool_decide_eq_true in Hd. subst. by f_equal. }
  apply (f_equal (@rev ascii)) in E. rewrite rev_involutive, rev_app_distr in E.
  rewrite E at 1. f_equal. rewrite Hpre at 1. apply rev_replicate.
Qed.

(** ** UTF-8 *)

(** The rune that decoding returns for an invalid encoding. *)
Definition RuneError : Z := 65533.

Definition cont (c : ascii) : bool := in_range 128 191 c.
Definition low6 (c : ascii) : Z := byte_val c - 128.

(** [utf8.DecodeRune]: the first rune of a string and its width in bytes;
    width 0 for the empty string, [(RuneError, 1)] for an invalid encoding. *)
Definition DecodeRune (s : gostring) : Z * nat :=
  match s with
  | [] => (RuneError, O)
  | c0 :: t0 =>
    let v0 := byte_val c0 in
    if v0 <? 128 then (v0, 1%nat)
    else if in_range 194 223 c0 then
      match t0 with
      | c1 :: _ => if cont c1 then ((v0 - 192) * 64 + low6 c1, 2%nat) else (RuneError, 1%nat)
      | _ => (RuneError, 1%nat)
      end
    else if in_range 224 239 c0 then
      match t0 with
      | c1 :: c2 :: _ =>
        let lo := if v0 =? 224 then 160 else 128 in
        let hi := if v0 =? 237 then 159 else 191 in
        if in_range lo hi c1 && cont c2
        then ((v0 - 224) * 4096 + low6 c1 * 64 + low6 c2, 3%nat) else (RuneError, 1%nat)
      | _ => (RuneError, 1%nat)
      end
    else if in_range 240 244 c0 then
      match t0 with
      | c1 :: c2 :: c3 :: _ =>
        let lo := if v0 =? 240 then 144 else 128 in
        let hi := if v0 =? 244 then 143 else 191 in
        if in_range lo hi c1 && cont c2 && cont c3
        then ((v0 - 240) * 262144 + low6 c1 * 4096 + low6 c2 * 64 + low6 c3, 4%nat)
        else (RuneError, 1%nat)
      | _ => (RuneError, 1%nat)
      end
    else (RuneError, 1%nat)
  end.

(** [utf8.EncodeRune] / [string(rune)]: surrogates and out-of-range values
    encode as U+FFFD. *)
Definition EncodeRune (r : Z) : gostring :=
  let enc r :=
    if r <? 128 then [byte_of r]
    else if r <? 2048 then [byte_of (192 + r / 64); byte_of (128 + r mod 64)]
    else if r <? 65536 then
      [byte_of (224 + r / 4096); byte_of (128 + (r / 64) mod 64); byte_of (128 + r mod 64)]
    else [byte_of (240 + r / 262144); byte_of (128 + (r / 4096) mod 64);
          byte_of (128 + (r / 64) mod 64); byte_of (128 + r mod 64)] in
  if (r <? 0) || (1114111 <? r) || ((55296 <=? r) && (r <=? 57343)) then enc RuneError else enc r.

(** The runes of a string, with their widths: [for i, r := range s].  The
    counter [skip] is the number of bytes of the current rune still to pass. *)
Fixpoint runes_skip (skip : nat) (s : gostring) : list (Z * nat) :=
  match s with
  | [] => []
  | _ :: s' =>
    match skip with
    | S k => runes_skip k s'
    | O => let rw := DecodeRune s in rw :: runes_skip (pred rw.2) s'
    end
  end.

Definition runes (s : gostring) : list (Z * nat) := runes_skip O s.

(** [[]rune(s)] and [string(rs)]. *)
Definition to_runes (s : gostring) : list Z := map fst (runes s).
Definition of_runes (rs : list Z) : gostring := concat (map EncodeRune rs).

(** [utf8.ValidString]. *)
Definition ValidString (s : gostring) : bool :=
  forallb (fun rw : Z * nat => negb ((rw.1 =? RuneError) && (rw.2 =? 1)%nat)) (runes s).

Lemma EncodeRune_ascii r : 0 <= r < 128 -> EncodeRune r = [byte_of r].
Proof. intros. unfold EncodeRune. zbool; try lia; done. Qed.

(** ** [strings.TrimSpace] *)

(** The UTF-8 encodings of the characters of Unicode's White_Space property. *)
Definition space_encodings : list gostring :=
  map EncodeRune ([9; 10; 11; 12; 13; 32; 133; 160; 5760; 8192; 8193; 8194; 8195; 8196; 8197;
                   8198; 8199; 8200; 8201; 8202; 8232; 8233; 8239; 8287; 12288]).

Definition prefix_in (encs : list gostring) (s : gostring) : option nat :=
  length <$> list_find (fun e => HasPrefix s e = true) encs ≫= (fun ie => Some ie.2).

(** Drop, from the left, every leading member of [encs]; each step drops at
    least one byte, so the length of the string is enough fuel. *)
Fixpoint trim_left (fuel : nat) (encs : list gostring) (s : gostring) : gostring :=
  match fuel with
  | O => s
  | S f => match prefix_in encs s with
           | Some n => trim_left f encs (drop n s)
           | None => s
           end
  end.

Definition TrimLeftSpace (s : gostring) : gostring := trim_left (length s) space_encodings s.

Definition TrimRightSpace (s : gostring) : gostring :=
  rev (trim_left (length s) (map (@rev ascii) space_encodings) (rev s)).

Definition TrimSpace (s : gostring) : gostring := TrimRightSpace (TrimLeftSpace s).

Lemma prefix_in_Some encs s n : prefix_in encs s = Some n -> exists e r, e ∈ encs /\ s = e ++ r /\ n = length e.
Proof.
  unfold prefix_in. destruct (list_find _ encs) as [[i e]|] eqn:E; [|done]. cbn. intros [= <-].
  apply list_find_Some in E as (Hi & Hp & _). apply HasPrefix_spec in Hp as [r ->].
  exists e, r. split; [by eapply list_elem_of_lookup_2|done].
Qed.

Lemma trim_left_stays fuel encs s :
  Forall (fun e => match e with h :: _ => Some h <> head s | [] => False end) encs -> trim_left fuel encs s = s.
Proof.
  intros He. destruct fuel as [|f]; [done|]. cbn. destruct (prefix_in encs s) as [n|] eqn:E; [|done].
  apply prefix_in_Some in E as (e & r & Hin & -> & _). rewrite Forall_forall in He. apply He in Hin. by destruct e.
Qed.

(** A character that is no white space survives the trimming. *)
Lemma trim_left_keeps fuel encs s c :
  Forall (fun e => c ∉ e) encs -> c ∈ s -> c ∈ trim_left fuel encs s.
Proof.
  intros He. revert s. induction fuel as [|f IH]; intros s Hc; [done|]. cbn.
  destruct (prefix_in encs s) as [n|] eqn:E; [|done]. apply prefix_in_Some in E as (e & r & Hin & -> & ->).
  apply IH. rewrite drop_app_length. apply elem_of_app in Hc as [Hc|]; [|done].
  rewrite Forall_forall in He. by apply He in Hin.
Qed.

Lemma TrimSpace_keeps s c : Forall (fun e => c ∉ e) space_encodings -> c ∈ s -> c ∈ TrimSpace s.
Proof.
  intros He Hc. unfold TrimSpace, TrimRightSpace.
  rewrite list_elem_of_In, <- in_rev, <- list_elem_of_In. apply trim_left_keeps.
  - rewrite Forall_forall in He |- *. intros e (e' & -> & Hin)%list_elem_of_fmap Hce.
    rewrite list_elem_of_In, <- in_rev, <- list_elem_of_In in Hce. by apply He in Hin.
  - rewrite list_elem_of_In, <- in_rev, <- list_elem_of_In. by apply trim_left_keeps.
Qed.

(** Nothing is trimmed off a string of printing characters. *)
Lemma TrimSpace_printing s : Forall (fun c => in_range 33 126 c = true) s -> TrimSpace s = s.
Proof.
  intros HF.
  assert (forall encs t, forallb (fun e => match e with h :: _ => negb (in_range 33 126 h) | [] => false end) encs = true ->
    Forall (fun c => in_range 33 126 c = true) t -> forall fuel, trim_left fuel encs t = t) as Hstay.
  { intros encs t He Ht fuel. apply trim_left_stays, Forall_forall. intros e Hin%list_elem_of_In.
    rewrite forallb_forall in He. apply He in Hin. destruct e as [|h e]; [done|]. intros Hh.
    destruct t as [|c t]; [done|]. injection Hh as <-. apply Forall_cons in Ht as [Ht _]. by rewrite Ht in Hin. }
  unfold TrimSpace, TrimLeftSpace, TrimRightSpace. rewrite (Hstay space_encodings s); [|by vm_compute|done].
  rewrite (Hstay (map (@rev ascii) space_encodings) (rev s)); [apply rev_involutive|by vm_compute|].
  rewrite Forall_forall in HF |- *. intros c. rewrite list_elem_of_In, <- in_rev, <- list_elem_of_In. apply HF.
Qed.

(** [bytes.TrimSpace]/[strings.TrimSpace] leave a string that starts and ends
    with a printable ASCII byte as it is. *)
Definition ascii_graphic (c : ascii) : bool := in_range 33 126 c.

(** ** Numbers: [strconv] and [%d] *)

Definition FormatUint (n : Z) : gostring :=
  if n =? 0 then "0" else map digit_char (to_digits 10 n).

(** [strconv.FormatInt(z, 10)], [strconv.Itoa], [big.Int.String] and [%d]. *)
Definition FormatInt (z : Z) : gostring :=
  if z <? 0 then "-" ++ FormatUint (- z) else FormatUint z.

(** The value of a digit string. *)
Definition digits_val (s : gostring) : Z := from_digits 10 (map char_digit s).

Definition all_digits (s : gostring) : bool := forallb ascii_digit s.

(** A leading sign, and whether the number is negative. *)
Definition strip_sign (s : gostring) : bool * gostring :=
  match s with
  | c :: s' => if bool_decide (c = "-"%char) then (true, s')
               else if bool_decide (c = "+"%char) then (false, s') else (false, s)
  | [] => (false, [])
  end.

(** [big.Int.SetString(s, 10)]: an optional sign and at least one digit. *)
Definition SetString10 (s : gostring) : option Z :=
  let '(neg, ds) := strip_sign s in
  if all_digits ds && negb (bool_decide (ds = []))
  then Some (if neg then - digits_val ds else digits_val ds) else None.

Inductive parse_err := ErrSyntax | ErrRange.

Fixpoint parse_uint_loop (maxVal n : Z) (s : gostring) : Z * option parse_err :=
  match s with
  | [] => (n, None)
  | c :: s' =>
    if ascii_digit c then
      let n1 := n * 10 + char_digit c in
      if maxVal <? n1 then (maxVal, Some ErrRange) else parse_uint_loop maxVal n1 s'
    else (0, Some ErrSyntax)
  end.

(** [strconv.ParseUint(s, 10, bits)]: the value that is returned, and the error. *)
Definition ParseUint (s : gostring) (bits : Z) : Z * option parse_err :=
  match s with
  | [] => (0, Some ErrSyntax)
  | _ => parse_uint_loop (2 ^ bits - 1) 0 s
  end.

(** [strconv.ParseInt(s, 10, bits)]; on [ErrRange] the nearest value of the type. *)
Definition ParseInt (s : gostring) (bits : Z) : Z * option parse_err :=
  match s with
  | [] => (0, Some ErrSyntax)
  | _ =>
    let '(neg, ds) := strip_sign s in
    let '(un, err) := ParseUint ds bits in
    match err with
    | Some ErrSyntax => (0, Some ErrSyntax)
    | _ =>
      let cutoff := 2 ^ (bits - 1) in
      if negb neg && (cutoff <=? un) then (cutoff - 1, Some ErrRange)
      else if neg && (cutoff <? un) then (- cutoff, Some ErrRange)
      else (if neg then - un else un, None)
    end
  end.

(** [strconv.Atoi] on a 64-bit platform. *)
Definition Atoi (s : gostring) : Z * option parse_err := ParseInt s 64.

(** *** Lemmas on decimal text *)

Lemma all_digits_chars l : Forall (is_digit 10) l -> all_digits (map digit_char l) = true.
Proof. induction 1; simpl; [done|]. by rewrite digit_char_is_digit. Qed.

Lemma all_digits_app a b : all_digits (a ++ b) = all_digits a && all_digits b.
Proof. apply forallb_app. Qed.

Lemma FormatUint_digits n : 0 <= n -> all_digits (FormatUint n) = true.
Proof.
  intros Hn. unfold FormatUint. destruct (Z.eqb_spec n 0); [done|].
  apply all_digits_chars. by apply to_digits_digit.
Qed.

Lemma FormatUint_val n : 0 <= n -> digits_val (FormatUint n) = n.
Proof.
  intros Hn. unfold FormatUint. destruct (Z.eqb_spec n 0) as [->|]; [done|].
  unfold digits_val. rewrite map_char_digit_chars by by apply to_digits_digit.
  by apply from_to_digits.
Qed.

Lemma FormatUint_not_nil n : 0 <= n -> FormatUint n <> [].
Proof.
  intros Hn. unfold FormatUint. destruct (Z.eqb_spec n 0); [done|].
  destruct (to_digits_head 10 ltac:(lia) n ltac:(lia)) as (d & l & -> & _). done.
Qed.

Lemma all_digits_Forall s : all_digits s = true <-> Forall (fun c => ascii_digit c = true) s.
Proof. unfold all_digits. rewrite forallb_forall, List.Forall_forall. done. Qed.

Lemma all_digits_is_digit s : all_digits s = true -> Forall (is_digit 10) (map char_digit s).
Proof.
  rewrite all_digits_Forall. induction 1; simpl; constructor; auto using char_digit_digit.
Qed.

Lemma digits_val_bound s :
  all_digits s = true -> 0 <= digits_val s < 10 ^ Z.of_nat (length s).
Proof.
  intros H. unfold digits_val. rewrite <- (length_map char_digit).
  apply from_digits_bound; [lia|]. by apply all_digits_is_digit.
Qed.

Lemma digits_val_app a b :
  digits_val (a ++ b) = digits_val a * 10 ^ Z.of_nat (length b) + digits_val b.
Proof. unfold digits_val. rewrite map_app, from_digits_app, length_map by lia. done. Qed.

Lemma digits_val_zeros n : digits_val (replicate n "0"%char) = 0.
Proof.
  unfold digits_val. replace (map char_digit (replicate n "0"%char)) with (replicate n 0).
  - apply from_digits_zeros; lia.
  - induction n; simpl; [done|]. by f_equal.
Qed.

Lemma digit_not_sign s : all_digits s = true -> strip_sign s = (false, s).
Proof.
  destruct s as [|c s]; simpl; [done|]. intros H. apply andb_true_iff in H as [H _].
  rewrite !bool_decide_eq_false_2; [done|intros ->; done..].
Qed.

Lemma SetString10_FormatInt z : SetString10 (FormatInt z) = Some z.
Proof.
  unfold FormatInt, SetString10. destruct (Z.ltb_spec z 0).
  - simpl. rewrite FormatUint_digits by lia.
    rewrite bool_decide_eq_false_2 by (apply FormatUint_not_nil; lia). simpl.
    rewrite FormatUint_val by lia. f_equal. lia.
  - rewrite digit_not_sign by by apply FormatUint_digits. rewrite FormatUint_digits by lia.
    rewrite bool_decide_eq_false_2 by (apply FormatUint_not_nil; lia). simpl.
    by rewrite FormatUint_val by lia.
Qed.

(** A digit string that fits parses to its value. *)
Lemma parse_uint_loop_ok maxVal n s :
  all_digits s = true -> 0 <= n ->
  n * 10 ^ Z.of_nat (length s) + digits_val s <= maxVal ->
  parse_uint_loop maxVal n s = (n * 10 ^ Z.of_nat (length s) + digits_val s, None).
Proof.
  revert n. induction s as [|c s IH]; intros n Hd Hn Hm.
  - simpl. f_equal. unfold digits_val, from_digits. simpl. lia.
  - simpl in Hd. apply andb_true_iff in Hd as [Hc Hs]. simpl parse_uint_loop. rewrite Hc.
    pose proof (char_digit_digit c Hc) as Hdig. unfold is_digit in Hdig.
    assert (digits_val (c :: s) = char_digit c * 10 ^ Z.of_nat (length s) + digits_val s) as E.
    { unfold digits_val. simpl. rewrite from_digits_cons, length_map by lia. done. }
    rewrite E in *. simpl length in *. rewrite Nat2Z.inj_succ, Z.pow_succ_r in * by lia.
    pose proof (digits_val_bound s Hs) as B.
    assert (0 < 10 ^ Z.of_nat (length s)) by (apply Z.pow_pos_nonneg; lia).
    destruct (Z.ltb_spec maxVal (n * 10 + char_digit c)); [nia|].
    rewrite IH; [f_equal; lia|done|lia|lia].
Qed.

Lemma ParseUint_FormatUint n bits :
  0 <= n < 2 ^ bits -> ParseUint (FormatUint n) bits = (n, None).
Proof.
  intros Hn. unfold ParseUint.
  pose proof (FormatUint_not_nil n ltac:(lia)). destruct (FormatUint n) as [|c s] eqn:E; [done|].
  rewrite <- E. rewrite parse_uint_loop_ok; rewrite ?FormatUint_val; try lia.
  - f_equal; lia.
  - apply FormatUint_digits; lia.
Qed.

Lemma ParseInt_FormatInt z bits :
  0 < bits -> - 2 ^ (bits - 1) <= z < 2 ^ (bits - 1) -> ParseInt (FormatInt z) bits = (z, None).
Proof.
  intros Hb Hz.
  assert (2 ^ bits = 2 * 2 ^ (bits - 1)) as Hp
    by (rewrite <- Z.pow_succ_r by lia; f_equal; lia).
  assert (0 < 2 ^ (bits - 1)) by (apply Z.pow_pos_nonneg; lia).
  unfold ParseInt, FormatInt. destruct (Z.ltb_spec z 0).
  - simpl. rewrite ParseUint_FormatUint by lia. simpl.
    destruct (Z.ltb_spec (2 ^ (bits - 1)) (- z)); [lia|]. f_equal; lia.
  - pose proof (FormatUint_not_nil z ltac:(lia)). destruct (FormatUint z) as [|c s] eqn:E; [done|].
    rewrite <- E, digit_not_sign by (apply FormatUint_digits; lia).
    rewrite ParseUint_FormatUint by lia. simpl.
    destruct (Z.leb_spec (2 ^ (bits - 1)) z); [lia|]. done.
Qed.

(** ** [sort.Strings]: lexicographic order on bytes *)

Fixpoint str_leb (a b : gostring) : bool :=
  match a, b with
  | [], _ => true
  | _ :: _, [] => false
  | c :: a', d :: b' => (byte_val c <? byte_val d) || ((byte_val c =? byte_val d) && str_leb a' b')
  end.

Definition str_le (a b : gostring) : Prop := str_leb a b = true.

#[export] Instance str_le_dec : RelDecision str_le.
Proof. intros a b. unfold str_le. apply _. Defined.

#[export] Instance str_le_total : Total str_le.
Proof.
  intros a. induction a as [|c a IH]; intros b; [by left|]. destruct b as [|d b]; [by right|].
  unfold str_le in *. simpl. rewrite !orb_true_iff, !andb_true_iff, !Z.ltb_lt, !Z.eqb_eq.
  destruct (IH b), (Z.lt_total (byte_val c) (byte_val d)) as [?|[?|?]]; auto with lia.
Qed.

#[export] Instance str_le_po : PartialOrder str_le.
Proof.
  split; [split|].
  - intros a. induction a as [|c a IH]; [done|]. unfold str_le in *. simpl. rewrite IH, Z.eqb_refl.
    by rewrite orb_true_r.
  - intros a. induction a as [|c a IH]; intros [|d b] [|e f]; try done. unfold str_le in *. simpl.
    rewrite !orb_true_iff, !andb_true_iff, !Z.ltb_lt, !Z.eqb_eq.
    specialize (IH b f). intros [?|[? ?]] [?|[? ?]]; auto with lia.
  - intros a. induction a as [|c a IH]; intros [|d b]; try done. unfold str_le in *. simpl.
    rewrite !orb_true_iff, !andb_true_iff, !Z.ltb_lt, !Z.eqb_eq.
    intros [?|[E ?]] [?|[? ?]]; try lia. apply byte_val_inj in E as ->. f_equal. by apply IH.
Qed.

Definition sort_strings (l : list gostring) : list gostring := merge_sort str_le l.

(** ** [strings.ToLower] and [strings.EqualFold]

    The case tables of Unicode are data of the language's library that the
    development does not copy: on ASCII the functions are defined, and on other
    runes they are the two operations of the class [Unicode]. *)

Definition lower_byte (c : ascii) : ascii := if ascii_upper c then byte_of (byte_val c + 32) else c.
Definition upper_byte (c : ascii) : ascii := if ascii_lower c then byte_of (byte_val c - 32) else c.

Definition ascii_only (s : gostring) : bool := forallb (in_range 0 127) s.

Class Unicode := {
  unicode_lower : Z -> Z;   (** [unicode.ToLower] on a non-ASCII rune *)
  unicode_upper : Z -> Z;   (** [unicode.ToUpper] on a non-ASCII rune *)
  unicode_fold : Z -> Z     (** the least rune of the simple-folding orbit *)
}.

Definition rune_lower `{Unicode} (r : Z) : Z :=
  if r <? 128 then byte_val (lower_byte (byte_of r)) else unicode_lower r.
Definition rune_upper `{Unicode} (r : Z) : Z :=
  if r <? 128 then byte_val (upper_byte (byte_of r)) else unicode_upper r.

Definition ToLower `{Unicode} (s : gostring) : gostring :=
  if ascii_only s then map lower_byte s else of_runes (map rune_lower (to_runes s)).

(** [strings.EqualFold]: equal up to simple case folding of the runes. *)
Definition EqualFold `{Unicode} (s t : gostring) : bool :=
  bool_decide (map unicode_fold (to_runes s) = map unicode_fold (to_runes t)).

(** The tables restricted to ASCII and the two runes that fold into it, U+017F
    and U+212A; used by the concrete examples. *)
#[export] Instance unicode_ascii : Unicode | 100 := {
  unicode_lower r := r;
  unicode_upper r := r;
  unicode_fold r := if r =? 383 then 83 else if r =? 8490 then 75
                    else if (97 <=? r) && (r <=? 122) then r - 32 else r
}.

(** ** Paths *)

(** [path.Clean]: the elements that stay, the last one first. *)
Definition clean_step (rooted : bool) (stack : list gostring) (e : gostring) : list gostring :=
  if eqs e [] || eqs e "." then stack
  else if eqs e ".." then
    match stack with
    | top :: stack' => if eqs top ".." then e :: stack else stack'
    | [] => if rooted then [] else [e]
    end
  else e :: stack.

Definition path_Clean (p : gostring) : gostring :=
  let rooted := HasPrefix p "/" in
  let elements := rev (fold_left (clean_step rooted) (Split p "/"%char) []) in
  let s := (if rooted then "/" else []) ++ Join elements "/" in
  if eqs s [] then "." else s.

(** [filepath.Join] of two elements. *)
Definition path_Join (a b : gostring) : gostring :=
  if negb (eqs a []) then path_Clean (a ++ "/" ++ b) else if negb (eqs b []) then path_Clean b else [].
