(* ===== verification/Decimals.v ===== *)
(** * Decimals: the arbitrary-precision decimals of [pkg/util/decimal.go]

    The data type, its constructors and the operations that cannot round:
    scaling, sums, products, comparisons and conversions to integers and
    rationals.  A [*big.Int] is an [option Z] ([None] is the nil pointer of a
    zero [Decimal]); the exponent is an [int32], with its wrap-around written
    out wherever the code lets it wrap. *)
From S2P Require Import Prelude GoStr.
From Stdlib Require Import QArith Qabs Qpower Qround Lqa.

#[global] Open Scope Z_scope.
#[global] Open Scope go_scope.

(** ** The type *)

Record Decimal := mkDecimal { value : option Z; exp : Z }.

#[export] Instance Decimal_eq_dec : EqDecision Decimal.
Proof. solve_decision. Defined.

(** The zero value [Decimal{}]. *)
Definition Decimal0 : Decimal := mkDecimal None 0.

(** [ensureInitialized] turns a nil value into a fresh zero. *)
Definition ensureInitialized (d : Decimal) : Decimal :=
  match value d with
  | None => mkDecimal (Some 0) (exp d)
  | Some _ => d
  end.

(** The coefficient that the code works with once the receiver is initialised. *)
Definition ival (d : Decimal) : Z := default 0 (value (ensureInitialized d)).

Definition mkDec (v e : Z) : Decimal := mkDecimal (Some v) e.

(** The exponent is a machine integer. *)
Definition wf_decimal (d : Decimal) : Prop := in_int32 (exp d).

Definition DivisionPrecision : Z := 16.

Definition New (value exp : Z) : Decimal := mkDec value exp.
Definition NewFromBigInt (value exp : Z) : Decimal := mkDec value exp.

Definition Zero : Decimal := New 0 1.
Definition fiveDec : Decimal := New 5 0.

(** [big.Int.Sign] and [big.Int.Cmp]. *)
Definition big_sign (z : Z) : Z := Z.sgn z.
Definition big_cmp (a b : Z) : Z := match a ?= b with Lt => -1 | Eq => 0 | Gt => 1 end.

(** ** Operations *)

Definition rescale (d : Decimal) (e : Z) : Decimal :=
  let diff := Z.abs (e - exp d) in
  let value := ival d in
  let expScale := 10 ^ diff in
  let value := if exp d <? e then Z.quot value expScale
               else if e <? exp d then value * expScale
               else value in
  mkDec value e.

Definition min32 (x y : Z) : Z := if y <=? x then y else x.

Definition Abs (d : Decimal) : Decimal := mkDec (Z.abs (ival d)) (exp d).

Definition Add (d d2 : Decimal) : Decimal :=
  let baseScale := min32 (exp d) (exp d2) in
  let rd := rescale d baseScale in
  let rd2 := rescale d2 baseScale in
  mkDec (ival rd + ival rd2) baseScale.

Definition Sub (d d2 : Decimal) : Decimal :=
  let baseScale := min32 (exp d) (exp d2) in
  let rd := rescale d baseScale in
  let rd2 := rescale d2 baseScale in
  mkDec (ival rd - ival rd2) baseScale.

Definition Neg (d : Decimal) : Decimal := mkDec (- ival d) (exp d).

Definition Mul (d d2 : Decimal) : go gostring Decimal :=
  let expInt64 := exp d + exp d2 in
  if (MaxInt32 <? expInt64) || (expInt64 <? MinInt32)
  then Panicked ("exponent " ++ FormatInt expInt64 ++ " overflows an int32!")
  else Ok (mkDec (ival d * ival d2) (int32 expInt64)).

Definition Shift (d : Decimal) (shift : Z) : Decimal := mkDec (ival d) (int32 (exp d + shift)).

Definition Cmp (d d2 : Decimal) : Z :=
  if exp d =? exp d2 then big_cmp (ival d) (ival d2)
  else
    let baseExp := min32 (exp d) (exp d2) in
    let rd := rescale d baseExp in
    let rd2 := rescale d2 baseExp in
    big_cmp (ival rd) (ival rd2).

Definition Equal (d d2 : Decimal) : bool := Cmp d d2 =? 0.
Definition Equals (d d2 : Decimal) : bool := Equal d d2.
Definition GreaterThan (d d2 : Decimal) : bool := Cmp d d2 =? 1.
Definition GreaterThanOrEqual (d d2 : Decimal) : bool :=
  let cmp := Cmp d d2 in (cmp =? 1) || (cmp =? 0).
Definition LessThan (d d2 : Decimal) : bool := Cmp d d2 =? -1.
Definition LessThanOrEqual (d d2 : Decimal) : bool :=
  let cmp := Cmp d d2 in (cmp =? -1) || (cmp =? 0).

Definition Sign (d : Decimal) : Z :=
  match value d with
  | None => 0
  | Some v => big_sign v
  end.

Definition Exponent (d : Decimal) : Z := exp d.

(** [Coefficient] does not initialise its receiver: a nil value is dereferenced. *)
Definition Coefficient (d : Decimal) : go gostring Z :=
  match value d with
  | None => Panicked "invalid memory address or nil pointer dereference"
  | Some v => Ok v
  end.

(** [IntPart]: the low 64 bits of the truncated number. *)
Definition IntPart (d : Decimal) : Z := int64 (ival (rescale d 0)).

Definition Rat (d : Decimal) : Q :=
  if exp d <=? 0
  then let denom := 10 ^ (- exp d) in Qred (Qmake (ival d) (Z.to_pos denom))
  else let mul := 10 ^ exp d in let num := ival d * mul in Qred (Qmake num 1).

(** [Min], [Max], [Sum]. *)
Definition Min (first : Decimal) (rest : list Decimal) : Decimal :=
  fold_left (fun ans item => if Cmp item ans <? 0 then item else ans) rest first.

Definition Max (first : Decimal) (rest : list Decimal) : Decimal :=
  fold_left (fun ans item => if 0 <? Cmp item ans then item else ans) rest first.

Definition Sum (first : Decimal) (rest : list Decimal) : Decimal :=
  fold_left Add rest first.

(** ** The numbers that decimals stand for

    [Qs v e] is the rational v * 10^e; every lemma about values reduces a
    statement over rationals to one over integers at a common scale. *)

Definition Qs (v e : Z) : Q := (inject_Z v * (10 # 1) ^ e)%Q.

Lemma tenQ_nz : ~ (10 # 1 == 0)%Q.
Proof. discriminate. Qed.

Lemma tenQ_pos e : (0 < (10 # 1) ^ e)%Q.
Proof. apply Qpower_0_lt. reflexivity. Qed.

Lemma tenQ_Z n : 0 <= n -> ((10 # 1) ^ n == inject_Z (10 ^ n))%Q.
Proof. intros. by rewrite (Zpower_Qpower 10 n). Qed.

Lemma Qs_add a b e : (Qs a e + Qs b e == Qs (a + b) e)%Q.
Proof. unfold Qs. rewrite inject_Z_plus. ring. Qed.

Lemma Qs_opp a e : (- Qs a e == Qs (- a) e)%Q.
Proof. unfold Qs. rewrite inject_Z_opp. ring. Qed.

Lemma Qs_sub a b e : (Qs a e - Qs b e == Qs (a - b) e)%Q.
Proof. unfold Qminus. rewrite Qs_opp, Qs_add. done. Qed.

Lemma Qs_mul a b e f : (Qs a e * Qs b f == Qs (a * b) (e + f))%Q.
Proof. unfold Qs. rewrite inject_Z_mult, Qpower_plus by apply tenQ_nz. ring. Qed.

Lemma Qs_scale a e k : 0 <= k -> (Qs a (e + k) == Qs (a * 10 ^ k) e)%Q.
Proof.
  intros. unfold Qs. rewrite Qpower_plus, (tenQ_Z k), inject_Z_mult by (apply tenQ_nz || done). ring.
Qed.

Lemma Qs_down a e m : m <= e -> (Qs a e == Qs (a * 10 ^ (e - m)) m)%Q.
Proof. intros. rewrite <- Qs_scale by lia. by replace (m + (e - m)) with e by lia. Qed.

Lemma Qs_le a b e : (Qs a e <= Qs b e)%Q <-> a <= b.
Proof.
  unfold Qs. rewrite Qmult_le_r by apply tenQ_pos. by rewrite <- Zle_Qle.
Qed.

Lemma Qs_lt a b e : (Qs a e < Qs b e)%Q <-> a < b.
Proof.
  unfold Qs. rewrite Qmult_lt_r by apply tenQ_pos. by rewrite <- Zlt_Qlt.
Qed.

Lemma Qs_eq a b e : (Qs a e == Qs b e)%Q <-> a = b.
Proof.
  split; [|intros ->; done]. intros H. apply Z.le_antisymm; apply (Qs_le _ _ e); rewrite H; apply Qle_refl.
Qed.

Lemma Qs_abs a e : (Qabs (Qs a e) == Qs (Z.abs a) e)%Q.
Proof.
  unfold Qs. rewrite Qabs_Qmult, (Qabs_pos ((10 # 1) ^ e)) by (apply Qlt_le_weak, tenQ_pos). done.
Qed.

Lemma Qs_inject a : (inject_Z a == Qs a 0)%Q.
Proof. unfold Qs. simpl. ring. Qed.

Lemma Qs_ten e : ((10 # 1) ^ e == Qs 1 e)%Q.
Proof. unfold Qs. change (inject_Z 1) with 1%Q. ring. Qed.

Lemma Qs_0 e : (Qs 0 e == 0)%Q.
Proof. unfold Qs. change (inject_Z 0) with 0%Q. ring. Qed.

#[export] Instance Qs_proper : Proper ((=) ==> (=) ==> Qeq) Qs.
Proof. by intros ? ? -> ? ? ->. Qed.

Lemma Rat_spec d : (Rat d == Qs (ival d) (exp d))%Q.
Proof.
  unfold Rat, Qs. destruct (Z.leb_spec (exp d) 0) as [H|H]; rewrite Qred_correct.
  - assert (0 < 10 ^ (- exp d)) by (apply Z.pow_pos_nonneg; lia).
    rewrite Qmake_Qdiv, Z2Pos.id by done. unfold Qdiv.
    replace (exp d) with (- (- exp d)) at 2 by lia.
    rewrite Qpower_opp, tenQ_Z by lia. done.
  - rewrite tenQ_Z by lia. change (ival d * 10 ^ exp d # 1) with (inject_Z (ival d * 10 ^ exp d)).
    by rewrite inject_Z_mult.
Qed.

Lemma Rat_mkDec v e : (Rat (mkDec v e) == Qs v e)%Q.
Proof. apply Rat_spec. Qed.

Lemma min32_spec x y : min32 x y = Z.min x y.
Proof. unfold min32. zbool; lia. Qed.

Lemma exp_rescale d e : exp (rescale d e) = e.
Proof. done. Qed.

(** Rescaling to a smaller exponent multiplies the coefficient... *)
Lemma ival_rescale_down d e : e <= exp d -> ival (rescale d e) = ival d * 10 ^ (exp d - e).
Proof.
  intros H. unfold rescale. cbn. zbool; try lia.
  - by rewrite Z.abs_neq, Z.opp_sub_distr, Z.add_opp_l by lia.
  - replace (exp d - e) with 0 by lia. rewrite Z.pow_0_r. lia.
Qed.

(** ... and to a larger one truncates it. *)
Lemma ival_rescale_up d e : exp d <= e -> ival (rescale d e) = Z.quot (ival d) (10 ^ (e - exp d)).
Proof.
  intros H. unfold rescale. cbn. zbool; try lia.
  - by rewrite Z.abs_eq by lia.
  - replace (e - exp d) with 0 by lia. rewrite Z.pow_0_r, Z.quot_1_r. done.
Qed.

Lemma Rat_rescale_down d e : e <= exp d -> (Rat (rescale d e) == Rat d)%Q.
Proof.
  intros H. rewrite !Rat_spec, exp_rescale, ival_rescale_down by done.
  rewrite (Qs_down _ (exp d) e) by done. done.
Qed.

Lemma Rat_Add d d2 : (Rat (Add d d2) == Rat d + Rat d2)%Q.
Proof.
  unfold Add. rewrite Rat_mkDec, <- Qs_add, min32_spec.
  rewrite <- (Rat_rescale_down d (Z.min (exp d) (exp d2))) by lia.
  rewrite <- (Rat_rescale_down d2 (Z.min (exp d) (exp d2))) by lia.
  by rewrite !Rat_spec, !exp_rescale.
Qed.

Lemma Rat_Sub d d2 : (Rat (Sub d d2) == Rat d - Rat d2)%Q.
Proof.
  unfold Sub. rewrite Rat_mkDec, <- Qs_sub, min32_spec.
  rewrite <- (Rat_rescale_down d (Z.min (exp d) (exp d2))) by lia.
  rewrite <- (Rat_rescale_down d2 (Z.min (exp d) (exp d2))) by lia.
  by rewrite !Rat_spec, !exp_rescale.
Qed.

Lemma Rat_Neg d : (Rat (Neg d) == - Rat d)%Q.
Proof. unfold Neg. by rewrite Rat_mkDec, Rat_spec, Qs_opp. Qed.

Lemma Rat_Abs d : (Rat (Abs d) == Qabs (Rat d))%Q.
Proof. unfold Abs. by rewrite Rat_mkDec, Rat_spec, Qs_abs. Qed.

Lemma Mul_Ok d d2 r :
  Mul d d2 = Ok r -> r = mkDec (ival d * ival d2) (exp d + exp d2) /\ in_int32 (exp d + exp d2).
Proof.
  unfold Mul. destruct (Z.ltb_spec MaxInt32 (exp d + exp d2)); [done|].
  destruct (Z.ltb_spec (exp d + exp d2) MinInt32); [done|].
  intros [= <-]. assert (in_int32 (exp d + exp d2)) by (unfold in_int32; lia).
  by rewrite int32_small.
Qed.

Lemma Mul_fits d d2 :
  in_int32 (exp d + exp d2) -> Mul d d2 = Ok (mkDec (ival d * ival d2) (exp d + exp d2)).
Proof.
  unfold Mul, in_int32. intros. destruct (Z.ltb_spec MaxInt32 (exp d + exp d2)); [lia|].
  destruct (Z.ltb_spec (exp d + exp d2) MinInt32); [lia|]. by rewrite int32_small.
Qed.

Lemma Rat_Mul d d2 r : Mul d d2 = Ok r -> (Rat r == Rat d * Rat d2)%Q.
Proof. intros [-> _]%Mul_Ok. by rewrite Rat_mkDec, !Rat_spec, Qs_mul. Qed.

(** *** Comparison *)

Lemma big_cmp_compare a b :
  big_cmp a b = match a ?= b with Lt => -1 | Eq => 0 | Gt => 1 end.
Proof. done. Qed.

Definition cmp_int (c : comparison) : Z := match c with Lt => -1 | Eq => 0 | Gt => 1 end.

Lemma Qs_compare a b e : (Qs a e ?= Qs b e)%Q = (a ?= b).
Proof.
  destruct (Z.compare_spec a b) as [->|H|H].
  - by apply Qeq_alt.
  - apply Qlt_alt. by apply Qs_lt.
  - apply Qgt_alt. by apply Qs_lt.
Qed.

Lemma Cmp_spec d d2 : Cmp d d2 = cmp_int (Rat d ?= Rat d2)%Q.
Proof.
  unfold Cmp. destruct (Z.eqb_spec (exp d) (exp d2)) as [E|E].
  - rewrite !Rat_spec, E, Qs_compare. done.
  - rewrite min32_spec. rewrite <- (Rat_rescale_down d (Z.min (exp d) (exp d2))) by lia.
    rewrite <- (Rat_rescale_down d2 (Z.min (exp d) (exp d2))) by lia.
    rewrite !Rat_spec, !exp_rescale, Qs_compare. done.
Qed.

Lemma Cmp_cases d d2 :
  ((Rat d < Rat d2)%Q /\ Cmp d d2 = -1) \/ ((Rat d == Rat d2)%Q /\ Cmp d d2 = 0) \/
  ((Rat d2 < Rat d)%Q /\ Cmp d d2 = 1).
Proof.
  rewrite Cmp_spec. destruct (Qcompare_spec (Rat d) (Rat d2)); simpl; auto.
Qed.

(** ** Truncation to an integer *)

(** [quot_pow a k] is the coefficient at [k] fewer digits, for a [k] of either sign. *)
Definition quot_pow (a k : Z) : Z := if 0 <=? k then Z.quot a (10 ^ k) else a * 10 ^ (- k).

Lemma ival_rescale d e : ival (rescale d e) = quot_pow (ival d) (e - exp d).
Proof.
  unfold quot_pow. destruct (Z.leb_spec 0 (e - exp d)).
  - by rewrite ival_rescale_up by lia.
  - rewrite ival_rescale_down by lia. by rewrite Z.opp_sub_distr, Z.add_opp_l.
Qed.

Lemma pow10_pos k : 0 <= k -> 0 < 10 ^ k.
Proof. intros. by apply Z.pow_pos_nonneg. Qed.

#[export] Hint Resolve pow10_pos : octo.

(** ** What the exact operations compute *)

(** C26 [Add], [Sub], [Neg] and [Abs] are exact on the numbers that decimals
    stand for, whatever the exponents, and so is [Mul] whenever it returns. *)
Theorem arithmetic_exact d d2 :
  (Rat (Add d d2) == Rat d + Rat d2)%Q /\
  (Rat (Sub d d2) == Rat d - Rat d2)%Q /\
  (Rat (Neg d) == - Rat d)%Q /\
  (Rat (Abs d) == Qabs (Rat d))%Q /\
  match Mul d d2 with
  | Ok r => (Rat r == Rat d * Rat d2)%Q
  | Err _ => False
  | Panicked _ => ~ in_int32 (exp d + exp d2)
  end.
Proof.
  split_and!; [apply Rat_Add|apply Rat_Sub|apply Rat_Neg|apply Rat_Abs|].
  destruct (Mul d d2) as [r|e|msg] eqn:E; [by apply Rat_Mul| |]; revert E; unfold Mul, in_int32;
    destruct (Z.ltb_spec MaxInt32 (exp d + exp d2)); destruct (Z.ltb_spec (exp d + exp d2) MinInt32);
    simpl; intros ?; done || lia.
Qed.

(** Every comparison decides the order of the numbers: [Cmp] is their
    three-way comparison, and the six derived predicates are the orders. *)
Theorem comparisons_decide d d2 :
  Cmp d d2 = cmp_int (Rat d ?= Rat d2)%Q /\
  (Equal d d2 = true <-> (Rat d == Rat d2)%Q) /\
  (LessThan d d2 = true <-> (Rat d < Rat d2)%Q) /\
  (LessThanOrEqual d d2 = true <-> (Rat d <= Rat d2)%Q) /\
  (GreaterThan d d2 = true <-> (Rat d2 < Rat d)%Q) /\
  (GreaterThanOrEqual d d2 = true <-> (Rat d2 <= Rat d)%Q) /\
  Sign d = cmp_int (Rat d ?= 0)%Q.
Proof.
  split; [apply Cmp_spec|].
  assert (Sign d = cmp_int (Rat d ?= 0)%Q) as HS.
  { rewrite Rat_spec, <- (Qs_0 (exp d)), Qs_compare.
    unfold Sign, ival, ensureInitialized. destruct d as [[v|] e]; simpl; [|done].
    unfold big_sign. destruct (Z.compare_spec v 0); simpl; lia. }
  unfold Equal, LessThan, LessThanOrEqual, GreaterThan, GreaterThanOrEqual.
  destruct (Cmp_cases d d2) as [[H ->]|[[H ->]|[H ->]]]; simpl; split_and!; try done;
    (split; [intros ?; try done; lra | intros ?; try done; exfalso; lra]).
Qed.
