(* ===== verification/DecRound.v ===== *)
(** * DecRound: division, rounding and powers of [pkg/util/decimal.go]

    The operations that cannot be exact, each proved equal to a reference
    definition on the numbers that the decimals stand for, with the error
    bound that it guarantees; and the conversion from a [float64] given by its
    bits. *)
From S2P Require Import Prelude GoStr Decimals.
From Stdlib Require Import QArith Qabs Qpower Qround Lqa.

#[global] Open Scope Z_scope.
#[global] Open Scope go_scope.

(** ** Division *)

Definition QuoRem (d d2 : Decimal) (precision : Z) : go gostring (Decimal * Decimal) :=
  if big_sign (ival d2) =? 0 then Panicked "decimal division by 0"
  else
    let scale := int32 (- precision) in
    let e := int32 (int32 (exp d - exp d2) - scale) in
    if (MaxInt32 <? e) || (e <? MinInt32) then Panicked "overflow in decimal QuoRem"
    else
      let '(aa, bb, scalerest) :=
        if e <? 0
        then (ival d, ival d2 * 10 ^ (- e), exp d)
        else (ival d * 10 ^ e, ival d2, int32 (scale + exp d2)) in
      let q := Z.quot aa bb in
      let r := Z.rem aa bb in
      Ok (mkDec q scale, mkDec r scalerest).

Definition DivRound (d d2 : Decimal) (precision : Z) : go gostring Decimal :=
  let! ' (q, r) := QuoRem d d2 precision in
  let rv2 := Z.shiftl (Z.abs (ival r)) 1 in
  let r2 := mkDec rv2 (int32 (exp r + precision)) in
  let c := Cmp r2 (Abs d2) in
  if c <? 0 then Ok q
  else if Sign d * Sign d2 <? 0 then Ok (Sub q (New 1 (int32 (- precision))))
  else Ok (Add q (New 1 (int32 (- precision)))).

Definition Div (d d2 : Decimal) : go gostring Decimal := DivRound d d2 (int32 DivisionPrecision).

Definition Truncate (d : Decimal) (precision : Z) : Decimal :=
  if (0 <=? precision) && (exp d <? - precision) then rescale d (- precision)
  else ensureInitialized d.

Definition Mod (d d2 : Decimal) : go gostring Decimal :=
  let! div := Div d d2 in
  let quo := Truncate div 0 in
  let! m := Mul d2 quo in
  Ok (Sub d m).

Definition Avg (first : Decimal) (rest : list Decimal) : go gostring Decimal :=
  let count := New (Z.of_nat (length rest) + 1) 0 in
  let sum := Sum first rest in
  Div sum count.

(** ** Rounding *)

(** [big.Int.DivMod] is Euclidean division; the divisors here are positive. *)
Definition Round (d : Decimal) (places : Z) : Decimal :=
  let ret := rescale d (int32 (int32 (- places) - 1)) in
  let v := if big_sign (ival ret) <? 0 then ival ret - 5 else ival ret + 5 in
  let m := v mod 10 in
  let v := v / 10 in
  let e := int32 (exp ret + 1) in
  if (big_sign v <? 0) && negb (m =? 0) then mkDec (v + 1) e else mkDec v e.

Definition RoundBank (d : Decimal) (places : Z) : Decimal :=
  let round := Round d places in
  let remainder := Abs (Sub d round) in
  let half := New 5 (int32 (int32 (- places) - 1)) in
  if (Cmp remainder half =? 0) && Z.testbit (ival round) 0 then
    if big_sign (ival round) <? 0 then mkDec (ival round + 1) (exp round)
    else mkDec (ival round - 1) (exp round)
  else round.

Definition Floor (d : Decimal) : Decimal :=
  if 0 <=? exp d then ensureInitialized d
  else mkDec (ival d / 10 ^ (- exp d)) 0.

Definition Ceil (d : Decimal) : Decimal :=
  if 0 <=? exp d then ensureInitialized d
  else
    let z := ival d / 10 ^ (- exp d) in
    let m := ival d mod 10 ^ (- exp d) in
    mkDec (if m =? 0 then z else z + 1) 0.

(** The unit [10^-int64(orgExp)] of the code is an exclusive or. *)
Definition cash_unit (d : Decimal) : go gostring (Z * Decimal) :=
  if exp d <? 0 then
    let orgExp := exp d in
    let dOne := New (Z.lxor 10 (- orgExp)) orgExp in
    let d2 := mkDecimal (value d) 0 in
    let! md := Mod d2 fiveDec in
    if Equal md Zero
    then Ok (10, Sub (mkDecimal (value d) orgExp) dOne)
    else Ok (10, d)
  else Ok (10, d).

Definition RoundCash (d : Decimal) (interval : Z) : go gostring Decimal :=
  let! ' (iVal, d) :=
    (if interval =? 5 then Ok (20, d)
     else if interval =? 10 then Ok (10, d)
     else if interval =? 15 then cash_unit d
     else if interval =? 25 then Ok (4, d)
     else if interval =? 50 then Ok (2, d)
     else if interval =? 100 then Ok (1, d)
     else Panicked ("Decimal does not support this Cash rounding interval `" ++ FormatInt interval
                    ++ "`. Supported: 5, 10, 15, 25, 50, 100")) in
  let dVal := mkDec iVal 0 in
  let! m := Mul d dVal in
  let! q := Div (Round m 0) dVal in
  Ok (Truncate q 2).

(** ** Conversion from a [float64]

    A float is given by its 64 bits. *)

Definition float_mant (bits : Z) : Z := Z.land bits (2 ^ 52 - 1).
Definition float_exp (bits : Z) : Z := Z.land (Z.shiftr bits 52) (2 ^ 11 - 1).
Definition float_sign (bits : Z) : Z := Z.shiftr bits 63.

(** The loop that strips the trailing zero bits of a non-zero mantissa; a
    mantissa below 2^53 has at most 53 of them. *)
Fixpoint normalise (fuel : nat) (mant exp2 : Z) : Z * Z :=
  match fuel with
  | O => (mant, exp2)
  | S f => if Z.land mant 1 =? 0 then normalise f (Z.shiftr mant 1) (int32 (exp2 + 1))
           else (mant, exp2)
  end.

Definition NewFromFloatWithExponent (bits : Z) (exp : Z) : go gostring Decimal :=
  let mant := float_mant bits in
  let exp2 := float_exp bits in
  let sign := float_sign bits in
  if exp2 =? 2047 then Panicked ("Cannot create a Decimal from " ++
    (if negb (mant =? 0) then "NaN" else if sign =? 1 then "-Inf" else "+Inf"))
  else if (exp2 =? 0) && (mant =? 0) then Ok Decimal0
  else
    let '(mant, exp2) := if exp2 =? 0 then (mant, exp2 + 1) else (Z.lor mant (2 ^ 52), exp2) in
    let exp2 := int32 (exp2 - (1023 + 52)) in
    let '(mant, exp2) := normalise 53 mant exp2 in
    let exp := if (exp <? 0) && (exp <? exp2) then (if exp2 <? 0 then exp2 else 0) else exp in
    let exp2 := int32 (exp2 - exp) in
    let '(dMant, temp) :=
      if 0 <? exp then (mant, 5 ^ exp)
      else if exp <? 0 then (mant * 5 ^ (- exp), 1)
      else (mant, 1) in
    let '(dMant, temp) :=
      if 0 <? exp2 then (Z.shiftl dMant exp2, temp)
      else if exp2 <? 0 then (dMant, Z.shiftl temp (uint64 (int32 (- exp2))))
      else (dMant, temp) in
    let dMant :=
      if (0 <? exp) || (exp2 <? 0)
      then Z.quot (dMant + Z.shiftr temp 1) temp
      else dMant in
    Ok (mkDec (if sign =? 1 then - dMant else dMant) exp).

Definition NewFromFloat (bits : Z) : go gostring Decimal := NewFromFloatWithExponent bits MinInt32.

(** ** Powers *)

(** The bits of the float constants 1 and 2. *)
Definition float_one : Z := Z.shiftl 1023 52.
Definition float_two : Z := Z.shiftl 1024 52.

(** The recursion of [Pow], with the result that is left undecided when the
    fuel does not cover the calls. *)
Fixpoint Pow (fuel : nat) (d d2 : Decimal) : option (go gostring Decimal) :=
  match fuel with
  | O => None
  | S f =>
    if IntPart d2 =? 0 then Some (NewFromFloat float_one)
    else
      match (let! two := NewFromFloat float_two in Div d2 two) with
      | Ok half =>
        match Pow f d half with
        | Some (Ok temp) =>
          Some (if Z.rem (IntPart d2) 2 =? 0 then Mul temp temp
                else if 0 <? IntPart d2 then let! sq := Mul temp temp in Mul sq d
                else let! sq := Mul temp temp in Div sq d)
        | r => r
        end
      | Err e => Some (Err e)
      | Panicked m => Some (Panicked m)
      end
  end.

Example pow_example : Pow 10 (New 3 0) (New 5 0) = Some (Ok (mkDec 243 0)).
Proof. vm_compute. reflexivity. Qed.

(** ** Rounding half away from zero and half to even, on integers *)

(** The multiple of [b] nearest to [a], divided by [b]; ties go away from zero. *)
Definition round_half_away (a b : Z) : Z := Z.sgn a * ((2 * Z.abs a + b) / (2 * b)).

(** The same with ties to the even multiple. *)
Definition round_half_even (a b : Z) : Z :=
  let n := round_half_away a b in
  if (2 * Z.abs (a - n * b) =? b) && Z.odd n then n - Z.sgn n else n.

Lemma rha_opp a b : round_half_away (- a) b = - round_half_away a b.
Proof. unfold round_half_away. rewrite Z.sgn_opp, Z.abs_opp. lia. Qed.

Lemma rha_nonneg a b : 0 <= a -> 0 < b -> round_half_away a b = (2 * a + b) / (2 * b).
Proof.
  intros Ha Hb. unfold round_half_away. rewrite Z.abs_eq by done.
  destruct (Z.eq_dec a 0) as [->|]; [|rewrite Z.sgn_pos by lia; lia].
  simpl. symmetry. apply Z.div_small. lia.
Qed.

Lemma rha_1 a : round_half_away a 1 = a.
Proof.
  destruct (Z.le_ge_cases 0 a).
  - rewrite rha_nonneg by lia. symmetry. apply (Z.div_unique _ _ _ 1); lia.
  - replace a with (- - a) at 1 by lia. rewrite rha_opp, rha_nonneg by lia.
    enough ((2 * - a + 1) / (2 * 1) = - a) by lia. symmetry. apply (Z.div_unique _ _ _ 1); lia.
Qed.

(** Induct on the sign: a symmetric statement need only be shown for [0 <= a]. *)
Lemma sign_ind (P : Z -> Prop) :
  (forall a, 0 <= a -> P a) -> (forall a, 0 <= a -> P a -> P (- a)) -> forall a, P a.
Proof.
  intros H1 H2 a. destruct (Z.le_ge_cases 0 a); [auto|].
  replace a with (- - a) by lia. apply H2; [lia|]. apply H1. lia.
Qed.

(** The nearest multiple, and which one on a tie. *)
Lemma rha_spec a b :
  0 < b ->
  let n := round_half_away a b in
  2 * Z.abs (a - n * b) <= b /\ (2 * Z.abs (a - n * b) = b -> Z.abs a <= Z.abs (n * b)).
Proof.
  intros Hb. revert a. apply (sign_ind (fun a => _)); cbn zeta.
  - intros a Ha. rewrite rha_nonneg by done.
    pose proof (Z.div_mod (2 * a + b) (2 * b) ltac:(lia)) as E.
    pose proof (Z.mod_pos_bound (2 * a + b) (2 * b) ltac:(lia)) as B.
    set (n := (2 * a + b) / (2 * b)) in *.
    assert (0 <= n) by (apply Z.div_pos; lia).
    split; nia.
  - intros a Ha [H1 H2]. rewrite rha_opp. set (n := round_half_away a b) in *.
    replace (- a - - n * b) with (- (a - n * b)) by lia.
    replace (- n * b) with (- (n * b)) by lia. rewrite !Z.abs_opp. auto.
Qed.

Lemma rhe_spec a b :
  0 < b ->
  let n := round_half_even a b in
  2 * Z.abs (a - n * b) <= b /\ (2 * Z.abs (a - n * b) = b -> Z.even n = true).
Proof.
  intros Hb n. destruct (rha_spec a b Hb) as [H1 H2]. unfold n, round_half_even.
  set (m := round_half_away a b) in *.
  destruct (Z.eqb_spec (2 * Z.abs (a - m * b)) b) as [E|E]; simpl; [|split; [done|done]].
  destruct (Z.odd m) eqn:Ho.
  - assert (m <> 0) by (intros ->; done). specialize (H2 E). split.
    + destruct (Z.lt_total m 0) as [?|[?|?]]; [rewrite Z.sgn_neg by lia|lia|rewrite Z.sgn_pos by lia]; nia.
    + intros _. rewrite Z.even_sub. rewrite <- Z.negb_odd, Ho.
      destruct (Z.lt_total m 0) as [?|[?|?]]; [by rewrite Z.sgn_neg|lia|by rewrite Z.sgn_pos].
  - split; [done|]. intros _. by rewrite <- Z.negb_odd, Ho.
Qed.

(** Adding or subtracting 5 and truncating the last digit rounds it. *)
Lemma round_last_digit v :
  let w := if big_sign v <? 0 then v - 5 else v + 5 in
  (if (big_sign (w / 10) <? 0) && negb (w mod 10 =? 0) then w / 10 + 1 else w / 10)
  = round_half_away v 10.
Proof.
  unfold big_sign. destruct (Z.le_ge_cases 0 v) as [Hv|Hv].
  - rewrite rha_nonneg by lia.
    destruct (Z.ltb_spec (Z.sgn v) 0); [lia|]. cbn zeta.
    assert (0 <= (v + 5) / 10) by (apply Z.div_pos; lia).
    destruct (Z.ltb_spec (Z.sgn ((v + 5) / 10)) 0); [lia|]. simpl.
    replace (2 * v + 10) with (2 * (v + 5)) by lia. by rewrite Z.div_mul_cancel_l by lia.
  - destruct (Z.eq_dec v 0) as [->|]; [done|].
    assert (round_half_away v 10 = - ((2 * - v + 10) / (2 * 10))) as ->
      by (rewrite <- rha_nonneg by lia; rewrite rha_opp; lia).
    destruct (Z.ltb_spec (Z.sgn v) 0); [|lia]. cbn zeta.
    assert ((2 * - v + 10) / (2 * 10) = (- v + 5) / 10) as ->.
    { replace (2 * - v + 10) with (2 * (- v + 5)) by lia. by rewrite Z.div_mul_cancel_l by lia. }
    pose proof (Z.div_mod (v - 5) 10 ltac:(lia)). pose proof (Z.mod_pos_bound (v - 5) 10 ltac:(lia)).
    pose proof (Z.div_mod (- v + 5) 10 ltac:(lia)). pose proof (Z.mod_pos_bound (- v + 5) 10 ltac:(lia)).
    destruct (Z.ltb_spec (Z.sgn ((v - 5) / 10)) 0); [|lia]. simpl.
    destruct (Z.eqb_spec ((v - 5) mod 10) 0); simpl; lia.
Qed.

(** Truncating to one extra digit first does not change the rounded number. *)
Lemma rha_trunc a k : 0 <= k -> round_half_away (Z.quot a (10 ^ k)) 10 = round_half_away a (10 ^ (k + 1)).
Proof.
  intros Hk. pose proof (pow10_pos k Hk) as Hp.
  assert (10 ^ (k + 1) = 10 ^ k * 10) as E by (rewrite Z.pow_add_r by lia; lia).
  revert a. apply (sign_ind (fun a => _)).
  - intros a Ha. rewrite Z.quot_div_nonneg by lia.
    assert (0 <= a / 10 ^ k) by (apply Z.div_pos; lia).
    rewrite !rha_nonneg, E by lia.
    replace (2 * (a / 10 ^ k) + 10) with (2 * (a / 10 ^ k + 5)) by lia.
    replace (2 * a + 10 ^ k * 10) with (2 * (a + 5 * 10 ^ k)) by lia.
    rewrite !Z.div_mul_cancel_l by lia.
    rewrite <- Z.div_div by lia. by rewrite Z.div_add by lia.
  - intros a Ha IH. by rewrite Z.quot_opp_l, !rha_opp, IH by lia.
Qed.

(** ** Rounding decimals *)

(** The coefficients of [d] and of the unit 10^-places at their common scale. *)
Definition scale_of (d : Decimal) (places : Z) : Z := Z.min (exp d) (- places).
Definition coeff_at (d : Decimal) (m : Z) : Z := ival d * 10 ^ (exp d - m).
Definition unit_at (places m : Z) : Z := 10 ^ (- places - m).

Lemma Rat_at d m : m <= exp d -> (Rat d == Qs (coeff_at d m) m)%Q.
Proof. intros. rewrite Rat_spec. by apply Qs_down. Qed.

Lemma unit_at_pos d places : 0 < unit_at places (scale_of d places).
Proof. unfold unit_at, scale_of. apply pow10_pos. lia. Qed.

Definition places_ok (places : Z) : Prop := in_int32 places /\ in_int32 (- places).

Lemma Round_value d places :
  places_ok places ->
  Round d places = mkDec (round_half_away (coeff_at d (scale_of d places))
                                          (unit_at places (scale_of d places))) (- places).
Proof.
  intros [Hp Hp1]. unfold Round. unfold in_int32 in *.
  assert (int32 (- places) = - places) as Hw by by apply int32_small.
  rewrite Hw, (int32_small (- places - 1)) by (unfold in_int32; lia).
  rewrite exp_rescale. replace (- places - 1 + 1) with (- places) by lia.
  rewrite (int32_small (- places)) by (unfold in_int32; lia).
  pose proof (round_last_digit (ival (rescale d (- places - 1)))) as E. cbn zeta in E.
  transitivity (mkDec (round_half_away (ival (rescale d (- places - 1))) 10) (- places));
    [rewrite <- E; by destruct (_ && _)|]. f_equal. clear E.
  rewrite ival_rescale. unfold quot_pow, coeff_at, unit_at, scale_of.
  destruct (Z.leb_spec 0 (- places - 1 - exp d)).
  - rewrite Z.min_l by lia. rewrite rha_trunc by lia.
    replace (exp d - exp d) with 0 by lia. rewrite Z.pow_0_r, Z.mul_1_r. do 2 f_equal. lia.
  - rewrite Z.min_r by lia. replace (- places - - places) with 0 by lia. rewrite Z.pow_0_r, rha_1.
    replace (- (- places - 1 - exp d)) with (exp d - - places + 1) by lia.
    rewrite Z.pow_add_r by lia.
    set (c := ival d * 10 ^ (exp d - - places)).
    replace (ival d * (10 ^ (exp d - - places) * 10 ^ 1)) with (c * 10) by (unfold c; lia).
    revert c. apply (sign_ind (fun c => round_half_away (c * 10) 10 = c)).
    + intros c Hc. rewrite rha_nonneg by lia. symmetry. apply (Z.div_unique_pos _ _ _ 10); lia.
    + intros c Hc IH. by rewrite Z.mul_opp_l, !rha_opp, IH.
Qed.

Lemma Qs_double a e : (2 * Qs a e == Qs (2 * a) e)%Q.
Proof. unfold Qs. rewrite inject_Z_mult. change (inject_Z 2) with 2%Q. ring. Qed.

Lemma testbit0_odd z : Z.testbit z 0 = Z.odd z.
Proof. apply Z.bit0_odd. Qed.

Lemma RoundBank_value d places :
  places_ok places ->
  RoundBank d places = mkDec (round_half_even (coeff_at d (scale_of d places))
                                              (unit_at places (scale_of d places))) (- places).
Proof.
  intros Hp. pose proof (unit_at_pos d places) as Hb. destruct Hp as [Hp1 Hp2] eqn:EH. clear EH.
  unfold RoundBank. rewrite Round_value by done.
  set (m := scale_of d places) in *. set (a := coeff_at d m). set (b := unit_at places m) in *.
  set (n := round_half_away a b). rewrite (int32_small (- places)) by done.
  rewrite (int32_small (- places - 1)) by (unfold in_int32 in *; lia).
  change (ival (mkDec n (- places))) with n. change (exp (mkDec n (- places))) with (- places).
  assert (Cmp (Abs (Sub d (mkDec n (- places)))) (New 5 (- places - 1))
          = big_cmp (2 * Z.abs (a - n * b)) b) as ->.
  { rewrite Cmp_spec, Rat_Abs, Rat_Sub. unfold New. rewrite !Rat_mkDec.
    rewrite (Rat_at d m) by (unfold m, scale_of; lia). fold a.
    rewrite (Qs_down n (- places) m) by (unfold m, scale_of; lia). fold (unit_at places m). fold b.
    rewrite Qs_sub, Qs_abs.
    rewrite (Qs_down (Z.abs (a - n * b)) m (m - 1)) by lia.
    rewrite (Qs_down 5 (- places - 1) (m - 1)) by (unfold m, scale_of; lia).
    rewrite Qs_compare. unfold big_cmp, cmp_int.
    replace (m - (m - 1)) with 1 by lia. replace (- places - 1 - (m - 1)) with (- places - m) by lia.
    fold (unit_at places m). fold b. change (10 ^ 1) with 10.
    replace (Z.abs (a - n * b) * 10) with (5 * (2 * Z.abs (a - n * b))) by lia.
    by rewrite <- (Zmult_compare_compat_l _ _ 5) by lia. }
  rewrite testbit0_odd. unfold round_half_even. fold n.
  assert ((big_cmp (2 * Z.abs (a - n * b)) b =? 0) = (2 * Z.abs (a - n * b) =? b)) as ->.
  { unfold big_cmp. destruct (Z.compare_spec (2 * Z.abs (a - n * b)) b); simpl; symmetry;
      rewrite ?Z.eqb_eq, ?Z.eqb_neq; lia. }
  destruct ((2 * Z.abs (a - n * b) =? b) && Z.odd n) eqn:E; [|done].
  apply andb_true_iff in E as [_ Ho]. unfold big_sign.
  destruct (Z.lt_total n 0) as [?|[->|?]].
  - rewrite Z.sgn_neg by done. simpl. f_equal; lia.
  - done.
  - by rewrite Z.sgn_pos by done.
Qed.

(** Rounding an integer to a multiple of the unit, read back as rationals. *)
Lemma rounded_Q d places n :
  let m := scale_of d places in
  let a := coeff_at d m in
  let b := unit_at places m in
  ((2 * Qabs (Rat (mkDec n (- places)) - Rat d) <= (10 # 1) ^ (- places))%Q
     <-> 2 * Z.abs (a - n * b) <= b) /\
  ((2 * Qabs (Rat (mkDec n (- places)) - Rat d) == (10 # 1) ^ (- places))%Q
     <-> 2 * Z.abs (a - n * b) = b) /\
  ((Qabs (Rat d) <= Qabs (Rat (mkDec n (- places))))%Q <-> Z.abs a <= Z.abs (n * b)).
Proof.
  intros m a b. rewrite Qs_ten, Rat_mkDec.
  rewrite (Rat_at d m) by (unfold m, scale_of; lia).
  rewrite (Qs_down n (- places) m), (Qs_down 1 (- places) m) by (unfold m, scale_of; lia).
  fold (unit_at places m). fold a b. rewrite Z.mul_1_l.
  rewrite Qs_sub, !Qs_abs, Qs_double, !Qs_le, Qs_eq.
  replace (n * b - a) with (- (a - n * b)) by lia. by rewrite Z.abs_opp.
Qed.

(** [Round] returns the nearest multiple of 10^-places, the one away from
    zero when two are equally near, with exactly the exponent -places. *)
Lemma Round_nearest d places (Hp : places_ok places) :
  exp (Round d places) = - places /\
  (2 * Qabs (Rat (Round d places) - Rat d) <= (10 # 1) ^ (- places))%Q /\
  ((2 * Qabs (Rat (Round d places) - Rat d) == (10 # 1) ^ (- places))%Q ->
   (Qabs (Rat d) <= Qabs (Rat (Round d places)))%Q).
Proof.
  rewrite Round_value by done. split; [done|].
  match goal with |- context [mkDec ?n _] => destruct (rounded_Q d places n) as (-> & -> & ->) end.
  apply rha_spec, unit_at_pos.
Qed.

(** [RoundBank] returns the nearest multiple of 10^-places, and the even one
    when two are equally near. *)
Lemma RoundBank_nearest_even d places (Hp : places_ok places) :
  exp (RoundBank d places) = - places /\
  (2 * Qabs (Rat (RoundBank d places) - Rat d) <= (10 # 1) ^ (- places))%Q /\
  ((2 * Qabs (Rat (RoundBank d places) - Rat d) == (10 # 1) ^ (- places))%Q ->
   Z.even (ival (RoundBank d places)) = true).
Proof.
  rewrite RoundBank_value by done. split; [done|].
  match goal with |- context [mkDec ?n _] => destruct (rounded_Q d places n) as (-> & -> & _) end.
  apply rhe_spec, unit_at_pos.
Qed.

(** C28 Both roundings return a multiple of 10^-places, with exactly the exponent
    -places, that no other multiple is nearer than. When two are equally near,
    [Round] takes the one away from zero and [RoundBank] the even one; otherwise
    they give the same decimal. *)
Theorem roundings_nearest d places (Hp : places_ok places) :
  let tie r := (2 * Qabs (Rat r - Rat d) == (10 # 1) ^ (- places))%Q in
  let r := Round d places in
  let b := RoundBank d places in
  (exp r = - places /\ (2 * Qabs (Rat r - Rat d) <= (10 # 1) ^ (- places))%Q /\ (tie r -> (Qabs (Rat d) <= Qabs (Rat r))%Q)) /\
  (exp b = - places /\ (2 * Qabs (Rat b - Rat d) <= (10 # 1) ^ (- places))%Q /\ (tie b -> Z.even (ival b) = true)) /\
  (~ tie r -> b = r).
Proof.
  intros tie r b. split; [by apply Round_nearest|]. split; [by apply RoundBank_nearest_even|].
  unfold tie, r, b. rewrite Round_value, RoundBank_value by done. intros Hn.
  match type of Hn with context [mkDec ?n _] => destruct (rounded_Q d places n) as (_ & Htie & _) end.
  rewrite Htie in Hn. unfold round_half_even. set (a := coeff_at _ _) in *. set (u := unit_at _ _) in *.
  by destruct (Z.eqb_spec (2 * Z.abs (a - round_half_away a u * u)) u).
Qed.

(** ** Floor, ceiling, truncation *)

Lemma Rat_inject z : (Rat (mkDec z 0) == inject_Z z)%Q.
Proof. by rewrite Rat_mkDec, <- Qs_inject. Qed.

Lemma Qfloor_unique (q : Q) (z : Z) : (inject_Z z <= q)%Q -> (q < inject_Z (z + 1))%Q -> Qfloor q = z.
Proof.
  intros H1 H2. pose proof (Qfloor_le q) as F1. pose proof (Qlt_floor q) as F2.
  apply Z.le_antisymm.
  - assert (inject_Z (Qfloor q) < inject_Z (z + 1))%Q as H by (eapply Qle_lt_trans; eauto).
    rewrite <- Zlt_Qlt in H. lia.
  - assert (inject_Z z < inject_Z (Qfloor q + 1))%Q as H by (eapply Qle_lt_trans; eauto).
    rewrite <- Zlt_Qlt in H. lia.
Qed.

Lemma ensure_ival d : ival (ensureInitialized d) = ival d.
Proof. by destruct d as [[v|] e]. Qed.

Lemma ensure_exp d : exp (ensureInitialized d) = exp d.
Proof. by destruct d as [[v|] e]. Qed.

Lemma Rat_ensure d : (Rat (ensureInitialized d) == Rat d)%Q.
Proof. by rewrite !Rat_spec, ensure_ival, ensure_exp. Qed.

(** An integer decimal is its own floor. *)
Lemma Rat_integer d : 0 <= exp d -> (Rat d == inject_Z (ival d * 10 ^ exp d))%Q.
Proof.
  intros. rewrite Rat_spec, (Qs_down _ _ 0), Qs_inject by done. by rewrite Z.sub_0_r.
Qed.

Lemma Qfloor_Rat d : Qfloor (Rat d) = if 0 <=? exp d then ival d * 10 ^ exp d else ival d / 10 ^ (- exp d).
Proof.
  destruct (Z.leb_spec 0 (exp d)) as [H|H].
  - rewrite Rat_integer by done. apply Qfloor_Z.
  - pose proof (pow10_pos (- exp d) ltac:(lia)) as Hp.
    apply Qfloor_unique; rewrite Rat_spec, Qs_inject, (Qs_down _ 0 (exp d)) by lia;
      rewrite ?Qs_le, ?Qs_lt; replace (0 - exp d) with (- exp d) by lia.
    + rewrite Z.mul_comm. by apply Z.mul_div_le.
    + rewrite Z.mul_comm. by apply Z.mul_succ_div_gt.
Qed.

(** [Floor] is the floor and [Ceil] the ceiling of the number. *)
Theorem Floor_Ceil_spec d :
  (Rat (Floor d) == inject_Z (Qfloor (Rat d)))%Q /\
  (Rat (Ceil d) == inject_Z (Qceiling (Rat d)))%Q.
Proof.
  assert (Qceiling (Rat d) = - Qfloor (Rat (Neg d))) as ->.
  { unfold Qceiling. by rewrite Rat_Neg. }
  rewrite !Qfloor_Rat. change (exp (Neg d)) with (exp d). change (ival (Neg d)) with (- ival d).
  unfold Floor, Ceil. destruct (Z.leb_spec 0 (exp d)) as [H|H].
  - rewrite Rat_ensure, Rat_integer by done. split; [done|].
    by rewrite Z.mul_opp_l, Z.opp_involutive.
  - rewrite !Rat_inject. split; [done|]. apply inject_Z_injective.
    pose proof (pow10_pos (- exp d) ltac:(lia)) as Hp.
    destruct (Z.eqb_spec (ival d mod 10 ^ (- exp d)) 0).
    + rewrite Z.div_opp_l_z by lia. lia.
    + rewrite Z.div_opp_l_nz by lia. lia.
Qed.

Lemma quot_pow_bound a k : 0 <= k ->
  let q := Z.quot a (10 ^ k) in
  Z.abs (q * 10 ^ k) <= Z.abs a /\ Z.abs (a - q * 10 ^ k) < 10 ^ k /\ 0 <= q * a.
Proof.
  intros Hk. pose proof (pow10_pos k Hk). revert a. apply (sign_ind (fun a => _)); cbn zeta.
  - intros a Ha. rewrite Z.quot_div_nonneg by lia.
    pose proof (Z.div_mod a (10 ^ k) ltac:(lia)). pose proof (Z.mod_pos_bound a (10 ^ k) ltac:(lia)).
    assert (0 <= a / 10 ^ k) by (apply Z.div_pos; lia). split_and!; nia.
  - intros a Ha (H1 & H2 & H3). rewrite Z.quot_opp_l by lia.
    rewrite Z.mul_opp_l, Z.abs_opp. split_and!; [lia|lia|]. lia.
Qed.

(** [Truncate] keeps at most [precision] digits: it never moves a number away
    from zero or across it, changes it by less than a unit of the last digit
    kept, and leaves a number with no more digits as it is. *)
Theorem Truncate_spec d precision (Hp : 0 <= precision) :
  let r := Truncate d precision in
  - precision <= exp r /\
  (Qabs (Rat r) <= Qabs (Rat d))%Q /\
  (0 <= Rat r * Rat d)%Q /\
  (Qabs (Rat d - Rat r) < (10 # 1) ^ (- precision))%Q /\
  (- precision <= exp d -> (Rat r == Rat d)%Q).
Proof.
  unfold Truncate. cbn zeta. destruct (Z.leb_spec 0 precision); [cbn [andb]|lia].
  destruct (Z.ltb_spec (exp d) (- precision)) as [H1|H1].
  - split; [done|]. pose proof (quot_pow_bound (ival d) (- precision - exp d) ltac:(lia)) as (B1 & B2 & B3).
    rewrite !Rat_spec, exp_rescale, ival_rescale_up, Qs_ten by lia.
    set (q := Z.quot _ _) in *.
    rewrite (Qs_down q (- precision) (exp d)), (Qs_down 1 (- precision) (exp d)) by lia.
    rewrite Qs_sub, !Qs_abs, Qs_mul, Qs_le, Qs_lt. split_and!; [done| |lia|lia].
    rewrite <- (Qs_0 (exp d + exp d)), Qs_le.
    pose proof (pow10_pos (- precision - exp d) ltac:(lia)). nia.
  - rewrite ensure_exp, Rat_ensure. split; [done|]. split; [apply Qle_refl|]. split.
    { destruct (Qlt_le_dec (Rat d) 0); nra. }
    split; [|done]. assert (Rat d - Rat d == 0)%Q as -> by ring. apply tenQ_pos.
Qed.

(** ** Division *)

(** [d / d2] at [precision] digits is the division of these two integers. *)
Definition div_num (d d2 : Decimal) (precision : Z) : Z :=
  ival d * 10 ^ Z.max 0 (exp d - exp d2 + precision).
Definition div_den (d d2 : Decimal) (precision : Z) : Z :=
  ival d2 * 10 ^ Z.max 0 (- (exp d - exp d2 + precision)).

(** The exponents that the code computes stay within an [int32]. *)
Definition div_fits (d d2 : Decimal) (precision : Z) : Prop :=
  in_int32 (- precision) /\ in_int32 (exp d - exp d2) /\
  in_int32 (exp d - exp d2 + precision) /\ in_int32 (exp d2 - precision) /\
  in_int32 (exp d + precision) /\ in_int32 (exp d2).

#[export] Instance div_fits_dec d d2 p : Decision (div_fits d d2 p).
Proof. unfold div_fits, in_int32. apply _. Defined.

Lemma QuoRem_value d d2 p :
  div_fits d d2 p -> ival d2 <> 0 ->
  QuoRem d d2 p = Ok (mkDec (Z.quot (div_num d d2 p) (div_den d d2 p)) (- p),
                      mkDec (Z.rem (div_num d d2 p) (div_den d d2 p)) (Z.min (exp d) (exp d2 - p))).
Proof.
  intros (F1 & F2 & F3 & F4 & F5 & F6) Hnz. unfold QuoRem, big_sign.
  destruct (Z.eqb_spec (Z.sgn (ival d2)) 0) as [E|_]; [lia|].
  rewrite (int32_small (- p)), (int32_small (exp d - exp d2)) by done.
  replace (exp d - exp d2 - - p) with (exp d - exp d2 + p) by lia. rewrite int32_small by done.
  unfold in_int32 in *. destruct (Z.ltb_spec MaxInt32 (exp d - exp d2 + p)); [lia|].
  destruct (Z.ltb_spec (exp d - exp d2 + p) MinInt32); [lia|]. simpl orb. cbv iota.
  unfold div_num, div_den. destruct (Z.ltb_spec (exp d - exp d2 + p) 0).
  - rewrite Z.max_l, (Z.max_r 0 (- _)), Z.pow_0_r, Z.mul_1_r, Z.min_l by lia. done.
  - rewrite Z.max_r, (Z.max_l 0 (- _)), Z.pow_0_r, Z.mul_1_r, Z.min_r by lia.
    rewrite (int32_small (- p + exp d2)) by (unfold in_int32; lia). do 3 f_equal. lia.
Qed.

Lemma div_den_nz d d2 p : ival d2 <> 0 -> div_den d d2 p <> 0.
Proof. intros. unfold div_den. pose proof (pow10_pos (Z.max 0 (- (exp d - exp d2 + p))) ltac:(lia)). nia. Qed.

(** Both numbers at the scale of the division. *)
Lemma div_scales d d2 p n :
  let m := Z.min (exp d) (exp d2 - p) in
  (Rat d == Qs (div_num d d2 p) m)%Q /\
  (Rat d2 * Rat (mkDec n (- p)) == Qs (div_den d d2 p * n) m)%Q /\
  (Rat d2 * (10 # 1) ^ (- p) == Qs (div_den d d2 p) m)%Q.
Proof.
  cbn zeta. unfold div_num, div_den. rewrite !Rat_spec, Qs_ten, !Qs_mul.
  set (m := Z.min _ _). change (exp (mkDec n (- p))) with (- p). change (ival (mkDec n (- p))) with n.
  rewrite (Qs_down (ival d) (exp d) m), !(Qs_down _ (exp d2 + - p) m) by lia.
  replace (Z.max 0 (exp d - exp d2 + p)) with (exp d - m) by lia.
  replace (Z.max 0 (- (exp d - exp d2 + p))) with (exp d2 + - p - m) by lia.
  split_and!; [done|..]; f_equiv; lia.
Qed.

(** C32 [QuoRem] is division with remainder, for a divisor that is not zero and
    exponents whose differences are int32: [d = d2 * q + r] with [q] a multiple
    of 10^-precision, and a remainder of the sign of [d] and smaller than one
    unit of the quotient times the divisor, so that [q] is the quotient
    truncated towards zero. *)
Theorem QuoRem_spec d d2 p (Hf : div_fits d d2 p) (Hnz : ival d2 <> 0) :
  exists q r, QuoRem d d2 p = Ok (q, r) /\ exp q = - p /\
    (Rat d == Rat d2 * Rat q + Rat r)%Q /\
    (Qabs (Rat r) < Qabs (Rat d2) * (10 # 1) ^ (- p))%Q /\
    (0 <= Rat r * Rat d)%Q.
Proof.
  eexists _, _. split; [by apply QuoRem_value|]. split; [done|].
  pose proof (div_den_nz d d2 p Hnz) as Hd.
  destruct (div_scales d d2 p (Z.quot (div_num d d2 p) (div_den d d2 p))) as (E1 & E2 & E3).
  set (m := Z.min (exp d) (exp d2 - p)) in *. set (a := div_num d d2 p) in *. set (b := div_den d d2 p) in *.
  rewrite E2. split_and!.
  - rewrite E1, Rat_mkDec, Qs_add, Qs_eq. by apply Z.quot_rem.
  - rewrite Rat_mkDec, Qs_abs. rewrite <- (Qabs_pos ((10 # 1) ^ (- p))) by apply Qlt_le_weak, tenQ_pos.
    rewrite <- Qabs_Qmult, E3, Qs_abs, Qs_lt. by apply Z.rem_bound_abs.
  - rewrite E1, Rat_mkDec, Qs_mul, <- (Qs_0 (m + m)), Qs_le. by apply Z.rem_sign_mul.
Qed.

(** Truncated division and the doubled remainder decide rounding half away. *)
Lemma quot_rha a b : b <> 0 ->
  round_half_away (Z.sgn b * a) (Z.abs b) =
  if 2 * Z.abs (Z.rem a b) <? Z.abs b then Z.quot a b else Z.quot a b + Z.sgn a * Z.sgn b.
Proof.
  intros Hb.
  assert (forall a b, 0 <= a -> 0 < b ->
    round_half_away a b = if 2 * Z.rem a b <? b then Z.quot a b else Z.quot a b + 1) as Hpos.
  { clear. intros a b Ha Hb. rewrite rha_nonneg, Z.quot_div_nonneg, Z.rem_mod_nonneg by lia.
    pose proof (Z.div_mod a b ltac:(lia)). pose proof (Z.mod_pos_bound a b ltac:(lia)).
    destruct (Z.ltb_spec (2 * (a mod b)) b); symmetry.
    - apply (Z.div_unique_pos _ _ _ (2 * (a mod b) + b)); lia.
    - apply (Z.div_unique_pos _ _ _ (2 * (a mod b) - b)); lia. }
  assert (forall a b, 0 <= a -> 0 < b -> 2 * Z.rem a b < b \/ 0 < a) as Hz.
  { clear. intros a b Ha Hb. destruct (Z.eq_dec a 0) as [->|]; [left|lia]. rewrite Z.rem_0_l; lia. }
  destruct (Z.lt_total b 0) as [Hb'|[?|Hb']]; [|lia|].
  - rewrite (Z.sgn_neg b), (Z.abs_neq b) by lia.
    replace b with (- - b) by lia. set (c := - b) in *. assert (0 < c) by (unfold c; lia).
    rewrite Z.rem_opp_r, Z.quot_opp_r, Z.opp_involutive by lia.
    replace (-1 * a) with (- a) by lia. rewrite rha_opp.
    revert a. apply (sign_ind (fun a => _)).
    + intros a Ha. rewrite Hpos by lia. rewrite Z.abs_eq by (apply Z.rem_nonneg; lia).
      destruct (Hz a c Ha ltac:(lia)); destruct (Z.ltb_spec (2 * Z.rem a c) c); lia.
    + intros a Ha IH. rewrite rha_opp, Z.rem_opp_l, Z.abs_opp, Z.quot_opp_l, Z.sgn_opp, IH by lia.
      destruct (_ <? _); lia.
  - rewrite (Z.sgn_pos b), (Z.abs_eq b), Z.mul_1_l by lia.
    revert a. apply (sign_ind (fun a => _)).
    + intros a Ha. rewrite Hpos by lia. rewrite Z.abs_eq by (apply Z.rem_nonneg; lia).
      destruct (Hz a b Ha ltac:(lia)); destruct (Z.ltb_spec (2 * Z.rem a b) b); lia.
    + intros a Ha IH. rewrite rha_opp, Z.rem_opp_l, Z.abs_opp, Z.quot_opp_l, Z.sgn_opp, IH by lia.
      destruct (_ <? _); lia.
Qed.

Lemma rescale_same d e : exp d = e -> ival (rescale d e) = ival d.
Proof. intros <-. rewrite ival_rescale_down by lia. by rewrite Z.sub_diag, Z.pow_0_r, Z.mul_1_r. Qed.

Lemma Add_same a b e : Add (mkDec a e) (mkDec b e) = mkDec (a + b) e.
Proof. unfold Add. rewrite min32_spec. cbn [exp mkDec]. rewrite Z.min_id. by rewrite !rescale_same. Qed.

Lemma Sub_same a b e : Sub (mkDec a e) (mkDec b e) = mkDec (a - b) e.
Proof. unfold Sub. rewrite min32_spec. cbn [exp mkDec]. rewrite Z.min_id. by rewrite !rescale_same. Qed.

Lemma Sign_ival d : Sign d = Z.sgn (ival d).
Proof. by destruct d as [[v|] e]. Qed.

(** The comparison by which [DivRound] decides, at the scale of the division. *)
Lemma DivRound_cmp d d2 p r :
  div_fits d d2 p ->
  Cmp (mkDec (Z.shiftl (Z.abs r) 1) (int32 (Z.min (exp d) (exp d2 - p) + p))) (Abs d2)
  = big_cmp (2 * Z.abs r) (Z.abs (div_den d d2 p)).
Proof.
  intros (F1 & F2 & F3 & F4 & F5 & F6).
  rewrite int32_small by (destruct (Z.min_spec (exp d) (exp d2 - p)) as [[_ ->]|[_ ->]];
    [done|by replace (exp d2 - p + p) with (exp d2) by lia]).
  rewrite Cmp_spec, Rat_Abs, Rat_mkDec, Rat_spec, Qs_abs.
  set (m := Z.min _ _ + p). rewrite (Qs_down (Z.abs (ival d2)) (exp d2) m) by lia.
  rewrite Qs_compare, Z.shiftl_mul_pow2 by lia.
  unfold div_den, big_cmp, cmp_int. rewrite Z.abs_mul.
  rewrite (Z.abs_eq (10 ^ _)) by (apply Z.lt_le_incl, pow10_pos; lia).
  replace (Z.max 0 (- (exp d - exp d2 + p))) with (exp d2 - m) by lia.
  by replace (Z.abs r * 2 ^ 1) with (2 * Z.abs r) by lia.
Qed.

Lemma DivRound_value d d2 p :
  div_fits d d2 p -> ival d2 <> 0 ->
  DivRound d d2 p =
  Ok (mkDec (round_half_away (Z.sgn (div_den d d2 p) * div_num d d2 p) (Z.abs (div_den d d2 p))) (- p)).
Proof.
  intros Hf Hnz. unfold DivRound. rewrite QuoRem_value by done. cbn [go_bind].
  pose proof (div_den_nz d d2 p Hnz) as Hd.
  change (exp (mkDec ?r ?e)) with e. change (ival (mkDec ?r ?e)) with r.
  rewrite DivRound_cmp, quot_rha by done. destruct Hf as (F1 & _).
  rewrite (int32_small (- p)), !Sign_ival by done.
  set (a := div_num d d2 p). set (b := div_den d d2 p) in *.
  assert (Z.sgn a = Z.sgn (ival d)) as Ha.
  { unfold a, div_num. rewrite Z.sgn_mul, (Z.sgn_pos (10 ^ _)) by (apply pow10_pos; lia). lia. }
  assert (Z.sgn b = Z.sgn (ival d2)) as Hb.
  { unfold b, div_den. rewrite Z.sgn_mul, (Z.sgn_pos (10 ^ _)) by (apply pow10_pos; lia). lia. }
  rewrite <- Ha, <- Hb. unfold big_cmp.
  destruct (Z.compare_spec (2 * Z.abs (Z.rem a b)) (Z.abs b)) as [E|E|E]; simpl;
    destruct (Z.ltb_spec (2 * Z.abs (Z.rem a b)) (Z.abs b)); try lia; try done;
    (destruct (Z.ltb_spec (Z.sgn a * Z.sgn b) 0); unfold New; rewrite ?Sub_same, ?Add_same;
     do 2 f_equal;
     assert (a <> 0) by (intros ->; rewrite Z.rem_0_l in *; lia); lia).
Qed.

(** C27 For a divisor that is not zero and exponents whose differences are int32,
    [DivRound] returns the multiple of 10^-precision nearest to the quotient,
    the one away from zero when two are equally near. *)
Theorem DivRound_nearest d d2 p (Hf : div_fits d d2 p) (Hnz : ival d2 <> 0) :
  exists r, DivRound d d2 p = Ok r /\ exp r = - p /\
    (2 * Qabs (Rat d - Rat d2 * Rat r) <= Qabs (Rat d2) * (10 # 1) ^ (- p))%Q /\
    ((2 * Qabs (Rat d - Rat d2 * Rat r) == Qabs (Rat d2) * (10 # 1) ^ (- p))%Q ->
     (Qabs (Rat d) <= Qabs (Rat d2 * Rat r))%Q).
Proof.
  eexists. split; [by apply DivRound_value|]. split; [done|].
  pose proof (div_den_nz d d2 p Hnz) as Hd.
  rewrite <- (Qabs_pos ((10 # 1) ^ (- p))) by apply Qlt_le_weak, tenQ_pos. rewrite <- Qabs_Qmult.
  set (a := div_num d d2 p). set (b := div_den d d2 p) in *.
  destruct (rha_spec (Z.sgn b * a) (Z.abs b) ltac:(lia)) as [H1 H2].
  set (n := round_half_away _ _) in *.
  destruct (div_scales d d2 p n) as (-> & -> & ->). fold a b.
  rewrite Qs_sub, !Qs_abs, Qs_double, !Qs_le, Qs_eq.
  assert (Z.abs (Z.sgn b * a - n * Z.abs b) = Z.abs (a - b * n)) as E.
  { destruct (Z.lt_total b 0) as [?|[?|?]]; [|lia|].
    - rewrite Z.sgn_neg, (Z.abs_neq b) by lia.
      replace (-1 * a - n * - b) with (- (a - b * n)) by lia. apply Z.abs_opp.
    - rewrite Z.sgn_pos, (Z.abs_eq b) by lia. f_equal. lia. }
  rewrite E in *. split; [done|]. intros H3. specialize (H2 H3).
  rewrite !Z.abs_mul, Z.abs_involutive in H2.
  assert (Z.abs (Z.sgn b) = 1) as Hs by (destruct (Z.sgn_spec b) as [[_ ->]|[[? ->]|[_ ->]]]; lia).
  rewrite Hs in H2. rewrite Z.abs_mul. lia.
Qed.

(** ** Cash rounding *)

(** The supported cent intervals, and how many of them make a unit. *)
Definition cash_parts (interval : Z) : option Z :=
  if interval =? 5 then Some 20 else if interval =? 10 then Some 10
  else if interval =? 25 then Some 4 else if interval =? 50 then Some 2
  else if interval =? 100 then Some 1 else None.

Lemma rha_exact n b : 0 < b -> round_half_away (n * b) b = n.
Proof.
  intros Hb. revert n. apply (sign_ind (fun n => _)).
  - intros n Hn. rewrite rha_nonneg by lia. symmetry. apply (Z.div_unique_pos _ _ _ b); lia.
  - intros n Hn IH. by rewrite Z.mul_opp_l, rha_opp, IH.
Qed.

(** An integer number of units divided back by the parts of a unit is exact
    at two digits. *)
Lemma cash_div n k i :
  0 < k -> k * i = 100 ->
  exists q, Div (mkDec n 0) (mkDec k 0) = Ok q /\ Truncate q 2 = mkDec (n * i) (-2).
Proof.
  intros Hk Hi. unfold Div. change (int32 DivisionPrecision) with 16.
  eexists. split; [apply DivRound_value; [by vm_compute|cbn; lia]|].
  unfold div_num, div_den. change (ival (mkDec k 0)) with k. change (ival (mkDec n 0)) with n.
  cbn [exp mkDec]. change (Z.max 0 (0 - 0 + 16)) with 16. change (Z.max 0 (- (0 - 0 + 16))) with 0.
  rewrite Z.pow_0_r, Z.mul_1_r, Z.sgn_pos, Z.mul_1_l, Z.abs_eq by lia.
  replace (n * 10 ^ 16) with (n * i * 10 ^ 14 * k) by (change (10 ^ 16) with (100 * 10 ^ 14); rewrite <- Hi; ring).
  rewrite rha_exact by done. unfold Truncate. cbn [exp mkDec]. simpl.
  unfold rescale. cbn [exp mkDec]. f_equal.
  change (ival (mkDec ?v _)) with v. simpl. f_equal. by rewrite Z.quot_mul.
Qed.

Lemma RoundCash_value d i k :
  wf_decimal d -> cash_parts i = Some k ->
  let m := mkDec (ival d * k) (exp d) in
  RoundCash d i = Ok (mkDec (ival (Round m 0) * i) (-2)) /\ 0 < k /\ k * i = 100 /\ exp (Round m 0) = 0.
Proof.
  intros Hd Hk m.
  assert (0 < k /\ k * i = 100 /\ RoundCash d i =
          let! m' := Mul d (mkDec k 0) in let! q := Div (Round m' 0) (mkDec k 0) in Ok (Truncate q 2))
    as (Hk1 & Hk2 & ->).
  { unfold cash_parts in Hk. unfold RoundCash.
    destruct (Z.eqb_spec i 5) as [->|]; [injection Hk as <-; done|].
    destruct (Z.eqb_spec i 10) as [->|]; [injection Hk as <-; done|].
    destruct (Z.eqb_spec i 15) as [->|]; [done|].
    destruct (Z.eqb_spec i 25) as [->|]; [injection Hk as <-; done|].
    destruct (Z.eqb_spec i 50) as [->|]; [injection Hk as <-; done|].
    destruct (Z.eqb_spec i 100) as [->|]; [injection Hk as <-; done|done]. }
  rewrite Mul_fits by (cbn; rewrite Z.add_0_r; done). cbn [go_bind].
  change (ival (mkDec k 0)) with k. cbn [exp mkDec]. rewrite Z.add_0_r. fold (mkDec (ival d * k) (exp d)).
  fold m. assert (Round m 0 = mkDec (ival (Round m 0)) 0) as E by by rewrite Round_value.
  rewrite E at 1. destruct (cash_div (ival (Round m 0)) k i Hk1 Hk2) as (q & -> & Hq).
  cbn [go_bind]. rewrite Hq. split_and!; [done|done|done|by rewrite E].
Qed.

Lemma Qmult_pos_le a x y : (0 < a)%Q -> (a * x <= a * y)%Q <-> (x <= y)%Q.
Proof. intros. rewrite !(Qmult_comm a). by apply Qmult_le_r. Qed.

(** [RoundCash] with an interval of 5, 10, 25, 50 or 100 cents returns the
    multiple of the interval nearest to the number, the one away from zero
    when two are equally near; the result has two digits. *)
Theorem RoundCash_nearest d i k (Hd : wf_decimal d) (Hi : cash_parts i = Some k) :
  exists r, RoundCash d i = Ok r /\ exp r = -2 /\
    (exists n, Rat r == inject_Z n * (i # 100))%Q /\
    (2 * Qabs (Rat r - Rat d) <= (i # 100))%Q /\
    ((2 * Qabs (Rat r - Rat d) == (i # 100))%Q -> (Qabs (Rat d) <= Qabs (Rat r))%Q).
Proof.
  destruct (RoundCash_value d i k Hd Hi) as (-> & Hk & Hki & He).
  eexists. split; [done|]. split; [done|].
  set (m := mkDec (ival d * k) (exp d)) in *. set (n := ival (Round m 0)) in *.
  assert (Round m 0 = mkDec n 0) as ER by (unfold n; by rewrite Round_value).
  assert (Rat (mkDec (n * i) (-2)) == inject_Z n * (i # 100))%Q as HR.
  { rewrite Rat_mkDec. unfold Qs. rewrite inject_Z_mult. change ((10 # 1) ^ -2)%Q with (1 # 100)%Q.
    rewrite (Qmake_Qdiv i 100), (Qmake_Qdiv 1 100). unfold Qdiv. ring. }
  split; [by exists n|]. rewrite HR. clear HR.
  assert (Rat m == Rat d * inject_Z k)%Q as Hm.
  { unfold m. rewrite Rat_mkDec, (Rat_spec d). unfold Qs. rewrite inject_Z_mult. ring. }
  destruct (rounded_Q m 0 n) as (R1 & R2 & R3). rewrite Hm in R1, R2, R3.
  change (- 0) with 0 in *. rewrite Rat_inject in R1, R2, R3. change ((10 # 1) ^ 0)%Q with 1%Q in *.
  assert (0 < inject_Z k)%Q as Hkq by (change 0%Q with (inject_Z 0); by rewrite <- Zlt_Qlt).
  assert (inject_Z k * (i # 100) == 1)%Q as Hone.
  { rewrite Qmake_Qdiv. unfold Qdiv. rewrite Qmult_assoc, <- inject_Z_mult, Hki. reflexivity. }
  assert (forall x, inject_Z k * Qabs x == Qabs (x * inject_Z k))%Q as Habs.
  { intros x. rewrite Qabs_Qmult, (Qabs_pos (inject_Z k)) by by apply Qlt_le_weak. ring. }
  assert (inject_Z k * (2 * Qabs (inject_Z n * (i # 100) - Rat d))
          == 2 * Qabs (inject_Z n - Rat d * inject_Z k))%Q as Hdist.
  { setoid_replace (inject_Z n - Rat d * inject_Z k)%Q
      with ((inject_Z n * (i # 100) - Rat d) * inject_Z k)%Q using relation Qeq.
    - rewrite <- Habs. ring.
    - transitivity (inject_Z n * (inject_Z k * (i # 100)) - Rat d * inject_Z k)%Q; [rewrite Hone|]; ring. }
  assert (n = round_half_away (coeff_at m (scale_of m 0)) (unit_at 0 (scale_of m 0))) as En
    by (unfold n; by rewrite Round_value).
  destruct (rha_spec (coeff_at m (scale_of m 0)) _ (unit_at_pos m 0)) as [N1 N2].
  rewrite <- En in N1, N2. split.
  - rewrite <- (Qmult_pos_le (inject_Z k)), Hdist, Hone by done. by apply R1.
  - intros Ht. rewrite <- (Qmult_pos_le (inject_Z k)) by done. rewrite !Habs.
    setoid_replace (inject_Z n * (i # 100) * inject_Z k)%Q with (inject_Z n) using relation Qeq.
    + apply R3, N2, R2. rewrite <- Hdist, Ht. done.
    + transitivity (inject_Z n * (inject_Z k * (i # 100)))%Q; [|rewrite Hone]; ring.
Qed.

(** ** Remainders *)

Lemma DivisionPrecision_16 : int32 DivisionPrecision = 16.
Proof. reflexivity. Qed.

(** Rounding a quotient to sixteen digits does not reach the next integer when
    the divisor is below 10^16. *)
Lemma rounded_quot a b :
  b <> 0 -> Z.abs b < 10 ^ 16 ->
  Z.quot (round_half_away (Z.sgn b * (a * 10 ^ 16)) (Z.abs b)) (10 ^ 16) = Z.quot a b.
Proof.
  intros Hb Hs. change (10 ^ 16) with 10000000000000000 in *.
  assert (forall a b, 0 <= a -> 0 < b < 10000000000000000 ->
    Z.quot (round_half_away (a * 10000000000000000) b) 10000000000000000 = Z.quot a b) as Hpos.
  { clear. intros a b Ha Hb. rewrite rha_nonneg by lia.
    assert (0 <= (2 * (a * 10000000000000000) + b) / (2 * b)) by (apply Z.div_pos; lia).
    rewrite !Z.quot_div_nonneg by lia. rewrite Z.div_div by lia.
    pose proof (Z.div_mod a b ltac:(lia)). pose proof (Z.mod_pos_bound a b ltac:(lia)).
    symmetry. apply (Z.div_unique_pos _ _ _ (2 * (a mod b) * 10000000000000000 + b)); nia. }
  assert (forall a, Z.quot (round_half_away (a * 10000000000000000) (Z.abs b)) 10000000000000000
                    = Z.quot a (Z.abs b)) as Hall.
  { apply (sign_ind (fun a => _)).
    - intros a' Ha. apply Hpos; lia.
    - intros a' Ha IH. by rewrite Z.mul_opp_l, rha_opp, !Z.quot_opp_l, IH by lia. }
  destruct (Z.lt_total b 0) as [?|[?|?]]; [|lia|].
  - rewrite Z.sgn_neg by lia. replace (-1 * (a * 10000000000000000)) with (- a * 10000000000000000) by lia.
    rewrite Hall, Z.abs_neq, Z.quot_opp_opp by lia. done.
  - rewrite Z.sgn_pos, Z.mul_1_l, Hall, Z.abs_eq by lia. done.
Qed.

(** On decimals of one scale, with a divisor of at most sixteen digits, [Mod]
    is the exact remainder of the truncated division: the sign of the dividend,
    and less than the divisor. *)
Theorem Mod_exact a b e (He : in_int32 e) (Hb : b <> 0) (Hs : Z.abs b < 10 ^ 16)
  (H1 : in_int32 (e - 16)) (H2 : in_int32 (e + 16)) :
  Mod (mkDec a e) (mkDec b e) = Ok (mkDec (Z.rem a b) e) /\
  Z.abs (Z.rem a b) < Z.abs b /\ 0 <= Z.rem a b * a.
Proof.
  split; [|split; [by apply Z.rem_bound_abs|by apply Z.rem_sign_mul]].
  unfold Mod, Div. rewrite DivisionPrecision_16.
  rewrite DivRound_value; [|unfold div_fits, in_int32 in *; cbn [exp mkDec]; lia|done].
  cbn [go_bind]. unfold div_num, div_den. cbn [exp mkDec]. rewrite Z.sub_diag.
  change (ival (mkDec a e)) with a. change (ival (mkDec b e)) with b.
  change (Z.max 0 (0 + 16)) with 16. change (Z.max 0 (- (0 + 16))) with 0. rewrite Z.pow_0_r, Z.mul_1_r.
  change (Z.opp 16) with (-16). set (t := round_half_away _ _).
  assert (Truncate (mkDec t (-16)) 0 = mkDec (Z.quot a b) 0) as ->.
  { unfold Truncate, rescale. cbn [exp mkDec]. simpl.
    change (ival (mkDec t (-16))) with t. change (10 ^ Z.abs (- 0 - -16)) with (10 ^ 16).
    unfold t. by rewrite rounded_quot. }
  rewrite Mul_fits by (cbn [exp mkDec]; by rewrite Z.add_0_r). cbn [go_bind exp mkDec]. rewrite Z.add_0_r.
  fold (mkDec a e). change (ival (mkDec b e)) with b. change (ival (mkDec (Z.quot a b) 0)) with (Z.quot a b).
  change ({| value := Some (b * Z.quot a b); exp := e |}) with (mkDec (b * Z.quot a b) e).
  change ({| value := Some a; exp := e |}) with (mkDec a e).
  rewrite Sub_same. do 2 f_equal. rewrite Z.rem_eq by done. lia.
Qed.

(** ** Powers *)

Lemma NewFromFloat_two : NewFromFloat float_two = Ok (mkDec 2 0).
Proof. vm_compute. reflexivity. Qed.

Lemma NewFromFloat_one : NewFromFloat float_one = Ok (mkDec 1 0).
Proof. vm_compute. reflexivity. Qed.

(** [v] is n/2^k to sixteen digits, as repeated halving leaves it: exact as long
    as 2^k divides n, and within one unit of the last digit otherwise. *)
Definition halved (n k v : Z) : Prop :=
  Z.abs (v * 2 ^ k - n * 10 ^ 16) <= 2 ^ k - 1 /\ (n mod 2 ^ k = 0 -> v * 2 ^ k = n * 10 ^ 16).

Lemma halved_0 n : halved n 0 (n * 10 ^ 16).
Proof. unfold halved. rewrite Z.pow_0_r. split; lia. Qed.

Lemma halved_step n k v : 0 <= k -> halved n k v -> halved n (k + 1) (round_half_away v 2).
Proof.
  intros Hk [H1 H2]. unfold halved. rewrite Z.pow_add_r, Z.pow_1_r by lia.
  assert (0 < 2 ^ k) by (apply Z.pow_pos_nonneg; lia).
  destruct (rha_spec v 2 ltac:(lia)) as [R _]. set (w := round_half_away v 2) in *. split.
  - nia.
  - intros Hm. apply Z.div_exact in Hm; [|lia].
    set (q := n / (2 ^ k * 2)) in *.
    assert (v = 2 * q * 10 ^ 16) as Hv.
    { assert (n mod 2 ^ k = 0) as E.
      { rewrite Hm. replace (2 ^ k * 2 * q) with (2 * q * 2 ^ k) by lia. by apply Z.mod_mul; lia. }
      specialize (H2 E). nia. }
    assert (w = q * 10 ^ 16) as ->.
    { unfold w. rewrite Hv. replace (2 * q * 10 ^ 16) with (q * 10 ^ 16 * 2) by lia. by apply rha_exact. }
    lia.
Qed.

Lemma halved_int n k v :
  0 <= n < 2 ^ 50 -> 0 <= k <= 50 -> halved n k v -> IntPart (mkDec v (-16)) = n / 2 ^ k.
Proof.
  intros Hn Hk [H1 H2]. unfold IntPart. rewrite ival_rescale. cbn [exp mkDec].
  change (ival (mkDec v (-16))) with v. change (quot_pow v (0 - -16)) with (Z.quot v (10 ^ 16)).
  assert (0 < 2 ^ k) by (apply Z.pow_pos_nonneg; lia).
  assert (2 ^ k <= 2 ^ 50) by (apply Z.pow_le_mono_r; lia).
  pose proof (Z.div_mod n (2 ^ k) ltac:(lia)) as Hd. pose proof (Z.mod_pos_bound n (2 ^ k) ltac:(lia)).
  assert (0 <= n / 2 ^ k <= n) by (split; [apply Z.div_pos; lia|apply Z.div_le_upper_bound; nia]).
  change (2 ^ 50) with 1125899906842624 in *. change (10 ^ 16) with 10000000000000000 in *.
  assert (Z.quot v 10000000000000000 = n / 2 ^ k) as ->; [|apply int64_small; unfold in_int64; lia].
  set (M := n / 2 ^ k) in *. set (r := n mod 2 ^ k) in *. set (p := 2 ^ k) in *.
  assert (M * 10000000000000000 <= v < (M + 1) * 10000000000000000) as Hv.
  { destruct (Z.eq_dec r 0) as [E|E]; [specialize (H2 E); nia|]. split; nia. }
  rewrite Z.quot_div_nonneg by lia. symmetry.
  apply (Z.div_unique_pos _ _ _ (v - M * 10000000000000000)); lia.
Qed.

Lemma in_int32_part e n m : 0 <= m <= n -> in_int32 (e * n) -> in_int32 (e * m).
Proof. unfold in_int32. intros. destruct (Z.le_ge_cases 0 e); split; nia. Qed.

(** One level of the recursion, for a positive exponent of integer part [M]. *)
Lemma Pow_step f d d2 M half :
  IntPart d2 = M -> 0 < M -> in_int32 (exp d * M) ->
  (let! two := NewFromFloat float_two in Div d2 two) = Ok half ->
  Pow f d half = Some (Ok (mkDec (ival d ^ (M / 2)) (exp d * (M / 2)))) ->
  Pow (S f) d d2 = Some (Ok (mkDec (ival d ^ M) (exp d * M))).
Proof.
  intros HM Hpos Hfit Hhalf Hrec. cbn [Pow]. rewrite HM, Hhalf, Hrec.
  destruct (Z.eqb_spec M 0); [lia|].
  pose proof (Z.div_mod M 2 ltac:(lia)) as Hdm. pose proof (Z.mod_pos_bound M 2 ltac:(lia)) as Hmb.
  rewrite Z.rem_mod_nonneg by lia. set (h := M / 2) in *.
  clearbody h. assert (0 <= h) by lia.
  rewrite (Mul_fits (mkDec (ival d ^ h) (exp d * h)));
    cbn [exp mkDec]; replace (exp d * h + exp d * h) with (exp d * (2 * h)) by lia;
    [|apply (in_int32_part _ M); [lia|done]].
  change (ival (mkDec (ival d ^ h) (exp d * h))) with (ival d ^ h).
  assert (ival d ^ h * ival d ^ h = ival d ^ (2 * h)) as -> by (rewrite <- Z.pow_add_r by lia; f_equal; lia).
  destruct (Z.eqb_spec (M mod 2) 0) as [E|E].
  - replace (2 * h) with M by lia. done.
  - assert (M = 2 * h + 1) as EM by lia. clear Hdm Hmb Hrec.
    destruct (Z.ltb_spec 0 M); [|lia]. cbn [go_bind].
    rewrite Mul_fits; cbn [exp mkDec]; replace (exp d * (2 * h) + exp d) with (exp d * M)
      by (rewrite EM; ring); [|done].
    change (ival (mkDec (ival d ^ (2 * h)) (exp d * (2 * h)))) with (ival d ^ (2 * h)).
    do 3 f_equal. replace M with (2 * h + 1) by lia. by rewrite Z.pow_add_r, Z.pow_1_r by lia.
Qed.

Lemma Div_two V e v :
  (e = 0 /\ V = v * 10 ^ 16) \/ (e = -16 /\ V = v) ->
  (let! two := NewFromFloat float_two in Div (mkDec v e) two) = Ok (mkDec (round_half_away V 2) (-16)).
Proof.
  intros H. rewrite NewFromFloat_two. cbn [go_bind]. unfold Div. rewrite DivisionPrecision_16.
  rewrite DivRound_value; [|destruct H as [[-> _]|[-> _]]; by vm_compute|done].
  do 2 f_equal. unfold div_num, div_den. change (ival (mkDec v e)) with v.
  change (ival (mkDec 2 0)) with 2. cbn [exp mkDec].
  destruct H as [[-> ->]|[-> ->]].
  - change (10 ^ Z.max 0 (- (0 - 0 + 16))) with 1. change (Z.max 0 (0 - 0 + 16)) with 16.
    change (Z.sgn (2 * 1)) with 1. by rewrite Z.mul_1_l.
  - change (10 ^ Z.max 0 (- (-16 - 0 + 16))) with 1. change (10 ^ Z.max 0 (-16 - 0 + 16)) with 1.
    change (Z.sgn (2 * 1)) with 1. by rewrite Z.mul_1_r, Z.mul_1_l.
Qed.

Lemma Pow_zero f d d2 : IntPart d2 = 0 -> Pow (S f) d d2 = Some (Ok (mkDec (ival d ^ 0) (exp d * 0))).
Proof. intros H. cbn [Pow]. rewrite H, Z.eqb_refl, NewFromFloat_one, Z.pow_0_r, Z.mul_0_r. done. Qed.

Lemma Pow_halved f d n k v :
  0 <= n < 2 ^ 50 -> 0 <= k -> k + Z.of_nat f <= 50 -> n / 2 ^ k < 2 ^ Z.of_nat f ->
  in_int32 (exp d * n) -> halved n k v ->
  Pow (S f) d (mkDec v (-16)) = Some (Ok (mkDec (ival d ^ (n / 2 ^ k)) (exp d * (n / 2 ^ k)))).
Proof.
  intros Hn. revert k v. induction f as [|f IH]; intros k v Hk Hkf Hm Hfit Hh;
    pose proof (halved_int n k v Hn ltac:(lia) Hh) as Hi;
    assert (0 < 2 ^ k) by (apply Z.pow_pos_nonneg; lia);
    assert (0 <= n / 2 ^ k <= n) by (split; [apply Z.div_pos; lia|apply Z.div_le_upper_bound; nia]).
  - simpl in Hm. assert (n / 2 ^ k = 0) as E by lia. rewrite E in *. by apply Pow_zero.
  - destruct (Z.eq_dec (n / 2 ^ k) 0) as [E|E]; [rewrite E in *; by apply Pow_zero|].
    assert (n / 2 ^ k / 2 = n / 2 ^ (k + 1)) as Ed.
    { rewrite Z.div_div, Z.pow_add_r by lia. done. }
    eapply Pow_step; [done|lia|by apply (in_int32_part _ n)|by apply (Div_two v); auto|].
    rewrite Ed. apply IH; [lia|lia| |done|by apply halved_step].
    rewrite <- Ed. apply Z.div_lt_upper_bound; [lia|]. rewrite Nat2Z.inj_succ, Z.pow_succ_r in Hm by lia. lia.
Qed.

(** C29 [Pow] with a non-negative integer exponent below 2^50, given with the
    decimal exponent 0, whose result has an int32 exponent, returns after at most 51 calls,
    and is the exact power, although every halving of the exponent is rounded
    to sixteen digits. *)
Theorem Pow_integer d n (Hn : 0 <= n < 2 ^ 50) (Hfit : in_int32 (exp d * n)) :
  Pow 51 d (New n 0) = Some (Ok (mkDec (ival d ^ n) (exp d * n))).
Proof.
  assert (IntPart (New n 0) = n) as Hi.
  { unfold IntPart, New. rewrite rescale_same by done. apply int64_small. unfold in_int64. cbn. lia. }
  destruct (Z.eq_dec n 0) as [->|]; [by apply Pow_zero|].
  eapply Pow_step; [done|lia|done|apply (Div_two (n * 10 ^ 16)); auto|].
  apply (Pow_halved 49 d n (0 + 1)); [done|lia|lia| |done|].
  - change (2 ^ (0 + 1)) with 2. apply Z.div_lt_upper_bound; [lia|].
    change (2 * 2 ^ Z.of_nat 49) with (2 ^ 50). lia.
  - apply halved_step; [lia|]. apply halved_0.
Qed.

(** ** Floats *)

(** The finite number that the bits of a float64 denote. *)
Definition float_value (bits : Z) : Q :=
  let m := if float_exp bits =? 0 then float_mant bits else float_mant bits + 2 ^ 52 in
  let e := (if float_exp bits =? 0 then 1 else float_exp bits) - 1075 in
  let q := (inject_Z m * (2 # 1) ^ e)%Q in
  if float_sign bits =? 1 then (- q)%Q else q.

Definition finite_float (bits : Z) : Prop := 0 <= bits < 2 ^ 64 /\ float_exp bits <> 2047.

Lemma float_mant_range bits : 0 <= float_mant bits < 2 ^ 52.
Proof. unfold float_mant. change (2 ^ 52 - 1) with (Z.ones 52). rewrite Z.land_ones by lia. apply Z.mod_pos_bound. lia. Qed.

Lemma float_exp_range bits : 0 <= float_exp bits < 2048.
Proof. unfold float_exp. change (2 ^ 11 - 1) with (Z.ones 11). rewrite Z.land_ones by lia. apply Z.mod_pos_bound. lia. Qed.

Lemma lor_high m : 0 <= m < 2 ^ 52 -> Z.lor m (2 ^ 52) = m + 2 ^ 52.
Proof.
  intros Hm. assert (Z.land m (2 ^ 52) = 0) as E; [|by rewrite Z.add_nocarry_lxor, Z.lxor_lor].
  apply Z.bits_inj'. intros i Hi. rewrite Z.land_spec, Z.bits_0, Z.pow2_bits_eqb by lia.
  destruct (Z.eqb_spec 52 i) as [<-|]; [|apply andb_false_r]. rewrite andb_true_r.
  destruct (Z.eq_dec m 0) as [->|]; [apply Z.bits_0|].
  apply Z.bits_above_log2; [lia|]. apply Z.log2_lt_pow2; lia.
Qed.

Lemma normalise_spec f m x :
  0 < m < 2 ^ Z.of_nat f -> MinInt32 <= x -> x + Z.of_nat f <= MaxInt32 ->
  exists m' x', normalise f m x = (m', x') /\ 0 < m' /\ Z.odd m' = true /\ x <= x' <= x + Z.of_nat f /\ m = m' * 2 ^ (x' - x).
Proof.
  revert m x. induction f as [|f IH]; intros m x Hm Hx Hxf; [simpl in Hm; lia|].
  cbn [normalise]. rewrite Nat2Z.inj_succ in *. rewrite Z.pow_succ_r in Hm by lia.
  change 1 with (Z.ones 1) at 1. rewrite Z.land_ones by lia. change (2 ^ 1) with 2.
  destruct (Z.eqb_spec (m mod 2) 0) as [E|E].
  - pose proof (Z.div_mod m 2 ltac:(lia)). rewrite Z.shiftr_div_pow2 by lia. change (2 ^ 1) with 2.
    rewrite int32_small by (unfold in_int32; lia).
    destruct (IH (m / 2) (x + 1)) as (m' & x' & -> & Hp & Ho & Hr & Hv); [lia|lia|lia|].
    exists m', x'. split_and!; [done|done|done|lia|lia|].
    replace (x' - x) with (x' - (x + 1) + 1) by lia. rewrite Z.pow_add_r, Z.pow_1_r by lia. lia.
  - exists m, x. split_and!; [done|lia|rewrite Zmod_odd in E; by destruct (Z.odd m)|lia|lia|]. rewrite Z.sub_diag, Z.pow_0_r. lia.
Qed.

Lemma half_down_div a t : 0 <= a -> 0 < t -> Z.quot (a + Z.shiftr t 1) t = round_half_away a t.
Proof.
  intros Ha Ht. rewrite rha_nonneg, Z.shiftr_div_pow2 by lia. change (2 ^ 1) with 2.
  assert (0 <= t / 2) by (apply Z.div_pos; lia).
  rewrite Z.quot_div_nonneg by lia.
  pose proof (Z.div_mod (a + t / 2) t ltac:(lia)). pose proof (Z.mod_pos_bound (a + t / 2) t ltac:(lia)).
  pose proof (Z.div_mod t 2 ltac:(lia)). pose proof (Z.mod_pos_bound t 2 ltac:(lia)).
  apply (Z.div_unique_pos _ _ _ (2 * ((a + t / 2) mod t) + t mod 2)); nia.
Qed.

(** The exponent that the result has, for a float m * 2^x with odd m. *)
Definition float_target (x e : Z) : Z :=
  if (e <? 0) && (e <? x) then (if x <? 0 then x else 0) else e.

(** The scaled numerator and denominator that are divided with rounding. *)
Definition float_num (m x e : Z) : Z := m * 5 ^ Z.max 0 (- e) * 2 ^ Z.max 0 (x - e).
Definition float_den (x e : Z) : Z := 5 ^ Z.max 0 e * 2 ^ Z.max 0 (e - x).

Lemma float_den_pos x e : 0 < float_den x e.
Proof. unfold float_den. apply Z.mul_pos_pos; apply Z.pow_pos_nonneg; lia. Qed.

Lemma float_scaled m x e :
  (inject_Z m * (2 # 1) ^ x * inject_Z (float_den x e) == inject_Z (float_num m x e) * (10 # 1) ^ e)%Q.
Proof.
  unfold float_den, float_num. rewrite !inject_Z_mult.
  rewrite !Zpower_Qpower by lia. change (10 # 1)%Q with (inject_Z (2 * 5)). rewrite inject_Z_mult, Qmult_power.
  change (inject_Z 2) with (2 # 1)%Q. change (inject_Z 5) with (5 # 1)%Q.
  replace (Z.max 0 e) with (Z.max 0 (- e) + e) by lia.
  rewrite (Qpower_plus (5 # 1)) by discriminate.
  transitivity (inject_Z m * ((2 # 1) ^ x * (2 # 1) ^ Z.max 0 (e - x)) * ((5 # 1) ^ Z.max 0 (- e) * (5 # 1) ^ e))%Q;
    [ring|]. rewrite <- (Qpower_plus (2 # 1)) by discriminate.
  replace (x + Z.max 0 (e - x)) with (Z.max 0 (x - e) + e) by lia.
  rewrite (Qpower_plus (2 # 1)) by discriminate. ring.
Qed.

Lemma float_num_nonneg m x e : 0 < m -> 0 <= float_num m x e.
Proof.
  intros. unfold float_num.
  apply Z.mul_nonneg_nonneg; [apply Z.mul_nonneg_nonneg|]; [lia|apply Z.pow_nonneg; lia..].
Qed.

Lemma half_down_eq m x e a t :
  0 < m -> a = float_num m x e -> t = float_den x e ->
  Z.quot (a + Z.shiftr t 1) t = round_half_away (float_num m x e) (float_den x e).
Proof.
  intros Hm -> ->. apply half_down_div; [by apply float_num_nonneg|apply float_den_pos].
Qed.

Lemma no_rounding_eq m x e a :
  a = float_num m x e -> 1 = float_den x e -> a = round_half_away (float_num m x e) (float_den x e).
Proof. intros -> <-. by rewrite rha_1. Qed.

Ltac float_max :=
  try assumption; unfold float_num, float_den;
  repeat (first [rewrite Z.max_l by lia | rewrite Z.max_r by lia]);
  rewrite ?Z.pow_0_r; first [done | ring].

Lemma float_core bits e :
  finite_float bits -> in_int32 e -> e <= 2147480000 -> float_mant bits <> 0 \/ float_exp bits <> 0 ->
  exists m x, 0 < m /\ Z.odd m = true /\ -1100 <= x <= 1100 /\
    (float_value bits == (if (float_sign bits =? 1)%Z then - (inject_Z m * (2 # 1) ^ x) else inject_Z m * (2 # 1) ^ x))%Q /\
    NewFromFloatWithExponent bits e =
      Ok (let e' := float_target x e in
          let n := round_half_away (float_num m x e') (float_den x e') in
          mkDec (if float_sign bits =? 1 then - n else n) e').
Proof.
  intros [Hb Hinf] He Hemax Hnz. unfold NewFromFloatWithExponent, float_value.
  pose proof (float_mant_range bits) as Hm. pose proof (float_exp_range bits) as Hx.
  set (mant := float_mant bits) in *. set (x0 := float_exp bits) in *. set (sg := float_sign bits).
  destruct (Z.eqb_spec x0 2047); [done|].
  assert ((x0 =? 0) && (mant =? 0) = false) as -> by (zbool; simpl; lia).
  set (m0 := if x0 =? 0 then mant else mant + 2 ^ 52).
  set (x1 := (if x0 =? 0 then 1 else x0) - 1075).
  assert ((if x0 =? 0 then (mant, x0 + 1) else (Z.lor mant (2 ^ 52), x0)) = (m0, x1 + 1075)) as ->.
  { unfold m0, x1. destruct (Z.eqb_spec x0 0) as [->|]; [done|]. rewrite lor_high by done. f_equal. lia. }
  assert (0 < m0 < 2 ^ Z.of_nat 53) as Hm0.
  { unfold m0. change (2 ^ Z.of_nat 53) with (2 * 2 ^ 52). destruct (Z.eqb_spec x0 0); lia. }
  assert (-1074 <= x1 <= 972) as Hx1 by (unfold x1; destruct (Z.eqb_spec x0 0); lia).
  replace (int32 (x1 + 1075 - (1023 + 52))) with x1
    by (replace (x1 + 1075 - (1023 + 52)) with x1 by lia; rewrite int32_small; unfold in_int32; lia).
  destruct (normalise_spec 53 m0 x1) as (m & x & -> & Hmp & Hodd & Hxr & Hv); [done|lia|lia|].
  exists m, x. split; [done|]. split; [done|]. split; [lia|]. split.
  { assert (inject_Z m0 * (2 # 1) ^ x1 == inject_Z m * (2 # 1) ^ x)%Q as E.
    { rewrite Hv, inject_Z_mult, Zpower_Qpower by lia. change (inject_Z 2) with (2 # 1)%Q.
      rewrite <- Qmult_assoc, <- Qpower_plus by discriminate. by replace (x - x1 + x1) with x by lia. }
    destruct (sg =? 1); by rewrite E. }
  fold (float_target x e). set (e' := float_target x e).
  assert (in_int32 (x - e') /\ MinInt32 < x - e' /\ e' <= 2147480000 /\ (e' < 0 -> -e' <= MaxInt32 \/ x <= e')) as (F1 & F2 & F3 & F4).
  { unfold e', float_target, in_int32 in *. destruct (Z.ltb_spec e 0), (Z.ltb_spec e x), (Z.ltb_spec x 0); simpl; lia. }
  rewrite (int32_small (x - e')) by done. cbv zeta.
  assert (forall n, n = round_half_away (float_num m x e') (float_den x e') ->
    @Ok gostring _ (mkDec (if sg =? 1 then - n else n) e') =
    Ok (mkDec (if sg =? 1 then - round_half_away (float_num m x e') (float_den x e')
               else round_half_away (float_num m x e') (float_den x e')) e')) as Hfin by by intros ? ->.
  replace (- (x - e')) with (e' - x) by lia.
  destruct (Z.ltb_spec 0 e'), (Z.ltb_spec e' 0), (Z.ltb_spec 0 (x - e')), (Z.ltb_spec (x - e') 0);
    try lia; cbn [orb]; apply Hfin;
    rewrite ?(int32_small (e' - x)), ?(uwrap_small 64 (e' - x)), ?Z.shiftl_mul_pow2
      by (unfold in_int32 in *; lia);
    (apply half_down_eq || apply no_rounding_eq); float_max.
Qed.

Lemma float_zero bits e :
  float_mant bits = 0 -> float_exp bits = 0 ->
  NewFromFloatWithExponent bits e = Ok Decimal0 /\ (float_value bits == 0)%Q.
Proof.
  intros Hm Hx. unfold NewFromFloatWithExponent, float_value. rewrite Hm, Hx. split; [done|].
  destruct (float_sign bits =? 1); simpl; ring.
Qed.

Lemma Qs_dist q a b e n :
  0 < b -> (q * inject_Z b == inject_Z a * (10 # 1) ^ e)%Q ->
  (Qabs (Qs n e - q) * inject_Z b == Qs (Z.abs (a - n * b)) e)%Q.
Proof.
  intros Hb E. assert (0 <= inject_Z b)%Q as Hbq by (change 0%Q with (inject_Z 0); rewrite <- Zle_Qle; lia).
  rewrite <- (Qabs_pos (inject_Z b)) at 1 by done. rewrite <- Qabs_Qmult.
  replace (a - n * b) with (- (n * b - a)) by lia. rewrite Z.abs_opp, <- Qs_abs. f_equiv.
  rewrite <- Qs_sub. unfold Qs. rewrite inject_Z_mult, <- E. ring.
Qed.

(** An odd number of fives ends in 5. *)
Lemma odd_fives m k : Z.odd m = true -> 0 < k -> (m * 5 ^ k) mod 10 = 5.
Proof.
  intros Hm Hk. replace k with (k - 1 + 1) by lia. rewrite Z.pow_add_r, Z.pow_1_r by lia.
  assert (Z.odd (m * 5 ^ (k - 1)) = true) as Ho by (rewrite Z.odd_mul, Hm; destruct (decide (k - 1 = 0)) as [->|]; [done|by rewrite Z.odd_pow by lia]).
  apply Z.odd_spec in Ho as [q Hq]. replace (m * (5 ^ (k - 1) * 5)) with (5 + q * 10) by (rewrite Z.mul_assoc, Hq; ring). by rewrite Z.mod_add.
Qed.

Lemma opp_mod_10_5 a : a mod 10 = 5 -> (- a) mod 10 = 5.
Proof. intros H. pose proof (Z.div_mod a 10 ltac:(lia)). replace (- a) with (5 + (- (a / 10) - 1) * 10) by lia. by rewrite Z.mod_add. Qed.

Lemma NewFromFloat_value bits :
  finite_float bits ->
  exists d, NewFromFloat bits = Ok d /\ wf_decimal d /\ (Rat d == float_value bits)%Q /\
    exp d <= 0 /\ (exp d < 0 -> ival d mod 10 = 5).
Proof.
  intros Hf. unfold NewFromFloat.
  destruct (decide (float_mant bits = 0 /\ float_exp bits = 0)) as [[H1 H2]|H].
  - destruct (float_zero bits MinInt32 H1 H2) as [-> Hz]. exists Decimal0. by rewrite Hz.
  - destruct (float_core bits MinInt32) as (m & x & Hm & Hodd & Hx & Hv & ->); [done|done|lia|lia|].
    assert (float_target x MinInt32 = Z.min 0 x) as ->.
    { unfold float_target. destruct (Z.ltb_spec MinInt32 x); [|lia]. cbn [Z.ltb andb].
      destruct (Z.ltb_spec x 0); simpl; lia. }
    set (e := Z.min 0 x). cbv zeta. pose proof (float_scaled m x e) as Hs.
    assert (float_den x e = 1) as Hd by (unfold float_den; rewrite !Z.max_l by lia; done).
    rewrite Hd in Hs |- *. rewrite rha_1. rewrite Qmult_1_r in Hs.
    eexists. split; [done|]. split_and!.
    + unfold wf_decimal, in_int32. cbn [exp mkDec]. lia.
    + rewrite Hv. destruct (float_sign bits =? 1); rewrite Rat_mkDec, Hs; unfold Qs; [rewrite inject_Z_opp; ring|done].
    + cbn [exp mkDec]. lia.
    + cbn [exp mkDec]. intros He. assert (float_num m x e mod 10 = 5) as Hfive.
      { unfold float_num. rewrite (Z.max_l 0 (x - e)), Z.mul_1_r, Z.max_r by lia. apply odd_fives; [done|lia]. }
      destruct (float_sign bits =? 1); [by apply opp_mod_10_5|done].
Qed.

(** C30 [NewFromFloat] is exact: the decimal stands for the very number that the
    float64 denotes, with as many fractional digits as that number has, the last
    of them a 5; it is never rounded to a shorter text, as the examples in the
    comments of the functions assume. *)
Theorem NewFromFloat_exact bits (Hf : finite_float bits) :
  exists d, NewFromFloat bits = Ok d /\ wf_decimal d /\ (Rat d == float_value bits)%Q /\
    exp d <= 0 /\ (exp d < 0 -> ival d mod 10 = 5).
Proof. by apply NewFromFloat_value. Qed.

(** [NewFromFloatWithExponent] is within half a unit of the requested digit of
    the float, and on the far side from zero when two results are equally
    near. *)
Theorem NewFromFloatWithExponent_nearest bits e
  (Hf : finite_float bits) (He : in_int32 e) (Hmax : e <= 2147480000) :
  exists d, NewFromFloatWithExponent bits e = Ok d /\
    (2 * Qabs (Rat d - float_value bits) <= (10 # 1) ^ e)%Q /\
    ((2 * Qabs (Rat d - float_value bits) == (10 # 1) ^ e)%Q ->
     (Qabs (float_value bits) <= Qabs (Rat d))%Q).
Proof.
  pose proof (tenQ_pos e) as Hte.
  destruct (decide (float_mant bits = 0 /\ float_exp bits = 0)) as [[H1 H2]|H].
  - destruct (float_zero bits e H1 H2) as [-> Hz]. exists Decimal0. split; [done|]. rewrite Hz.
    setoid_replace (Rat Decimal0 - 0)%Q with 0%Q using relation Qeq by reflexivity.
    change (Qabs 0) with 0%Q. split; [lra|]. intros ?. lra.
  - destruct (float_core bits e) as (m & x & Hm & _ & Hx & Hv & ->); [done|done|lia|lia|].
    set (e' := float_target x e). cbv zeta. eexists. split; [done|]. rewrite Hv. clear Hv.
    pose proof (float_scaled m x e') as Hs. pose proof (float_den_pos x e') as Hd.
    destruct (rha_spec (float_num m x e') (float_den x e') Hd) as [R1 R2].
    set (n := round_half_away _ _) in *. set (b := float_den x e') in *. set (a := float_num m x e') in *.
    set (q := (inject_Z m * (2 # 1) ^ x)%Q) in *.
    assert (e' = e \/ (b = 1 /\ e < e')) as Hcase.
    { unfold b, e', float_target, float_den. destruct (Z.ltb_spec e 0), (Z.ltb_spec e x); auto.
      destruct (Z.ltb_spec x 0); simpl; right; rewrite !Z.max_l by lia; split; done || lia. }
    assert (Qabs (Rat (mkDec (if float_sign bits =? 1 then - n else n) e') -
             (if float_sign bits =? 1 then - q else q)) ==
            Qabs (Qs n e' - q))%Q as ->.
    { destruct (float_sign bits =? 1); rewrite Rat_mkDec; [|done]. rewrite <- Qs_opp.
      rewrite <- (Qabs_opp (Qs n e' - q)). f_equiv. ring. }
    pose proof (Qs_dist q a b e' n Hd Hs) as HD. set (D := Qabs (Qs n e' - q)) in *.
    assert (0 < inject_Z b)%Q as Hbq by (change 0%Q with (inject_Z 0); by rewrite <- Zlt_Qlt).
    destruct Hcase as [He'|[Hb1 He']].
    + rewrite He' in *. rewrite Qs_ten. split.
      * apply (Qmult_le_r _ _ (inject_Z b)); [done|].
        rewrite <- Qmult_assoc, HD, Qs_double, Qs_inject, Qs_mul, Z.add_0_r, Qs_le. lia.
      * intros Ht. assert (2 * Z.abs (a - n * b) = b) as Ht'.
        { rewrite <- (Z.mul_1_l b) at 2. apply (Qs_eq _ _ (e + 0)).
          rewrite <- (Qs_mul 1 b), <- (Qs_inject b), <- Ht, <- Qmult_assoc, HD, Qs_double. by rewrite Z.add_0_r. }
        specialize (R2 Ht').
        assert (Qabs (if float_sign bits =? 1 then - q else q) == Qabs q)%Q as ->
          by (destruct (float_sign bits =? 1); [apply Qabs_opp|done]).
        assert (Qabs (Rat (mkDec (if float_sign bits =? 1 then - n else n) e)) == Qs (Z.abs n) e)%Q as ->
          by (destruct (float_sign bits =? 1); rewrite Rat_mkDec, Qs_abs, ?Z.abs_opp; done).
        apply (Qmult_le_r _ _ (inject_Z b)); [done|].
        rewrite <- (Qabs_pos (inject_Z b)) at 1 by by apply Qlt_le_weak.
        rewrite <- Qabs_Qmult, Hs. fold (Qs a e). rewrite Qs_abs, Qs_inject, Qs_mul, Z.add_0_r, Qs_le.
        rewrite Z.abs_mul, (Z.abs_eq b) in R2 by lia. done.
    + assert (n = a) as Hna by (unfold n; rewrite Hb1; apply rha_1).
      assert (D == 0)%Q as HD0.
      { rewrite Hb1, Hna in HD. replace (a - a * 1) with 0 in HD by lia. simpl Z.abs in HD.
        rewrite Qs_0 in HD. rewrite <- HD. change (inject_Z 1) with 1%Q. ring. }
      rewrite HD0. split; [lra|]. intros ?. lra.
Qed.

(** ** Where the code departs from its documentation *)

(** The overflow check of [QuoRem] tests a number that the int32 subtraction has
    already wrapped, so it never fires. *)
Theorem QuoRem_check_dead d d2 p msg :
  QuoRem d d2 p = Panicked msg -> msg = "decimal division by 0".
Proof.
  unfold QuoRem. set (e := int32 (int32 (exp d - exp d2) - int32 (- p))).
  pose proof (int32_range (int32 (exp d - exp d2) - int32 (- p))) as H. fold e in H. unfold in_int32 in H.
  destruct (Z.ltb_spec MaxInt32 e), (Z.ltb_spec e MinInt32); try lia.
  cases; naive_solver.
Qed.

(** Interval 15 computes its unit with an exclusive or: 3.40 becomes 3.30, and
    3.5 becomes 2.4. *)
Theorem RoundCash_15 :
  RoundCash (New 340 (-2)) 15 = Ok (mkDec 330 (-2)) /\
  RoundCash (New 35 (-1)) 15 = Ok (mkDec 240 (-2)).
Proof. split; vm_compute; reflexivity. Qed.

(** A quotient that rounds up to one gives a negative remainder. *)
Theorem Mod_rounded :
  Mod (New 999999999999999999 (-18)) (New 1 0) = Ok (mkDec (-1) (-18)).
Proof. vm_compute. reflexivity. Qed.

(** ** Witnesses: the hypotheses hold on concrete inputs *)

Lemma roundings_nearest_witness :
  places_ok 1 /\ exp (Round (New (-545) (-2)) 1) = - 1 /\ Round (New (-545) (-2)) 1 = mkDec (-55) (-1) /\
  exp (RoundBank (New 545 (-2)) 1) = - 1 /\ RoundBank (New 545 (-2)) 1 = mkDec 54 (-1).
Proof.
  assert (places_ok 1) as Hp by done. split; [exact Hp|].
  split; [apply (roundings_nearest (New (-545) (-2)) 1 Hp)|]. split; [vm_compute; reflexivity|].
  split; [apply (roundings_nearest (New 545 (-2)) 1 Hp)|vm_compute; reflexivity].
Defined.

Lemma Truncate_spec_witness :
  0 <= 2 /\ - (2) <= exp (Truncate (New 123456 (-3)) 2) /\ Truncate (New 123456 (-3)) 2 = mkDec 12345 (-2).
Proof.
  assert (0 <= 2) as Hp by lia. split; [exact Hp|].
  split; [apply (Truncate_spec (New 123456 (-3)) 2 Hp)|vm_compute; reflexivity].
Defined.

Lemma QuoRem_spec_witness :
  exists q r, QuoRem (New 17 0) (New (-3) 0) 2 = Ok (q, r) /\ exp q = - 2 /\ q = mkDec (-566) (-2).
Proof.
  destruct (QuoRem_spec (New 17 0) (New (-3) 0) 2) as (q & r & E & He & _); [by vm_compute|done|].
  exists q, r. split; [exact E|]. split; [exact He|]. vm_compute in E. by injection E as <- <-.
Defined.

Lemma DivRound_nearest_witness :
  exists r, DivRound (New 2 0) (New 3 0) 16 = Ok r /\ exp r = - 16 /\ r = mkDec 6666666666666667 (-16).
Proof.
  destruct (DivRound_nearest (New 2 0) (New 3 0) 16) as (r & E & He & _); [by vm_compute|done|].
  exists r. split; [exact E|]. split; [exact He|]. vm_compute in E. by injection E as <-.
Defined.

Lemma RoundCash_nearest_witness :
  exists r, RoundCash (New 343 (-2)) 5 = Ok r /\ exp r = -2 /\ r = mkDec 345 (-2).
Proof.
  destruct (RoundCash_nearest (New 343 (-2)) 5 20) as (r & E & He & _); [done|done|].
  exists r. split; [exact E|]. split; [exact He|]. vm_compute in E. by injection E as <-.
Defined.

Lemma Mod_exact_witness :
  Mod (mkDec (-1234) (-2)) (mkDec 500 (-2)) = Ok (mkDec (-234) (-2)).
Proof. apply (Mod_exact (-1234) 500 (-2)); done. Defined.

Lemma Pow_integer_witness : Pow 51 (New 12 (-1)) (New 3 0) = Some (Ok (mkDec 1728 (-3))).
Proof. apply (Pow_integer (New 12 (-1)) 3); done. Defined.

(** The float64 of the first example in the comment of [NewFromFloat],
    123.45678901234567: all its 43 fractional digits come out. *)
Lemma NewFromFloat_exact_witness :
  exists d, NewFromFloat 4638387916139875480 = Ok d /\ (Rat d == float_value 4638387916139875480)%Q /\ ival d mod 10 = 5 /\
    d = mkDec 1234567890123456663786782883107662200927734375 (-43).
Proof.
  destruct (NewFromFloat_exact 4638387916139875480) as (d & E & _ & Hq & _ & H5); [by vm_compute|].
  exists d. split; [exact E|]. split; [exact Hq|]. vm_compute in E. injection E as <-. split; [by apply H5|reflexivity].
Defined.

Lemma NewFromFloatWithExponent_nearest_witness :
  exists d, NewFromFloatWithExponent 4591870180066957722 (-3) = Ok d /\ d = mkDec 100 (-3).
Proof.
  destruct (NewFromFloatWithExponent_nearest 4591870180066957722 (-3)) as (d & E & _);
    [by vm_compute|by vm_compute|lia|].
  exists d. split; [exact E|]. vm_compute in E. by injection E as <-.
Defined.
