(* ===== verification/DecimalText.v ===== *)
(** * DecimalText: the textual and binary forms of [pkg/util/decimal.go]

    Parsing, printing, JSON, the binary encoding and the database interfaces
    of a [Decimal], with their round trips. *)
From S2P Require Import Prelude GoStr Decimals DecRound.
From Stdlib Require Import QArith Qabs Lqa.

#[global] Open Scope Z_scope.
#[global] Open Scope go_scope.

(** ** Parsing *)

Definition cant_convert (value reason : gostring) : gostring :=
  "can't convert " ++ value ++ " to decimal" ++ reason.

(** The number in front of an exponent, and the exponent. *)
Definition split_exponent (value : gostring) : go gostring (gostring * Z) :=
  match IndexAny value "Ee" with
  | Some eIndex =>
    match ParseInt (drop (S eIndex) value) 32 with
    | (expInt, None) => Ok (take eIndex value, expInt)
    | (_, Some ErrRange) => Err (cant_convert value ": fractional part too long")
    | (_, Some ErrSyntax) => Err (cant_convert value ": exponent is not numeric")
    end
  | None => Ok (value, 0)
  end.

Definition NewFromString (originalInput : gostring) : go gostring Decimal :=
  let! ' (value, exp) := split_exponent originalInput in
  let! ' (intString, exp) :=
    match Split value "."%char with
    | [_] => Ok (value, exp)
    | [p0; p1] =>
      let decimalPart := TrimRightByte p1 "0"%char in
      Ok (p0 ++ decimalPart, exp + - Z.of_nat (length decimalPart))
    | _ => Err (cant_convert value ": too many .s")
    end in
  match SetString10 intString with
  | None => Err (cant_convert value "")
  | Some dValue =>
    if (exp <? MinInt32) || (MaxInt32 <? exp)
    then Err (cant_convert originalInput ": fractional part too long")
    else Ok (mkDec dValue (int32 exp))
  end.

Definition RequireFromString (value : gostring) : go gostring Decimal :=
  match NewFromString value with
  | Err err => Panicked err
  | r => r
  end.

(** ** Printing *)

Definition nil_panic {A} : go gostring A := Panicked "invalid memory address or nil pointer dereference".

(** The method [string]; it reads the coefficient of a negative exponent without
    initialising it. *)
Definition string (d : Decimal) (trimTrailingZeros : bool) : go gostring gostring :=
  if 0 <=? exp d then Ok (FormatInt (ival (rescale d 0)))
  else
    match value d with
    | None => nil_panic
    | Some v =>
      let str := FormatInt (Z.abs v) in
      let dExpInt := exp d in
      let '(intPart, fractionalPart) :=
        if - dExpInt <? Z.of_nat (length str)
        then (take (Z.to_nat (Z.of_nat (length str) + dExpInt)) str,
              drop (Z.to_nat (Z.of_nat (length str) + dExpInt)) str)
        else
          let num0s := Z.to_nat (- dExpInt - Z.of_nat (length str)) in
          ("0", Repeat "0" num0s ++ str) in
      let fractionalPart :=
        if trimTrailingZeros then TrimRightByte fractionalPart "0"%char else fractionalPart in
      let number :=
        match fractionalPart with
        | [] => intPart
        | _ => intPart ++ "." ++ fractionalPart
        end in
      Ok (if big_sign v <? 0 then "-" ++ number else number)
    end.

Definition String (d : Decimal) : go gostring gostring := string d true.
Definition StringFixed (d : Decimal) (places : Z) : go gostring gostring := string (Round d places) false.
Definition StringFixedBank (d : Decimal) (places : Z) : go gostring gostring :=
  string (RoundBank d places) false.
Definition StringFixedCash (d : Decimal) (interval : Z) : go gostring gostring :=
  let! rounded := RoundCash d interval in string rounded false.
Definition StringScaled (d : Decimal) (exp : Z) : go gostring gostring := String (rescale d exp).

(** ** JSON, text and database values *)

(** The dynamic values that reach [Scan]: those of the database drivers, and any
    other one with its renderings by the verbs [%+v] and [%T]. *)
Inductive dbvalue :=
| DBFloat32 (bits : Z)
| DBFloat64 (bits : Z)
| DBInt64 (n : Z)
| DBString (s : gostring)
| DBBytes (s : gostring)
| DBOther (plusv typ : gostring).

Definition unquoteIfQuoted (value : dbvalue) : go gostring gostring :=
  let strip bytes :=
    if (2 <? length bytes)%nat && bool_decide (head bytes = Some dquote) &&
       bool_decide (last bytes = Some dquote)
    then take (length bytes - 2) (drop 1 bytes) else bytes in
  match value with
  | DBString v => Ok (strip v)
  | DBBytes v => Ok (strip v)
  | DBOther plusv typ => Err ("Could not convert value '" ++ plusv ++ "' to byte array of type '" ++ typ ++ "'")
  | DBFloat32 _ | DBFloat64 _ | DBInt64 _ => Err "Could not convert value"
  end.

(** A method with a pointer receiver returns the new receiver and the error. *)
Definition decode_error (str err : gostring) : gostring :=
  "Error decoding string '" ++ str ++ "': " ++ err.

(** [*d, err = NewFromString(str)]: the zero decimal is stored on an error. *)
Definition assign_from_string (str : gostring) : Decimal * option gostring :=
  match NewFromString str with
  | Ok d => (d, None)
  | Err err | Panicked err => (Decimal0, Some err)
  end.

Definition UnmarshalJSON (d : Decimal) (decimalBytes : gostring) : Decimal * option gostring :=
  if eqs decimalBytes "null" then (d, None)
  else
    match unquoteIfQuoted (DBBytes decimalBytes) with
    | Ok str =>
      let '(d', err) := assign_from_string str in (d', decode_error str <$> err)
    | Err err | Panicked err => (d, Some (decode_error decimalBytes err))
    end.

Definition MarshalJSON (MarshalJSONWithoutQuotes : bool) (d : Decimal) : go gostring gostring :=
  let! s := String d in
  Ok (if MarshalJSONWithoutQuotes then s else [dquote] ++ s ++ [dquote]).

Definition UnmarshalText (text : gostring) : Decimal * option gostring :=
  let '(d', err) := assign_from_string text in (d', decode_error text <$> err).

Definition MarshalText (d : Decimal) : go gostring gostring := String d.

(** The conversion of a float32 to a float64, on the bits. *)
Definition float32_to_float64 (bits : Z) : Z :=
  let m := Z.land bits (2 ^ 23 - 1) in
  let e := Z.land (Z.shiftr bits 23) 255 in
  let s := Z.shiftl (Z.shiftr bits 31) 63 in
  if e =? 255 then s + Z.shiftl 2047 52 + Z.shiftl m 29
  else if (e =? 0) && (m =? 0) then s
  else if e =? 0 then
    let k := Z.log2 m in s + Z.shiftl (k + 874) 52 + Z.shiftl (m - 2 ^ k) (52 - k)
  else s + Z.shiftl (e + 896) 52 + Z.shiftl m 29.

Definition Scan (d : Decimal) (value : dbvalue) : go gostring (Decimal * option gostring) :=
  match value with
  | DBFloat32 v => let! d' := NewFromFloat (float32_to_float64 v) in Ok (d', None)
  | DBFloat64 v => let! d' := NewFromFloat v in Ok (d', None)
  | DBInt64 v => Ok (New v 0, None)
  | _ =>
    match unquoteIfQuoted value with
    | Ok str => Ok (assign_from_string str)
    | Err err => Ok (d, Some err)
    | Panicked msg => Panicked msg
    end
  end.

Definition Value (d : Decimal) : go gostring gostring := String d.

(** ** The binary form *)

(** [big.Int.GobEncode]: nothing for nil, else a byte with the version 1 and the
    sign, and the magnitude. *)
Definition big_GobEncode (x : option Z) : gostring :=
  match x with
  | None => []
  | Some v => byte_of (if v <? 0 then 3 else 2) :: be_bytes (Z.abs v)
  end.

Definition big_GobDecode (buf : gostring) : Z * option gostring :=
  match buf with
  | [] => (0, None)
  | b :: rest =>
    if byte_val b / 2 =? 1
    then (if byte_val b mod 2 =? 1 then - be_val rest else be_val rest, None)
    else (0, Some ("Int.GobDecode: encoding version " ++ FormatInt (byte_val b / 2) ++ " not supported"))
  end.

Definition MarshalBinary (d : Decimal) : gostring :=
  let v1 := be_fixed 4 (uint32 (exp d)) in
  let v2 := big_GobEncode (value d) in
  v1 ++ v2.

Definition UnmarshalBinary (data : gostring) : go gostring (Decimal * option gostring) :=
  if (length data <? 4)%nat then Panicked "slice bounds out of range"
  else
    let exp := int32 (be_val (take 4 data)) in
    let '(v, err) := big_GobDecode (drop 4 data) in
    Ok (mkDec v exp, err).

Definition GobEncode (d : Decimal) : gostring := MarshalBinary d.
Definition GobDecode (data : gostring) : go gostring (Decimal * option gostring) := UnmarshalBinary data.

(** ** Nullable decimals *)

Record NullDecimal := mkNullDecimal { nd_Decimal : Decimal; Valid : bool }.

Definition NullDecimal_Scan (d : NullDecimal) (value : option dbvalue)
  : go gostring (NullDecimal * option gostring) :=
  match value with
  | None => Ok (mkNullDecimal (nd_Decimal d) false, None)
  | Some v => let! ' (d', err) := Scan (nd_Decimal d) v in Ok (mkNullDecimal d' true, err)
  end.

Definition NullDecimal_Value (d : NullDecimal) : go gostring (option gostring) :=
  if negb (Valid d) then Ok None else let! s := Value (nd_Decimal d) in Ok (Some s).

Definition NullDecimal_UnmarshalJSON (d : NullDecimal) (decimalBytes : gostring)
  : NullDecimal * option gostring :=
  if eqs decimalBytes "null" then (mkNullDecimal (nd_Decimal d) false, None)
  else let '(d', err) := UnmarshalJSON (nd_Decimal d) decimalBytes in (mkNullDecimal d' true, err).

Definition NullDecimal_MarshalJSON (quotes : bool) (d : NullDecimal) : go gostring gostring :=
  if negb (Valid d) then Ok "null" else MarshalJSON quotes (nd_Decimal d).

(** ** Round trips *)

Lemma eE_not_digit c : ascii_digit c = true -> c ∉ ("Ee" : gostring) /\ c <> "."%char /\ c <> "-"%char /\ c <> dquote.
Proof.
  intros H. unfold ascii_digit in H. rewrite in_range_spec in H.
  split_and!; [rewrite !not_elem_of_cons; split_and!; [..|apply not_elem_of_nil]|..];
    intros ->; vm_compute in H; intuition congruence.
Qed.

(** The text of a number: a sign, an integer part and a fractional part. *)
Definition number_text (neg : bool) (int frac : gostring) : gostring :=
  (if neg then "-" else "") ++ int ++ match frac with [] => [] | _ => "." ++ frac end.

Definition number_chars (s : gostring) : Prop :=
  Forall (fun c => ascii_digit c = true \/ c = "-"%char \/ c = "."%char) s.

Lemma number_text_chars neg int frac :
  all_digits int = true -> all_digits frac = true -> number_chars (number_text neg int frac).
Proof.
  rewrite !all_digits_Forall. intros H1 H2. unfold number_text, number_chars.
  repeat apply Forall_app_2.
  - destruct neg; [constructor; [auto|]|]; constructor.
  - eapply Forall_impl; [exact H1|auto].
  - destruct frac as [|c frac]; [constructor|]. simpl. constructor; [auto|].
    eapply Forall_impl; [exact H2|auto].
Qed.

Lemma number_no_exponent s : number_chars s -> IndexAny s "Ee" = None.
Proof.
  intros H. apply IndexAny_None. eapply Forall_impl; [exact H|]. intros c [Hc|[-> | ->]].
  - by apply eE_not_digit.
  - rewrite !not_elem_of_cons. split_and!; [done|done|apply not_elem_of_nil].
  - rewrite !not_elem_of_cons. split_and!; [done|done|apply not_elem_of_nil].
Qed.

Lemma digits_no_dot s : all_digits s = true -> "."%char ∉ s.
Proof.
  rewrite all_digits_Forall, Forall_forall. intros H Hin. apply H in Hin. done.
Qed.

Lemma SetString10_sign (neg : bool) ds :
  all_digits ds = true -> ds <> [] ->
  SetString10 ((if neg then "-" else "") ++ ds) = Some (if neg then - digits_val ds else digits_val ds).
Proof.
  intros Hd Hn. unfold SetString10. destruct neg; simpl app.
  - simpl. rewrite Hd. by rewrite bool_decide_eq_false_2.
  - rewrite digit_not_sign by done. rewrite Hd. by rewrite bool_decide_eq_false_2.
Qed.

Lemma TrimRightByte_digits s c : all_digits s = true -> all_digits (TrimRightByte s c) = true.
Proof.
  intros H. destruct (TrimRightByte_split s c) as [n E]. rewrite E, all_digits_app in H.
  by apply andb_true_iff in H as [H _].
Qed.

(** Parsing the text of a number gives the number. *)
Lemma NewFromString_number neg int frac :
  all_digits int = true -> all_digits frac = true -> int <> [] ->
  Z.of_nat (length frac) <= 2147483648 ->
  exists d, NewFromString (number_text neg int frac) = Ok d /\ wf_decimal d /\
    (Rat d == Qs (if neg then - digits_val (int ++ frac) else digits_val (int ++ frac))
                 (- Z.of_nat (length frac)))%Q.
Proof.
  intros Hi Hf Hne Hlen. unfold NewFromString, split_exponent.
  rewrite number_no_exponent by by apply number_text_chars. cbn [go_bind].
  assert ("."%char ∉ (if neg then "-" else "") ++ int) as Hnd.
  { rewrite elem_of_app. intros [H|H]; [|by apply (digits_no_dot int)].
    destruct neg; [|by apply elem_of_nil in H].
    apply list_elem_of_singleton in H. done. }
  destruct frac as [|c frac].
  - unfold number_text. rewrite app_nil_r, Split_notin by done. cbn [go_bind].
    rewrite SetString10_sign by done. simpl.
    eexists. split; [done|]. split; [done|]. by rewrite Rat_mkDec.
  - unfold number_text. set (fr := c :: frac) in *.
    rewrite (assoc_L (++)). change ("." ++ fr) with ("."%char :: fr). rewrite Split_app by done.
    rewrite Split_notin by by apply digits_no_dot. cbn [go_bind].
    destruct (TrimRightByte_split fr "0"%char) as [n E]. set (fr' := TrimRightByte fr _) in *.
    assert (all_digits fr' = true) as Hf' by by apply TrimRightByte_digits.
    rewrite <- (assoc_L (++)), SetString10_sign; [|rewrite all_digits_app, Hi; done|by destruct int].
    assert (length fr = length fr' + n)%nat as El by (rewrite E at 1; by rewrite length_app, length_replicate).
    destruct (Z.ltb_spec (0 + - Z.of_nat (length fr')) MinInt32); [lia|].
    destruct (Z.ltb_spec MaxInt32 (0 + - Z.of_nat (length fr'))); [lia|]. simpl orb. cbv iota.
    eexists. split; [done|]. split; [apply int32_range|].
    rewrite int32_small by (unfold in_int32; lia). rewrite Rat_mkDec, Z.add_0_l.
    rewrite (Qs_down _ (- Z.of_nat (length fr')) (- Z.of_nat (length fr))) by lia.
    apply Qs_eq. rewrite E, (assoc_L (++)), (digits_val_app (int ++ fr')), digits_val_zeros, length_replicate, Z.add_0_r.
    rewrite <- E. replace (- Z.of_nat (length fr') - - Z.of_nat (length fr)) with (Z.of_nat n) by lia.
    destruct neg; lia.
Qed.

Lemma FormatInt_abs v : FormatInt (Z.abs v) = FormatUint (Z.abs v).
Proof. unfold FormatInt. destruct (Z.ltb_spec (Z.abs v) 0); [lia|done]. Qed.

Lemma concat_zeros n : Repeat "0" n = replicate n "0"%char.
Proof. unfold Repeat. induction n as [|n IH]; simpl; [done|]. by f_equal. Qed.

Lemma all_digits_zeros n : all_digits (replicate n "0"%char) = true.
Proof. by induction n. Qed.

Lemma all_digits_take n s : all_digits s = true -> all_digits (take n s) = true.
Proof. rewrite !all_digits_Forall. apply Forall_take. Qed.

Lemma all_digits_drop n s : all_digits s = true -> all_digits (drop n s) = true.
Proof. rewrite !all_digits_Forall. apply Forall_drop. Qed.

(** What [string] prints for a negative exponent: digits whose value, with the
    fractional digits kept, is the coefficient. *)
Lemma string_shape v e trim :
  e < 0 ->
  exists int frac n,
    string (mkDec v e) trim = Ok (number_text (v <? 0) int frac) /\
    all_digits int = true /\ all_digits frac = true /\ int <> [] /\
    Z.of_nat (length frac) + Z.of_nat n = - e /\
    digits_val (int ++ frac) * 10 ^ Z.of_nat n = Z.abs v /\
    (trim = false -> n = O).
Proof.
  intros He. unfold string. destruct (Z.leb_spec 0 (exp (mkDec v e))) as [H|_]; [cbn in H; lia|].
  cbn [value mkDec exp]. rewrite FormatInt_abs. set (str := FormatUint (Z.abs v)).
  assert (all_digits str = true) as Hd by (apply FormatUint_digits; lia).
  assert (digits_val str = Z.abs v) as Hv by (apply FormatUint_val; lia).
  assert (str <> []) as Hne by (apply FormatUint_not_nil; lia).
  match goal with |- context [let '(a, b) := ?p in _] => set (parts := p) end.
  assert (exists int frac, parts = (int, frac) /\ all_digits int = true /\ all_digits frac = true /\
            int <> [] /\ Z.of_nat (length frac) = - e /\ digits_val (int ++ frac) = Z.abs v)
    as (int & frac & -> & Hi & Hf & Hin & Hlf & Hval).
  { unfold parts. destruct (Z.ltb_spec (- e) (Z.of_nat (length str))).
    - set (k := Z.to_nat _). exists (take k str), (drop k str).
      split_and!; [done|by apply all_digits_take|by apply all_digits_drop| | |by rewrite take_drop].
      + intros E. apply (f_equal length) in E. rewrite length_take in E. simpl in E. lia.
      + rewrite length_drop. lia.
    - rewrite concat_zeros. eexists _, _. split_and!; [done|done| |done| |].
      + by rewrite all_digits_app, all_digits_zeros.
      + rewrite length_app, length_replicate. lia.
      + rewrite (assoc_L (++)), digits_val_app, Hv.
        change ("0" ++ replicate ?n "0"%char) with (replicate (S n) "0"%char). rewrite digits_val_zeros. lia. }
  assert (big_sign v <? 0 = (v <? 0)) as -> by (unfold big_sign; zbool; lia).
  destruct trim.
  - destruct (TrimRightByte_split frac "0"%char) as [n E].
    exists int, (TrimRightByte frac "0"%char), n.
    assert (length frac = length (TrimRightByte frac "0"%char) + n)%nat as El
      by (rewrite E at 1; by rewrite length_app, length_replicate).
    split_and!; try done.
    + unfold number_text. destruct (TrimRightByte frac "0"%char), (v <? 0); try done.
      * by rewrite app_nil_r.
      * by rewrite app_nil_r.
    + by apply TrimRightByte_digits.
    + lia.
    + rewrite <- Hval. rewrite E at 2. rewrite (assoc_L (++)), (digits_val_app (int ++ _)), digits_val_zeros.
      rewrite length_replicate. lia.
  - exists int, frac, O. split_and!; try done.
    + unfold number_text. destruct frac, (v <? 0); try done; by rewrite app_nil_r.
    + lia.
    + rewrite Z.pow_0_r. lia.
Qed.

Lemma FormatInt_number z : 0 <= z \/ z < 0 ->
  FormatInt z = number_text (z <? 0) (FormatUint (Z.abs z)) [].
Proof.
  intros _. unfold FormatInt, number_text. rewrite app_nil_r. destruct (Z.ltb_spec z 0).
  - by rewrite Z.abs_neq by lia.
  - by rewrite Z.abs_eq by lia.
Qed.

(** A nil coefficient only ever goes with the exponent 0. *)
Definition printable (d : Decimal) : Prop := wf_decimal d /\ (value d = None -> exp d = 0).

Lemma string_parses d trim :
  printable d ->
  exists s d', string d trim = Ok s /\ NewFromString s = Ok d' /\ wf_decimal d' /\ (Rat d' == Rat d)%Q /\
               exists neg int frac, s = number_text neg int frac /\ all_digits int = true /\
                 all_digits frac = true /\ int <> [] /\
                 (trim = false -> Z.of_nat (length frac) = Z.max 0 (- exp d)).
Proof.
  intros [Hwf Hnil]. unfold wf_decimal, in_int32 in Hwf. destruct (Z.le_gt_cases 0 (exp d)) as [He|He].
  - unfold string. destruct (Z.leb_spec 0 (exp d)); [|lia].
    rewrite ival_rescale_down, Z.sub_0_r by done. set (z := ival d * 10 ^ exp d).
    rewrite FormatInt_number by lia.
    destruct (NewFromString_number (z <? 0) (FormatUint (Z.abs z)) []) as (d' & E & Hw & Hq);
      [apply FormatUint_digits; lia|done|apply FormatUint_not_nil; lia|simpl; lia|].
    eexists _, d'. split_and!; [done|done|done| |].
    + rewrite Hq, app_nil_r, FormatUint_val by lia. rewrite (Rat_spec d), (Qs_down (ival d) (exp d) 0), Z.sub_0_r by done.
      fold z. simpl length. change (- Z.of_nat 0) with 0.
      apply Qs_eq. destruct (Z.ltb_spec z 0); lia.
    + eexists _, _, _. split_and!; [done|apply FormatUint_digits; lia|done|apply FormatUint_not_nil; lia|].
      intros _. rewrite Z.max_l by lia. done.
  - destruct d as [[v|] e]; cbn [exp value] in *; [|specialize (Hnil eq_refl); lia].
    destruct (string_shape v e trim He) as (int & frac & n & Hs & Hi & Hf & Hne & Hl & Hv & Htr).
    destruct (NewFromString_number (v <? 0) int frac Hi Hf Hne ltac:(lia)) as (d' & E & Hw & Hq).
    exists (number_text (v <? 0) int frac), d'. split_and!; [done|done|done| |].
    + rewrite Hq. change (mkDecimal (Some v) e) with (mkDec v e). rewrite Rat_mkDec.
      rewrite (Qs_down _ (- Z.of_nat (length frac)) e) by lia. apply Qs_eq.
      replace (- Z.of_nat (length frac) - e) with (Z.of_nat n) by lia.
      destruct (Z.ltb_spec v 0); lia.
    + eexists _, _, _. split_and!; try done. intros H. rewrite (Htr H) in Hl. lia.
Qed.

(** C31 Printing a decimal and parsing the text gives the same number back. *)
Theorem String_NewFromString d (Hd : printable d) :
  exists s d', String d = Ok s /\ NewFromString s = Ok d' /\ wf_decimal d' /\ Equal d' d = true.
Proof.
  destruct (string_parses d true Hd) as (s & d' & H1 & H2 & H3 & H4 & _).
  exists s, d'. split_and!; try done. unfold Equal. destruct (Cmp_cases d' d) as [[? _]|[[_ ->]|[? _]]]; [lra|done|lra].
Qed.

Lemma Round_printable d places : places_ok places -> printable (Round d places).
Proof. intros [H1 H2]. rewrite Round_value by done. split; [done|done]. Qed.

(** [StringFixed] prints the rounded number with exactly [places] digits after
    the point, and none when [places] is not positive. *)
Theorem StringFixed_digits d places (Hp : places_ok places) :
  exists neg int frac d', StringFixed d places = Ok (number_text neg int frac) /\
    all_digits int = true /\ all_digits frac = true /\ int <> [] /\
    Z.of_nat (length frac) = Z.max 0 places /\
    NewFromString (number_text neg int frac) = Ok d' /\ Equal d' (Round d places) = true.
Proof.
  destruct (string_parses (Round d places) false (Round_printable d places Hp))
    as (s & d' & H1 & H2 & _ & H4 & neg & int & frac & -> & Hi & Hf & Hne & Hl).
  exists neg, int, frac, d'. split_and!; try done.
  - rewrite (Hl eq_refl), Round_value by done. cbn [exp mkDec]. by rewrite Z.opp_involutive.
  - unfold Equal. destruct (Cmp_cases d' (Round d places)) as [[? _]|[[_ ->]|[? _]]]; [lra|done|lra].
Qed.

Lemma number_first neg int frac : all_digits int = true -> int <> [] ->
  exists c r, number_text neg int frac = c :: r /\ c <> dquote /\ c <> "n"%char.
Proof.
  intros Hi Hn. destruct int as [|c int]; [done|]. unfold number_text. destruct neg; simpl.
  - eexists _, _. done.
  - exists c. eexists. split; [done|]. simpl in Hi. apply andb_true_iff in Hi as [Hc _].
    split; [by apply eE_not_digit|]. intros ->. done.
Qed.

Lemma unquote_quoted s : s <> [] -> unquoteIfQuoted (DBBytes ([dquote] ++ s ++ [dquote])) = Ok s.
Proof.
  intros Hs. unfold unquoteIfQuoted. simpl app. cbn [length].
  assert ((2 <? S (length (s ++ [dquote])))%nat = true) as ->.
  { apply Nat.ltb_lt. rewrite length_app. destruct s; [done|]. simpl. lia. }
  rewrite bool_decide_eq_true_2 by done.
  rewrite bool_decide_eq_true_2 by (change (dquote :: s ++ [dquote]) with ((dquote :: s) ++ [dquote]); apply last_snoc).
  cbn [andb drop]. rewrite drop_0, length_app. simpl length.
  replace (S (length s + 1) - 2)%nat with (length s) by lia. by rewrite take_app_length.
Qed.

Lemma unquote_plain c r : c <> dquote -> unquoteIfQuoted (DBBytes (c :: r)) = Ok (c :: r).
Proof.
  intros Hc. unfold unquoteIfQuoted. rewrite (bool_decide_eq_false_2 (head _ = _)) by (simpl; congruence).
  by rewrite andb_false_r.
Qed.

(** The JSON form of a decimal, quoted or not, decodes to the same number, and
    a null leaves the receiver alone. *)
Theorem JSON_roundtrip d (Hd : printable d) :
  forall quotes old, exists s d', MarshalJSON quotes d = Ok s /\
    UnmarshalJSON old s = (d', None) /\ Equal d' d = true /\
    UnmarshalJSON old "null" = (old, None).
Proof.
  intros quotes old. destruct (string_parses d true Hd)
    as (s & d' & H1 & H2 & _ & H4 & neg & int & frac & -> & Hi & Hf & Hne & _).
  destruct (number_first neg int frac Hi Hne) as (c & r & Es & Hc & Hcn).
  set (s := number_text neg int frac) in *.
  assert (Equal d' d = true) as He.
  { unfold Equal. destruct (Cmp_cases d' d) as [[? _]|[[_ ->]|[? _]]]; [lra|done|lra]. }
  assert (assign_from_string s = (d', None)) as Ha by (unfold assign_from_string; by rewrite H2).
  exists (if quotes then s else [dquote] ++ s ++ [dquote]), d'.
  split_and!; [|  |done|done].
  - unfold MarshalJSON, String. rewrite H1. done.
  - unfold UnmarshalJSON. destruct quotes.
    + assert (eqs s "null" = false) as ->.
      { apply bool_decide_eq_false_2. rewrite Es. intros [= -> _]. done. }
      rewrite Es, unquote_plain, <- Es by done. by rewrite Ha.
    + assert (eqs ([dquote] ++ s ++ [dquote]) "null" = false) as -> by (by apply bool_decide_eq_false_2).
      rewrite unquote_quoted by (by rewrite Es). by rewrite Ha.
Qed.

(** The binary form of a decimal decodes to that decimal, and data shorter
    than the four bytes of the exponent makes the decoder panic. *)
Theorem Binary_roundtrip d (Hd : wf_decimal d) :
  UnmarshalBinary (MarshalBinary d) = Ok (ensureInitialized d, None) /\
  forall data, (length data < 4)%nat -> exists msg, UnmarshalBinary data = Panicked msg.
Proof.
  split.
  - unfold UnmarshalBinary, MarshalBinary.
    assert (length (be_fixed 4 (uint32 (exp d))) = 4%nat) as Hl by apply be_fixed_length.
    rewrite length_app, Hl. destruct (Nat.ltb_spec (4 + length (big_GobEncode (value d))) 4); [lia|].
    rewrite (take_app_length' _ _ 4), (drop_app_length' _ _ 4) by done.
    rewrite be_val_fixed. change (256 ^ Z.of_nat 4) with (2 ^ 32).
    assert (int32 (uint32 (exp d) mod 2 ^ 32) = exp d) as ->.
    { unfold uwrap. rewrite Z.mod_mod by lia. unfold swrap. rewrite Z.add_mod_idemp_l by lia.
      by apply int32_small. }
    assert (big_GobDecode (big_GobEncode (value d)) = (ival d, None)) as ->.
    { destruct d as [[v|] e]; [|done]. cbn [value big_GobEncode big_GobDecode].
      destruct (Z.ltb_spec v 0); rewrite byte_val_of, be_val_bytes by lia; simpl; f_equal; unfold ival; simpl; lia. }
    destruct d as [[v|] e]; done.
  - intros data Hl. unfold UnmarshalBinary. destruct (Nat.ltb_spec (length data) 4); [eauto|lia].
Qed.

(** ** Witnesses *)

Lemma String_NewFromString_witness :
  exists s d', String (New (-12345) (-3)) = Ok s /\ NewFromString s = Ok d' /\ s = "-12.345".
Proof.
  destruct (String_NewFromString (New (-12345) (-3))) as (s & d' & H1 & H2 & _); [done|].
  exists s, d'. split; [exact H1|]. split; [exact H2|]. vm_compute in H1. by injection H1 as <-.
Defined.

Lemma StringFixed_digits_witness :
  exists neg int frac, StringFixed (New 545 (-2)) 3 = Ok (number_text neg int frac) /\
    number_text neg int frac = "5.450".
Proof.
  destruct (StringFixed_digits (New 545 (-2)) 3) as (neg & int & frac & d' & H & _); [done|].
  exists neg, int, frac. split; [exact H|].
  assert (StringFixed (New 545 (-2)) 3 = Ok "5.450") as E by (vm_compute; reflexivity).
  rewrite E in H. by injection H as <-.
Defined.

Lemma JSON_roundtrip_witness :
  exists s d', MarshalJSON false (New 25 (-1)) = Ok s /\ UnmarshalJSON Decimal0 s = (d', None) /\
    s = jq "'2.5'".
Proof.
  destruct (JSON_roundtrip (New 25 (-1)) ltac:(done) false Decimal0) as (s & d' & H1 & H2 & _).
  exists s, d'. split; [exact H1|]. split; [exact H2|]. vm_compute in H1. by injection H1 as <-.
Defined.

Lemma Binary_roundtrip_witness :
  UnmarshalBinary (MarshalBinary (New (-300) (-2))) = Ok (New (-300) (-2), None).
Proof. apply (Binary_roundtrip (New (-300) (-2))). done. Defined.

(** The examples in the comments of [NewFromFloat], [StringFixedBank] and
    [RoundBank], which assume the shortest text of a float: the texts that come
    out of 123.45678901234567, 1e-17, 5.45 and 5.55. *)
Example documented_floats :
  (let! d := NewFromFloat 4638387916139875480 in String d) = Ok "123.4567890123456663786782883107662200927734375" /\
  (let! d := NewFromFloat 4352464011485697175 in String d) = Ok "0.0000000000000000100000000000000007154242405462192450852805618492324772617063644020163337700068950653076171875" /\
  (let! d := NewFromFloat 4617822172919680205 in StringFixedBank d 1) = Ok "5.5" /\
  (let! d := NewFromFloat 4617934762910364467 in String (RoundBank d 1)) = Ok "5.5".
Proof. by vm_compute. Qed.
