(* ===== verification/Uuid.v ===== *)
(** * Uuid: the identifiers of [pkg/util/uuid.go]

    A UUID is its list of sixteen bytes.  The generators take what they read
    from outside (the clock, the random source, the network interfaces) as
    arguments, and thread the package's storage (clock sequence, last time,
    hardware address) explicitly.  The two digests are parameters. *)
From S2P Require Import Prelude GoStr.

#[global] Open Scope Z_scope.
#[global] Open Scope go_scope.

(** ** Bytes of a UUID *)

Abbreviation UUID := (list ascii) (only parsing).

Definition wf_uuid (u : UUID) : Prop := length u = 16%nat.

Definition zero_byte : ascii := byte_of 0.

(** The nil UUID. *)
Definition Nil : UUID := replicate 16 zero_byte.

Definition byte_at (u : gostring) (i : nat) : Z := byte_val (default zero_byte (u !! i)).

(** [binary.BigEndian.Put...(u[off:], _)] and [copy(u[off:], _)]: overwrite from an offset. *)
Definition put_at (u : gostring) (off : nat) (bs : gostring) : gostring :=
  take off u ++ bs ++ drop (off + length bs) u.

(** Overwrite one byte with a function of it. *)
Definition upd (u : gostring) (i : nat) (f : Z -> Z) : gostring :=
  alter (fun c => byte_of (f (byte_val c))) i u.

Definition And (u1 u2 : UUID) : UUID := zip_with (fun a b => byte_of (Z.land (byte_val a) (byte_val b))) u1 u2.
Definition Or (u1 u2 : UUID) : UUID := zip_with (fun a b => byte_of (Z.lor (byte_val a) (byte_val b))) u1 u2.
Definition Equal (u1 u2 : UUID) : bool := eqs u1 u2.

Definition VariantNCS := 0.
Definition VariantRFC4122 := 1.
Definition VariantMicrosoft := 2.
Definition VariantFuture := 3.

Definition Version (u : UUID) : Z := Z.shiftr (byte_at u 6) 4.

Definition Variant (u : UUID) : Z :=
  let b := byte_at u 8 in
  if Z.land b 128 =? 0 then VariantNCS
  else if Z.lor (Z.land b 192) 128 =? 128 then VariantRFC4122
  else if Z.lor (Z.land b 224) 192 =? 192 then VariantMicrosoft
  else VariantFuture.

Definition Bytes (u : UUID) : gostring := u.

Definition SetVersion (u : UUID) (v : Z) : UUID :=
  upd u 6 (fun b => Z.lor (Z.land b 15) (uint8 (Z.shiftl v 4))).

Definition SetVariant (u : UUID) : UUID :=
  upd u 8 (fun b => Z.lor (Z.land b 191) 128).

(** ** Text *)

Definition dash : ascii := "-"%char.

(** [hex.Encode]: two lower-case digits per byte. *)
Definition hex_char (d : Z) : ascii := if d <? 10 then byte_of (48 + d) else byte_of (87 + d).

Fixpoint hex_encode (s : gostring) : gostring :=
  match s with
  | [] => []
  | c :: s' => hex_char (byte_val c / 16) :: hex_char (byte_val c mod 16) :: hex_encode s'
  end.

Definition String (u : UUID) : gostring :=
  hex_encode (take 4 u) ++ [dash] ++ hex_encode (take 2 (drop 4 u)) ++ [dash] ++
  hex_encode (take 2 (drop 6 u)) ++ [dash] ++ hex_encode (take 2 (drop 8 u)) ++ [dash] ++
  hex_encode (drop 10 u).

Definition MarshalText (u : UUID) : gostring := String u.

(** The errors of the package. *)
Inductive uuid_err :=
| TooShort (text : gostring)
| TooLong (text : gostring)
| InvalidFormat
| InvalidByte (c : ascii)          (** [hex.InvalidByteError] *)
| WrongLength (n : nat)
| CannotConvert (typ : gostring).

Definition hex_val (c : ascii) : option Z :=
  if ascii_digit c then Some (byte_val c - 48)
  else if in_range 97 102 c then Some (byte_val c - 87)
  else if in_range 65 70 c then Some (byte_val c - 55)
  else None.

(** [hex.Decode] on a source of even length: the bytes written before the first
    invalid digit, and the error. *)
Fixpoint hex_decode (s : gostring) : gostring * option uuid_err :=
  match s with
  | p :: q :: s' =>
    match hex_val p, hex_val q with
    | None, _ => ([], Some (InvalidByte p))
    | _, None => ([], Some (InvalidByte q))
    | Some a, Some b =>
      let '(r, err) := hex_decode s' in (byte_of (a * 16 + b) :: r, err)
    end
  | _ => ([], None)
  end.

Definition urnPrefix : gostring := "urn:uuid:".
Definition byteGroups : list nat := [8; 4; 4; 4; 12]%nat.

(** The loop over the groups, from group [i]; [off] is where the slice [b] of
    the receiver starts.  An error leaves the bytes already decoded in place. *)
Fixpoint UnmarshalText_groups (groups : list nat) (i : nat) (text t : gostring) (braced : bool)
    (off : nat) (u : UUID) : go uuid_err (UUID * option uuid_err) :=
  match groups with
  | [] => Ok (u, None)
  | byteGroup :: groups' =>
    let body t :=
      if (length t <? byteGroup)%nat then Ok (u, Some (TooShort text))
      else if (i =? 4)%nat && (byteGroup <? length t)%nat &&
              ((braced && negb (bool_decide (t !! byteGroup = Some "}"%char)))
               || (1 <? length (drop byteGroup t))%nat || negb braced)
      then Ok (u, Some (TooLong text))
      else
        let '(bs, err) := hex_decode (take byteGroup t) in
        let u := put_at u off bs in
        match err with
        | Some e => Ok (u, Some e)
        | None => UnmarshalText_groups groups' (S i) text (drop byteGroup t) braced
                                       (off + byteGroup / 2) u
        end in
    if (0 <? i)%nat then
      match t with
      | [] => Panicked "index out of range [0] with length 0"
      | c :: t' => if bool_decide (c = "-"%char) then body t' else Ok (u, Some InvalidFormat)
      end
    else body t
  end.

Definition UnmarshalText (u : UUID) (text : gostring) : go uuid_err (UUID * option uuid_err) :=
  if (length text <? 32)%nat then Ok (u, Some (TooShort text))
  else
    let '(t, braced) :=
      if eqs (take 9 text) urnPrefix then (drop 9 text, false)
      else match text with
           | c :: t' => if bool_decide (c = "{"%char) then (t', true) else (text, false)
           | [] => (text, false)
           end in
    UnmarshalText_groups byteGroups 0 text t braced 0 u.

Definition MarshalBinary (u : UUID) : gostring := Bytes u.

Definition UnmarshalBinary (u : UUID) (data : gostring) : UUID * option uuid_err :=
  if negb (length data =? 16)%nat then (u, Some (WrongLength (length data))) else (data, None).

Definition Value (u : UUID) : gostring := String u.

(** A value that reaches [Scan]; any other type is known by its name. *)
Inductive scan_src :=
| SrcBytes (s : gostring)
| SrcString (s : gostring)
| SrcOther (typ : gostring).

Definition Scan (u : UUID) (src : scan_src) : go uuid_err (UUID * option uuid_err) :=
  match src with
  | SrcBytes s => if (length s =? 16)%nat then Ok (UnmarshalBinary u s) else UnmarshalText u s
  | SrcString s => UnmarshalText u s
  | SrcOther typ => Ok (u, Some (CannotConvert typ))
  end.

Record NullUUID := mkNullUUID { nu_UUID : UUID; nu_Valid : bool }.

Definition NullUUID_Value (u : NullUUID) : option gostring :=
  if negb (nu_Valid u) then None else Some (Value (nu_UUID u)).

Definition NullUUID_Scan (u : NullUUID) (src : option scan_src) : go uuid_err (NullUUID * option uuid_err) :=
  match src with
  | None => Ok (mkNullUUID Nil false, None)
  | Some s => let! ' (u', err) := Scan (nu_UUID u) s in Ok (mkNullUUID u' true, err)
  end.

Definition FromBytes (input : gostring) : UUID * option uuid_err := UnmarshalBinary Nil input.

Definition FromBytesOrNil (input : gostring) : UUID :=
  match FromBytes input with
  | (_, Some _) => Nil
  | (uuid, None) => uuid
  end.

Definition FromString (input : gostring) : go uuid_err (UUID * option uuid_err) := UnmarshalText Nil input.

Definition FromStringOrNil (input : gostring) : go uuid_err UUID :=
  let! ' (uuid, err) := FromString input in
  Ok (match err with Some _ => Nil | None => uuid end).

(** ** Generation *)

Definition epochStart : Z := 122192928000000000.

Record storage := mkStorage {
  storageOnce : bool;
  clockSequence : Z;
  lastTime : Z;
  hardwareAddr : gostring
}.

Definition storage0 : storage := mkStorage false 0 0 (replicate 6 zero_byte).

(** What the initialisation reads: two random bytes, the hardware addresses of
    the interfaces ([None] when they cannot be listed), six random bytes. *)
Record init_env := mkInitEnv { rand2 : gostring; interfaces : option (list gostring); rand6 : gostring }.

Definition initClockSequence (env : init_env) : Z := be_val (rand2 env).

Definition initHardwareAddr (env : init_env) : gostring :=
  match list_find (fun a : gostring => (6 <=? length a)%nat = true) (default [] (interfaces env)) with
  | Some (_, a) => take 6 a
  | None => upd (rand6 env) 0 (fun b => Z.lor b 1)
  end.

Definition initStorage (env : init_env) (st : storage) : storage :=
  mkStorage true (initClockSequence env) (lastTime st) (initHardwareAddr env).

(** [time.Now().UnixNano()] is the argument. *)
Definition unixTimeFunc (unixNano : Z) : Z := uint64 (epochStart + uint64 (Z.quot unixNano 100)).

Definition getStorage (env : init_env) (timeNow : Z) (st : storage) : (Z * Z * gostring) * storage :=
  let st := if storageOnce st then st else initStorage env st in
  let clock := if timeNow <=? lastTime st then uint16 (clockSequence st + 1) else clockSequence st in
  ((timeNow, clock, hardwareAddr st), mkStorage true clock timeNow (hardwareAddr st)).

Definition NewV1_of (stamp : Z * Z * gostring) : UUID :=
  let '(timeNow, clockSeq, hardwareAddr) := stamp in
  let u := Nil in
  let u := put_at u 0 (be_fixed 4 (uint32 timeNow)) in
  let u := put_at u 4 (be_fixed 2 (uint16 (Z.shiftr timeNow 32))) in
  let u := put_at u 6 (be_fixed 2 (uint16 (Z.shiftr timeNow 48))) in
  let u := put_at u 8 (be_fixed 2 clockSeq) in
  let u := put_at u 10 (take 6 hardwareAddr) in
  SetVariant (SetVersion u 1).

Definition NewV1 (env : init_env) (now : Z) (st : storage) : UUID * storage :=
  let '(stamp, st) := getStorage env now st in (NewV1_of stamp, st).

Definition DomainPerson := 0.
Definition DomainGroup := 1.

Definition NewV2 (env : init_env) (now posixUID posixGID domain : Z) (st : storage) : UUID * storage :=
  let '((timeNow, clockSeq, hardwareAddr), st) := getStorage env now st in
  let u := Nil in
  let u := if domain =? DomainPerson then put_at u 0 (be_fixed 4 posixUID)
           else if domain =? DomainGroup then put_at u 0 (be_fixed 4 posixGID) else u in
  let u := put_at u 4 (be_fixed 2 (uint16 (Z.shiftr timeNow 32))) in
  let u := put_at u 6 (be_fixed 2 (uint16 (Z.shiftr timeNow 48))) in
  let u := put_at u 8 (be_fixed 2 clockSeq) in
  let u := put_at u 9 [byte_of domain] in
  let u := put_at u 10 (take 6 hardwareAddr) in
  (SetVariant (SetVersion u 2), st).

(** [rand.Read] fills the sixteen bytes or fails. *)
Definition NewV4 (random : option gostring) : go uuid_err UUID :=
  match random with
  | None => Panicked "crypto/rand failure"
  | Some bs => Ok (SetVariant (SetVersion (take 16 bs) 4))
  end.

(** The digest is the argument [sum]. *)
Definition newFromHash (sum : gostring -> gostring) (ns : UUID) (name : gostring) : UUID :=
  put_at Nil 0 (take 16 (sum (ns ++ name))).

Definition NewV3 (md5 : gostring -> gostring) (ns : UUID) (name : gostring) : UUID :=
  SetVariant (SetVersion (newFromHash md5 ns name) 3).

Definition NewV5 (sha1 : gostring -> gostring) (ns : UUID) (name : gostring) : UUID :=
  SetVariant (SetVersion (newFromHash sha1 ns name) 5).

(** The name spaces of RFC 4122; an error of the parser is dropped. *)
Definition namespace (text : gostring) : UUID := match FromString text with Ok (u, _) => u | _ => Nil end.
Definition NamespaceDNS : UUID := namespace "6ba7b810-9dad-11d1-80b4-00c04fd430c8".
Definition NamespaceURL : UUID := namespace "6ba7b811-9dad-11d1-80b4-00c04fd430c8".
Definition NamespaceOID : UUID := namespace "6ba7b812-9dad-11d1-80b4-00c04fd430c8".
Definition NamespaceX500 : UUID := namespace "6ba7b814-9dad-11d1-80b4-00c04fd430c8".

Example namespace_dns :
  FromString "6ba7b810-9dad-11d1-80b4-00c04fd430c8" =
  Ok (map byte_of [107; 167; 184; 16; 157; 173; 17; 209; 128; 180; 0; 192; 79; 212; 48; 200], None).
Proof. vm_compute. reflexivity. Qed.

Example namespaces_apart :
  bool_decide (NoDup [Nil; NamespaceDNS; NamespaceURL; NamespaceOID; NamespaceX500]) = true /\
  String NamespaceX500 = "6ba7b814-9dad-11d1-80b4-00c04fd430c8".
Proof. vm_compute. split; reflexivity. Qed.

(** ** Facts about bytes, by enumeration *)

Definition all_bytes : list ascii := map (fun n => byte_of (Z.of_nat n)) (seq 0 256).

Lemma all_bytes_spec (P : ascii -> bool) : forallb P all_bytes = true -> forall c, P c = true.
Proof.
  intros H c. rewrite forallb_forall in H. apply H. unfold all_bytes.
  apply in_map_iff. exists (Z.to_nat (byte_val c)). pose proof (byte_val_range c). split.
  - rewrite Z2Nat.id by lia. apply byte_of_val.
  - apply in_seq. lia.
Qed.

Lemma SetVersion_byte v c : 0 <= v < 16 ->
  byte_val (byte_of (Z.lor (Z.land (byte_val c) 15) (uint8 (Z.shiftl v 4)))) = byte_val c mod 16 + 16 * v.
Proof.
  intros Hv.
  assert (forallb (fun n => forallb (fun c =>
    byte_val (byte_of (Z.lor (Z.land (byte_val c) 15) (uint8 (Z.shiftl (Z.of_nat n) 4))))
    =? byte_val c mod 16 + 16 * Z.of_nat n) all_bytes) (seq 0 16) = true) as H by (vm_compute; reflexivity).
  rewrite forallb_forall in H. specialize (H (Z.to_nat v)). rewrite Z2Nat.id in H by lia.
  apply Z.eqb_eq.
  refine (all_bytes_spec (fun c => byte_val (byte_of (Z.lor (Z.land (byte_val c) 15) (uint8 (Z.shiftl v 4))))
    =? byte_val c mod 16 + 16 * v) _ c).
  apply H, in_seq. lia.
Qed.

Lemma SetVariant_byte c :
  byte_val (byte_of (Z.lor (Z.land (byte_val c) 191) 128)) = byte_val c mod 64 + 128.
Proof.
  apply Z.eqb_eq.
  refine (all_bytes_spec (fun c => byte_val (byte_of (Z.lor (Z.land (byte_val c) 191) 128))
    =? byte_val c mod 64 + 128) _ c). vm_compute. reflexivity.
Qed.

Lemma hex_val_char d : 0 <= d < 16 -> hex_val (hex_char d) = Some d.
Proof.
  intros Hd. assert (exists n, d = Z.of_nat n /\ (n < 16)%nat) as (n & -> & Hn) by (exists (Z.to_nat d); lia).
  do 16 (destruct n as [|n]; [vm_compute; reflexivity|]). lia.
Qed.

Lemma hex_decode_encode s : hex_decode (hex_encode s) = (s, None).
Proof.
  induction s as [|c s IH]; [done|]. pose proof (byte_val_range c) as Hc.
  pose proof (Z.mod_pos_bound (byte_val c) 16 ltac:(lia)).
  assert (0 <= byte_val c / 16 < 16) by (split; [apply Z.div_pos; lia|apply Z.div_lt_upper_bound; lia]).
  cbn [hex_encode hex_decode]. rewrite !hex_val_char, IH by done. f_equal. f_equal.
  rewrite <- (byte_of_val c) at 3. f_equal. pose proof (Z.div_mod (byte_val c) 16 ltac:(lia)). lia.
Qed.

Lemma hex_encode_length s : length (hex_encode s) = (2 * length s)%nat.
Proof. induction s as [|c s IH]; simpl; lia. Qed.

(** ** Version and variant *)

Lemma SetVersion_length u v : length (SetVersion u v) = length u.
Proof. apply length_alter. Qed.

Lemma SetVariant_length u : length (SetVariant u) = length u.
Proof. apply length_alter. Qed.

(** [SetVersion] and [SetVariant] make [Version] and [Variant] report what was
    set, keep the sixteen bytes, and touch no other bit. *)
Lemma SetVersion_SetVariant u v (Hu : wf_uuid u) (Hv : 0 <= v < 16) :
  let w := SetVariant (SetVersion u v) in
  wf_uuid w /\ Version w = v /\ Variant w = VariantRFC4122 /\
  (forall i, i <> 6%nat -> i <> 8%nat -> w !! i = u !! i) /\
  byte_at w 6 mod 16 = byte_at u 6 mod 16 /\ byte_at w 8 mod 64 = byte_at u 8 mod 64.
Proof.
  unfold wf_uuid in *. cbn zeta.
  do 16 (destruct u as [|? u]; [done|]). destruct u; [|done]. clear Hu.
  assert (forall c6 c8, SetVariant (SetVersion [a; a0; a1; a2; a3; a4; c6; a6; c8; a8; a9; a10; a11; a12; a13; a14] v)
    = [a; a0; a1; a2; a3; a4; byte_of (Z.lor (Z.land (byte_val c6) 15) (uint8 (Z.shiftl v 4))); a6;
       byte_of (Z.lor (Z.land (byte_val c8) 191) 128); a8; a9; a10; a11; a12; a13; a14]) as E by done.
  rewrite E. split; [done|].
  pose proof (SetVersion_byte v a5 Hv) as H6. pose proof (SetVariant_byte a7) as H8.
  unfold Version, Variant, byte_at. cbn [lookup list_lookup default option_fmap from_option id].
  cbn -[byte_of byte_val Z.lor Z.land uwrap Z.shiftl Z.shiftr Z.modulo Z.eqb].
  rewrite H6, H8. pose proof (Z.mod_pos_bound (byte_val a5) 16 ltac:(lia)).
  pose proof (Z.mod_pos_bound (byte_val a7) 64 ltac:(lia)).
  split_and!.
  - rewrite Z.shiftr_div_pow2 by lia. change (2 ^ 4) with 16.
    symmetry. apply (Z.div_unique_pos _ _ _ (byte_val a5 mod 16)); lia.
  - set (x := byte_val a7 mod 64) in *.
    assert (exists n, x = Z.of_nat n /\ (n < 64)%nat) as (n & -> & Hn) by (exists (Z.to_nat x); lia).
    assert (forallb (fun n => let b := Z.of_nat n + 128 in
      (if Z.land b 128 =? 0 then VariantNCS else if Z.lor (Z.land b 192) 128 =? 128 then VariantRFC4122
       else if Z.lor (Z.land b 224) 192 =? 192 then VariantMicrosoft else VariantFuture) =? VariantRFC4122)
      (seq 0 64) = true) as Hall by (vm_compute; reflexivity).
    rewrite forallb_forall in Hall. apply Z.eqb_eq, Hall, in_seq. lia.
  - intros i H6' H8'. do 16 (destruct i as [|i]; [done|]). done.
  - rewrite (Z.mul_comm 16 v), Z_mod_plus_full. by apply Z.mod_mod.
  - change 128 with (2 * 64). rewrite Z_mod_plus_full. by apply Z.mod_mod.
Qed.

(** ** Text round trips *)

Lemma hex_decode_split s u off n :
  length s = n -> put_at u off (hex_decode (hex_encode s)).1 = put_at u off s.
Proof. intros _. by rewrite hex_decode_encode. Qed.

(** A group of hexadecimal digits that decodes. *)
Definition hex_group (n : nat) (g bs : gostring) : Prop :=
  length g = (2 * n)%nat /\ length bs = n /\ hex_decode g = (bs, None).

Lemma hex_group_encode bs n : length bs = n -> hex_group n (hex_encode bs) bs.
Proof. intros <-. unfold hex_group. by rewrite hex_encode_length, hex_decode_encode. Qed.

(** The five groups joined by dashes: the canonical form, in either letter case. *)
Definition uuid_form (h : gostring) (u : UUID) : Prop :=
  exists g1 g2 g3 g4 g5 b1 b2 b3 b4 b5,
    h = g1 ++ [dash] ++ g2 ++ [dash] ++ g3 ++ [dash] ++ g4 ++ [dash] ++ g5 /\
    u = b1 ++ b2 ++ b3 ++ b4 ++ b5 /\
    hex_group 4 g1 b1 /\ hex_group 2 g2 b2 /\ hex_group 2 g3 b3 /\ hex_group 2 g4 b4 /\ hex_group 6 g5 b5.

Lemma String_form u : wf_uuid u -> uuid_form (String u) u.
Proof.
  unfold wf_uuid. intros H. do 16 (destruct u as [|? u]; [done|]). destruct u; [|done].
  unfold uuid_form, String. cbn [take drop].
  do 10 eexists. split; [reflexivity|]. split; [|split_and!; by apply hex_group_encode].
  reflexivity.
Qed.

(** The groups of [t] are parsed in place, whatever the receiver held; [tail] is
    what may follow the last group. *)
Definition tail_ok (braced : bool) (tail : gostring) : Prop :=
  tail = [] \/ (braced = true /\ tail = ["}"%char]).

Lemma put_at_length u off bs : (off + length bs <= length u)%nat -> length (put_at u off bs) = length u.
Proof. intros. unfold put_at. rewrite !length_app, length_take, length_drop. lia. Qed.

Lemma group_tail_ok n i g rest braced :
  length g = (2 * n)%nat -> i <> 4%nat \/ tail_ok braced rest ->
  (i =? 4)%nat && (2 * n <? length g + length rest)%nat &&
    (braced && negb (bool_decide ((g ++ rest) !! (2 * n)%nat = Some "}"%char))
     || (1 <? length rest)%nat || negb braced) = false.
Proof.
  intros Hg Htail. rewrite lookup_app_r by lia. rewrite Hg, Nat.sub_diag.
  destruct Htail as [Hi|[->|[-> ->]]].
  - by rewrite (proj2 (Nat.eqb_neq i 4)) by done.
  - simpl length. destruct (Nat.ltb_spec (2 * n) (2 * n + 0)); [lia|]. by rewrite andb_false_r.
  - simpl. by rewrite andb_false_r.
Qed.

Lemma groups_first w n groups text g bs rest braced off u :
  w = (2 * n)%nat -> hex_group n g bs ->
  UnmarshalText_groups (w :: groups) 0 text (g ++ rest) braced off u =
  UnmarshalText_groups groups 1 text rest braced (off + n) (put_at u off bs).
Proof.
  intros -> (Hg & Hb & Hd). cbn [UnmarshalText_groups]. change (0 <? 0)%nat with false. cbv iota.
  rewrite length_app. destruct (Nat.ltb_spec (length g + length rest) (2 * n)); [lia|].
  rewrite (take_app_length' _ _ (2 * n)), (drop_app_length' _ _ (2 * n)), Hd by done.
  change (0 =? 4)%nat with false. cbn [andb]. f_equal. rewrite Nat.mul_comm, Nat.div_mul by done. lia.
Qed.

Lemma groups_next w n groups i text g bs rest braced off u :
  w = (2 * n)%nat -> hex_group n g bs -> (S i <> 4%nat \/ tail_ok braced rest) ->
  UnmarshalText_groups (w :: groups) (S i) text ([dash] ++ g ++ rest) braced off u =
  UnmarshalText_groups groups (S (S i)) text rest braced (off + n) (put_at u off bs).
Proof.
  intros -> (Hg & Hb & Hd) Htail. cbn [UnmarshalText_groups]. change (0 <? S i)%nat with true. cbn [app]. cbv iota.
  rewrite (bool_decide_eq_true_2 (dash = "-"%char)), (length_app g rest) by done.
  destruct (Nat.ltb_spec (length g + length rest) (2 * n)); [lia|].
  rewrite (take_app_length' _ _ (2 * n)), (drop_app_length' _ _ (2 * n)), Hd by done.
  pose proof (group_tail_ok n (S i) g rest braced Hg Htail) as E. rewrite E.
  f_equal. rewrite Nat.mul_comm, Nat.div_mul by done. lia.
Qed.

Lemma put_at_app a b c : length b = length c -> put_at (a ++ b) (length a) c = a ++ c.
Proof.
  intros H. unfold put_at. rewrite take_app_length, drop_ge, app_nil_r; [done|].
  rewrite length_app. lia.
Qed.

Lemma put_at_part a b c n :
  n = length a -> (length c <= length b)%nat -> put_at (a ++ b) n c = a ++ c ++ drop (length c) b.
Proof.
  intros -> H. unfold put_at. rewrite take_app_length, drop_app_add. done.
Qed.

Lemma groups_parse h u0 u text braced tail :
  uuid_form h u -> wf_uuid u0 -> tail_ok braced tail ->
  UnmarshalText_groups byteGroups 0 text (h ++ tail) braced 0 u0 = Ok (u, None).
Proof.
  intros (g1 & g2 & g3 & g4 & g5 & b1 & b2 & b3 & b4 & b5 & -> & -> & H1 & H2 & H3 & H4 & H5) Hu Ht.
  unfold byteGroups. rewrite <- !(assoc_L (++)).
  rewrite (groups_first 8 4 _ text g1 b1) by done.
  rewrite (groups_next 4 2 _ 0 text g2 b2), (groups_next 4 2 _ 1 text g3 b3),
    (groups_next 4 2 _ 2 text g4 b4), (groups_next 12 6 _ 3 text g5 b5) by auto.
  cbn [UnmarshalText_groups].
  do 2 f_equal. destruct H1 as (_ & L1 & _), H2 as (_ & L2 & _), H3 as (_ & L3 & _), H4 as (_ & L4 & _), H5 as (_ & L5 & _).
  unfold wf_uuid in Hu. unfold put_at.
  do 16 (destruct u0 as [|? u0]; [done|]). destruct u0; [|done].
  do 4 (destruct b1 as [|? b1]; [done|]). destruct b1; [|done].
  do 2 (destruct b2 as [|? b2]; [done|]). destruct b2; [|done].
  do 2 (destruct b3 as [|? b3]; [done|]). destruct b3; [|done].
  do 2 (destruct b4 as [|? b4]; [done|]). destruct b4; [|done].
  do 6 (destruct b5 as [|? b5]; [done|]). destruct b5; [|done].
  reflexivity.
Qed.

Lemma groups_parse_nil h u0 u text braced :
  uuid_form h u -> wf_uuid u0 -> UnmarshalText_groups byteGroups 0 text h braced 0 u0 = Ok (u, None).
Proof. intros. rewrite <- (app_nil_r h). apply groups_parse; [done..|by left]. Qed.

Lemma uuid_form_length h u : uuid_form h u -> length h = 36%nat /\ wf_uuid u.
Proof.
  intros (g1 & g2 & g3 & g4 & g5 & b1 & b2 & b3 & b4 & b5 & -> & -> & (?&?&_) & (?&?&_) & (?&?&_) & (?&?&_) & (?&?&_)).
  unfold wf_uuid. rewrite !length_app. simpl. lia.
Qed.

Lemma hex_head c g n bs : hex_group (S n) g bs -> head g = Some c -> exists d, hex_val c = Some d.
Proof.
  intros (Hl & _ & Hd) Hh. destruct g as [|p [|q g]]; [done|simpl in Hl; lia|]. simpl in *. injection Hh as ->.
  destruct (hex_val c) as [a|]; [by exists a|done].
Qed.

(** The texts that are accepted for an identifier of form [h]. *)
Definition accepted_texts (h : gostring) : list gostring :=
  [h; "{" ++ h ++ "}"; "{" ++ h; urnPrefix ++ h].

Lemma UnmarshalText_accepts h u u0 text :
  uuid_form h u -> wf_uuid u0 -> text ∈ accepted_texts h -> UnmarshalText u0 text = Ok (u, None).
Proof.
  intros Hf Hu0 Hin. pose proof (uuid_form_length h u Hf) as [Hl _].
  assert (exists c r, h = c :: r /\ c <> "{"%char /\ c <> "u"%char) as (c & r & Eh & Hc1 & Hc2).
  { destruct h as [|c r]; [done|]. exists c, r.
    destruct Hf as (g1 & g2 & g3 & g4 & g5 & b1 & b2 & b3 & b4 & b5 & E & _ & Hg & _).
    destruct g1 as [|p g1]; [by destruct Hg|]. injection E as -> ->.
    destruct (hex_head p (p :: g1) 3 b1 Hg eq_refl) as [d Hd].
    split; [done|]. split; intros ->; vm_compute in Hd; done. }
  assert (forall s, eqs (take 9 (c :: s)) urnPrefix = false) as Hurn.
  { intros s. apply bool_decide_eq_false_2. unfold urnPrefix. simpl. intros [= E _]. congruence. }
  unfold accepted_texts in Hin. unfold UnmarshalText.
  rewrite !elem_of_cons, elem_of_nil in Hin. destruct Hin as [-> | [-> | [-> | [-> | []]]]].
  - destruct (Nat.ltb_spec (length h) 32); [lia|]. rewrite Eh, Hurn, <- Eh.
    rewrite bool_decide_eq_false_2 by done. by apply groups_parse_nil.
  - rewrite !length_app, Hl. destruct (Nat.ltb_spec (length "{" + (36 + length "}")) 32) as [Hx|_]; [simpl in Hx; lia|].
    assert (eqs (take 9 ("{" ++ h ++ "}")) urnPrefix = false) as -> by (by apply bool_decide_eq_false_2).
    cbn [app]. rewrite (bool_decide_eq_true_2 ("{"%char = "{"%char)) by done.
    apply groups_parse; [done..|by right].
  - rewrite !length_app, Hl. destruct (Nat.ltb_spec (length "{" + 36) 32) as [Hx|_]; [simpl in Hx; lia|].
    assert (eqs (take 9 ("{" ++ h)) urnPrefix = false) as -> by (by apply bool_decide_eq_false_2).
    cbn [app]. rewrite (bool_decide_eq_true_2 ("{"%char = "{"%char)) by done.
    by apply groups_parse_nil.
  - rewrite !length_app, Hl. destruct (Nat.ltb_spec (length urnPrefix + 36) 32) as [Hx|_]; [simpl in Hx; lia|].
    rewrite (take_app_length' urnPrefix h 9) by done. rewrite (drop_app_length' urnPrefix h 9) by done.
    rewrite eqs_refl. by apply groups_parse_nil.
Qed.

Lemma hex_decode_length n g bs :
  length g = (2 * n)%nat -> hex_decode g = (bs, None) -> hex_group n g bs.
Proof.
  intros Hl Hd. split_and!; [done| |done]. revert g bs Hl Hd. induction n as [|n IH]; intros g bs Hl Hd.
  - destruct g; [|done]. by injection Hd as <-.
  - destruct g as [|p [|q g]]; [done|simpl in Hl; lia|]. cbn [hex_decode] in Hd.
    destruct (hex_val p), (hex_val q); try done. destruct (hex_decode g) as [r err] eqn:E.
    injection Hd as <- ->. simpl. f_equal. apply (IH g); [simpl in Hl; lia|done].
Qed.

(** What a group that was read without an error looked like. *)
Lemma group_body_inv n i text t braced off u u' groups :
  (if (length t <? 2 * n)%nat then Ok (u, Some (TooShort text))
   else if (i =? 4)%nat && (2 * n <? length t)%nat &&
           ((braced && negb (bool_decide (t !! (2 * n)%nat = Some "}"%char)))
            || (1 <? length (drop (2 * n) t))%nat || negb braced)
   then Ok (u, Some (TooLong text))
   else let '(bs, err) := hex_decode (take (2 * n) t) in
        match err with
        | Some e => Ok (put_at u off bs, Some e)
        | None => UnmarshalText_groups groups (S i) text (drop (2 * n) t) braced
                                       (off + 2 * n / 2) (put_at u off bs)
        end) = Ok (u', None) ->
  exists g bs rest, t = g ++ rest /\ hex_group n g bs /\ (i = 4%nat -> tail_ok braced rest) /\
    UnmarshalText_groups groups (S i) text rest braced (off + n) (put_at u off bs) = Ok (u', None).
Proof.
  destruct (Nat.ltb_spec (length t) (2 * n)) as [|Hlen]; [done|].
  destruct ((i =? 4)%nat && _ && _) eqn:Hcond; [done|].
  destruct (hex_decode (take (2 * n) t)) as [bs [e|]] eqn:Hd; [done|].
  rewrite (Nat.mul_comm 2 n), Nat.div_mul, (Nat.mul_comm n 2) by done. intros Hrec.
  exists (take (2 * n) t), bs, (drop (2 * n) t). split_and!; [by rewrite take_drop| | |done].
  - apply hex_decode_length; [rewrite length_take; lia|done].
  - intros ->. rewrite Nat.eqb_refl in Hcond. cbn [andb] in Hcond. unfold tail_ok.
    destruct (Nat.ltb_spec (2 * n) (length t)); cbn [andb] in Hcond.
    + apply orb_false_iff in Hcond as [Hcond Hbr]. apply orb_false_iff in Hcond as [Hb H1].
      apply negb_false_iff in Hbr. subst braced. cbn [andb] in Hb.
      apply negb_false_iff, bool_decide_eq_true in Hb. apply Nat.ltb_ge in H1.
      right. split; [done|]. rewrite <- (Nat.add_0_r (2 * n)), <- lookup_drop in Hb.
      destruct (drop (2 * n) t) as [|x [|y r]]; [done| |simpl in H1; lia]. simpl in Hb. by injection Hb as ->.
    + left. apply drop_ge. lia.
Qed.

Lemma groups_first_inv w n groups text t braced off u u' :
  w = (2 * n)%nat -> UnmarshalText_groups (w :: groups) 0 text t braced off u = Ok (u', None) ->
  exists g bs rest, t = g ++ rest /\ hex_group n g bs /\
    UnmarshalText_groups groups 1 text rest braced (off + n) (put_at u off bs) = Ok (u', None).
Proof.
  intros -> H. destruct (group_body_inv n 0 text t braced off u u' groups) as (g & bs & rest & ? & ? & _ & ?);
    [|eauto 10]. exact H.
Qed.

Lemma groups_next_inv w n groups i text t braced off u u' :
  w = (2 * n)%nat -> UnmarshalText_groups (w :: groups) (S i) text t braced off u = Ok (u', None) ->
  exists g bs rest, t = [dash] ++ g ++ rest /\ hex_group n g bs /\ (S i = 4%nat -> tail_ok braced rest) /\
    UnmarshalText_groups groups (S (S i)) text rest braced (off + n) (put_at u off bs) = Ok (u', None).
Proof.
  intros -> H. cbn [UnmarshalText_groups] in H. change (0 <? S i)%nat with true in H. cbv iota in H.
  destruct t as [|c t]; [done|]. destruct (bool_decide_reflect (c = "-"%char)) as [->|]; [|done].
  destruct (group_body_inv n (S i) text t braced off u u' groups) as (g & bs & rest & -> & ? & ? & ?); [exact H|].
  exists g, bs, rest. done.
Qed.

(** C33 [UnmarshalText] accepts exactly the canonical form of an identifier (with
    digits of either case), alone, in braces, after an opening brace that is
    never closed, or after the prefix "urn:uuid:"; and it then stores that
    identifier, whatever the receiver held. *)
Theorem UnmarshalText_iff u0 text u (Hu0 : wf_uuid u0) :
  UnmarshalText u0 text = Ok (u, None) <-> exists h, uuid_form h u /\ text ∈ accepted_texts h.
Proof.
  split; [|intros (h & Hf & Hin); by eapply UnmarshalText_accepts]. intros H.
  unfold UnmarshalText in H. destruct (Nat.ltb_spec (length text) 32) as [|Hlen]; [done|].
  assert (exists t braced, UnmarshalText_groups byteGroups 0 text t braced 0 u0 = Ok (u, None) /\
    ((text = urnPrefix ++ t /\ braced = false) \/ (text = "{" ++ t /\ braced = true) \/ (text = t /\ braced = false)))
    as (t & braced & Hg & Hpre).
  { destruct (eqs (take 9 text) urnPrefix) eqn:E.
    - apply eqs_spec in E. eexists _, _. split; [exact H|]. left. split; [|done]. by rewrite <- E, take_drop.
    - destruct text as [|c text]; [done|].
      destruct (bool_decide_reflect (c = "{"%char)) as [->|]; eexists _, _; (split; [exact H|]); auto. }
  clear H Hlen. unfold byteGroups in Hg.
  apply (groups_first_inv 8 4) in Hg as (g1 & b1 & r1 & -> & H1 & Hg); [|done].
  apply (groups_next_inv 4 2) in Hg as (g2 & b2 & r2 & -> & H2 & _ & Hg); [|done].
  apply (groups_next_inv 4 2) in Hg as (g3 & b3 & r3 & -> & H3 & _ & Hg); [|done].
  apply (groups_next_inv 4 2) in Hg as (g4 & b4 & r4 & -> & H4 & _ & Hg); [|done].
  apply (groups_next_inv 12 6) in Hg as (g5 & b5 & r5 & -> & H5 & Ht & Hg); [|done].
  specialize (Ht eq_refl). cbn [UnmarshalText_groups] in Hg.
  set (h := g1 ++ [dash] ++ g2 ++ [dash] ++ g3 ++ [dash] ++ g4 ++ [dash] ++ g5).
  assert (uuid_form h (b1 ++ b2 ++ b3 ++ b4 ++ b5)) as Hf by (unfold uuid_form; by eauto 20).
  assert (u = b1 ++ b2 ++ b3 ++ b4 ++ b5) as ->.
  { pose proof (groups_parse h u0 _ text braced r5 Hf Hu0 Ht) as E.
    unfold h, byteGroups in E. rewrite <- !(assoc_L (++)) in E.
    rewrite (groups_first 8 4 _ text g1 b1) in E by done.
    rewrite (groups_next 4 2 _ 0 text g2 b2), (groups_next 4 2 _ 1 text g3 b3),
      (groups_next 4 2 _ 2 text g4 b4), (groups_next 12 6 _ 3 text g5 b5) in E by auto.
    cbn [UnmarshalText_groups] in E. congruence. }
  exists h. split; [done|]. unfold accepted_texts. rewrite !elem_of_cons.
  assert (g1 ++ [dash] ++ g2 ++ [dash] ++ g3 ++ [dash] ++ g4 ++ [dash] ++ g5 ++ r5 = h ++ r5) as Eh
    by (unfold h; by rewrite <- !(assoc_L (++))).
  rewrite Eh in Hpre. destruct Ht as [-> | [-> ->]].
  - rewrite app_nil_r in Hpre. destruct Hpre as [[-> _]|[[-> _]|[-> _]]]; auto.
  - destruct Hpre as [[_ ?]|[[-> _]|[_ ?]]]; [done| |done]. auto.
Qed.

(** Printing an identifier and parsing any accepted form of the text gives it
    back; so does the binary form. *)
Theorem String_UnmarshalText u u0 (Hu : wf_uuid u) (Hu0 : wf_uuid u0) :
  (forall text, text ∈ accepted_texts (String u) -> UnmarshalText u0 text = Ok (u, None)) /\
  Scan u0 (SrcString (Value u)) = Ok (u, None) /\
  Scan u0 (SrcBytes (MarshalBinary u)) = Ok (u, None) /\
  UnmarshalBinary u0 (MarshalBinary u) = (u, None) /\
  length (String u) = 36%nat.
Proof.
  pose proof (String_form u Hu) as Hf. split_and!.
  - intros text Hin. by eapply UnmarshalText_accepts.
  - apply (UnmarshalText_accepts (String u)); [done..|]. unfold accepted_texts. rewrite elem_of_cons. by left.
  - unfold wf_uuid in Hu. unfold Scan, MarshalBinary, Bytes, UnmarshalBinary. by rewrite Hu.
  - unfold wf_uuid in Hu. unfold MarshalBinary, Bytes, UnmarshalBinary. by rewrite Hu.
  - by apply (uuid_form_length _ u).
Qed.

(** A text of 32 bytes that ends after the fourth group makes the parser read
    past its end. *)
Theorem UnmarshalText_panics :
  UnmarshalText Nil "urn:uuid:6ba7b810-9dad-11d1-80b4" = Panicked "index out of range [0] with length 0".
Proof. vm_compute. reflexivity. Qed.

(** ** Uniqueness of time-based identifiers *)

(** The stamps that a sequence of calls to [NewV1] draws from the storage, and
    the identifiers that the calls return. *)
Fixpoint v1_stamps (env : init_env) (nows : list Z) (st : storage) : list (Z * Z * gostring) :=
  match nows with
  | [] => []
  | now :: nows' => let '(s, st') := getStorage env now st in s :: v1_stamps env nows' st'
  end.

Fixpoint v1_run (env : init_env) (nows : list Z) (st : storage) : list UUID :=
  match nows with
  | [] => []
  | now :: nows' => let '(u, st') := NewV1 env now st in u :: v1_run env nows' st'
  end.

(** How often the clock did not advance between two calls. *)
Fixpoint regressions (last : Z) (nows : list Z) : Z :=
  match nows with
  | [] => 0
  | now :: nows' => (if now <=? last then 1 else 0) + regressions now nows'
  end.

Definition wf_storage (st : storage) : Prop :=
  storageOnce st = true /\ 0 <= clockSequence st < 65536 /\ length (hardwareAddr st) = 6%nat.

Lemma v1_run_stamps env nows st : v1_run env nows st = map NewV1_of (v1_stamps env nows st).
Proof.
  revert st. induction nows as [|now nows IH]; intros st; [done|]. cbn [v1_run v1_stamps]. unfold NewV1.
  destruct (getStorage env now st) as [s st']. simpl. by rewrite IH.
Qed.

Lemma regressions_nonneg last nows : 0 <= regressions last nows.
Proof. revert last. induction nows as [|n nows IH]; intros last; simpl; [lia|]. specialize (IH n). zbool; lia. Qed.

(** Every stamp of a run is later than the storage, or has a clock sequence
    advanced by one of the regressions. *)
Lemma v1_stamps_spec env nows st :
  wf_storage st -> Forall (fun s : Z * Z * gostring =>
    exists k, 0 <= k <= regressions (lastTime st) nows /\
      s.1.2 = (clockSequence st + k) mod 65536 /\ (k = 0 -> lastTime st < s.1.1) /\
      s.1.1 ∈ nows /\ s.2 = hardwareAddr st) (v1_stamps env nows st).
Proof.
  revert st. induction nows as [|now nows IH]; intros st (Ho & Hc & Hh); [constructor|].
  cbn [v1_stamps regressions]. unfold getStorage. rewrite Ho.
  set (c := if now <=? lastTime st then uint16 (clockSequence st + 1) else clockSequence st).
  assert (0 <= c < 65536) as Hcr.
  { unfold c. destruct (now <=? lastTime st); [apply (uwrap_range 16); lia|done]. }
  pose proof (regressions_nonneg now nows) as Hr.
  assert (exists k0, (k0 = if now <=? lastTime st then 1 else 0) /\ c = (clockSequence st + k0) mod 65536)
    as (k0 & Hk0 & Hck).
  { eexists. split; [done|]. unfold c. destruct (now <=? lastTime st); [done|].
    rewrite Z.add_0_r. by rewrite Z.mod_small. }
  constructor.
  - exists k0. cbn [fst snd]. split_and!; [destruct (now <=? lastTime st); lia..|done| | |done].
    + intros E. destruct (Z.leb_spec now (lastTime st)); lia.
    + apply elem_of_cons. by left.
  - eapply Forall_impl; [apply IH; repeat split; cbn; first [done|lia]|].
    intros [[t c'] hw] (k & Hk & Hc' & Ht & Hin & Hhw). cbn [fst snd lastTime clockSequence hardwareAddr] in *.
    exists (k0 + k). split_and!; [destruct (now <=? lastTime st); lia..| | | |done].
    + rewrite Hc', Hck. rewrite Z.add_mod_idemp_l by lia. f_equal. lia.
    + intros E. destruct (Z.leb_spec now (lastTime st)); [lia|]. specialize (Ht ltac:(lia)). lia.
    + apply elem_of_cons. by right.
Qed.

Definition stamp_ok (s : Z * Z * gostring) : Prop :=
  0 <= s.1.1 < 2 ^ 60 /\ 0 <= s.1.2 < 65536 /\ length s.2 = 6%nat.

Lemma NewV1_shape t c hw :
  length hw = 6%nat ->
  NewV1_of (t, c, hw) =
    be_fixed 4 (uint32 t) ++ be_fixed 2 (uint16 (Z.shiftr t 32)) ++
    [byte_of (Z.lor (Z.land (byte_val (byte_of (uint16 (Z.shiftr t 48) / 256))) 15) (uint8 (Z.shiftl 1 4)));
     byte_of (uint16 (Z.shiftr t 48) / 1)] ++
    [byte_of (Z.lor (Z.land (byte_val (byte_of (c / 256))) 191) 128); byte_of (c / 1)] ++ hw.
Proof.
  intros H. do 6 (destruct hw as [|? hw]; [done|]). destruct hw; [|done]. reflexivity.
Qed.

Lemma app_inj_1_len {A} (a1 a2 b1 b2 : list A) : length a1 = length a2 -> a1 ++ b1 = a2 ++ b2 -> a1 = a2 /\ b1 = b2.
Proof. intros. by apply app_inj_1. Qed.

Lemma be_fixed_inj n a b : be_fixed n a = be_fixed n b -> a mod 256 ^ Z.of_nat n = b mod 256 ^ Z.of_nat n.
Proof. intros H. by rewrite <- !be_val_fixed, H. Qed.

Lemma div_mod_eq_inj n a b : n <> 0 -> a / n = b / n -> a mod n = b mod n -> a = b.
Proof. intros Hn H1 H2. rewrite (Z.div_mod a n), (Z.div_mod b n) by done. congruence. Qed.

Lemma hi_lo_eq a b :
  0 <= a < 4096 -> 0 <= b < 4096 -> ((a / 256) mod 256) mod 16 = ((b / 256) mod 256) mod 16 ->
  a mod 256 = b mod 256 -> a = b.
Proof.
  intros Ha Hb H1 H2.
  assert (0 <= a / 256 < 16) by (split; [apply Z.div_pos; lia|apply Z.div_lt_upper_bound; lia]).
  assert (0 <= b / 256 < 16) by (split; [apply Z.div_pos; lia|apply Z.div_lt_upper_bound; lia]).
  rewrite (Z.mod_small (a / 256) 256), (Z.mod_small (a / 256) 16), (Z.mod_small (b / 256) 256),
    (Z.mod_small (b / 256) 16) in H1 by lia.
  pose proof (Z.div_mod a 256 ltac:(lia)). pose proof (Z.div_mod b 256 ltac:(lia)). lia.
Qed.

(** Two stamps give the same identifier only if their times are equal and their
    clock sequences agree in the fourteen bits that the format keeps. *)
Lemma NewV1_of_inj s1 s2 :
  stamp_ok s1 -> stamp_ok s2 -> NewV1_of s1 = NewV1_of s2 ->
  s1.1.1 = s2.1.1 /\ s1.1.2 mod 16384 = s2.1.2 mod 16384.
Proof.
  destruct s1 as [[t1 c1] h1], s2 as [[t2 c2] h2]. intros (Ht1 & Hc1 & Hl1) (Ht2 & Hc2 & Hl2).
  cbn [fst snd] in *. rewrite !NewV1_shape by done. intros E.
  apply app_inj_1_len in E as [E1 E]; [|by rewrite !be_fixed_length].
  apply app_inj_1_len in E as [E2 E]; [|by rewrite !be_fixed_length].
  apply app_inj_1_len in E as [E3 E]; [|done].
  apply app_inj_1_len in E as [E4 _]; [|done].
  apply be_fixed_inj in E1, E2. change (256 ^ Z.of_nat 4) with (2 ^ 32) in E1.
  change (256 ^ Z.of_nat 2) with (2 ^ 16) in E2. unfold uwrap in *.
  rewrite !Z.mod_mod in E1, E2 by lia. rewrite !Z.shiftr_div_pow2 in * by lia.
  injection E3 as E3a E3b. injection E4 as E4a E4b.
  apply (f_equal byte_val) in E3a, E3b, E4a, E4b.
  rewrite !(SetVersion_byte 1), !byte_val_of in E3a by lia. rewrite !SetVariant_byte, !byte_val_of in E4a.
  rewrite !byte_val_of, !Z.div_1_r in E3b, E4b.
  change (2 ^ 32) with 4294967296 in *. change (2 ^ 16) with 65536 in *.
  change (2 ^ 48) with 281474976710656 in *. change (2 ^ 60) with 1152921504606846976 in *.
  split.
  - set (m1 := t1 / 281474976710656) in *. set (m2 := t2 / 281474976710656) in *.
    assert (m1 = t1 / 4294967296 / 65536) as F1 by (unfold m1; rewrite Z.div_div by lia; done).
    assert (m2 = t2 / 4294967296 / 65536) as F2 by (unfold m2; rewrite Z.div_div by lia; done).
    assert (0 <= m1 < 4096) by (unfold m1; split; [apply Z.div_pos; lia|apply Z.div_lt_upper_bound; lia]).
    assert (0 <= m2 < 4096) by (unfold m2; split; [apply Z.div_pos; lia|apply Z.div_lt_upper_bound; lia]).
    rewrite !(Z.mod_small _ 65536) in E3a, E3b by lia.
    clearbody m1 m2. assert (m1 = m2) as E5 by (apply hi_lo_eq; [done|done|lia|done]).
    assert (t1 / 4294967296 = t2 / 4294967296) as E6
      by (apply (div_mod_eq_inj 65536); [done|congruence|done]).
    by apply (div_mod_eq_inj 4294967296).
  - rewrite (Z.mod_small (c1 / 256) 256), (Z.mod_small (c2 / 256) 256) in E4a
      by (split; [apply Z.div_pos; lia|apply Z.div_lt_upper_bound; lia]).
    change 16384 with (256 * 64). rewrite !Z.rem_mul_r by lia. lia.
Qed.

Lemma clock_advanced c k : 0 < k < 16384 -> ((c + k) mod 65536) mod 16384 <> c mod 16384.
Proof.
  intros Hk E. rewrite (Z.mod_eq (c + k) 65536) in E by lia.
  replace (c + k - 65536 * ((c + k) / 65536)) with (c + k + (- 4 * ((c + k) / 65536)) * 16384) in E by lia.
  rewrite Z_mod_plus_full in E.
  pose proof (Z.div_mod (c + k) 16384 ltac:(lia)). pose proof (Z.div_mod c 16384 ltac:(lia)).
  pose proof (Z.mod_pos_bound c 16384 ltac:(lia)). lia.
Qed.

(** C35 The identifiers of a run of [NewV1] are pairwise different as long as the
    clock failed to advance fewer than 2^14 times during the run (and stays
    below 2^60, in the year 5236). *)
Theorem NewV1_unique env nows st
  (Hst : wf_storage st) (Hnows : Forall (fun t => 0 <= t < 2 ^ 60) nows)
  (Hreg : regressions (lastTime st) nows < 16384) :
  NoDup (v1_run env nows st).
Proof.
  rewrite v1_run_stamps. revert st Hst Hreg.
  induction Hnows as [|now nows Hnow Hnows IH]; intros st Hst Hreg; [constructor|].
  pose proof (v1_stamps_spec env (now :: nows) st Hst) as Hall.
  cbn [v1_stamps regressions] in *. unfold getStorage in *. destruct Hst as (Ho & Hc & Hh). rewrite Ho in *.
  set (c := if now <=? lastTime st then uint16 (clockSequence st + 1) else clockSequence st) in *.
  assert (0 <= c < 65536) as Hcr.
  { unfold c. destruct (now <=? lastTime st); [apply (uwrap_range 16); lia|done]. }
  set (st' := mkStorage true c now (hardwareAddr st)) in *.
  assert (wf_storage st') as Hst' by (repeat split; cbn; first [done|lia]).
  pose proof (regressions_nonneg now nows) as Hr.
  assert (regressions (lastTime st') nows < 16384) as Hreg' by (cbn; destruct (now <=? lastTime st); lia).
  cbn [map]. constructor; [|by apply IH].
  intros Hin. apply list_elem_of_fmap in Hin as ([[t c'] hw] & E & Hin).
  pose proof (v1_stamps_spec env nows st' Hst') as Hs. rewrite Forall_forall in Hs. specialize (Hs _ Hin).
  cbn [fst snd] in Hs. destruct Hs as (k & Hk & Hck & Ht & Htin & Hhw).
  assert (0 <= t < 2 ^ 60) as Htr by (rewrite Forall_forall in Hnows; auto).
  cbn [lastTime clockSequence hardwareAddr st'] in *.
  apply NewV1_of_inj in E as [E1 E2]; [|repeat split; cbn [fst snd]; first [done|lia]|].
  - cbn [fst snd] in *. destruct (Z.eq_dec k 0) as [->|]; [specialize (Ht eq_refl); lia|].
    rewrite Hck in E2. symmetry in E2. by apply clock_advanced in E2; [|lia].
  - split_and!; cbn [fst snd]; try done; try lia; [rewrite Hck; apply Z.mod_pos_bound; lia..|by rewrite Hhw].
Qed.

(** ** Every generator *)

Lemma put_Nil_wf off bs : (off + length bs <= 16)%nat -> forall u, wf_uuid u -> wf_uuid (put_at u off bs).
Proof. unfold wf_uuid. intros H u Hu. rewrite put_at_length; lia. Qed.

(** Every generator returns sixteen bytes that carry its version number and the
    RFC 4122 variant. *)
Theorem generators_version (md5 sha1 : gostring -> gostring) ns name random env now uid gid domain st
  (Hmd5 : forall s, length (md5 s) = 16%nat) (Hsha1 : forall s, length (sha1 s) = 20%nat)
  (Hrand : length random = 16%nat) (Hst : wf_storage st) :
  let ok u v := wf_uuid u /\ Version u = v /\ Variant u = VariantRFC4122 in
  ok (NewV1 env now st).1 1 /\ ok (NewV2 env now uid gid domain st).1 2 /\ ok (NewV3 md5 ns name) 3 /\
  (exists u, NewV4 (Some random) = Ok u /\ ok u 4) /\ ok (NewV5 sha1 ns name) 5.
Proof.
  cbn zeta. destruct Hst as (Ho & Hc & Hh).
  assert (forall u v, wf_uuid u -> 0 <= v < 16 -> let w := SetVariant (SetVersion u v) in
    wf_uuid w /\ Version w = v /\ Variant w = VariantRFC4122) as Hset.
  { intros u v Hu Hv. destruct (SetVersion_SetVariant u v Hu Hv) as (? & ? & ? & _). done. }
  assert (wf_uuid Nil) as HNil by done.
  unfold NewV1, NewV2, getStorage. rewrite Ho. cbn [fst]. unfold NewV1_of, NewV3, NewV4, NewV5, newFromHash.
  refine (conj (Hset _ 1 _ _) (conj (Hset _ 2 _ _) (conj (Hset _ 3 _ _) (conj _ (Hset _ 5 _ _))))); try lia;
    try (repeat (apply put_Nil_wf; [rewrite ?be_fixed_length, ?length_take, ?Hmd5, ?Hsha1, ?Hh; simpl; lia|]); done).
  - repeat (apply put_Nil_wf; [rewrite ?be_fixed_length, ?length_take, ?Hh; simpl; lia|]).
    destruct (domain =? DomainPerson); [apply put_Nil_wf; [rewrite be_fixed_length; lia|done]|].
    destruct (domain =? DomainGroup); [apply put_Nil_wf; [rewrite be_fixed_length; lia|done]|done].
  - eexists. split; [done|]. apply Hset; [|lia]. unfold wf_uuid. rewrite length_take. lia.
Qed.

(** ** Witnesses *)

Definition example_uuid : UUID :=
  map byte_of [107; 167; 184; 16; 157; 173; 17; 209; 128; 180; 0; 192; 79; 212; 48; 200].

Lemma generators_version_witness :
  Version (NewV5 (fun _ => replicate 20 (byte_of 255)) Nil "name") = 5.
Proof.
  apply (generators_version (fun _ => Nil) (fun _ => replicate 20 (byte_of 255)) Nil "name"
           (replicate 16 zero_byte) (mkInitEnv [] None []) 0 0 0 0 (mkStorage true 0 0 (replicate 6 zero_byte)));
    try (by repeat split).
Defined.

Lemma UnmarshalText_iff_witness :
  wf_uuid Nil /\ exists h, uuid_form h example_uuid /\
    ("{6BA7B810-9DAD-11d1-80b4-00c04fd430c8}" : gostring) ∈ accepted_texts h.
Proof.
  assert (wf_uuid Nil) as H by reflexivity. split; [exact H|].
  apply (UnmarshalText_iff Nil "{6BA7B810-9DAD-11d1-80b4-00c04fd430c8}" example_uuid H).
  vm_compute. reflexivity.
Defined.

Lemma String_UnmarshalText_witness :
  wf_uuid example_uuid /\ Scan Nil (SrcString (Value example_uuid)) = Ok (example_uuid, None).
Proof.
  assert (wf_uuid example_uuid) as H by reflexivity. split; [exact H|].
  apply (String_UnmarshalText example_uuid Nil H). reflexivity.
Defined.

Lemma NewV1_unique_witness :
  NoDup (v1_run (mkInitEnv [] None []) [138000000000000000; 138000000000000000; 137999999999999999]
           (mkStorage true 65535 0 (replicate 6 zero_byte))).
Proof.
  apply NewV1_unique; [by repeat split|repeat constructor; lia|vm_compute; reflexivity].
Defined.
