(* ===== verification/Crypto.v ===== *)
(** * Crypto: padding, block chaining and encodings of [pkg/util]

    [aes.go], [md5.go], [sha.go] and [hash.go].  The block cipher and the
    digests are parameters; the chaining mode, the padding, base64, and the
    CRC are definitions. *)
From S2P Require Import Prelude GoStr Uuid.

#[global] Open Scope Z_scope.
#[global] Open Scope go_scope.

(** ** [encoding/base64.StdEncoding] *)

Definition b64_char (d : Z) : ascii :=
  if d <? 26 then byte_of (65 + d) else if d <? 52 then byte_of (71 + d)
  else if d <? 62 then byte_of (d - 4) else if d =? 62 then "+"%char else "/"%char.

Definition b64_val (c : ascii) : option Z :=
  if ascii_upper c then Some (byte_val c - 65)
  else if ascii_lower c then Some (byte_val c - 71)
  else if ascii_digit c then Some (byte_val c + 4)
  else if bool_decide (c = "+"%char) then Some 62
  else if bool_decide (c = "/"%char) then Some 63
  else None.

Fixpoint b64_encode (s : gostring) : gostring :=
  match s with
  | [] => []
  | [a] =>
    [b64_char (byte_val a / 4); b64_char (byte_val a mod 4 * 16); "="%char; "="%char]
  | [a; b] =>
    [b64_char (byte_val a / 4); b64_char (byte_val a mod 4 * 16 + byte_val b / 16);
     b64_char (byte_val b mod 16 * 4); "="%char]
  | a :: b :: c :: s' =>
    b64_char (byte_val a / 4) :: b64_char (byte_val a mod 4 * 16 + byte_val b / 16) ::
    b64_char (byte_val b mod 16 * 4 + byte_val c / 64) :: b64_char (byte_val c mod 64) :: b64_encode s'
  end.

(** Decoding after the line breaks, which the decoder skips, have been removed.
    Padding may only close the text. *)
Fixpoint b64_decode_quads (s : gostring) : option gostring :=
  match s with
  | [] => Some []
  | w :: x :: y :: z :: s' =>
    match b64_val w, b64_val x with
    | Some w, Some x =>
      match b64_val y, b64_val z with
      | Some y, Some z =>
        match b64_decode_quads s' with
        | Some r => Some (byte_of (w * 4 + x / 16) :: byte_of (x mod 16 * 16 + y / 4) ::
                          byte_of (y mod 4 * 64 + z) :: r)
        | None => None
        end
      | Some y, None =>
        if bool_decide (z = "="%char) && bool_decide (s' = [])
        then Some [byte_of (w * 4 + x / 16); byte_of (x mod 16 * 16 + y / 4)] else None
      | None, _ =>
        if bool_decide (y = "="%char) && bool_decide (z = "="%char) && bool_decide (s' = [])
        then Some [byte_of (w * 4 + x / 16)] else None
      end
    | _, _ => None
    end
  | _ => None
  end.

Definition b64_decode (s : gostring) : option gostring :=
  b64_decode_quads (filter (fun c => c <> byte_of 10 /\ c <> byte_of 13) s).

(** ** [hash/crc32], the IEEE polynomial *)

Fixpoint crc_bits (n : nat) (r : Z) : Z :=
  match n with
  | O => r
  | S k => crc_bits k (if Z.odd r then Z.lxor (Z.shiftr r 1) 3988292384 else Z.shiftr r 1)
  end.

Definition HashCrc32 (s : gostring) : Z :=
  Z.lxor (fold_left (fun r c => crc_bits 8 (Z.lxor r (byte_val c))) s 4294967295) 4294967295.

Example crc32_check : HashCrc32 "123456789" = 3421780262.
Proof. vm_compute. reflexivity. Qed.

(** ** Digests *)

Definition MD5 (md5 : gostring -> gostring) (str : gostring) : gostring := hex_encode (md5 str).
Definition SHA1 (sha1 : gostring -> gostring) (str : gostring) : gostring := hex_encode (sha1 str).
Definition HMACSHA1 (hmac : gostring -> gostring -> gostring) (keyStr data : gostring) : gostring :=
  b64_encode (hmac keyStr data).
Definition HmacSha256 (hmac : gostring -> gostring -> gostring) (message secret : gostring) : gostring :=
  b64_encode (hex_encode (hmac secret message)).

(** ** Padding *)

Definition PKCS7Padding (ciphertext : gostring) (blockSize : nat) : gostring :=
  let padding := (blockSize - length ciphertext mod blockSize)%nat in
  ciphertext ++ replicate padding (byte_of (Z.of_nat padding)).

Definition PKCS5Padding (ciphertext : gostring) (blockSize : nat) : gostring :=
  let padding := (blockSize - length ciphertext mod blockSize)%nat in
  ciphertext ++ replicate padding (byte_of (Z.of_nat padding)).

Definition PKCS7UnPadding (origData : gostring) : go gostring gostring :=
  match last origData with
  | None => Err "empty input"
  | Some c =>
    let length := length origData in
    let unpadding := Z.to_nat (byte_val c) in
    if (unpadding =? 0)%nat || (length <? unpadding)%nat then Err "invalid padding"
    else if forallb (fun d => bool_decide (d = c)) (drop (length - unpadding) origData)
    then Ok (take (length - unpadding) origData)
    else Err "invalid padding"
  end.

Definition PKCS5UnPadding (origData : gostring) : go gostring gostring :=
  match last origData with
  | None => Err "empty input"
  | Some c =>
    let length := length origData in
    let unpadding := Z.to_nat (byte_val c) in
    if (unpadding =? 0)%nat || (length <? unpadding)%nat then Err "invalid padding"
    else if forallb (fun d => bool_decide (d = c)) (drop (length - unpadding) origData)
    then Ok (take (length - unpadding) origData)
    else Err "invalid padding"
  end.

(** ** Cipher block chaining *)

Definition blockSize : nat := 16.

Definition xor_bytes (a b : gostring) : gostring :=
  zip_with (fun x y => byte_of (Z.lxor (byte_val x) (byte_val y))) a b.

Section Aes.
Context (encrypt_block decrypt_block : gostring -> gostring -> gostring).

(** [aes.NewCipher] accepts keys of 16, 24 or 32 bytes. *)
Definition NewCipher (key : gostring) : go gostring unit :=
  if (length key =? 16)%nat || (length key =? 24)%nat || (length key =? 32)%nat then Ok ()
  else Err ("crypto/aes: invalid key size " ++ FormatInt (Z.of_nat (length key))).

(** [CryptBlocks] of the two modes, over the blocks of the data: [n] is their number. *)
Fixpoint cbc_encrypt (n : nat) (key iv data : gostring) : gostring :=
  match n with
  | O => []
  | S k =>
    let c := encrypt_block key (xor_bytes (take blockSize data) iv) in
    c ++ cbc_encrypt k key c (drop blockSize data)
  end.

Fixpoint cbc_decrypt (n : nat) (key iv data : gostring) : gostring :=
  match n with
  | O => []
  | S k =>
    let c := take blockSize data in
    xor_bytes (decrypt_block key c) iv ++ cbc_decrypt k key c (drop blockSize data)
  end.

Definition check_blocks (iv data : gostring) : go gostring nat :=
  if negb (length iv =? blockSize)%nat then Panicked "cipher: IV length must equal block size"
  else if negb (length data mod blockSize =? 0)%nat then Panicked "crypto/cipher: input not full blocks"
  else Ok (length data / blockSize)%nat.

Definition AesEncrypt (origData key iv : gostring) (paddingFunc : gostring -> nat -> gostring)
  : go gostring gostring :=
  let! _ := NewCipher key in
  let origData := paddingFunc origData blockSize in
  let! n := check_blocks iv origData in
  Ok (cbc_encrypt n key iv origData).

Definition AesDecrypt (crypted key iv : gostring) (unPaddingFunc : gostring -> go gostring gostring)
  : go gostring gostring :=
  let! _ := NewCipher key in
  let! n := check_blocks iv crypted in
  unPaddingFunc (cbc_decrypt n key iv crypted).

Definition AesEncryptPkcs5 (origData key iv : gostring) := AesEncrypt origData key iv PKCS5Padding.
Definition AesEncryptPkcs7 (origData key iv : gostring) := AesEncrypt origData key iv PKCS7Padding.
Definition AesEncryptSimple (origData key iv : gostring) := AesEncryptPkcs5 origData key iv.

Definition AesEncryptPkcs7Base64 (origData key iv : gostring) : go gostring gostring :=
  let! data := AesEncrypt origData key iv PKCS7Padding in
  Ok (b64_encode data).

Definition AesDecryptPkcs5 (crypted key iv : gostring) := AesDecrypt crypted key iv PKCS5UnPadding.
Definition AesDecryptPkcs7 (crypted key iv : gostring) := AesDecrypt crypted key iv PKCS7UnPadding.
Definition AesDecryptSimple (crypted key iv : gostring) := AesDecryptPkcs5 crypted key iv.

Definition AesDecryptPkcs7Base64 (crypted key iv : gostring) : go gostring gostring :=
  match b64_decode crypted with
  | None => Err "illegal base64 data"
  | Some cryptedData => AesDecrypt cryptedData key iv PKCS7UnPadding
  end.

End Aes.

(** ** Base64 round trip *)

Lemma b64_val_char d : 0 <= d < 64 -> b64_val (b64_char d) = Some d.
Proof.
  intros Hd. assert (exists n, d = Z.of_nat n /\ (n < 64)%nat) as (n & -> & Hn) by (exists (Z.to_nat d); lia).
  assert (forallb (fun n => bool_decide (b64_val (b64_char (Z.of_nat n)) = Some (Z.of_nat n))) (seq 0 64) = true)
    as H by (vm_compute; reflexivity).
  rewrite forallb_forall in H. specialize (H n). rewrite bool_decide_eq_true in H. apply H, in_seq. lia.
Qed.

Lemma b64_char_plain d : 0 <= d < 64 -> b64_char d <> byte_of 10 /\ b64_char d <> byte_of 13.
Proof.
  intros Hd. pose proof (b64_val_char d Hd) as H. split; intros E; rewrite E in H; vm_compute in H; done.
Qed.

Lemma byte_of_eq z c : z = byte_val c -> byte_of z = c.
Proof. intros ->. apply byte_of_val. Qed.

(** Strong induction three bytes at a time. *)
Lemma three_ind (P : gostring -> Prop) :
  P [] -> (forall a, P [a]) -> (forall a b, P [a; b]) -> (forall a b c s, P s -> P (a :: b :: c :: s)) ->
  forall s, P s.
Proof.
  intros H0 H1 H2 H3 s. remember (length s) as n eqn:E. revert s E.
  induction n as [n IH] using lt_wf_ind. intros s ->.
  destruct s as [|a [|b [|c s]]]; auto. apply H3. apply (IH (length s)); simpl; lia.
Qed.

Lemma quarter_range z : 0 <= z < 256 ->
  0 <= z / 4 < 64 /\ 0 <= z mod 4 * 16 < 64 /\ 0 <= z / 16 < 16 /\ 0 <= z mod 16 * 4 < 64 /\
  0 <= z / 64 < 4 /\ 0 <= z mod 64 < 64 /\ 0 <= z mod 4 < 4 /\ 0 <= z mod 16 < 16.
Proof.
  intros. pose proof (Z.mod_pos_bound z 4 ltac:(lia)). pose proof (Z.mod_pos_bound z 16 ltac:(lia)).
  pose proof (Z.mod_pos_bound z 64 ltac:(lia)).
  assert (0 <= z / 4 < 64) by (split; [apply Z.div_pos; lia|apply Z.div_lt_upper_bound; lia]).
  assert (0 <= z / 16 < 16) by (split; [apply Z.div_pos; lia|apply Z.div_lt_upper_bound; lia]).
  assert (0 <= z / 64 < 4) by (split; [apply Z.div_pos; lia|apply Z.div_lt_upper_bound; lia]). lia.
Qed.

Lemma b64_quads_encode s : b64_decode_quads (b64_encode s) = Some s.
Proof.
  induction s as [|a|a b|a b c s IH] using three_ind; [done|..].
  - pose proof (quarter_range _ (byte_val_range a)). cbn [b64_encode b64_decode_quads].
    rewrite !b64_val_char by lia. simpl. do 2 f_equal. apply byte_of_eq.
    pose proof (Z.div_mod (byte_val a) 4 ltac:(lia)). rewrite Z.div_mul by lia. lia.
  - pose proof (quarter_range _ (byte_val_range a)). pose proof (quarter_range _ (byte_val_range b)).
    cbn [b64_encode b64_decode_quads]. rewrite !b64_val_char by lia. simpl.
    pose proof (Z.div_mod (byte_val a) 4 ltac:(lia)). pose proof (Z.div_mod (byte_val b) 16 ltac:(lia)).
    f_equal. f_equal; [|f_equal]; apply byte_of_eq.
    + rewrite (Z.add_comm _ (byte_val b / 16)), Z.div_add, (Z.div_small (byte_val b / 16)) by lia. lia.
    + rewrite (Z.add_comm _ (byte_val b / 16)), Z_mod_plus_full, Z.mod_small, Z.div_mul by lia. lia.
  - pose proof (quarter_range _ (byte_val_range a)). pose proof (quarter_range _ (byte_val_range b)).
    pose proof (quarter_range _ (byte_val_range c)).
    cbn [b64_encode b64_decode_quads]. rewrite !b64_val_char, IH by lia.
    pose proof (Z.div_mod (byte_val a) 4 ltac:(lia)). pose proof (Z.div_mod (byte_val b) 16 ltac:(lia)).
    pose proof (Z.div_mod (byte_val c) 64 ltac:(lia)).
    f_equal. f_equal; [|f_equal; [|f_equal]]; apply byte_of_eq.
    + rewrite (Z.add_comm _ (byte_val b / 16)), Z.div_add, (Z.div_small (byte_val b / 16)) by lia. lia.
    + rewrite (Z.add_comm _ (byte_val b / 16)), Z_mod_plus_full, Z.mod_small by lia.
      rewrite (Z.add_comm _ (byte_val c / 64)), Z.div_add, (Z.div_small (byte_val c / 64)) by lia. lia.
    + rewrite (Z.add_comm _ (byte_val c / 64)), Z_mod_plus_full, Z.mod_small by lia. lia.
Qed.

Lemma b64_encode_plain s : Forall (fun c => c <> byte_of 10 /\ c <> byte_of 13) (b64_encode s).
Proof.
  induction s as [|a|a b|a b c s IH] using three_ind; [constructor|..];
    pose proof (quarter_range _ (byte_val_range a)); try pose proof (quarter_range _ (byte_val_range b));
    try pose proof (quarter_range _ (byte_val_range c));
    cbn [b64_encode]; repeat (apply Forall_cons; split); try (apply b64_char_plain; lia); try done; by apply Forall_nil.
Qed.

Lemma b64_roundtrip s : b64_decode (b64_encode s) = Some s.
Proof.
  unfold b64_decode. rewrite filter_all by apply b64_encode_plain. apply b64_quads_encode.
Qed.

(** ** Padding and chaining round trips *)

Lemma drop_replicate_all {A} (l : list A) n x : drop (length l) (l ++ replicate n x) = replicate n x.
Proof. apply drop_app_length. Qed.

Lemma padding_range l bs : (0 < bs < 256)%nat ->
  let p := (bs - l mod bs)%nat in (0 < p <= bs)%nat.
Proof. intros. pose proof (Nat.mod_upper_bound l bs ltac:(lia)). lia. Qed.

Lemma PKCS7_roundtrip s bs :
  (0 < bs < 256)%nat -> PKCS7UnPadding (PKCS7Padding s bs) = Ok s.
Proof.
  intros Hb. unfold PKCS7UnPadding, PKCS7Padding. pose proof (padding_range (length s) bs Hb) as Hp.
  set (p := (bs - length s mod bs)%nat) in *. cbv zeta in Hp.
  assert (last (s ++ replicate p (byte_of (Z.of_nat p))) = Some (byte_of (Z.of_nat p))) as ->.
  { destruct p as [|k] eqn:E; [lia|]. rewrite <- E at 1.
    replace p with (k + 1)%nat by lia. rewrite replicate_add. simpl replicate at 2.
    rewrite (assoc_L (++)). by rewrite last_snoc. }
  rewrite byte_val_of, Z.mod_small, Nat2Z.id by lia.
  rewrite length_app, length_replicate.
  destruct (Nat.eqb_spec p 0); [lia|]. destruct (Nat.ltb_spec (length s + p) p); [lia|]. cbn [orb].
  replace (length s + p - p)%nat with (length s) by lia. rewrite drop_app_length, take_app_length.
  assert (forallb (fun d => bool_decide (d = byte_of (Z.of_nat p))) (replicate p (byte_of (Z.of_nat p))) = true) as ->;
    [|done].
  apply forallb_forall. intros x Hx. apply list_elem_of_In, elem_of_replicate in Hx as [-> _].
  by apply bool_decide_eq_true.
Qed.

(** The two schemes are one function. *)
Lemma PKCS5_PKCS7 : PKCS5Padding = PKCS7Padding /\ PKCS5UnPadding = PKCS7UnPadding.
Proof. done. Qed.

Lemma PKCS7Padding_blocks s bs :
  (0 < bs)%nat -> (length (PKCS7Padding s bs) mod bs = 0)%nat.
Proof.
  intros Hb. unfold PKCS7Padding. rewrite length_app, length_replicate.
  pose proof (Nat.div_mod (length s) bs ltac:(lia)). pose proof (Nat.mod_upper_bound (length s) bs ltac:(lia)).
  replace (length s + (bs - length s mod bs))%nat with ((length s / bs + 1) * bs)%nat by nia.
  apply Nat.mod_mul. lia.
Qed.

Lemma xor_bytes_length a b : length a = length b -> length (xor_bytes a b) = length a.
Proof. intros. unfold xor_bytes. rewrite length_zip_with. lia. Qed.

Lemma lxor_byte_range a b : 0 <= Z.lxor (byte_val a) (byte_val b) < 256.
Proof.
  pose proof (byte_val_range a) as Ha. pose proof (byte_val_range b) as Hb.
  assert (0 <= Z.lxor (byte_val a) (byte_val b)) as H0 by (apply Z.lxor_nonneg; lia).
  split; [done|]. destruct (Z.eq_dec (Z.lxor (byte_val a) (byte_val b)) 0) as [->|Hnz]; [lia|].
  change 256 with (2 ^ 8). apply Z.log2_lt_pow2; [lia|].
  eapply Z.le_lt_trans; [apply Z.log2_lxor; lia|].
  assert (forall x, 0 <= x < 256 -> Z.log2 x < 8) as Hlog.
  { intros x Hx. destruct (Z.eq_dec x 0) as [->|]; [done|]. apply Z.log2_lt_pow2; lia. }
  apply Z.max_lub_lt; by apply Hlog.
Qed.

Lemma xor_bytes_twice a b : length a = length b -> xor_bytes (xor_bytes a b) b = a.
Proof.
  revert b. induction a as [|x a IH]; intros [|y b] H; try done. simpl in H. cbn [xor_bytes zip_with].
  fold (xor_bytes a b). fold (xor_bytes (xor_bytes a b) b). rewrite IH by lia. f_equal.
  apply byte_of_eq. rewrite byte_val_of, Z.mod_small by apply lxor_byte_range.
  by rewrite Z.lxor_assoc, Z.lxor_nilpotent, Z.lxor_0_r.
Qed.

Section AesRoundtrip.
Context (encrypt_block decrypt_block : gostring -> gostring -> gostring) (key : gostring).
(** The cipher is a length-preserving permutation of the blocks, for this key. *)
Context (Hlen : forall b, length b = blockSize -> length (encrypt_block key b) = blockSize).
Context (Hdec : forall b, length b = blockSize -> decrypt_block key (encrypt_block key b) = b).

Lemma cbc_roundtrip n iv data :
  length iv = blockSize -> length data = (n * blockSize)%nat ->
  length (cbc_encrypt encrypt_block n key iv data) = (n * blockSize)%nat /\
  cbc_decrypt decrypt_block n key iv (cbc_encrypt encrypt_block n key iv data) = data.
Proof using Hdec Hlen.
  revert iv data. induction n as [|n IH]; intros iv data Hiv Hd.
  - split; [done|]. by destruct data.
  - assert (length (take blockSize data) = blockSize) as Ht by (rewrite length_take; lia).
    assert (length (drop blockSize data) = (n * blockSize)%nat) as Hdr by (rewrite length_drop; lia).
    cbn [cbc_encrypt cbc_decrypt].
    set (c := encrypt_block key (xor_bytes (take blockSize data) iv)).
    assert (length c = blockSize) as Hc by (apply Hlen; rewrite xor_bytes_length; lia).
    destruct (IH c (drop blockSize data) Hc Hdr) as [L R].
    rewrite length_app, L, Hc. split; [lia|].
    rewrite take_app_length', drop_app_length', R by done. unfold c.
    rewrite Hdec by (rewrite xor_bytes_length; lia). rewrite xor_bytes_twice by lia.
    apply take_drop.
Qed.

Lemma AesEncrypt_value s iv :
  NewCipher key = Ok () -> length iv = blockSize ->
  exists n, AesEncrypt encrypt_block s key iv PKCS7Padding =
            Ok (cbc_encrypt encrypt_block n key iv (PKCS7Padding s blockSize)) /\
    length (PKCS7Padding s blockSize) = (n * blockSize)%nat.
Proof using Type.
  intros Hk Hiv. unfold AesEncrypt. rewrite Hk. cbn [go_bind]. unfold check_blocks.
  rewrite Hiv, Nat.eqb_refl. cbn [negb].
  pose proof (PKCS7Padding_blocks s blockSize ltac:(unfold blockSize; lia)) as Hm.
  rewrite Hm. cbn [Nat.eqb negb go_bind]. eexists. split; [reflexivity|].
  pose proof (Nat.div_mod (length (PKCS7Padding s blockSize)) blockSize ltac:(done)). lia.
Qed.
End AesRoundtrip.

(** C36 For a valid key and a 16-byte initialisation vector, decrypting what was
    encrypted gives the plain text back, for every length of it and through
    each of the pairs of entry points, if the block cipher is invertible. *)
Theorem Aes_roundtrip encrypt_block decrypt_block key iv s
  (Hlen : forall b, length b = blockSize -> length (encrypt_block key b) = blockSize)
  (Hdec : forall b, length b = blockSize -> decrypt_block key (encrypt_block key b) = b)
  (Hkey : NewCipher key = Ok ()) (Hiv : length iv = blockSize) :
  (let! c := AesEncryptSimple encrypt_block s key iv in AesDecryptSimple decrypt_block c key iv) = Ok s /\
  (let! c := AesEncryptPkcs7 encrypt_block s key iv in AesDecryptPkcs7 decrypt_block c key iv) = Ok s /\
  (let! c := AesEncryptPkcs7Base64 encrypt_block s key iv in AesDecryptPkcs7Base64 decrypt_block c key iv) = Ok s.
Proof.
  destruct (AesEncrypt_value encrypt_block key s iv Hkey Hiv) as (n & He & Hn).
  destruct (cbc_roundtrip encrypt_block decrypt_block key Hlen Hdec n iv (PKCS7Padding s blockSize) Hiv Hn)
    as [Hl Hr].
  assert (AesDecrypt decrypt_block (cbc_encrypt encrypt_block n key iv (PKCS7Padding s blockSize)) key iv
            PKCS7UnPadding = Ok s) as Hd.
  { unfold AesDecrypt. rewrite Hkey. cbn [go_bind]. unfold check_blocks.
    rewrite Hiv, Nat.eqb_refl, Hl, Nat.mod_mul by done. cbn [negb Nat.eqb go_bind].
    rewrite Nat.div_mul, Hr by done. apply PKCS7_roundtrip. unfold blockSize. lia. }
  split_and!.
  - unfold AesEncryptSimple, AesEncryptPkcs5. change PKCS5Padding with PKCS7Padding. by rewrite He.
  - unfold AesEncryptPkcs7. by rewrite He.
  - unfold AesEncryptPkcs7Base64. rewrite He. cbn [go_bind]. unfold AesDecryptPkcs7Base64.
    by rewrite b64_roundtrip.
Qed.

Lemma Aes_roundtrip_witness :
  (let! c := AesEncryptSimple (fun k b => rev b) "hello" (replicate 16 "k"%char) (replicate 16 "i"%char) in
   AesDecryptSimple (fun k b => rev b) c (replicate 16 "k"%char) (replicate 16 "i"%char)) = Ok "hello".
Proof.
  apply (Aes_roundtrip (fun k b => rev b) (fun k b => rev b)).
  - intros b Hb. by rewrite length_rev.
  - intros b _. apply rev_involutive.
  - reflexivity.
  - reflexivity.
Defined.

(** A cipher text that is not a whole number of blocks makes the decryption
    panic instead of returning an error. *)
Theorem AesDecrypt_panics decrypt_block crypted key iv unpad :
  NewCipher key = Ok () -> length iv = blockSize -> (length crypted mod blockSize <> 0)%nat ->
  AesDecrypt decrypt_block crypted key iv unpad = Panicked "crypto/cipher: input not full blocks".
Proof.
  intros Hk Hiv Hm. unfold AesDecrypt, check_blocks. rewrite Hk. cbn [go_bind].
  rewrite Hiv, Nat.eqb_refl. cbn [negb]. by rewrite (proj2 (Nat.eqb_neq _ _) Hm).
Qed.
