(* ===== verification/Keys.v ===== *)
(** * Keys: RSA signatures and key agreement ([pkg/wkrsa/rsa.go], [pkg/util/dh.go])

    PEM, PKCS #1 and the arithmetic of RSA and Curve25519 are the language's
    libraries: arguments, with the laws the theorems need as hypotheses. *)
From S2P Require Import Prelude GoStr Crypto.

#[global] Open Scope Z_scope.
#[global] Open Scope go_scope.

(** ** Signatures *)
Section Rsa.
Context {Key Err : Type}.
Context (md5_Sum sha256_Sum : gostring -> gostring).
Context (pem_Decode : gostring -> option gostring) (ParsePKCS1PrivateKey : gostring -> Err + Key).

Inductive crypto_hash := MD5 | SHA256.

(** The signature (empty on an error) and the error; the randomness only blinds. *)
Context (SignPKCS1v15 : Key -> crypto_hash -> gostring -> gostring * option Err).

Inductive sign_err := PrivateKeyError | KeyErr (e : Err).

Definition sign_with (alg : crypto_hash) (hashed pemPrivKey : gostring) : gostring * option sign_err :=
  match pem_Decode pemPrivKey with
  | None => ([], Some PrivateKeyError)
  | Some block =>
      match ParsePKCS1PrivateKey block with
      | inl err => ([], Some (KeyErr err))
      | inr privateKey =>
          let '(signature, err) := SignPKCS1v15 privateKey alg hashed in (b64_encode signature, KeyErr <$> err)
      end
  end.

Definition SignWithMD5 (data pemPrivKey : gostring) : gostring * option sign_err := sign_with MD5 (md5_Sum data) pemPrivKey.
Definition SignWithSHA256 (data pemPrivKey : gostring) : gostring * option sign_err := sign_with SHA256 (sha256_Sum data) pemPrivKey.

(** ** What a signature is good for *)
Context (Verify : Key -> crypto_hash -> gostring -> gostring -> bool).
Context (verify_sign : forall k alg h s, SignPKCS1v15 k alg h = (s, None) -> Verify k alg h s = true).

(** A text without an error is the base 64 of a signature of the data's digest
    under the key of the PEM block. *)
Lemma sign_with_verifies alg hashed pem text : sign_with alg hashed pem = (text, None) ->
  exists block k s, pem_Decode pem = Some block /\ ParsePKCS1PrivateKey block = inr k /\ b64_decode text = Some s /\ Verify k alg hashed s = true.
Proof.
  unfold sign_with. destruct (pem_Decode pem) as [block|] eqn:Ep; [|done].
  destruct (ParsePKCS1PrivateKey block) as [e|k] eqn:Ek; [done|].
  destruct (SignPKCS1v15 k alg hashed) as [s [e|]] eqn:Es; [done|]. intros [= <-].
  exists block, k, s. split_and!; [done|done|apply b64_roundtrip|by apply verify_sign].
Qed.
End Rsa.

(** ** Curve25519 *)
Section Curve25519.
Context (ScalarBaseMult : gostring -> gostring) (ScalarMult : gostring -> gostring -> gostring).

(** [random] is what the random source fills the 32 bytes with, if it does. *)
Definition GetCurve25519KeypPair (random : option gostring) : go unit (gostring * gostring) :=
  match random with
  | None => Panicked "crypto/rand failure"
  | Some Aprivate => Ok (Aprivate, ScalarBaseMult Aprivate)
  end.

Definition GetCurve25519Key (private public : gostring) : gostring := ScalarMult private public.

(** Two parties that exchange their public keys derive the same key. *)
Lemma key_agreement r1 r2 a A b B :
  (forall x y, ScalarMult x (ScalarBaseMult y) = ScalarMult y (ScalarBaseMult x)) ->
  GetCurve25519KeypPair r1 = Ok (a, A) -> GetCurve25519KeypPair r2 = Ok (b, B) ->
  GetCurve25519Key a B = GetCurve25519Key b A.
Proof.
  intros Hcomm. unfold GetCurve25519KeypPair, GetCurve25519Key. destruct r1, r2; try done. intros [= -> <-] [= -> <-]. apply Hcomm.
Qed.
End Curve25519.
