(* ===== verification/Dates.v ===== *)
(** * Dates: texts of points in time ([pkg/util/time.go], [pkg/db/db.go])

    A [time.Time] is known by what its clock shows in its location. The layouts of
    the package are lists of the chunks package [time] finds in them. *)
From S2P Require Import Prelude GoStr.

#[global] Open Scope Z_scope.
#[global] Open Scope go_scope.

Record Time := mkTime { year : Z; month : Z; day : Z; hour : Z; minute : Z; second : Z; nsec : Z }.

Definition isLeap (y : Z) : bool := (y mod 4 =? 0) && (negb (y mod 100 =? 0) || (y mod 400 =? 0)).
Definition daysIn (m y : Z) : Z :=
  if m =? 2 then (if isLeap y then 29 else 28)
  else if (m =? 4) || (m =? 6) || (m =? 9) || (m =? 11) then 30 else 31.

(** ** Layouts *)

(** "2006", "01", "02", "15", "04", "05" and the text between them. *)
Inductive chunk := Lit (s : gostring) | Year | Month | Day | Hour | Minute | Second.

(** The digits of the absolute value, padded with zeroes on the left. *)
Definition appendInt (x : Z) (width : nat) : gostring :=
  let d := FormatUint (Z.abs x) in
  (if x <? 0 then "-" else []) ++ replicate (width - length d) "0"%char ++ d.

Definition bquote : ascii := byte_of 34.

Definition format_chunk (t : Time) (c : chunk) : gostring :=
  match c with
  | Lit s => s
  | Year => appendInt (year t) 4
  | Month => appendInt (month t) 2
  | Day => appendInt (day t) 2
  | Hour => appendInt (hour t) 2
  | Minute => appendInt (minute t) 2
  | Second => appendInt (second t) 2
  end.
Definition Format (layout : list chunk) (t : Time) : gostring := concat (map (format_chunk t) layout).

(** ** [time.Parse] *)

Inductive time_err := BadValue | OutOfRange (what : gostring) | ExtraText (rest : gostring).

Definition cutspace (s : gostring) : gostring := drop_while (fun c => bool_decide (c = " "%char)) s.

(** The text between two chunks: blanks stand for any number of blanks, also
    none at the end of the value. *)
Fixpoint skip_loop (fuel : nat) (value prefix : gostring) : option gostring :=
  match fuel, prefix with
  | _, [] => Some value
  | O, _ => None
  | S fuel, p :: prefix' =>
      if bool_decide (p = " "%char) then
        match value with
        | v :: _ => if bool_decide (v = " "%char) then skip_loop fuel (cutspace value) (cutspace prefix) else None
        | [] => skip_loop fuel [] (cutspace prefix)
        end
      else
        match value with
        | [] => None
        | v :: value' => if bool_decide (v = p) then skip_loop fuel value' prefix' else None
        end
  end.
Definition skip (value prefix : gostring) : option gostring := skip_loop (length prefix) value prefix.

(** Two digits; one is enough where the layout is not fixed. *)
Definition getnum (value : gostring) (fixed : bool) : option (Z * gostring) :=
  match value with
  | [] => None
  | a :: rest =>
      if negb (ascii_digit a) then None
      else match rest with
           | b :: rest' => if ascii_digit b then Some (digits_val [a; b], rest') else if fixed then None else Some (digits_val [a], rest)
           | [] => if fixed then None else Some (digits_val [a], rest)
           end
  end.

(** A fraction of a second that the layout does not ask for: the nanoseconds are
    its first nine digits. *)
Definition fraction (value : gostring) : option (Z * gostring) :=
  match value with
  | c :: ((d :: _) as rest) =>
      if (bool_decide (c = "."%char) || bool_decide (c = ","%char)) && ascii_digit d then
        let after := drop_while ascii_digit rest in
        let digits := firstn (length rest - length after) rest in
        Some (digits_val (firstn 9 (digits ++ replicate 9 "0"%char)), after)
      else None
  | _ => None
  end.

(** The chunks in order; then nothing may be left, and the day must exist. *)
Fixpoint parse_loop (layout : list chunk) (value : gostring) (t : Time) : go time_err Time :=
  match layout with
  | [] =>
      if negb (eqs value []) then Err (ExtraText value)
      else if (day t <? 1) || (daysIn (month t) (year t) <? day t) then Err (OutOfRange "day")
      else Ok t
  | Lit s :: layout =>
      match skip value s with None => Err BadValue | Some value => parse_loop layout value t end
  | Year :: layout =>
      let p := firstn 4 value in
      if (length value <? 4)%nat || negb (all_digits p) then Err BadValue
      else parse_loop layout (skipn 4 value) (mkTime (digits_val p) (month t) (day t) (hour t) (minute t) (second t) (nsec t))
  | Month :: layout =>
      match getnum value true with
      | None => Err BadValue
      | Some (m, value) =>
          if (m <=? 0) || (12 <? m) then Err (OutOfRange "month")
          else parse_loop layout value (mkTime (year t) m (day t) (hour t) (minute t) (second t) (nsec t))
      end
  | Day :: layout =>
      match getnum value true with
      | None => Err BadValue
      | Some (d, value) => parse_loop layout value (mkTime (year t) (month t) d (hour t) (minute t) (second t) (nsec t))
      end
  | Hour :: layout =>
      match getnum value false with
      | None => Err BadValue
      | Some (h, value) =>
          if (h <? 0) || (24 <=? h) then Err (OutOfRange "hour")
          else parse_loop layout value (mkTime (year t) (month t) (day t) h (minute t) (second t) (nsec t))
      end
  | Minute :: layout =>
      match getnum value true with
      | None => Err BadValue
      | Some (m, value) =>
          if (m <? 0) || (60 <=? m) then Err (OutOfRange "minute")
          else parse_loop layout value (mkTime (year t) (month t) (day t) (hour t) m (second t) (nsec t))
      end
  | Second :: layout =>
      match getnum value true with
      | None => Err BadValue
      | Some (s, value) =>
          if (s <? 0) || (60 <=? s) then Err (OutOfRange "second")
          else
            match fraction value with
            | None => parse_loop layout value (mkTime (year t) (month t) (day t) (hour t) (minute t) s (nsec t))
            | Some (ns, value) => parse_loop layout value (mkTime (year t) (month t) (day t) (hour t) (minute t) s ns)
            end
      end
  end.

(** Midnight, with the fields the layout does not name at their first value. *)
Definition Parse (layout : list chunk) (value : gostring) : go time_err Time := parse_loop layout value (mkTime 0 1 1 0 0 0 0).

(** ** The package *)

Definition yyyyMMdd : list chunk := [Year; Month; Day].
Definition yyyy_MM_dd : list chunk := [Year; Lit "-"; Month; Lit "-"; Day].

Definition ToyyyyMMddHHmm (tm : Time) : gostring := Format (yyyy_MM_dd ++ [Lit " "; Hour; Lit ":"; Minute]) tm.
Definition ToyyyyMMddHHmmss (tm : Time) : gostring := Format (yyyy_MM_dd ++ [Lit " "; Hour; Lit ":"; Minute; Lit ":"; Second]) tm.
Definition ToyyyyMM2 (tm : Time) : gostring := Format [Year; Month] tm.
Definition ToyyyyMMdd (tm : Time) : gostring := Format yyyyMMdd tm.
Definition PareTimeStrForYYYYMMdd (timeStr : gostring) : go time_err Time := Parse yyyyMMdd timeStr.
Definition Toyyyy_MM_dd (tm : Time) : gostring := Format yyyy_MM_dd tm.
Definition Toyyyy_MM (tm : Time) : gostring := Format [Year; Lit "-"; Month] tm.
Definition PareTimeStrForYYYY_mm_dd (timeStr : gostring) : go time_err Time := Parse yyyy_MM_dd timeStr.

(** ** [db.Time]

    [Local] is the wall clock that [time.Local] makes of the fields of a text; it
    changes only those of a gap in the local time. *)
Definition timeFormart : list chunk := yyyy_MM_dd ++ [Lit " "; Hour; Lit ":"; Minute; Lit ":"; Second].

Definition MarshalJSON (t : Time) : go time_err gostring := Ok ([bquote] ++ Format timeFormart t ++ [bquote]).

Definition zero_Time : Time := mkTime 1 1 1 0 0 0 0.

(** The receiver afterwards, and the error; the receiver is set in both cases. *)
Definition UnmarshalJSON (Local : Time -> Time) (data : gostring) : Time * option time_err :=
  match Parse ([Lit [bquote]] ++ timeFormart ++ [Lit [bquote]]) data with
  | Ok now => (Local now, None)
  | Err e => (zero_Time, Some e)
  | Panicked _ => (zero_Time, None)
  end.

Definition Time_String (t : Time) : gostring := Format timeFormart t.

(** ** Fixed-width numbers *)

Lemma below_forallb (f : Z -> bool) n x : forallb f (seqZ 0 n) = true -> 0 <= x < n -> f x = true.
Proof. intros Hf Hx. rewrite forallb_forall in Hf. apply Hf, list_elem_of_In, elem_of_seqZ. lia. Qed.

Lemma appendInt_2 n : 0 <= n < 100 -> appendInt n 2 = [digit_char (n / 10); digit_char (n mod 10)].
Proof.
  intros Hn. apply eqs_spec. revert Hn.
  apply (below_forallb (fun n => eqs (appendInt n 2) [digit_char (n / 10); digit_char (n mod 10)])). by vm_compute.
Qed.

Lemma appendInt_4 n : 0 <= n < 10000 -> appendInt n 4 = appendInt (n / 100) 2 ++ appendInt (n mod 100) 2.
Proof.
  intros Hn. apply eqs_spec. revert Hn.
  apply (below_forallb (fun n => eqs (appendInt n 4) (appendInt (n / 100) 2 ++ appendInt (n mod 100) 2))). by vm_compute.
Qed.

(** The two-digit texts are the pairs of digits. *)
Lemma two_digits a b n : ascii_digit a = true -> ascii_digit b = true ->
  digits_val [a; b] = n <-> 0 <= n < 100 /\ [a; b] = appendInt n 2.
Proof.
  intros Ha Hb. pose proof (char_digit_digit a Ha) as Ha'. pose proof (char_digit_digit b Hb) as Hb'. unfold is_digit in *.
  assert (digits_val [a; b] = 10 * char_digit a + char_digit b) as -> by (unfold digits_val, from_digits; cbn; lia).
  split.
  - intros <-. split; [lia|]. rewrite appendInt_2 by lia.
    replace ((10 * char_digit a + char_digit b) / 10) with (char_digit a) by (rewrite Z.mul_comm, Z.div_add_l, Z.div_small; lia).
    replace ((10 * char_digit a + char_digit b) mod 10) with (char_digit b) by (rewrite Z.add_comm, Z.mul_comm, Z.mod_add, Z.mod_small; lia).
    by rewrite !digit_char_of.
  - intros [Hn E]. rewrite appendInt_2 in E by done. injection E as -> ->.
    assert (is_digit 10 (n / 10) /\ is_digit 10 (n mod 10)) as [H1 H2] by (unfold is_digit; split; [split; [apply Z.div_pos; lia|apply Z.div_lt_upper_bound; lia]|apply Z.mod_pos_bound; lia]).
    rewrite !char_digit_of by done. pose proof (Z.div_mod n 10). lia.
Qed.

Lemma appendInt_2_digits n : 0 <= n < 100 -> all_digits (appendInt n 2) = true /\ length (appendInt n 2) = 2%nat.
Proof.
  intros Hn. rewrite appendInt_2 by done. split; [|done].
  apply (all_digits_chars [n / 10; n mod 10]). repeat constructor; try apply Z.mod_pos_bound; try lia; [apply Z.div_pos; lia|apply Z.div_lt_upper_bound; lia].
Qed.

Lemma getnum_app n rest fixed : 0 <= n < 100 -> getnum (appendInt n 2 ++ rest) fixed = Some (n, rest).
Proof.
  intros Hn. destruct (appendInt_2_digits n Hn) as [Hd _]. rewrite appendInt_2 in * by done. cbn in Hd |- *.
  apply andb_true_iff in Hd as [Ha Hd]. apply andb_true_iff in Hd as [Hb _]. rewrite Ha, Hb. cbn. do 2 f_equal.
  apply two_digits; [done..|]. by rewrite appendInt_2.
Qed.

Lemma getnum_Some v n rest : getnum v true = Some (n, rest) <-> 0 <= n < 100 /\ v = appendInt n 2 ++ rest.
Proof.
  split; [|intros [Hn ->]; by apply getnum_app]. destruct v as [|a [|b v]]; cbn; [done| |]; destruct (ascii_digit a) eqn:Ha; try done; cbn.
  destruct (ascii_digit b) eqn:Hb; [|done]. intros [= Hn <-]. apply two_digits in Hn as [Hn E]; [|done..]. by rewrite <- E.
Qed.

(** ** What each chunk takes from the text *)

Definition with_year (y : Z) (t : Time) : Time := mkTime y (month t) (day t) (hour t) (minute t) (second t) (nsec t).
Definition with_month (m : Z) (t : Time) : Time := mkTime (year t) m (day t) (hour t) (minute t) (second t) (nsec t).
Definition with_day (d : Z) (t : Time) : Time := mkTime (year t) (month t) d (hour t) (minute t) (second t) (nsec t).

Lemma parse_Lit c l v t r : c <> " "%char ->
  parse_loop (Lit [c] :: l) v t = Ok r <-> exists v', v = c :: v' /\ parse_loop l v' t = Ok r.
Proof.
  intros Hc. cbn. rewrite bool_decide_false by done. destruct v as [|a v]; [naive_solver|].
  destruct (decide (a = c)) as [->|Hn]; [rewrite bool_decide_true by done|rewrite bool_decide_false by done]; naive_solver.
Qed.

Lemma parse_Month l v t r : parse_loop (Month :: l) v t = Ok r <->
  exists m v', 1 <= m <= 12 /\ v = appendInt m 2 ++ v' /\ parse_loop l v' (with_month m t) = Ok r.
Proof.
  cbn [parse_loop]. destruct (getnum v true) as [[m v']|] eqn:E.
  - apply getnum_Some in E as [Hm ->]. destruct (Z.leb_spec m 0), (Z.ltb_spec 12 m); cbn [orb].
    1-3: split; [done|intros (m2 & v2 & Hm2 & E & _)]; apply (f_equal (fun v => getnum v true)) in E;
      rewrite !getnum_app in E by lia; injection E as -> ->; lia.
    split; [intros Hr; exists m, v'; split; [lia|done]|]. intros (m2 & v2 & Hm2 & E & Hr). apply (f_equal (fun v => getnum v true)) in E.
    rewrite !getnum_app in E by lia. by injection E as -> ->.
  - split; [done|]. intros (m & v' & Hm & -> & _). by rewrite getnum_app in E by lia.
Qed.

Lemma parse_Day l v t r : parse_loop (Day :: l) v t = Ok r <->
  exists d v', 0 <= d < 100 /\ v = appendInt d 2 ++ v' /\ parse_loop l v' (with_day d t) = Ok r.
Proof.
  cbn [parse_loop]. destruct (getnum v true) as [[d v']|] eqn:E.
  - apply getnum_Some in E as [Hd ->]. split; [by exists d, v'|]. intros (d2 & v2 & Hd2 & E & Hr). apply (f_equal (fun v => getnum v true)) in E.
    rewrite !getnum_app in E by lia. by injection E as -> ->.
  - split; [done|]. intros (d & v' & Hd & -> & _). by rewrite getnum_app in E.
Qed.

Lemma parse_Year l v t r : parse_loop (Year :: l) v t = Ok r <->
  exists y v', 0 <= y < 10000 /\ v = appendInt y 4 ++ v' /\ parse_loop l v' (with_year y t) = Ok r.
Proof.
  cbn [parse_loop]. split.
  - destruct ((length v <? 4)%nat || negb (all_digits (firstn 4 v))) eqn:E; [done|]. apply orb_false_iff in E as [Hlen Hd].
    apply negb_false_iff in Hd. destruct v as [|a [|b [|c [|d v]]]]; try done. cbn [firstn skipn] in *.
    unfold all_digits in Hd. cbn [forallb] in Hd. rewrite andb_true_r, !andb_true_iff in Hd. destruct Hd as (Ha & Hb & Hc & Hd).
    pose proof (proj1 (two_digits a b _ Ha Hb) eq_refl) as [H1 E1]. pose proof (proj1 (two_digits c d _ Hc Hd) eq_refl) as [H2 E2].
    set (x := digits_val [a; b]) in *. set (z := digits_val [c; d]) in *.
    change (take 0 v) with (@nil ascii). change (drop 0 v) with v.
    assert (digits_val [a; b; c; d] = 100 * x + z) as -> by (change [a; b; c; d] with ([a; b] ++ [c; d]); rewrite digits_val_app; cbn [length]; subst x z; lia).
    intros Hr. exists (100 * x + z), v. split; [lia|]. split; [|done]. rewrite appendInt_4 by lia.
    replace ((100 * x + z) / 100) with x by (rewrite Z.mul_comm, Z.div_add_l, Z.div_small; lia).
    replace ((100 * x + z) mod 100) with z by (rewrite Z.add_comm, Z.mul_comm, Z.mod_add, Z.mod_small; lia).
    rewrite <- E1, <- E2. done.
  - intros (y & v' & Hy & -> & Hr). 
    assert (0 <= y / 100 < 100 /\ 0 <= y mod 100 < 100) as [H1 H2].
    { split; [split; [apply Z.div_pos; lia|apply Z.div_lt_upper_bound; lia]|apply Z.mod_pos_bound; lia]. }
    rewrite appendInt_4 by done. destruct (appendInt_2_digits (y / 100) H1) as [Hd1 Hl1]. destruct (appendInt_2_digits (y mod 100) H2) as [Hd2 Hl2].
    set (p := appendInt (y / 100) 2 ++ appendInt (y mod 100) 2).
    assert (length p = 4%nat) as Hp by (subst p; rewrite length_app; lia).
    rewrite length_app, Hp, <- Hp, take_app_length, drop_app_length.
    assert (all_digits p = true) as -> by (subst p; by rewrite all_digits_app, Hd1, Hd2).
    replace (length p + length v' <? length p)%nat with false by (symmetry; apply Nat.ltb_ge; lia). cbn [orb negb].
    replace (digits_val p) with y; [done|]. subst p. rewrite digits_val_app, Hl2.
    pose proof (Z.div_mod y 100). enough (forall n, 0 <= n < 100 -> digits_val (appendInt n 2) = n) as Hn by (rewrite !Hn by done; lia).
    intros n Hn. pose proof (appendInt_2_digits n Hn) as [Hd _]. rewrite appendInt_2 in * by done. cbn in Hd.
    apply andb_true_iff in Hd as [Ha Hd]. apply andb_true_iff in Hd as [Hb _].
    apply two_digits; [done..|]. split; [done|]. by rewrite appendInt_2.
Qed.

Lemma parse_nil v t r : parse_loop [] v t = Ok r <-> v = [] /\ 1 <= day t <= daysIn (month t) (year t) /\ r = t.
Proof.
  cbn. destruct (eqs v []) eqn:E; cbn.
  - apply eqs_spec in E. destruct (Z.ltb_spec (day t) 1), (Z.ltb_spec (daysIn (month t) (year t)) (day t)); cbn; split;
      try (intros [= <-]); try (intros (_ & ? & ->)); done || lia.
  - split; [done|]. intros (-> & _). done.
Qed.

(** A day of a year with four digits, at midnight. *)
Definition is_date (t : Time) : Prop :=
  0 <= year t < 10000 /\ 1 <= month t <= 12 /\ 1 <= day t <= daysIn (month t) (year t) /\
  hour t = 0 /\ minute t = 0 /\ second t = 0 /\ nsec t = 0.

Lemma daysIn_bound m y : daysIn m y <= 31.
Proof. unfold daysIn. repeat case_match; lia. Qed.

(** C34 A text is read as a date exactly when it is the one that the formatting
    function prints for that date: no other spelling is accepted, and every day
    of the years 0 to 9999 comes back. *)
Theorem dates_parse_iff s t :
  (PareTimeStrForYYYYMMdd s = Ok t <-> is_date t /\ s = ToyyyyMMdd t) /\
  (PareTimeStrForYYYY_mm_dd s = Ok t <-> is_date t /\ s = Toyyyy_MM_dd t).
Proof.
  unfold PareTimeStrForYYYYMMdd, PareTimeStrForYYYY_mm_dd, Parse, yyyyMMdd, yyyy_MM_dd, ToyyyyMMdd, Toyyyy_MM_dd, is_date.
  destruct t as [y m d h mi se ns]. cbn [year month day hour minute second nsec]. split; split.
  - rewrite parse_Year. intros (y' & s1 & Hy & -> & Hr). rewrite parse_Month in Hr. destruct Hr as (m' & s2 & Hm & -> & Hr).
    rewrite parse_Day in Hr. destruct Hr as (d' & s3 & Hd & -> & Hr). rewrite parse_nil in Hr. cbn in Hr. destruct Hr as (-> & Hd' & [= -> -> -> -> -> -> ->]).
    cbn. split; [lia|done].
  - intros [(Hy & Hm & Hd & -> & -> & -> & ->) ->]. pose proof (daysIn_bound m y). cbn -[parse_loop]. rewrite parse_Year. eexists y, _. split; [done|]. split; [done|].
    rewrite parse_Month. eexists m, _. split; [done|]. split; [done|]. rewrite parse_Day. eexists d, _. split; [lia|]. split; [done|].
    rewrite parse_nil. done.
  - rewrite parse_Year. intros (y' & s1 & Hy & -> & Hr). rewrite parse_Lit in Hr by done. destruct Hr as (s1' & -> & Hr).
    rewrite parse_Month in Hr. destruct Hr as (m' & s2 & Hm & -> & Hr). rewrite parse_Lit in Hr by done. destruct Hr as (s2' & -> & Hr).
    rewrite parse_Day in Hr. destruct Hr as (d' & s3 & Hd & -> & Hr). rewrite parse_nil in Hr. cbn in Hr. destruct Hr as (-> & Hd' & [= -> -> -> -> -> -> ->]).
    cbn. split; [lia|done].
  - intros [(Hy & Hm & Hd & -> & -> & -> & ->) ->]. pose proof (daysIn_bound m y). cbn -[parse_loop]. rewrite parse_Year. eexists y, _. split; [done|]. split; [done|].
    rewrite parse_Lit by done. eexists _. split; [done|].
    rewrite parse_Month. eexists m, _. split; [done|]. split; [done|]. rewrite parse_Lit by done. eexists _. split; [done|].
    rewrite parse_Day. eexists d, _. split; [lia|]. split; [done|]. rewrite parse_nil. done.
Qed.

Example date_errors :
  PareTimeStrForYYYYMMdd "20240229" = Ok (mkTime 2024 2 29 0 0 0 0) /\
  PareTimeStrForYYYYMMdd "20230229" = Err (OutOfRange "day") /\
  PareTimeStrForYYYYMMdd "20231301" = Err (OutOfRange "month") /\
  PareTimeStrForYYYYMMdd "2023010" = Err BadValue /\
  PareTimeStrForYYYYMMdd "202302301" = Err (ExtraText "1") /\
  PareTimeStrForYYYY_mm_dd "2023-2-1" = Err BadValue /\
  ToyyyyMMddHHmmss (mkTime 2024 2 9 7 5 0 1) = "2024-02-09 07:05:00".
Proof. by vm_compute. Qed.

(** ** [db.Time] and JSON *)

Lemma two_digit_head n rest : 0 <= n < 100 -> exists a s, appendInt n 2 ++ rest = a :: s /\ a <> " "%char.
Proof.
  intros Hn. destruct (appendInt_2_digits n Hn) as [Hd _]. rewrite appendInt_2 in * by done. eexists _, _. split; [done|].
  intros E. cbn in Hd. rewrite E in Hd. done.
Qed.

Lemma parse_blank l v t a s : v = a :: s -> a <> " "%char -> parse_loop (Lit " " :: l) (" "%char :: v) t = parse_loop l v t.
Proof.
  intros -> Ha. cbn. unfold cutspace. cbn. rewrite (bool_decide_true (" "%char = " "%char)) by done.
  by rewrite (bool_decide_false (a = " "%char)).
Qed.

Lemma parse_blank_num n rest l t : 0 <= n < 100 ->
  parse_loop (Lit " " :: l) (" "%char :: appendInt n 2 ++ rest) t = parse_loop l (appendInt n 2 ++ rest) t.
Proof. intros Hn. destruct (two_digit_head n rest Hn) as (a & s & E & Ha). by apply parse_blank with a s. Qed.

Lemma parse_fixed n v l t : 0 <= n < 60 ->
  parse_loop (Minute :: l) (appendInt n 2 ++ v) t = parse_loop l v (mkTime (year t) (month t) (day t) (hour t) n (second t) (nsec t)) /\
  (n < 24 -> parse_loop (Hour :: l) (appendInt n 2 ++ v) t = parse_loop l v (mkTime (year t) (month t) (day t) n (minute t) (second t) (nsec t))) /\
  (fraction v = None -> parse_loop (Second :: l) (appendInt n 2 ++ v) t = parse_loop l v (mkTime (year t) (month t) (day t) (hour t) (minute t) n (nsec t))).
Proof.
  intros Hn. cbn [parse_loop]. rewrite !getnum_app by lia.
  replace (n <? 0) with false by lia. replace (60 <=? n) with false by lia. cbn [orb]. split; [done|]. split.
  - intros Hh. by replace (24 <=? n) with false by lia.
  - by intros ->.
Qed.

(** The wall clock of a moment. *)
Definition is_clock (t : Time) : Prop :=
  0 <= year t < 10000 /\ 1 <= month t <= 12 /\ 1 <= day t <= daysIn (month t) (year t) /\
  0 <= hour t < 24 /\ 0 <= minute t < 60 /\ 0 <= second t < 60.

(** What is written comes back to the second, in the local time zone. *)
Theorem Time_JSON Local t data : is_clock t -> MarshalJSON t = Ok data ->
  UnmarshalJSON Local data = (Local (mkTime (year t) (month t) (day t) (hour t) (minute t) (second t) 0), None).
Proof.
  destruct t as [y m d h mi s ns]. unfold is_clock. cbn [year month day hour minute second nsec]. intros (Hy & Hm & Hd & Hh & Hmi & Hs) [= <-].
  pose proof (daysIn_bound m y). unfold UnmarshalJSON.
  set (text := _ :: Format _ _ ++ _).
  enough (Parse ([Lit [bquote]] ++ timeFormart ++ [Lit [bquote]]) text = Ok (mkTime y m d h mi s 0)) as -> by done. subst text.
  unfold Parse, timeFormart, yyyy_MM_dd, Format. cbn -[parse_loop appendInt bquote].
  repeat first [rewrite <- app_assoc | progress cbn [app]].
  rewrite parse_Lit by done. eexists. split; [done|]. rewrite parse_Year. eexists y, _. split; [done|]. split; [done|].
  rewrite parse_Lit by done. eexists. split; [done|]. rewrite parse_Month. eexists m, _. split; [done|]. split; [done|].
  rewrite parse_Lit by done. eexists. split; [done|]. rewrite parse_Day. eexists d, _. split; [lia|]. split; [done|].
  rewrite parse_blank_num by lia. rewrite (proj1 (proj2 (parse_fixed h _ _ _ ltac:(lia)))) by lia.
  rewrite parse_Lit by done. eexists. split; [done|]. rewrite (proj1 (parse_fixed mi _ _ _ ltac:(lia))).
  rewrite parse_Lit by done. eexists. split; [done|]. rewrite (proj2 (proj2 (parse_fixed s _ _ _ ltac:(lia)))) by done.
  rewrite parse_Lit by done. eexists. split; [done|]. by rewrite parse_nil.
Qed.

(** Blanks may be doubled, hours may have one digit, fractions are taken; on an
    error, that of a JSON null among them, the receiver is reset. *)
Example Time_texts :
  let read s := UnmarshalJSON id ([bquote] ++ s ++ [bquote]) in
  read "2024-02-09   7:05:00" = (mkTime 2024 2 9 7 5 0 0, None) /\
  read "2024-02-09 07:05:00.25" = (mkTime 2024 2 9 7 5 0 250000000, None) /\
  read "2024-02-09 24:05:00" = (zero_Time, Some (OutOfRange "hour")) /\
  UnmarshalJSON id "null" = (zero_Time, Some BadValue).
Proof. by vm_compute. Qed.
