(* ===== verification/GoUrl.v ===== *)
(** * GoUrl: the part of Go's [net/url] and [net] that the program uses

    [url.Parse] up to the fields [Scheme], [Host] and [Opaque], [Hostname],
    [net.ParseIP], [IPNet.Contains] and [net.SplitHostPort], following the
    library's algorithms.  An error is [None] where no caller looks at its
    text. *)
From S2P Require Import Prelude GoStr.

#[global] Open Scope Z_scope.
#[global] Open Scope go_scope.

(** ** [url.Parse] *)

Record URL := mkURL { Scheme : gostring; Host : gostring; Opaque : gostring; Path : gostring }.

Definition ascii_letter (c : ascii) : bool := ascii_lower c || ascii_upper c.

(** [getScheme]: the scheme, if any, and the rest. *)
Fixpoint getScheme_loop (first : bool) (acc rest whole : gostring) : option (gostring * gostring) :=
  match rest with
  | [] => Some ([], whole)
  | c :: rest' =>
    if ascii_letter c then getScheme_loop false (acc ++ [c]) rest' whole
    else if ascii_digit c || bool_decide (c ∈ ("+-." : gostring)) then
      if first then Some ([], whole) else getScheme_loop false (acc ++ [c]) rest' whole
    else if bool_decide (c = ":"%char) then
      if first then None else Some (acc, rest')
    else Some ([], whole)
  end.

Definition getScheme (rawURL : gostring) : option (gostring * gostring) :=
  getScheme_loop true [] rawURL rawURL.

Definition is_hex (c : ascii) : bool := ascii_digit c || in_range 97 102 c || in_range 65 70 c.
Definition unhex (c : ascii) : Z :=
  if ascii_digit c then byte_val c - 48
  else if in_range 97 102 c then byte_val c - 87
  else if in_range 65 70 c then byte_val c - 55 else 0.

(** The digit of a value below sixteen, in lower case. *)
Definition hex_digit (d : Z) : ascii := if d <? 10 then byte_of (48 + d) else byte_of (87 + d).

Lemma hex_digit_spec d : 0 <= d < 16 -> is_hex (hex_digit d) = true /\ unhex (hex_digit d) = d.
Proof.
  intros H. assert (d = 0 \/ d = 1 \/ d = 2 \/ d = 3 \/ d = 4 \/ d = 5 \/ d = 6 \/ d = 7 \/ d = 8 \/ d = 9 \/
    d = 10 \/ d = 11 \/ d = 12 \/ d = 13 \/ d = 14 \/ d = 15) as Hd by lia.
  repeat (destruct Hd as [-> | Hd]; [by vm_compute|]). subst. by vm_compute.
Qed.

Inductive url_mode := encodePath | encodeHost | encodeZone | encodeUserPassword | encodeFragment.

(** The bytes that may stand for themselves in a host. *)
Definition host_plain (c : ascii) : bool :=
  ascii_letter c || ascii_digit c ||
  bool_decide (c ∈ ("!$&'()*+,;=:[]<>-_.~" : gostring)) || bool_decide (c = dquote).

(** [unescape]: percent-decoding with the checks of the mode. *)
Fixpoint unescape (mode : url_mode) (s : gostring) : option gostring :=
  match s with
  | [] => Some []
  | c :: s1 =>
    if bool_decide (c = "%"%char) then
      match s1 with
      | a :: b :: s2 =>
        if negb (is_hex a && is_hex b) then None
        else
          let v := unhex a * 16 + unhex b in
          let bad :=
            match mode with
            | encodeHost => (unhex a <? 8) && negb (eqs [c; a; b] "%25")
            | encodeZone =>
              negb (eqs [c; a; b] "%25") && negb (v =? 32) && (v <? 128) && negb (host_plain (byte_of v))
            | _ => false
            end in
          if bad then None
          else match unescape mode s2 with Some r => Some (byte_of v :: r) | None => None end
      | _ => None
      end
    else
      match mode with
      | encodeHost | encodeZone =>
        if (byte_val c <? 128) && negb (host_plain c) then None
        else match unescape mode s1 with Some r => Some (c :: r) | None => None end
      | _ => match unescape mode s1 with Some r => Some (c :: r) | None => None end
      end
  end.

Definition validOptionalPort (port : gostring) : bool :=
  match port with
  | [] => true
  | c :: ds => bool_decide (c = ":"%char) && all_digits ds
  end.

Definition validUserinfo (s : gostring) : bool :=
  forallb (fun c => ascii_letter c || ascii_digit c ||
                    bool_decide (c ∈ ("-._:~!$&'()*+,;=%@" : gostring))) s.

Definition parseHost (host : gostring) : option gostring :=
  if HasPrefix host "[" then
    match LastIndexByte host "]"%char with
    | None => None
    | Some i =>
      if negb (validOptionalPort (drop (S i) host)) then None
      else
        match Index (take i host) "%25" with
        | Some zone =>
          match unescape encodeHost (take zone host), unescape encodeZone (drop zone (take i host)),
                unescape encodeHost (drop i host) with
          | Some h1, Some h2, Some h3 => Some (h1 ++ h2 ++ h3)
          | _, _, _ => None
          end
        | None => unescape encodeHost host
        end
    end
  else
    match LastIndexByte host ":"%char with
    | Some i => if validOptionalPort (drop i host) then unescape encodeHost host else None
    | None => unescape encodeHost host
    end.

Definition parseAuthority (authority : gostring) : option gostring :=
  match LastIndexByte authority "@"%char with
  | None => parseHost authority
  | Some i =>
    match parseHost (drop (S i) authority) with
    | None => None
    | Some host =>
      let userinfo := take i authority in
      if negb (validUserinfo userinfo) then None
      else
        let '(username, password, _) := Cut userinfo ":"%char in
        match unescape encodeUserPassword username, unescape encodeUserPassword password with
        | Some _, Some _ => Some host
        | _, _ => None
        end
    end
  end.

Definition ctl_byte (c : ascii) : bool := (byte_val c <? 32) || (byte_val c =? 127).

(** The text before a '?' that opens the query. *)
Definition cut_query (rest : gostring) : gostring := (Cut rest "?"%char).1.1.

Definition ParseNoFragment (rawURL : gostring) : option URL :=
  if existsb ctl_byte rawURL then None
  else if eqs rawURL "*" then Some (mkURL [] [] [] "*")
  else
    match getScheme rawURL with
    | None => None
    | Some (scheme, rest) =>
      let scheme := map lower_byte scheme in
      let rest := cut_query rest in
      let hierarchical :=
        let authority_form :=
          (negb (eqs scheme []) || negb (HasPrefix rest "///")) && HasPrefix rest "//" in
        let host_path :=
          if authority_form then
            let authority := drop 2 rest in
            match IndexByte authority "/"%char with
            | Some i =>
              match parseAuthority (take i authority) with
              | Some h => Some (h, drop i authority) | None => None
              end
            | None => match parseAuthority authority with Some h => Some (h, []) | None => None end
            end
          else Some ([], rest) in
        match host_path with
        | None => None
        | Some (h, path) =>
          match unescape encodePath path with
          | Some p => Some (mkURL scheme h [] p)
          | None => None
          end
        end in
      if negb (HasPrefix rest "/") then
        if negb (eqs scheme []) then Some (mkURL scheme [] rest [])
        else if ContainsByte (Cut rest "/"%char).1.1 ":"%char then None
        else hierarchical
      else hierarchical
    end.

Definition Parse (rawURL : gostring) : option URL :=
  let '(u, frag, _) := Cut rawURL "#"%char in
  match ParseNoFragment u with
  | None => None
  | Some url =>
    match unescape encodeFragment frag with
    | Some _ => Some url
    | None => None
    end
  end.

(** [URL.Hostname]: the host without its port and without the brackets of an
    IPv6 literal. *)
Definition Hostname (u : URL) : gostring :=
  let host := Host u in
  let host :=
    match LastIndexByte host ":"%char with
    | Some colon => if validOptionalPort (drop colon host) then take colon host else host
    | None => host
    end in
  if HasPrefix host "[" && HasSuffix host "]" then take (length host - 2) (drop 1 host) else host.

(** ** [net.ParseIP]

    An address is its bytes: four for IPv4 and sixteen for IPv6, as [netip]
    parses them; [net.ParseIP] returns the sixteen-byte form. *)

Definition parse_dec_octet (s : gostring) : option Z :=
  let v := digits_val s in
  if all_digits s && negb (eqs s []) && (length s <=? 3)%nat && (v <=? 255) &&
     negb ((1 <? length s)%nat && HasPrefix s "0")
  then Some v else None.

Definition parse_ipv4 (s : gostring) : option gostring :=
  match Split s "."%char with
  | [a; b; c; d] =>
    match parse_dec_octet a, parse_dec_octet b, parse_dec_octet c, parse_dec_octet d with
    | Some a, Some b, Some c, Some d => Some [byte_of a; byte_of b; byte_of c; byte_of d]
    | _, _, _, _ => None
    end
  | _ => None
  end.

(** The leading hexadecimal digits of a string. *)
Fixpoint span_hex (s : gostring) : gostring * gostring :=
  match s with
  | c :: s' => if is_hex c then let '(d, r) := span_hex s' in (c :: d, r) else ([], s)
  | [] => ([], [])
  end.

Definition hex_num (s : gostring) : Z := fold_left (fun acc c => acc * 16 + unhex c) s 0.

(** The loop over the groups: [acc] holds the bytes read so far and [ell] the
    position of the "::"; at most eight groups are read. *)
Fixpoint parse_ipv6_groups (fuel : nat) (acc : gostring) (ell : option nat) (s : gostring)
  : option (gostring * option nat * gostring) :=
  match fuel with
  | O => Some (acc, ell, s)
  | S f =>
    if (16 <=? length acc)%nat then Some (acc, ell, s)
    else
      let '(d, r) := span_hex s in
      if (4 <? length d)%nat then None
      else if eqs d [] then None
      else
        match r with
        | c :: _ =>
          if bool_decide (c = "."%char) then
            (* an IPv4 tail *)
            if (negb (bool_decide (ell <> None)) && negb (length acc =? 12)%nat) || (12 <? length acc)%nat
            then None
            else match parse_ipv4 s with
                 | Some v4 => Some (acc ++ v4, ell, [])
                 | None => None
                 end
          else
            let acc := acc ++ be_fixed 2 (hex_num d) in
            if negb (bool_decide (c = ":"%char)) then None
            else
              match r with
              | _ :: c2 :: r2 =>
                if bool_decide (c2 = ":"%char) then
                  match ell with
                  | Some _ => None
                  | None =>
                    match r2 with
                    | [] => Some (acc, Some (length acc), [])
                    | _ => parse_ipv6_groups f acc (Some (length acc)) r2
                    end
                  end
                else parse_ipv6_groups f acc ell (c2 :: r2)
              | _ => None
              end
        | [] => Some (acc ++ be_fixed 2 (hex_num d), ell, [])
        end
  end.

Definition parse_ipv6 (s : gostring) : option gostring :=
  if ContainsByte s "%"%char then None
  else
    let start :=
      if HasPrefix s "::" then (Some 0%nat, drop 2 s) else (None, s) in
    let '(ell, s) := start in
    let r := match ell, s with
             | Some _, [] => Some ([], ell, [])
             | _, _ => parse_ipv6_groups 9 [] ell s
             end in
    match r with
    | Some (acc, ell, []) =>
      if (length acc <? 16)%nat then
        match ell with
        | None => None
        | Some e => Some (take e acc ++ replicate (16 - length acc) (byte_of 0) ++ drop e acc)
        end
      else match ell with None => Some acc | Some _ => None end
    | _ => None
    end.

Definition v4InV6Prefix : gostring := replicate 10 (byte_of 0) ++ [byte_of 255; byte_of 255].

(** [net.ParseIP]: the first of '.' and ':' decides the family. *)
Definition ParseIP (s : gostring) : option gostring :=
  match IndexAny s ".:" with
  | None => None
  | Some i =>
    if bool_decide (s !! i = Some "."%char)
    then (fun v4 => v4InV6Prefix ++ v4) <$> parse_ipv4 s
    else parse_ipv6 s
  end.

(** [IP.To4]. *)
Definition To4 (ip : gostring) : option gostring :=
  if (length ip =? 4)%nat then Some ip
  else if (length ip =? 16)%nat && eqs (take 12 ip) v4InV6Prefix then Some (drop 12 ip)
  else None.

(** A network: its base address, of 4 or 16 bytes, and the bits of the prefix. *)
Record IPNet := mkIPNet { net_base : gostring; net_bits : Z }.

Definition same_prefix (bits : Z) (a b : gostring) : bool :=
  let shift := 8 * Z.of_nat (length a) - bits in
  Z.shiftr (be_val a) shift =? Z.shiftr (be_val b) shift.

(** [IPNet.Contains]. *)
Definition Contains (n : IPNet) (ip : gostring) : bool :=
  let x := default ip (To4 ip) in
  (length x =? length (net_base n))%nat && same_prefix (net_bits n) (net_base n) x.

(** ** [net.SplitHostPort] *)

Definition SplitHostPort (hostport : gostring) : option (gostring * gostring) :=
  match LastIndexByte hostport ":"%char with
  | None => None
  | Some i =>
    if HasPrefix hostport "[" then
      match IndexByte hostport "]"%char with
      | None => None
      | Some e =>
        if (S e =? length hostport)%nat then None
        else if negb (S e =? i)%nat then None
        else
          let host := take (e - 1) (drop 1 hostport) in
          if ContainsByte (drop 1 hostport) "["%char then None
          else if ContainsByte (drop (S e) hostport) "]"%char then None
          else Some (host, drop (S i) hostport)
      end
    else
      let host := take i hostport in
      if ContainsByte host ":"%char then None
      else if ContainsByte hostport "["%char then None
      else if ContainsByte hostport "]"%char then None
      else Some (host, drop (S i) hostport)
  end.

Example parse_url_1 :
  Parse "HTTPS://user:pw@Example.com:8443/a%20b?q#f" =
  Some (mkURL "https" "Example.com:8443" [] "/a b").
Proof. vm_compute. reflexivity. Qed.

Example parse_ip_1 :
  ParseIP "fe80::1" = Some (map byte_of [254;128;0;0;0;0;0;0;0;0;0;0;0;0;0;1]) /\
  ParseIP "::ffff:10.0.0.1" = ParseIP "10.0.0.1" /\ ParseIP "1.2.3" = None /\ ParseIP "1:2" = None.
Proof. vm_compute. done. Qed.

Example split_host_port_1 :
  SplitHostPort "[::1]:80" = Some ("::1", "80") /\ SplitHostPort "1.2.3.4:5" = Some ("1.2.3.4", "5") /\
  SplitHostPort "1.2.3.4" = None.
Proof. vm_compute. done. Qed.
