(* ===== verification/Util.v ===== *)
(** * Util: the small helpers of [pkg/util]

    Base 62, substrings, names, request signing, pages, random strings, client
    addresses and the guard against requests to private networks. *)
From S2P Require Import Prelude GoStr Uuid Crypto GoUrl.

#[global] Open Scope Z_scope.
#[global] Open Scope go_scope.

(** ** base62.go *)

Definition base62Chars : gostring := "0123456789abcdefghijklmnopqrstuvwxyzABCDEFGHIJKLMNOPQRSTUVWXYZ".

Definition base62_char (r : Z) : ascii := default zero_byte (base62Chars !! Z.to_nat r).

(** The loop of [Ten2Hex]; a positive int64 has at most eleven digits. *)
Fixpoint Ten2Hex_loop (fuel : nat) (ten : Z) (hex : gostring) : gostring :=
  match fuel with
  | O => hex
  | S f => if 0 <? ten then Ten2Hex_loop f (Z.quot ten 62) (base62_char (Z.rem ten 62) :: hex) else hex
  end.

Definition Ten2Hex (ten : Z) : gostring := if ten =? 0 then "0" else Ten2Hex_loop 11 ten [].

(** ** common.go *)

Definition MustNoErr (err : option gostring) : go gostring unit :=
  match err with None => Ok () | Some e => Panicked e end.

Definition CheckErr (err : option gostring) : go gostring unit := MustNoErr err.

(** [Substr]: the bounds of the final slice are checked at run time. *)
Definition Substr (str : gostring) (start length : Z) : go gostring gostring :=
  if length =? 0 then Ok []
  else
    let runeStr := to_runes str in
    let lenStr := Z.of_nat (List.length runeStr) in
    let start := if start <? 0 then lenStr + start else start in
    let start := if lenStr <? start then lenStr else start in
    let end_ := int64 (start + length) in
    let end_ := if lenStr <? end_ then lenStr else end_ in
    let end_ := if length <? 0 then lenStr + length else end_ in
    let '(start, end_) := if end_ <? start then (end_, start) else (start, end_) in
    if (start <? 0) || (lenStr <? end_) then Panicked "slice bounds out of range"
    else Ok (of_runes (take (Z.to_nat (end_ - start)) (drop (Z.to_nat start) runeStr))).

(** The dynamic values that a parameter map holds.  A float carries its [%g]
    rendering, another value its [%s] rendering. *)
Inductive goval :=
| GInt (n : Z)                           (** every integer type but uint32 *)
| GUint32 (n : Z)
| GStr (s : gostring)
| GFloat (typ g : gostring)
| GOther (s : gostring).

Definition is_empty_string (v : goval) : bool := match v with GStr [] => true | _ => false end.

(** The rendering of a number by the string verb. *)
Definition bad_verb (typ text : gostring) : gostring := "%!s(" ++ typ ++ "=" ++ text ++ ")".

Definition objToStr (v : goval) : gostring :=
  match v with
  | GInt n => FormatInt n
  | GUint32 n => bad_verb "uint32" (FormatInt n)
  | GStr s => s
  | GFloat typ g => bad_verb typ g
  | GOther s => s
  end.

(** The function of [sign.go]; it differs on floats. *)
Definition ObjToStr (v : goval) : gostring :=
  match v with
  | GInt n => FormatInt n
  | GUint32 n => bad_verb "uint32" (FormatInt n)
  | GStr s => s
  | GFloat _ g => g
  | GOther s => s
  end.

(** The keys in the order in which the map was ranged over. *)
Definition MapToQueryParamSort (order : list gostring) (params : gmap gostring goval) : gostring :=
  if bool_decide (params = ∅) then []
  else
    let keys := sort_strings order in
    let strs := fold_left (fun strs k =>
      match params !! k with
      | Some v => if is_empty_string v then strs else strs ++ k ++ "=" ++ objToStr v ++ "&"
      | None => strs
      end) keys [] in
    if (0 <? length strs)%nat then take (length strs - 1) strs else strs.

Definition Sign (md5 : gostring -> gostring) (order : list gostring) (params : gmap gostring goval)
    (appKey : gostring) : gostring :=
  MD5 md5 (MapToQueryParamSort order params ++ "&key=" ++ appKey).

(** ** sign.go *)

Fixpoint GetSignStr_loop (keys : list gostring) (params : gmap gostring goval) (signStr : gostring) : gostring :=
  match keys with
  | [] => signStr
  | k :: keys' =>
    match params !! k with
    | Some v =>
      if is_empty_string v then GetSignStr_loop keys' params signStr
      else
        let signStr := signStr ++ k ++ "=" ++ ObjToStr v in
        let signStr := match keys' with [] => signStr | _ => signStr ++ "&" end in
        GetSignStr_loop keys' params signStr
    | None => GetSignStr_loop keys' params signStr
    end
  end.

Definition GetSignStr (order : list gostring) (params : gmap gostring goval) : gostring :=
  GetSignStr_loop (sort_strings order) params [].

(** ** string.go *)

Definition isUpper (b : ascii) : bool := in_range 65 90 b.
Definition isLower (b : ascii) : bool := in_range 97 122 b.
Definition isDigit (b : ascii) : bool := in_range 48 57 b.
Definition toLower (b : ascii) : ascii := if isUpper b then byte_of (byte_val b - 65 + 97) else b.

(** [UnderscoreName]: the loop reads one byte and looks at the next two. *)
Fixpoint UnderscoreName (name : gostring) : gostring :=
  match name with
  | [] => []
  | c :: rest =>
    let word_break :=
      match rest with
      | [] => false
      | d :: rest' =>
        isUpper d && (isLower c || isDigit c ||
                      match rest' with [] => false | e :: _ => isLower e end)
      end in
    toLower c :: (if word_break then "_" else []) ++ UnderscoreName rest
  end.

(** [CamelName]; the title-casing library is the argument. *)
Definition replace_byte (s : gostring) (old new : ascii) : gostring :=
  map (fun c => if bool_decide (c = old) then new else c) s.

Definition CamelName (title : gostring -> gostring) (name : gostring) : gostring :=
  RemoveByte (title (replace_byte name "_"%char " "%char)) " "%char.

Fixpoint RemoveRepeatedElement (arr : list gostring) : list gostring :=
  match arr with
  | [] => []
  | x :: rest =>
    let repeat := existsb (fun y => eqs x y) rest in
    if repeat then RemoveRepeatedElement rest else x :: RemoveRepeatedElement rest
  end.

(** [r.Intn(62)] is drawn once per character; the draws are the argument. *)
Definition GetRandomString (num : nat) (draw : nat -> Z) : gostring :=
  map (fun i => base62_char (draw i)) (seq 0 num).

Definition GetRandomSalt (draw : nat -> Z) : gostring := GetRandomString 8 draw.

(** Names for new users; the draw is [rand.Intn] of their number. *)
Definition names : list gostring :=
  ["独角王"; "老鼋"; "灵感大王"; "如意真仙"; "蝎女妖"; "六耳猕猴"; "罗刹女"; "牛魔王"; "羊力大仙"; "鹿力大仙"; "虎力大仙"; "鳖龙"; "红孩儿"; "青狮道人";
   "熊山君"; "特处士"; "玉面公主"; "九头虫"; "黄眉老祖"; "大蟒精"; "赛太岁"; "蜘蛛精"; "多目怪"; "青狮魔王"; "白象魔王"; "大鹏魔王"; "虎威魔王"; "狮吼魔王";
   "狮毛怪"; "美后"; "国丈"; "地涌夫人"; "金钱豹王"; "黄狮精"; "九灵元圣"; "辟寒大王"; "辟暑大王"; "辟尘大王"; "玄鹤老"; "玉兔精"; "蠹妖"; "蛙怪"; "麋妖";
   "古柏老"; "灵龟老"; "峰五老"; "赤蛇精"; "虺妖"; "蚖妖"; "蝮子怪"; "蝎小妖"; "狐妖"; "凤管娘子"; "鸾萧夫人"; "七情大王"; "六欲大王"; "三尸魔王";
   "阴沉魔王"; "独角魔王"; "啸风魔王"; "兴云魔王"; "六耳魔王"; "迷识魔王"; "消阳魔王"; "铄阴魔王"; "耗气魔王"; "黑鱼精"; "蜂妖"; "灵鹊"; "玄武灵"; "美蔚君";
   "福缘君"; "善庆君"; "孟浪魔王"; "慌张魔王"; "司视魔"; "司听魔"; "逐香魔"; "具体魔"; "驰神魔"; "逐味魔"; "千里眼"; "顺风耳"; "金童"; "玉女"; "雷公";
   "电母"; "风伯"; "雨师"; "游奕灵官"; "翊圣真君"; "大力鬼王"; "七仙女"; "太白金星"; "赤脚大仙"; "嫦娥"; "玉兔"; "吴刚"; "猪八戒"; "孙悟空"; "唐僧";
   "沙悟净"; "白龙马"; "九天玄女"; "九曜星"; "日游神"; "夜游神"; "太阴星君"; "太阳星君"; "武德星君"; "佑圣真君"; "李靖"; "金吒"; "木吒"; "哪吒"; "巨灵神";
   "月老"; "左辅右弼"; "二郎神杨戬"; "萨真人"; "文昌帝君"; "增长天王"; "持国天王"; "多闻天王"; "广目天王"; "张道陵"; "许逊"; "邱弘济"; "葛洪"; "渔人";
   "林黛玉"; "薛宝钗"; "贾宝玉"; "秦可卿"; "贾巧姐"; "王熙凤"; "史湘云"; "妙玉"; "李纨"; "贾惜春"; "贾探春"; "贾迎春"; "贾元春"; "王妈妈"; "西门庆"; "武松";
   "武大郎"; "宋江"; "鲁智深"; "高俅"; "闻太师"; "卢俊义"; "吴用"; "公孙胜"; "关胜"; "林冲"; "秦明"; "呼延灼"; "花荣"; "阮小七"; "燕青"; "皇甫端";
   "扈三娘"; "王英"; "安道全"; "金大坚"; "萧峰"; "段誉"; "童猛"; "陶宗旺"; "郑天寿"; "王定六"; "段景住"; "寅将军"; "黑熊精"; "白衣秀士"; "凌虚子";
   "黄风怪"; "白骨精"; "奎木狼"; "金角大王"; "银角大王"]%go.

Definition GetRandomName (draw : nat) : go unit gostring :=
  match names !! draw with Some n => Ok n | None => Panicked "index out of range" end.

Definition GenerUUID (random : option gostring) : go uuid_err gostring :=
  let! u := NewV4 random in Ok (RemoveByte (String u) "-"%char).

(** [AttrToUnderscore]: the fields of a struct, with whether each is itself a struct. *)
Definition AttrToUnderscore (fields : list (gostring * bool)) : list gostring :=
  omap (fun '(name, is_struct) =>
    if is_struct : bool then None else if eqs name [] then None else Some (UnderscoreName name)) fields.

(** ** page.go *)

Record Page := mkPage { PageSize : Z; PageIndex : Z; Total : Z; Data : gostring }.

Definition NewPage (pageIndex pageSize total : Z) (data : gostring) : Page :=
  mkPage pageSize pageIndex total data.

Definition ToPageNumOrDefault (pageIndex pageSize : gostring) : Z * Z :=
  (if eqs pageIndex [] then 1 else (ParseUint pageIndex 64).1,
   if eqs pageSize [] then 10 else (ParseUint pageSize 64).1).

(** ** stringbuffer.go *)

Inductive appendable := AInt (n : Z) | AUint (n : Z) | AString (s : gostring) | ABytes (s : gostring)
| ARune (r : Z) | AOther.

Definition NewBuffer : gostring := [].

(** The buffer of package [bytes] panics when it cannot grow; [fits] says whether
    it can. *)
Section Buffer.
Context (fits : gostring -> gostring -> bool).

Definition buffer_Write (b s : gostring) : go unit gostring :=
  if fits b s then Ok (b ++ s) else Panicked "bytes.Buffer: too large".

(** The panic of the write is recovered and logged, and the buffer is as before. *)
Definition append_ (b s : gostring) : gostring * list gostring :=
  match buffer_Write b s with Ok b => (b, []) | _ => (b, ["*****内存不够了！******"%go]) end.

(** Bytes and runes are written without that protection; a value of any other
    type is left out. *)
Definition Append (b : gostring) (i : appendable) : go unit (gostring * list gostring) :=
  let plain r := let! b := r in Ok (b, []) in
  match i with
  | AInt n => Ok (append_ b (FormatInt n))
  | AUint n => Ok (append_ b (FormatUint n))
  | AString s => Ok (append_ b s)
  | ABytes s => plain (buffer_Write b s)
  | ARune r => plain (buffer_Write b (EncodeRune r))
  | AOther => Ok (b, [])
  end.

(** The text a value adds. *)
Definition appended (i : appendable) : gostring :=
  match i with
  | AInt n => FormatInt n
  | AUint n => FormatUint n
  | AString s => s
  | ABytes s => s
  | ARune r => EncodeRune r
  | AOther => []
  end.

(** A run of appends holds the texts in order as long as the buffer can grow;
    what does not fit is dropped whole, never in part, and only bytes and runes
    panic. *)
Lemma Append_spec b i :
  (fits b (appended i) = true -> Append b i = Ok (b ++ appended i, [])) /\
  (fits b (appended i) = false ->
     match i with
     | ABytes _ | ARune _ => exists msg, Append b i = Panicked msg
     | _ => exists logs, Append b i = Ok (b, logs)
     end).
Proof.
  unfold Append, append_, buffer_Write, appended.
  destruct i; split; intros E; rewrite ?E, ?app_nil_r; eauto.
Qed.
End Buffer.

(** ** ip.go *)

(** The headers and the address of a request that the function reads. *)
Record request := mkRequest { XForwardedFor : gostring; XRealIp : gostring; RemoteAddr : gostring }.

Fixpoint first_nonblank (ips : list gostring) : option gostring :=
  match ips with
  | [] => None
  | ip :: ips' => let ip := TrimSpace ip in if negb (eqs ip []) then Some ip else first_nonblank ips'
  end.

Definition GetClientPublicIP (r : request) : gostring :=
  match first_nonblank (Split (XForwardedFor r) ","%char) with
  | Some ip => ip
  | None =>
    let ip := TrimSpace (XRealIp r) in
    if negb (eqs ip []) then ip
    else match SplitHostPort (TrimSpace (RemoteAddr r)) with
         | Some (ip, _) => ip
         | None => []
         end
  end.

Definition IsIntranet (ipStr : gostring) : bool :=
  if HasPrefix ipStr "10." || HasPrefix ipStr "192.168." then true
  else if HasPrefix ipStr "172." then
    match Split ipStr "."%char with
    | [_; second; _; _] =>
      match ParseInt second 64 with
      | (second, None) => (16 <=? second) && (second <=? 31)
      | (_, Some _) => false
      end
    | _ => false
    end
  else false.

(** A network interface as [GetIntranetIP] sees it; [addrs] is [None] when the
    addresses cannot be read. *)
Record iface := mkIface { if_up : bool; if_loopback : bool; if_name : gostring; if_addrs : option (list (option gostring)) }.

Definition is_loopback (ip : gostring) : bool :=
  match To4 ip with
  | Some v4 => byte_at v4 0 =? 127
  | None => eqs ip (replicate 15 (byte_of 0) ++ [byte_of 1])
  end.

Definition dotted (v4 : gostring) : gostring := Join (map (fun c => FormatUint (byte_val c)) v4) ".".

Fixpoint intranet_addrs (addrs : list (option gostring)) : list gostring :=
  match addrs with
  | [] => []
  | None :: addrs' => intranet_addrs addrs'
  | Some ip :: addrs' =>
    if is_loopback ip then intranet_addrs addrs'
    else match To4 ip with
         | None => intranet_addrs addrs'
         | Some v4 => if IsIntranet (dotted v4) then dotted v4 :: intranet_addrs addrs' else intranet_addrs addrs'
         end
  end.

Fixpoint GetIntranetIP_loop (ifaces : list iface) (ips : list gostring) : list gostring * option gostring :=
  match ifaces with
  | [] => (ips, None)
  | i :: ifaces' =>
    if negb (if_up i) then GetIntranetIP_loop ifaces' ips
    else if if_loopback i then GetIntranetIP_loop ifaces' ips
    else if HasPrefix (if_name i) "docker" || HasPrefix (if_name i) "w-" then GetIntranetIP_loop ifaces' ips
    else match if_addrs i with
         | None => (ips, Some "interface addresses")
         | Some addrs => GetIntranetIP_loop ifaces' (ips ++ intranet_addrs addrs)
         end
  end.

Definition GetIntranetIP (ifaces : option (list iface)) : list gostring * option gostring :=
  match ifaces with
  | None => ([], Some "interfaces")
  | Some l => GetIntranetIP_loop l []
  end.

(** ** validate_url.go *)

Definition v6_base (b0 : Z) (last : Z) : gostring := byte_of b0 :: replicate 14 (byte_of 0) ++ [byte_of last].
Definition v6_base2 (b0 b1 : Z) : gostring := byte_of b0 :: byte_of b1 :: replicate 14 (byte_of 0).

Definition privateNetworks : list IPNet :=
  [mkIPNet (map byte_of [10; 0; 0; 0]) 8;
   mkIPNet (map byte_of [172; 16; 0; 0]) 12;
   mkIPNet (map byte_of [192; 168; 0; 0]) 16;
   mkIPNet (map byte_of [127; 0; 0; 0]) 8;
   mkIPNet (map byte_of [169; 254; 0; 0]) 16;
   mkIPNet (v6_base 0 1) 128;
   mkIPNet (v6_base 252 0) 7;
   mkIPNet (v6_base2 254 128) 10].

Definition isPrivateIP (ip : gostring) : bool := existsb (fun network => Contains network ip) privateNetworks.

Inductive url_err :=
| InvalidURL
| UnsupportedScheme (s : gostring)
| EmptyHost
| PrivateIP (ip : gostring)
| DNSFailed (host : gostring)
| ResolvesPrivate (host ip : gostring).

(** [net.LookupIP] is the argument; [None] is a failure. *)
Definition ValidateExternalURL (LookupIP : gostring -> option (list gostring)) (rawURL : gostring)
  : option url_err :=
  match Parse rawURL with
  | None => Some InvalidURL
  | Some u =>
    let scheme := map lower_byte (Scheme u) in
    if negb (eqs scheme "http") && negb (eqs scheme "https") then Some (UnsupportedScheme scheme)
    else
      let host := Hostname u in
      if eqs host [] then Some EmptyHost
      else
        match ParseIP host with
        | Some ip => if isPrivateIP ip then Some (PrivateIP ip) else None
        | None =>
          match LookupIP host with
          | None => Some (DNSFailed host)
          | Some ips =>
            match list_find (fun ip => isPrivateIP ip = true) ips with
            | Some (_, resolved) => Some (ResolvesPrivate host resolved)
            | None => None
            end
          end
        end
  end.

Example validate_examples :
  let dns h := if eqs h "evil.test" then Some [map byte_of [10;0;0;7]] else Some [map byte_of [93;184;216;34]] in
  ValidateExternalURL dns "https://example.com/x" = None /\
  ValidateExternalURL dns "http://evil.test/" = Some (ResolvesPrivate "evil.test" (map byte_of [10;0;0;7])) /\
  ValidateExternalURL dns "http://[::ffff:127.0.0.1]:80/" =
    Some (PrivateIP (v4InV6Prefix ++ map byte_of [127;0;0;1])) /\
  ValidateExternalURL dns "ftp://example.com/" = Some (UnsupportedScheme "ftp") /\
  ValidateExternalURL dns "http:///x" = Some EmptyHost.
Proof. vm_compute. done. Qed.

(** ** Base 62 *)

Lemma base62_char_inj a b :
  is_digit 62 a -> is_digit 62 b -> base62_char a = base62_char b -> a = b.
Proof.
  unfold is_digit. intros Ha Hb.
  assert (exists n, a = Z.of_nat n /\ (n < 62)%nat) as (n & -> & Hn) by (exists (Z.to_nat a); lia).
  assert (exists m, b = Z.of_nat m /\ (m < 62)%nat) as (m & -> & Hm) by (exists (Z.to_nat b); lia).
  assert (NoDup base62Chars) as Hnd by (apply (bool_decide_unpack _); vm_compute; exact I).
  unfold base62_char. rewrite !Nat2Z.id. intros E.
  assert (length base62Chars = 62%nat) as Hl by reflexivity.
  destruct (lookup_lt_is_Some_2 base62Chars n ltac:(lia)) as [x Hx].
  destruct (lookup_lt_is_Some_2 base62Chars m ltac:(lia)) as [y Hy].
  rewrite Hx, Hy in E. simpl in E. subst y. f_equal. by eapply NoDup_lookup.
Qed.

Lemma Ten2Hex_loop_digits f n acc :
  0 <= n -> Ten2Hex_loop f n (map base62_char acc) = map base62_char (to_digits_aux f 62 n acc).
Proof.
  revert n acc. induction f as [|f IH]; intros n acc Hn; [done|]. cbn [Ten2Hex_loop to_digits_aux].
  destruct (Z.ltb_spec 0 n), (Z.leb_spec n 0); try lia; [|done].
  rewrite Z.quot_div_nonneg, Z.rem_mod_nonneg by lia.
  apply (IH (n / 62) (n mod 62 :: acc)). apply Z.div_pos; lia.
Qed.

Lemma Ten2Hex_digits n :
  0 < n <= MaxInt64 -> exists ds, Ten2Hex n = map base62_char ds /\ Forall (is_digit 62) ds /\
    from_digits 62 ds = n /\ exists d ds', ds = d :: ds' /\ d <> 0.
Proof.
  intros Hn. unfold Ten2Hex. destruct (Z.eqb_spec n 0); [lia|].
  pose proof (Ten2Hex_loop_digits 11 n [] ltac:(lia)) as EL. cbn [map] in EL. rewrite EL.
  destruct (to_digits_aux_spec 62 ltac:(lia) 11 n []) as (l & E & HF & Hv & Hh & _); [change (62 ^ Z.of_nat 11) with 52036560683837093888; lia|].
  rewrite E, app_nil_r. exists l. split_and!; [done|done|auto with lia|auto with lia].
Qed.

(** [Ten2Hex] writes a non-negative int64 in base 62, most significant digit
    first and without a leading zero, so that different numbers have different
    texts. *)
Theorem Ten2Hex_spec n (Hn : 0 <= n <= MaxInt64) :
  (exists ds, Ten2Hex n = map base62_char ds /\ Forall (is_digit 62) ds /\ from_digits 62 ds = n /\
     ds <> [] /\ (head ds = Some 0 -> n = 0)) /\
  (forall m, 0 <= m <= MaxInt64 -> Ten2Hex n = Ten2Hex m -> n = m).
Proof.
  assert (forall n, 0 <= n <= MaxInt64 -> exists ds, Ten2Hex n = map base62_char ds /\ Forall (is_digit 62) ds /\
    from_digits 62 ds = n /\ ds <> [] /\ (head ds = Some 0 -> n = 0)) as Hall.
  { intros k Hk. destruct (Z.eq_dec k 0) as [->|].
    - exists [0]. split_and!; try done. repeat constructor; unfold is_digit; lia.
    - destruct (Ten2Hex_digits k ltac:(lia)) as (ds & ? & ? & ? & d & ds' & -> & Hd).
      exists (d :: ds'). split_and!; try done. intros [= ->]. done. }
  split; [by apply Hall|]. intros m Hm E.
  destruct (Hall n Hn) as (d1 & E1 & F1 & V1 & _), (Hall m Hm) as (d2 & E2 & F2 & V2 & _).
  rewrite E1, E2 in E. assert (d1 = d2) as ->; [|congruence].
  clear - E F1 F2. revert d2 E F2. induction F1 as [|a d1 Ha _ IH]; intros [|b d2] E F2; try done.
  apply Forall_cons in F2 as [Hb F2]. cbn [map] in E. injection E as E1 E2. f_equal; [|by apply IH].
  by apply base62_char_inj.
Qed.

Lemma Ten2Hex_spec_witness : 0 <= 3843 <= MaxInt64 /\ Ten2Hex 3843 = "ZZ" /\
  forall m, 0 <= m <= MaxInt64 -> Ten2Hex 3843 = Ten2Hex m -> 3843 = m.
Proof.
  assert (0 <= 3843 <= MaxInt64) as H by lia. split; [exact H|]. split; [vm_compute; reflexivity|].
  apply (Ten2Hex_spec 3843 H).
Defined.

(** ** Substrings *)

Lemma Substr_clip s start len :
  0 <= start -> 0 < len -> start + len <= MaxInt64 ->
  Substr s start len = Ok (of_runes (take (Z.to_nat len) (drop (Z.to_nat start) (to_runes s)))).
Proof.
  intros Hs Hl Hm. unfold Substr. destruct (Z.eqb_spec len 0) as [|_]; [lia|].
  destruct (Z.ltb_spec start 0); [lia|].
  set (rs := to_runes s). set (n := Z.of_nat (length rs)).
  destruct (Z.ltb_spec len 0); [lia|].
  destruct (Z.ltb_spec n start).
  - rewrite int64_small by (unfold in_int64; lia). destruct (Z.ltb_spec n (n + len)); [|lia].
    destruct (Z.ltb_spec n n); [lia|]. destruct (Z.ltb_spec n 0); [lia|]. cbn [orb].
    destruct (Z.ltb_spec n n); [lia|]. rewrite Z.sub_diag. rewrite (drop_ge rs (Z.to_nat start)) by lia. by rewrite take_nil.
  - rewrite int64_small by (unfold in_int64; lia).
    destruct (Z.ltb_spec n (start + len)).
    + destruct (Z.ltb_spec n start); [lia|]. destruct (Z.ltb_spec start 0), (Z.ltb_spec n n); try lia. cbn [orb].
      do 2 f_equal. rewrite !take_ge; [done|rewrite length_drop; lia..].
    + destruct (Z.ltb_spec (start + len) start); [lia|].
      destruct (Z.ltb_spec start 0), (Z.ltb_spec n (start + len)); try lia. cbn [orb].
      do 3 f_equal. lia.
Qed.

(** ** Request signing *)

Definition pair_text (render : goval -> gostring) (params : gmap gostring goval) (k : gostring) : option gostring :=
  match params !! k with
  | Some v => if is_empty_string v then None else Some (k ++ "=" ++ render v)
  | None => None
  end.

(** The pairs of a parameter map in the order of their keys. *)
Definition sorted_pairs (render : goval -> gostring) (order : list gostring) (params : gmap gostring goval)
  : list gostring := omap (pair_text render params) (sort_strings order).

Lemma sort_strings_unique l1 l2 : l1 ≡ₚ l2 -> sort_strings l1 = sort_strings l2.
Proof.
  intros H. apply (StronglySorted_unique str_le); [apply (StronglySorted_merge_sort str_le); apply _..|].
  unfold sort_strings. by rewrite !merge_sort_Permutation.
Qed.

(** Every pair followed by an ampersand. *)
Definition with_amp (ps : list gostring) : gostring := concat (map (fun p => p ++ "&") ps).

Lemma with_amp_Join ps : ps <> [] -> with_amp ps = Join ps "&" ++ "&".
Proof.
  induction ps as [|p ps IH]; [done|]. intros _. destruct ps as [|q ps]; [unfold with_amp; simpl; by rewrite app_nil_r|].
  specialize (IH ltac:(done)). unfold with_amp in *.
  change (concat (map ?f (p :: q :: ps))) with (f p ++ concat (map f (q :: ps))). rewrite IH.
  change (Join (p :: q :: ps) "&") with (p ++ "&" ++ Join (q :: ps) "&").
  by rewrite <- !(assoc_L (++)).
Qed.

Lemma MapTo_fold params keys acc :
  fold_left (fun strs k =>
      match params !! k with
      | Some v => if is_empty_string v then strs else strs ++ k ++ "=" ++ objToStr v ++ "&"
      | None => strs
      end) keys acc = acc ++ with_amp (omap (pair_text objToStr params) keys).
Proof.
  revert acc. induction keys as [|k keys IH]; intros acc; cbn [fold_left]; [by rewrite app_nil_r|].
  rewrite IH. cbn [omap list_omap]. unfold pair_text at 2.
  destruct (params !! k) as [v|]; [|done]. destruct (is_empty_string v); [done|].
  unfold with_amp. cbn [map concat]. by rewrite <- !(assoc_L (++)).
Qed.

(** The query string to be signed is the sorted key=value pairs with a
    non-empty value, joined by ampersands, whatever the order in which the map
    is ranged over. *)
Theorem MapToQueryParamSort_spec order params (Hp : order ≡ₚ (map_to_list params).*1) :
  MapToQueryParamSort order params = Join (sorted_pairs objToStr (map_to_list params).*1 params) "&".
Proof.
  unfold sorted_pairs. rewrite <- (sort_strings_unique order _ Hp).
  unfold MapToQueryParamSort. case_bool_decide as E.
  - subst params. rewrite map_to_list_empty in Hp. simpl in Hp. apply Permutation_nil_r in Hp as ->. done.
  - rewrite MapTo_fold. cbn [app]. set (ps := omap _ _).
    destruct (decide (ps = [])) as [->|Hne]; [done|]. rewrite with_amp_Join by done.
    rewrite length_app. destruct (Nat.ltb_spec 0 (length (Join ps "&") + length "&")) as [|Hx]; [|simpl in Hx; lia].
    simpl length at 2. replace (length (Join ps "&") + 1 - 1)%nat with (length (Join ps "&")) by lia.
    by rewrite take_app_length.
Qed.

Lemma GetSignStr_loop_spec params keys acc :
  GetSignStr_loop keys params acc =
  acc ++ match keys with
         | [] => []
         | _ =>
           let ps := omap (pair_text ObjToStr params) keys in
           match last keys ≫= pair_text ObjToStr params with
           | Some _ => Join ps "&"
           | None => with_amp ps
           end
         end.
Proof.
  revert acc. induction keys as [|k keys IH]; intros acc; cbn [GetSignStr_loop]; [by rewrite app_nil_r|].
  assert (match params !! k with
          | Some v => if is_empty_string v then None else Some (k ++ "=" ++ ObjToStr v)
          | None => None
          end = pair_text ObjToStr params k) as Hk by done.
  cbn [omap list_omap]. destruct keys as [|k2 keys].
  - cbn [GetSignStr_loop last mbind option_bind]. rewrite <- Hk.
    destruct (params !! k) as [v|]; [destruct (is_empty_string v)|]; by rewrite ?app_nil_r.
  - change (last (k :: k2 :: keys)) with (last (k2 :: keys)). cbv zeta in *. rewrite <- Hk. clear Hk.
    destruct (params !! k) as [v|]; [|by rewrite IH].
    destruct (is_empty_string v); [by rewrite IH|]. rewrite IH, <- !(assoc_L (++)). f_equal.
    set (ps := omap (pair_text ObjToStr params) (k2 :: keys)).
    destruct (last (k2 :: keys) ≫= pair_text ObjToStr params) as [t|] eqn:El.
    + assert (t ∈ ps) as Hin.
      { apply bind_Some in El as (kl & Hl & Hpt). apply list_elem_of_omap. exists kl. split; [|done].
        by apply last_Some_elem_of. }
      change (k ++ "=" ++ ObjToStr v ++ "&" ++ Join ps "&" = Join ((k ++ "=" ++ ObjToStr v) :: ps) "&").
      destruct ps as [|q ps]; [by apply elem_of_nil in Hin|]. cbn [Join]. by rewrite <- !(assoc_L (++)).
    + change (k ++ "=" ++ ObjToStr v ++ "&" ++ with_amp ps = with_amp ((k ++ "=" ++ ObjToStr v) :: ps)).
      unfold with_amp. cbn [map concat]. by rewrite <- !(assoc_L (++)).
Qed.

(** [GetSignStr] joins the same sorted non-empty pairs; but the last key
    decides the ampersands: when its value is empty every pair, the last one
    too, is followed by one. *)
Theorem GetSignStr_spec order params (Hp : order ≡ₚ (map_to_list params).*1) :
  let keys := sort_strings (map_to_list params).*1 in
  let pairs := sorted_pairs ObjToStr (map_to_list params).*1 params in
  GetSignStr order params =
    match last keys ≫= pair_text ObjToStr params with
    | Some _ => Join pairs "&"
    | None => concat (map (fun p => p ++ "&") pairs)
    end.
Proof.
  cbv zeta. unfold GetSignStr. rewrite (sort_strings_unique order _ Hp), GetSignStr_loop_spec.
  unfold sorted_pairs. by destruct (sort_strings (map_to_list params).*1).
Qed.

Definition sample_params : gmap gostring goval :=
  <["b" := GStr "2"]> (<["a" := GInt 1]> (<["c" := GStr ""]> ∅)).

(** A last key with an empty value leaves a trailing ampersand, and an uint32 is
    rendered by the wrong verb. *)
Theorem GetSignStr_trailing :
  GetSignStr ["b"; "a"; "c"] sample_params = "a=1&b=2&" /\
  MapToQueryParamSort ["b"; "a"; "c"] sample_params = "a=1&b=2" /\
  ObjToStr (GUint32 7) = "%!s(uint32=7)".
Proof. vm_compute. done. Qed.

Lemma MapToQueryParamSort_spec_witness :
  MapToQueryParamSort ["b"; "a"; "c"] sample_params =
  Join (sorted_pairs objToStr (map_to_list sample_params).*1 sample_params) "&".
Proof. apply MapToQueryParamSort_spec. vm_compute. solve_Permutation. Defined.

Lemma GetSignStr_spec_witness :
  GetSignStr ["b"; "a"; "c"] sample_params =
  concat (map (fun p => p ++ "&") (sorted_pairs ObjToStr (map_to_list sample_params).*1 sample_params)).
Proof.
  refine (eq_trans (GetSignStr_spec ["b"; "a"; "c"] sample_params _) _).
  - vm_compute. solve_Permutation.
  - vm_compute. reflexivity.
Defined.

(** ** Names and lists *)

Lemma toLower_not_upper c : isUpper (toLower c) = false.
Proof.
  refine (proj1 (negb_true_iff _) (all_bytes_spec (fun c => negb (isUpper (toLower c))) _ c)).
  vm_compute. reflexivity.
Qed.

Lemma toLower_underscore c : bool_decide (toLower c = "_"%char) = bool_decide (c = "_"%char).
Proof.
  refine (Bool.eqb_prop _ _ (all_bytes_spec (fun c => Bool.eqb (bool_decide (toLower c = "_"%char)) (bool_decide (c = "_"%char))) _ c)).
  vm_compute. reflexivity.
Qed.

Lemma RemoveByte_app a b c : RemoveByte (a ++ b) c = RemoveByte a c ++ RemoveByte b c.
Proof. apply filter_app. Qed.

Lemma RemoveByte_cons d s c :
  RemoveByte (d :: s) c = (if bool_decide (d = c) then [] else [d]) ++ RemoveByte s c.
Proof.
  unfold RemoveByte. case_bool_decide as E.
  - rewrite filter_cons_False by (intros H; done). done.
  - by rewrite filter_cons_True.
Qed.

(** [UnderscoreName] only lowers the letters of a name and inserts underscores:
    the result has no upper-case letter, and without underscores it is the
    lower-cased name without underscores. *)
Theorem UnderscoreName_spec name :
  Forall (fun c => isUpper c = false) (UnderscoreName name) /\
  RemoveByte (UnderscoreName name) "_"%char = map toLower (RemoveByte name "_"%char).
Proof.
  induction name as [|c rest [IH1 IH2]]; [by split; [constructor|]|]. cbn [UnderscoreName].
  set (wb := match rest with [] => false | _ => _ end). split.
  - constructor; [apply toLower_not_upper|]. destruct wb; [|done]. constructor; [done|done].
  - rewrite !RemoveByte_cons, toLower_underscore, RemoveByte_app, map_app, IH2.
    destruct wb; by case_bool_decide.
Qed.

Lemma existsb_eqs x l : existsb (fun y => eqs x y) l = bool_decide (x ∈ l).
Proof.
  apply eq_true_iff_eq. rewrite existsb_exists, bool_decide_eq_true. setoid_rewrite eqs_spec.
  rewrite list_elem_of_In. naive_solver.
Qed.

(** [RemoveRepeatedElement] keeps one occurrence of every element, in the order
    of the last occurrences. *)
Theorem RemoveRepeatedElement_spec arr :
  NoDup (RemoveRepeatedElement arr) /\ (forall x, x ∈ RemoveRepeatedElement arr <-> x ∈ arr) /\
  RemoveRepeatedElement arr `sublist_of` arr.
Proof.
  induction arr as [|x arr (IH1 & IH2 & IH3)]; [by split_and!; [constructor|done|constructor]|].
  cbn [RemoveRepeatedElement]. rewrite existsb_eqs. case_bool_decide as E.
  - split_and!; [done| |by constructor]. intros y. rewrite IH2, elem_of_cons. naive_solver.
  - split_and!.
    + constructor; [|done]. by rewrite IH2.
    + intros y. rewrite !elem_of_cons, IH2. done.
    + by constructor.
Qed.

Lemma GetRandomName_total draw : (draw < length names)%nat -> exists n, GetRandomName draw = Ok n /\ n ∈ names.
Proof.
  intros Hd. unfold GetRandomName. destruct (lookup_lt_is_Some_2 names draw Hd) as [n Hn]. rewrite Hn.
  exists n. split; [done|]. by apply list_elem_of_lookup_2 with draw.
Qed.

Lemma GetRandomString_spec num draw :
  (forall i, is_digit 62 (draw i)) ->
  length (GetRandomString num draw) = num /\ Forall (fun c => c ∈ base62Chars) (GetRandomString num draw).
Proof.
  intros Hd. unfold GetRandomString. rewrite length_map, length_seq. split; [done|].
  apply Forall_forall. intros c Hc. apply list_elem_of_fmap in Hc as (i & -> & _).
  specialize (Hd i). unfold is_digit, base62_char in *.
  destruct (lookup_lt_is_Some_2 base62Chars (Z.to_nat (draw i))) as [x Hx];
    [change (length base62Chars) with 62%nat; lia|].
  rewrite Hx. simpl. by eapply list_elem_of_lookup_2.
Qed.

(** ** Addresses *)

Lemma be_val_4 a b c d :
  be_val [a; b; c; d] =
  ((byte_val a * 256 + byte_val b) * 256 + byte_val c) * 256 + byte_val d.
Proof. unfold be_val, from_digits. cbn [map fold_left]. lia. Qed.

(** The ranges of RFC 1918, on the bytes of an IPv4 address. *)
Definition rfc1918 (a b : Z) : Prop :=
  a = 10 \/ (a = 192 /\ b = 168) \/ (a = 172 /\ 16 <= b <= 31).

Lemma Contains_v4 n a b c d bits k :
  0 <= bits <= 32 -> length n = 4%nat -> be_val n / 2 ^ (32 - bits) = k ->
  Contains (mkIPNet n bits) [a; b; c; d] = (be_val [a; b; c; d] / 2 ^ (32 - bits) =? k).
Proof.
  intros Hb Hn <-. unfold Contains, same_prefix. cbn [net_base net_bits].
  change (default [a; b; c; d] (To4 [a; b; c; d])) with [a; b; c; d]. rewrite Hn.
  change (8 * Z.of_nat 4) with 32. change (length [a; b; c; d] =? 4)%nat with true. cbn [andb].
  rewrite !Z.shiftr_div_pow2 by lia. by rewrite Z.eqb_sym.
Qed.

Lemma Contains_v6_v4 n a b c d bits :
  length n = 16%nat -> Contains (mkIPNet n bits) [a; b; c; d] = false.
Proof. intros Hn. unfold Contains. cbn [net_base]. rewrite Hn. done. Qed.

Lemma isPrivateIP_v4 a b c d :
  isPrivateIP [a; b; c; d] = true <->
  rfc1918 (byte_val a) (byte_val b) \/ byte_val a = 127 \/ (byte_val a = 169 /\ byte_val b = 254).
Proof.
  pose proof (byte_val_range a) as Ha. pose proof (byte_val_range b) as Hb.
  pose proof (byte_val_range c) as Hc. pose proof (byte_val_range d) as Hd.
  unfold isPrivateIP, privateNetworks. cbn [existsb].
  rewrite (Contains_v6_v4 (v6_base 0 1)), (Contains_v6_v4 (v6_base 252 0)), (Contains_v6_v4 (v6_base2 254 128))
    by reflexivity.
  rewrite (Contains_v4 _ a b c d 8 10), (Contains_v4 _ a b c d 12 2753), (Contains_v4 _ a b c d 16 49320),
    (Contains_v4 _ a b c d 8 127), (Contains_v4 _ a b c d 16 43518)
    by first [lia | reflexivity | (vm_compute; reflexivity)].
  rewrite be_val_4. change (2 ^ (32 - 8)) with 16777216. change (2 ^ (32 - 12)) with 1048576.
  change (2 ^ (32 - 16)) with 65536.
  set (x := byte_val a) in *. set (y := byte_val b) in *. set (z := byte_val c) in *. set (w := byte_val d) in *.
  assert ((((x * 256 + y) * 256 + z) * 256 + w) / 16777216 = x) as ->
    by (symmetry; apply (Z.div_unique_pos _ _ _ ((y * 256 + z) * 256 + w)); lia).
  assert ((((x * 256 + y) * 256 + z) * 256 + w) / 65536 = x * 256 + y) as ->
    by (symmetry; apply (Z.div_unique_pos _ _ _ (z * 256 + w)); lia).
  assert ((((x * 256 + y) * 256 + z) * 256 + w) / 1048576 = x * 16 + y / 16) as ->.
  { pose proof (Z.div_mod y 16 ltac:(lia)). pose proof (Z.mod_pos_bound y 16 ltac:(lia)).
    symmetry. apply (Z.div_unique_pos _ _ _ ((y mod 16 * 256 + z) * 256 + w)); lia. }
  rewrite !orb_true_iff, !Z.eqb_eq. unfold rfc1918.
  pose proof (Z.div_mod y 16 ltac:(lia)). pose proof (Z.mod_pos_bound y 16 ltac:(lia)).
  assert (0 <= y / 16 < 16) by (split; [apply Z.div_pos; lia|apply Z.div_lt_upper_bound; lia]).
  split.
  - intros HP. repeat destruct HP as [HP|HP]; try discriminate; lia.
  - intros HP. repeat destruct HP as [HP|HP]; lia.
Qed.

Lemma HasPrefix_dot s r p q :
  all_digits s = true -> all_digits p = true ->
  HasPrefix (s ++ "." ++ r) (p ++ "." ++ q) = eqs s p && HasPrefix r q.
Proof.
  revert s. induction p as [|c p IH]; intros s Hs Hp.
  - destruct s as [|d s]; cbn [app HasPrefix]; [done|].
    rewrite bool_decide_eq_false_2; [done|]. intros <-. done.
  - apply andb_true_iff in Hp as [Hc Hp]. destruct s as [|d s]; cbn [app HasPrefix].
    + rewrite bool_decide_eq_false_2; [done|]. intros ->. done.
    + apply andb_true_iff in Hs as [Hd Hs]. rewrite IH by done.
      rewrite andb_assoc. f_equal. apply eq_true_iff_eq.
      rewrite andb_true_iff, bool_decide_eq_true, !eqs_spec. naive_solver.
Qed.

Lemma FormatUint_eqs a b : 0 <= a -> 0 <= b -> eqs (FormatUint a) (FormatUint b) = (a =? b).
Proof.
  intros Ha Hb. apply eq_true_iff_eq. rewrite eqs_spec, Z.eqb_eq. split; [|by intros ->].
  intros E. rewrite <- (FormatUint_val a), <- (FormatUint_val b), E by done. done.
Qed.

(** On the dotted form of an IPv4 address, [IsIntranet] decides the ranges of
    RFC 1918; [isPrivateIP] decides those ranges, loopback and link-local, also
    through the IPv4-mapped form of an IPv6 address. *)
Theorem intranet_ranges a b c d :
  (IsIntranet (dotted [a; b; c; d]) = true <-> rfc1918 (byte_val a) (byte_val b)) /\
  (isPrivateIP [a; b; c; d] = true <->
   rfc1918 (byte_val a) (byte_val b) \/ byte_val a = 127 \/ (byte_val a = 169 /\ byte_val b = 254)) /\
  isPrivateIP (v4InV6Prefix ++ [a; b; c; d]) = isPrivateIP [a; b; c; d].
Proof.
  split; [|split; [apply isPrivateIP_v4|reflexivity]].
  pose proof (byte_val_range a) as Ha. pose proof (byte_val_range b) as Hb.
  pose proof (byte_val_range c) as Hc. pose proof (byte_val_range d) as Hd.
  unfold dotted. cbn [map Join]. unfold IsIntranet.
  set (fa := FormatUint (byte_val a)). set (fb := FormatUint (byte_val b)).
  set (fc := FormatUint (byte_val c)). set (fd := FormatUint (byte_val d)).
  assert (all_digits fa = true) as Da by (apply FormatUint_digits; lia).
  assert (all_digits fb = true) as Db by (apply FormatUint_digits; lia).
  assert (all_digits fc = true) as Dc by (apply FormatUint_digits; lia).
  assert (all_digits fd = true) as Dd by (apply FormatUint_digits; lia).
  change (HasPrefix ?s "10.") with (HasPrefix s (FormatUint 10 ++ "." ++ [])).
  change (HasPrefix ?s "192.168.") with (HasPrefix s (FormatUint 192 ++ "." ++ (FormatUint 168 ++ "." ++ []))).
  change (HasPrefix ?s "172.") with (HasPrefix s (FormatUint 172 ++ "." ++ [])).
  rewrite !HasPrefix_dot by done. unfold fa, fb. rewrite !FormatUint_eqs by lia. fold fa fb.
  cbn [HasPrefix]. rewrite !andb_true_r.
  assert (forall s, all_digits s = true -> "."%char ∉ s) as Hnd.
  { intros s Hs Hin. rewrite all_digits_Forall, Forall_forall in Hs. apply Hs in Hin. done. }
  assert (Split (fa ++ "." ++ fb ++ "." ++ fc ++ "." ++ fd) "."%char = [fa; fb; fc; fd]) as ->.
  { clearbody fa fb fc fd. cbn [app].
    rewrite !Split_app by (by apply Hnd). by rewrite Split_notin by (by apply Hnd). }
  assert (ParseInt fb 64 = (byte_val b, None)) as ->.
  { pose proof (ParseInt_FormatInt (byte_val b) 64 ltac:(lia)) as E. unfold FormatInt in E.
    destruct (Z.ltb_spec (byte_val b) 0); [lia|]. apply E. lia. }
  unfold rfc1918. destruct (Z.eqb_spec (byte_val a) 10), (Z.eqb_spec (byte_val a) 192),
    (Z.eqb_spec (byte_val b) 168), (Z.eqb_spec (byte_val a) 172); cbn [andb orb];
    try (rewrite andb_true_iff, !Z.leb_le); try (split; [try done|done]; lia); split; try done; try lia.
Qed.

(** ** The guard against requests to private networks *)

Lemma To4_length ip v4 : To4 ip = Some v4 -> length v4 = 4%nat.
Proof.
  unfold To4. destruct (Nat.eqb_spec (length ip) 4); [by intros [= <-]|].
  destruct (Nat.eqb_spec (length ip) 16); [|done]. destruct (eqs _ _); [|done]. intros [= <-].
  rewrite length_drop. lia.
Qed.

Lemma Contains_To4 n ip v4 : To4 ip = Some v4 -> Contains n ip = Contains n v4.
Proof.
  intros H. unfold Contains. rewrite H. simpl.
  pose proof (To4_length ip v4 H) as Hl.
  unfold To4 at 1. rewrite Hl. simpl. unfold To4. by rewrite Hl.
Qed.

Lemma isPrivateIP_To4 ip v4 : To4 ip = Some v4 -> isPrivateIP ip = isPrivateIP v4.
Proof. intros H. unfold isPrivateIP. cbn [existsb privateNetworks]. by rewrite !(Contains_To4 _ ip v4 H). Qed.

Lemma Contains_v6 n b0 b1 rest bits k :
  0 <= bits <= 16 -> length rest = 14%nat -> To4 (b0 :: b1 :: rest) = None -> length n = 16%nat ->
  be_val n / 2 ^ (128 - bits) = k ->
  Contains (mkIPNet n bits) (b0 :: b1 :: rest) = ((byte_val b0 * 256 + byte_val b1) / 2 ^ (16 - bits) =? k).
Proof.
  intros Hb Hr Ht Hn <-. unfold Contains, same_prefix. rewrite Ht. cbn [default from_option id net_base net_bits length].
  rewrite Hr, Hn. change (16 =? 16)%nat with true. cbn [andb]. change (8 * Z.of_nat 16) with 128.
  rewrite !Z.shiftr_div_pow2 by lia. rewrite Z.eqb_sym. f_equal.
  replace (128 - bits) with (112 + (16 - bits)) by lia. rewrite Z.pow_add_r, <- Z.div_div by lia. f_equal.
  rewrite !be_val_cons. cbn [length]. rewrite Hr. pose proof (be_val_range rest) as B. rewrite Hr in B.
  change (256 ^ Z.of_nat 14) with (2 ^ 112) in *. change (256 ^ Z.of_nat 15) with (256 * 2 ^ 112).
  symmetry. apply (Z.div_unique_pos _ _ _ (be_val rest)); lia.
Qed.

(** The addresses of the table, on their bytes: the private ranges, loopback and
    link-local of IPv4, also in the mapped form; loopback, unique-local and
    link-local of IPv6. *)
Definition internal_address (ip : gostring) : Prop :=
  match To4 ip with
  | Some v4 =>
    rfc1918 (byte_at v4 0) (byte_at v4 1) \/ byte_at v4 0 = 127 \/ (byte_at v4 0 = 169 /\ byte_at v4 1 = 254)
  | None =>
    length ip = 16%nat /\
    (byte_at ip 0 = 252 \/ byte_at ip 0 = 253 \/ (byte_at ip 0 = 254 /\ 128 <= byte_at ip 1 < 192) \/
     ip = v6_base 0 1)
  end.

(** A network of another length has no such address. *)
Lemma Contains_length n bits ip : To4 ip = None -> length ip <> length n -> Contains (mkIPNet n bits) ip = false.
Proof. intros E Hl. unfold Contains. rewrite E. cbn [default from_option id net_base]. by apply Nat.eqb_neq in Hl as ->. Qed.

(** A network of one address. *)
Lemma Contains_128 n ip : To4 ip = None -> length n = 16%nat -> length ip = 16%nat -> Contains (mkIPNet n 128) ip = eqs ip n.
Proof.
  intros E Hn Hl. unfold Contains, same_prefix. rewrite E. cbn [default from_option id net_base net_bits]. rewrite Hn, Hl.
  change (8 * Z.of_nat 16 - 128) with 0. rewrite !Z.shiftr_0_r. cbn [Nat.eqb andb].
  apply eq_true_iff_eq. rewrite Z.eqb_eq, eqs_spec. split; [|by intros ->]. intros Hv. apply be_val_inj; congruence.
Qed.

Lemma isPrivateIP_v6 b0 b1 rest : length rest = 14%nat -> To4 (b0 :: b1 :: rest) = None ->
  isPrivateIP (b0 :: b1 :: rest) =
  eqs (b0 :: b1 :: rest) (v6_base 0 1) || ((byte_val b0 * 256 + byte_val b1) / 512 =? 126) ||
    ((byte_val b0 * 256 + byte_val b1) / 64 =? 1018).
Proof.
  intros Hr E. assert (length (b0 :: b1 :: rest) = 16%nat) as Hl by (cbn; lia).
  unfold isPrivateIP, privateNetworks. cbn [existsb].
  rewrite (Contains_v6 (v6_base 252 0) b0 b1 rest 7 126), (Contains_v6 (v6_base2 254 128) b0 b1 rest 10 1018), Contains_128
    by first [lia | done | (vm_compute; reflexivity)].
  rewrite !Contains_length by (done || by rewrite Hl). cbn [orb].
  change (2 ^ (16 - 7)) with 512. change (2 ^ (16 - 10)) with 64. by rewrite orb_false_r, orb_assoc.
Qed.

(** [isPrivateIP] decides the table. *)
Lemma isPrivateIP_internal ip : isPrivateIP ip = true <-> internal_address ip.
Proof.
  unfold internal_address. destruct (To4 ip) as [v4|] eqn:E.
  - rewrite (isPrivateIP_To4 ip v4 E).
    pose proof (To4_length ip v4 E) as Hl.
    destruct v4 as [|a [|b [|c [|d [|]]]]]; try done. by apply isPrivateIP_v4.
  - destruct (decide (length ip = 16%nat)) as [Hl|Hl].
    2: { assert (length ip <> 4%nat) as H4 by (intros H4; unfold To4 in E; by rewrite H4 in E).
         unfold isPrivateIP, privateNetworks. cbn [existsb]. rewrite !Contains_length by done. split; [done|by intros []]. }
    destruct ip as [|b0 [|b1 rest]]; try done. assert (length rest = 14%nat) as Hr by (cbn in Hl; lia).
    rewrite isPrivateIP_v6 by done. pose proof (byte_val_range b0). pose proof (byte_val_range b1).
    change (byte_at (b0 :: b1 :: rest) 0) with (byte_val b0). change (byte_at (b0 :: b1 :: rest) 1) with (byte_val b1).
    rewrite !orb_true_iff, !Z.eqb_eq, eqs_spec.
    pose proof (Z.div_mod (byte_val b0 * 256 + byte_val b1) 512 ltac:(lia)).
    pose proof (Z.mod_pos_bound (byte_val b0 * 256 + byte_val b1) 512 ltac:(lia)).
    pose proof (Z.div_mod (byte_val b0 * 256 + byte_val b1) 64 ltac:(lia)).
    pose proof (Z.mod_pos_bound (byte_val b0 * 256 + byte_val b1) 64 ltac:(lia)).
    split.
    + intros [[H'|H']|H']; (split; [done|]); [tauto|lia|lia].
    + intros (_ & [H'|[H'|[H'|H']]]); [left; right; lia|left; right; lia|right; lia|tauto].
Qed.

Lemma none_internal ips :
  list_find (fun ip => isPrivateIP ip = true) ips = None <-> Forall (fun ip => ~ internal_address ip) ips.
Proof. rewrite list_find_None. apply Forall_iff. intros ip. by rewrite isPrivateIP_internal. Qed.

(** C4 [ValidateExternalURL] accepts a URL exactly when it parses, has the scheme
    http or https and a host, and the address that the host spells, or every
    address that the host resolves to at the moment of the check, is outside the
    table of private, loopback, link-local and unique-local networks, in the
    IPv4, IPv4-mapped or IPv6 form; a host that does not resolve is refused.
    Addresses the table does not list are accepted, the unspecified ones
    included. *)
Theorem ValidateExternalURL_iff LookupIP rawURL :
  ValidateExternalURL LookupIP rawURL = None <->
  exists u, Parse rawURL = Some u /\
    (map lower_byte (Scheme u) = "http" \/ map lower_byte (Scheme u) = "https") /\ Hostname u <> [] /\
    match ParseIP (Hostname u) with
    | Some ip => ~ internal_address ip
    | None => exists ips, LookupIP (Hostname u) = Some ips /\ Forall (fun ip => ~ internal_address ip) ips
    end.
Proof.
  unfold ValidateExternalURL. destruct (Parse rawURL) as [u|]; [|split; [done|by intros (? & ? & _)]].
  transitivity ((map lower_byte (Scheme u) = "http" \/ map lower_byte (Scheme u) = "https") /\ Hostname u <> [] /\
    match ParseIP (Hostname u) with
    | Some ip => ~ internal_address ip
    | None => exists ips, LookupIP (Hostname u) = Some ips /\ Forall (fun ip => ~ internal_address ip) ips
    end); [|split; [by exists u|by intros (u' & [= <-] & H)]].
  assert (forall ip, ~ internal_address ip <-> isPrivateIP ip = false) as Hint
    by (intros ip; by rewrite <- isPrivateIP_internal, not_true_iff_false).
  rewrite <- eqs_false, <- !eqs_spec.
  destruct (eqs (map lower_byte (Scheme u)) "http"), (eqs (map lower_byte (Scheme u)) "https"); cbn [negb andb];
    try (split; [done|by intros ([|] & _)]);
    (destruct (eqs (Hostname u) []); [split; [done|by intros (_ & ? & _)]|]);
    (destruct (ParseIP (Hostname u)) as [ip|];
      [rewrite Hint; destruct (isPrivateIP ip); split; first [done|tauto|by intros (_ & _ & ?)]|]);
    (destruct (LookupIP (Hostname u)) as [ips|]; [|split; [done|by intros (_ & _ & ? & ? & _)]]);
    pose proof (none_internal ips) as Hn; destruct (list_find _ ips) as [[i r]|];
    (split; [first [done|intros _; split_and!; [tauto|done|]; exists ips; split; [done|by apply Hn]]
            |intros (_ & _ & ips' & [= <-] & Hf); try done; by apply Hn in Hf]).
Qed.

(** The URLs of the table's addresses, and of two that the table does not list. *)
Example ValidateExternalURL_table :
  let dns h := if eqs h "in.test" then Some [map byte_of [93; 184; 216; 34]; map byte_of [10; 0; 0; 7]] else Some [map byte_of [93; 184; 216; 34]] in
  map (fun url => bool_decide (ValidateExternalURL dns url = None))
    ["https://Example.com:8443/a"%go; "http://in.test/"; "http://127.0.0.1/"; "http://[fe80::1]/"; "http://0.0.0.0/"; "http://[::]:80/"] =
  [true; false; false; false; true; true].
Proof. by vm_compute. Qed.
