(* ===== verification/Money.v ===== *)
(** * Money: conversions between yuan and cents of [pkg/util/yuan_cent.go]

    The amounts in yuan are float64, given by their bits.  The file models
    [Decimal.Float64] (the nearest double of a rational) and the [%0.2f] verb
    (the exact value of the float, rounded half to even at two digits), and
    shows that cents survive the trip through a float. *)
From S2P Require Import Prelude GoStr Decimals DecRound DecimalText.
From Stdlib Require Import QArith Qabs Qpower Lqa.

#[global] Open Scope Z_scope.
#[global] Open Scope go_scope.

(** ** [big.Rat.Float64] *)

(** The greatest [k] with 2^k at most a/b, for positive [a] and [b]. *)
Definition ratio_log2 (a b : Z) : Z :=
  let k := Z.log2 a - Z.log2 b in
  let enough := if 0 <=? k then b * 2 ^ k <=? a else b <=? a * 2 ^ (- k) in
  if enough then k else k - 1.

(** The numerator and denominator of a/b * 2^s. *)
Definition scale_num (a s : Z) : Z := if 0 <=? s then a * 2 ^ s else a.
Definition scale_den (b s : Z) : Z := if 0 <=? s then b else b * 2 ^ (- s).

(** The bits of the double nearest to a/b, ties to even: 53 significant bits, or
    a multiple of 2^-1074 below the normal range, or an infinity above it. *)
Definition nearest_bits (a b : Z) : Z :=
  let e := Z.max (ratio_log2 a b) (-1022) in
  let m := round_half_even (scale_num a (52 - e)) (scale_den b (52 - e)) in
  let '(m, e) := if m =? 2 ^ 53 then (2 ^ 52, e + 1) else (m, e) in
  if m <? 2 ^ 52 then m
  else if 1023 <? e then 2047 * 2 ^ 52
  else (e + 1023) * 2 ^ 52 + (m - 2 ^ 52).

Definition rat_float64 (q : Q) : Z :=
  let a := Qnum q in
  let b := Zpos (Qden q) in
  if a =? 0 then 0
  else if a <? 0 then 2 ^ 63 + nearest_bits (- a) b else nearest_bits a b.

(** [Decimal.Float64] returns the float and whether it is exact. *)
Definition Float64 (d : Decimal) : Z * bool :=
  let f := rat_float64 (Rat d) in (f, Qeq_bool (float_value f) (Rat d)).

(** ** [fmt.Sprintf("%0.2f", x)] of a finite float *)

Definition Sprintf_2f (bits : Z) : go gostring gostring :=
  let! d := NewFromFloat bits in
  let! s := StringFixedBank (Abs d) 2 in
  Ok (if float_sign bits =? 1 then "-" ++ s else s).

Definition must (r : go gostring Decimal) : go gostring Decimal :=
  match r with Err err => Panicked err | r => r end.

Definition YuanToCent (yuan : Z) : go gostring Z :=
  let! s := Sprintf_2f yuan in
  let! dec := must (NewFromString s) in
  let! m := must (NewFromString "100") in
  let! p := Mul dec m in
  Ok (IntPart p).

Definition CentToYuan (cent : Z) : go gostring Z :=
  let! centDec := must (NewFromString (FormatInt cent)) in
  let! mDec := must (NewFromString (FormatInt 100)) in
  let! q := Div centDec mDec in
  Ok (Float64 (Round q 2)).1.

Example yuan_examples :
  CentToYuan 10 = Ok 4591870180066957722 /\ YuanToCent 4591870180066957722 = Ok 10 /\
  CentToYuan (-12345) = Ok 13861759475260378317 /\ (let! y := CentToYuan (-12345) in YuanToCent y) = Ok (-12345).
Proof. vm_compute. done. Qed.

(** ** Facts about the nearest double *)

Definition Q2 (k : Z) : Q := ((2 # 1) ^ k)%Q.

Lemma Q2_pos k : (0 < Q2 k)%Q.
Proof. apply Qpower_0_lt. reflexivity. Qed.

Lemma Q2_add a b : (Q2 (a + b) == Q2 a * Q2 b)%Q.
Proof. unfold Q2. rewrite Qpower_plus by discriminate. done. Qed.

Lemma Q2_Z k : 0 <= k -> (Q2 k == inject_Z (2 ^ k))%Q.
Proof. intros. unfold Q2. by rewrite (Zpower_Qpower 2 k). Qed.

Lemma Q2_inv k : (Q2 k * Q2 (- k) == 1)%Q.
Proof. rewrite <- Q2_add. by replace (k + - k) with 0 by lia. Qed.

Lemma Q2_lt j k : j < k -> (Q2 j < Q2 k)%Q.
Proof.
  intros H. replace k with (j + (k - j)) by lia. rewrite Q2_add, (Q2_Z (k - j)) by lia.
  assert (1 < 2 ^ (k - j)) as Hp by (apply Z.pow_gt_1; lia).
  rewrite Zlt_Qlt in Hp. pose proof (Q2_pos j). change (inject_Z 1) with 1%Q in Hp. nra.
Qed.

Lemma Q2_le_inv j k : (Q2 j <= Q2 k)%Q -> j <= k.
Proof. intros H. destruct (Z.le_gt_cases j k) as [|Hgt]; [done|]. apply Q2_lt in Hgt. lra. Qed.

Lemma inject_pos a : 0 < a -> (0 < inject_Z a)%Q.
Proof. intros. change 0%Q with (inject_Z 0). by rewrite <- Zlt_Qlt. Qed.

Lemma enough_Q a b k :
  (if 0 <=? k then b * 2 ^ k <=? a else b <=? a * 2 ^ (- k)) = true <->
  (inject_Z b * Q2 k <= inject_Z a)%Q.
Proof.
  destruct (Z.leb_spec 0 k).
  - rewrite Z.leb_le, Zle_Qle, inject_Z_mult, Q2_Z by done. done.
  - rewrite Z.leb_le, Zle_Qle, inject_Z_mult, <- Q2_Z by lia.
    rewrite <- (Qmult_le_r (inject_Z b * Q2 k) _ (Q2 (- k))) by apply Q2_pos.
    rewrite <- Qmult_assoc, Q2_inv, Qmult_1_r. done.
Qed.

(** The binary exponent of a positive ratio. *)
Lemma ratio_log2_spec a b :
  0 < a -> 0 < b ->
  let e := ratio_log2 a b in
  (inject_Z b * Q2 e <= inject_Z a)%Q /\ (inject_Z a < inject_Z b * Q2 (e + 1))%Q.
Proof.
  intros Ha Hb. unfold ratio_log2. set (la := Z.log2 a). set (lb := Z.log2 b).
  pose proof (Z.log2_spec a Ha) as [A1 A2]. pose proof (Z.log2_spec b Hb) as [B1 B2]. fold la in A1, A2. fold lb in B1, B2.
  pose proof (Z.log2_nonneg a) as La. pose proof (Z.log2_nonneg b) as Lb. fold la lb in La, Lb.
  rewrite Zle_Qle, <- Q2_Z in A1, B1 by lia. rewrite Zlt_Qlt, <- Q2_Z in A2, B2 by lia.
  assert (inject_Z a < inject_Z b * Q2 (la - lb + 1))%Q as Hup.
  { eapply Qlt_le_trans; [exact A2|]. replace (Z.succ la) with (lb + (la - lb + 1)) by lia.
    rewrite Q2_add. apply Qmult_le_r; [apply Q2_pos|done]. }
  destruct (if 0 <=? la - lb then b * 2 ^ (la - lb) <=? a else b <=? a * 2 ^ (- (la - lb))) eqn:E; cbv zeta.
  - split; [by apply enough_Q|done].
  - assert (~ (inject_Z b * Q2 (la - lb) <= inject_Z a)%Q) as Hn by (rewrite <- enough_Q; congruence).
    replace (la - lb - 1 + 1) with (la - lb) by lia. split; [|by apply Qnot_le_lt].
    apply Qlt_le_weak. eapply Qlt_le_trans; [|exact A1].
    replace la with (Z.succ lb + (la - lb - 1)) at 2 by lia. rewrite Q2_add.
    apply Qmult_lt_r; [apply Q2_pos|done].
Qed.

Lemma scale_ratio a b s :
  (inject_Z (scale_num a s) * inject_Z b == inject_Z a * Q2 s * inject_Z (scale_den b s))%Q.
Proof.
  unfold scale_num, scale_den. destruct (Z.leb_spec 0 s); rewrite inject_Z_mult, <- Q2_Z by lia; [ring|].
  transitivity (inject_Z a * inject_Z b * (Q2 s * Q2 (- s)))%Q; [rewrite Q2_inv|]; ring.
Qed.

Lemma scale_den_pos b s : 0 < b -> 0 < scale_den b s.
Proof. intros. unfold scale_den. destruct (Z.leb_spec 0 s); [done|]. apply Z.mul_pos_pos; [done|apply Z.pow_pos_nonneg; lia]. Qed.

(** The significand before renormalisation has 53 bits and is off by at most
    half a unit. *)
Lemma significand a b :
  0 < a -> 0 < b ->
  let e := ratio_log2 a b in
  let m := round_half_even (scale_num a (52 - e)) (scale_den b (52 - e)) in
  2 ^ 52 <= m <= 2 ^ 53 /\
  (2 * Qabs (inject_Z m * Q2 (e - 52) * inject_Z b - inject_Z a) <= Q2 (e - 52) * inject_Z b)%Q.
Proof.
  intros Ha Hb e m. destruct (ratio_log2_spec a b Ha Hb) as [H1 H2]. fold e in H1, H2.
  set (s := 52 - e) in *. set (N := scale_num a s) in *. set (D := scale_den b s) in *.
  assert (0 < D) as HD by by apply scale_den_pos.
  pose proof (scale_ratio a b s) as HS. fold N D in HS.
  pose proof (inject_pos D HD) as HDq. pose proof (inject_pos b Hb) as Hbq.
  destruct (rhe_spec N D HD) as [HR _]. fold m in HR.
  assert (Q2 s * Q2 (e - 52) == 1)%Q as Hinv by (unfold s; rewrite <- Q2_add; by replace (52 - e + (e - 52)) with 0 by lia).
  assert (2 ^ 52 * D <= N < 2 ^ 53 * D) as [HN1 HN2].
  { assert (Q2 52 == Q2 s * Q2 e)%Q as E52 by (unfold s; rewrite <- Q2_add; by replace (52 - e + e) with 52 by lia).
    assert (Q2 53 == Q2 s * Q2 (e + 1))%Q as E53
      by (unfold s; rewrite <- Q2_add; by replace (52 - e + (e + 1)) with 53 by lia).
    pose proof (Q2_pos s) as Hs.
    split; [rewrite Zle_Qle|rewrite Zlt_Qlt]; rewrite inject_Z_mult, <- Q2_Z by lia.
    - apply (Qmult_le_r _ _ (inject_Z b)); [done|]. rewrite HS, E52.
      setoid_replace (Q2 s * Q2 e * inject_Z D * inject_Z b)%Q with ((inject_Z b * Q2 e) * (Q2 s * inject_Z D))%Q
        using relation Qeq by ring.
      setoid_replace (inject_Z a * Q2 s * inject_Z D)%Q with (inject_Z a * (Q2 s * inject_Z D))%Q using relation Qeq by ring.
      apply Qmult_le_r; [|done]. apply Qmult_lt_0_compat; done.
    - apply (Qmult_lt_r _ _ (inject_Z b)); [done|]. rewrite HS, E53.
      setoid_replace (Q2 s * Q2 (e + 1) * inject_Z D * inject_Z b)%Q with ((inject_Z b * Q2 (e + 1)) * (Q2 s * inject_Z D))%Q
        using relation Qeq by ring.
      setoid_replace (inject_Z a * Q2 s * inject_Z D)%Q with (inject_Z a * (Q2 s * inject_Z D))%Q using relation Qeq by ring.
      apply Qmult_lt_r; [|done]. apply Qmult_lt_0_compat; done. }
  split.
  - change (2 ^ 52) with 4503599627370496 in *. change (2 ^ 53) with 9007199254740992 in *. nia.
  - apply (Qmult_le_r _ _ (inject_Z D)); [done|].
    rewrite Zle_Qle, inject_Z_mult in HR. change (inject_Z 2) with 2%Q in HR.
    assert (Qabs (inject_Z m * Q2 (e - 52) * inject_Z b - inject_Z a) * inject_Z D ==
            inject_Z (Z.abs (N - m * D)) * (Q2 (e - 52) * inject_Z b))%Q as E.
    { rewrite <- (Qabs_pos (inject_Z D)) at 1 by by apply Qlt_le_weak. rewrite <- Qabs_Qmult.
      assert (0 <= Q2 (e - 52) * inject_Z b)%Q as Hnn
        by (apply Qmult_le_0_compat; apply Qlt_le_weak; [apply Q2_pos|done]).
      change (inject_Z (Z.abs (N - m * D))) with (Qabs (inject_Z (N - m * D))).
      rewrite <- (Qabs_pos (Q2 (e - 52) * inject_Z b)) by done. rewrite <- Qabs_Qmult.
      rewrite <- (Qabs_opp (inject_Z (N - m * D) * _)). f_equiv.
      replace (N - m * D) with (N + - (m * D)) by lia. rewrite inject_Z_plus, inject_Z_opp, inject_Z_mult.
      transitivity (inject_Z m * Q2 (e - 52) * inject_Z b * inject_Z D - Q2 (e - 52) * (inject_Z N * inject_Z b))%Q; [|ring].
      rewrite HS. transitivity (inject_Z m * Q2 (e - 52) * inject_Z b * inject_Z D - (Q2 s * Q2 (e - 52)) * inject_Z a * inject_Z D)%Q; [rewrite Hinv|]; ring. }
    rewrite <- Qmult_assoc, E.
    setoid_replace (2 * (inject_Z (Z.abs (N - m * D)) * (Q2 (e - 52) * inject_Z b)))%Q
      with ((2 * inject_Z (Z.abs (N - m * D))) * (Q2 (e - 52) * inject_Z b))%Q using relation Qeq by ring.
    rewrite (Qmult_comm (Q2 (e - 52) * inject_Z b)). apply Qmult_le_r; [|done].
    apply Qmult_lt_0_compat; [apply Q2_pos|done].
Qed.

(** Reading back the fields of a normal double. *)
Lemma float_fields s E F :
  0 <= s <= 1 -> 0 <= E < 2048 -> 0 <= F < 2 ^ 52 ->
  let bits := s * 2 ^ 63 + (E * 2 ^ 52 + F) in
  float_mant bits = F /\ float_exp bits = E /\ float_sign bits = s.
Proof.
  intros Hs HE HF bits. unfold float_mant, float_exp, float_sign.
  change (2 ^ 52 - 1) with (Z.ones 52). change (2 ^ 11 - 1) with (Z.ones 11).
  rewrite !Z.land_ones, !Z.shiftr_div_pow2 by lia.
  assert (bits / 2 ^ 52 = s * 2048 + E) as E1.
  { symmetry. apply (Z.div_unique_pos _ _ _ F); [done|]. unfold bits.
    change (2 ^ 63) with (2048 * 2 ^ 52). lia. }
  split_and!.
  - symmetry. apply (Z.mod_unique_pos _ _ (s * 2048 + E)); [done|]. unfold bits.
    change (2 ^ 63) with (2048 * 2 ^ 52). lia.
  - rewrite E1. change (2 ^ 11) with 2048. rewrite Z.add_comm, Z_mod_plus_full. by apply Z.mod_small.
  - symmetry. apply (Z.div_unique_pos _ _ _ (E * 2 ^ 52 + F)); unfold bits;
      change (2 ^ 63) with (2048 * 2 ^ 52); change (2 ^ 52) with 4503599627370496 in *; lia.
Qed.

(** In the normal range, the double nearest to a/b, with the sign [s]. *)
Lemma nearest_bits_spec a b s :
  0 < a -> 0 < b -> 0 <= s <= 1 -> -1022 <= ratio_log2 a b <= 1000 ->
  let bits := s * 2 ^ 63 + nearest_bits a b in
  finite_float bits /\ float_sign bits = s /\
  exists v, (float_value bits == if (s =? 1)%Z then - v else v)%Q /\
    (2 * Qabs (v * inject_Z b - inject_Z a) <= Q2 (ratio_log2 a b - 52) * inject_Z b)%Q.
Proof.
  intros Ha Hb Hs He bits. destruct (significand a b Ha Hb) as [Hm Herr].
  set (e := ratio_log2 a b) in *. set (m := round_half_even _ _) in *.
  assert (exists m' e', 2 ^ 52 <= m' < 2 ^ 53 /\ -1022 <= e' <= 1001 /\
    nearest_bits a b = (e' + 1023) * 2 ^ 52 + (m' - 2 ^ 52) /\
    (inject_Z m' * Q2 (e' - 52) == inject_Z m * Q2 (e - 52))%Q) as (m' & e' & Hm' & He' & Hn & Hv).
  { unfold nearest_bits. fold e. rewrite Z.max_l by lia. fold m.
    destruct (Z.eqb_spec m (2 ^ 53)) as [E|E].
    - exists (2 ^ 52), (e + 1). rewrite Z.ltb_irrefl. destruct (Z.ltb_spec 1023 (e + 1)); [lia|].
      split_and!; try lia. rewrite E. replace (e + 1 - 52) with (1 + (e - 52)) by lia.
      rewrite Q2_add, Qmult_assoc, Q2_Z, <- inject_Z_mult by lia. done.
    - exists m, e. destruct (Z.ltb_spec m (2 ^ 52)); [lia|]. destruct (Z.ltb_spec 1023 e); [lia|].
      split_and!; try lia. done. }
  destruct (float_fields s (e' + 1023) (m' - 2 ^ 52)) as (F1 & F2 & F3); [done|lia|lia|].
  rewrite <- Hn in F1, F2, F3. fold bits in F1, F2, F3.
  split; [|split; [done|]].
  - split; [|rewrite F2; lia]. unfold bits. rewrite Hn. change (2 ^ 64) with (4096 * 2 ^ 52).
    change (2 ^ 63) with (2048 * 2 ^ 52). change (2 ^ 52) with 4503599627370496 in *. lia.
  - exists (inject_Z m' * Q2 (e' - 52))%Q. split.
    + unfold float_value. rewrite F1, F2, F3. destruct (Z.eqb_spec (e' + 1023) 0); [lia|].
      replace (m' - 2 ^ 52 + 2 ^ 52) with m' by lia. replace (e' + 1023 - 1075) with (e' - 52) by lia. done.
    + by rewrite Hv.
Qed.

(** ** Yuan to cents *)

Lemma IntPart_integer d z : (Rat d == inject_Z z)%Q -> IntPart d = int64 z.
Proof.
  intros H. unfold IntPart. f_equal. rewrite Rat_spec, Qs_inject in H. destruct (Z.le_gt_cases (exp d) 0) as [He|He].
  - rewrite (Qs_down z 0 (exp d)), Qs_eq in H by done. rewrite ival_rescale_up, H by done.
    apply Z.quot_mul. pose proof (pow10_pos (0 - exp d) ltac:(lia)). lia.
  - rewrite (Qs_down _ (exp d) 0), Qs_eq in H by lia. rewrite ival_rescale_down by lia. done.
Qed.

(** Cutting at two digits and parsing back multiplies by a hundred exactly. *)
Lemma parse_cents (neg : bool) int frac n :
  all_digits int = true -> all_digits frac = true -> int <> [] -> length frac = 2%nat ->
  digits_val (int ++ frac) = n ->
  (let! dec := must (NewFromString (number_text neg int frac)) in
   let! m := must (NewFromString "100") in
   let! p := Mul dec m in Ok (IntPart p)) = Ok (int64 (if neg then - n else n)).
Proof.
  intros Hi Hf Hne Hl Hn.
  destruct (NewFromString_number neg int frac Hi Hf Hne ltac:(lia)) as (d & E & Hwf & Hq).
  rewrite E. cbn [must go_bind].
  assert (NewFromString "100" = Ok (mkDec 100 0)) as -> by (vm_compute; reflexivity). cbn [must go_bind].
  rewrite Mul_fits by (cbn [exp mkDec]; rewrite Z.add_0_r; done). cbn [go_bind]. f_equal.
  apply IntPart_integer. rewrite Rat_mkDec. cbn [exp mkDec]. rewrite Z.add_0_r.
  change (ival (mkDec 100 0)) with 100. rewrite Hl, Hn in Hq. change (- Z.of_nat 2) with (-2) in Hq.
  rewrite <- (Z.add_0_r (exp d)), <- Qs_mul, <- Rat_spec, Hq, Qs_mul, Qs_inject.
  set (z := if neg then - n else n). change (-2 + 0) with (-2). rewrite (Qs_down z 0 (-2)) by lia. done.
Qed.

Lemma RoundBank_two_digits d :
  exists n, RoundBank d 2 = mkDec n (-2) /\ (0 <= ival d -> 0 <= n).
Proof.
  rewrite RoundBank_value by done. eexists. split; [reflexivity|]. intros Hd.
  set (b := unit_at 2 (scale_of d 2)). pose proof (unit_at_pos d 2) as Hb. fold b in Hb.
  assert (0 <= coeff_at d (scale_of d 2)) as Ha.
  { unfold coeff_at, scale_of. apply Z.mul_nonneg_nonneg; [done|]. apply Z.pow_nonneg. lia. }
  destruct (rhe_spec (coeff_at d (scale_of d 2)) b Hb) as [H _].
  set (n := round_half_even _ b) in *. fold b in H. nia.
Qed.

(** Rounding [|v|] at two digits, in cents. *)
Lemma cents_of d n :
  RoundBank d 2 = mkDec n (-2) ->
  (2 * Qabs (inject_Z n - 100 * Rat d) <= 1)%Q /\
  ((2 * Qabs (inject_Z n - 100 * Rat d) == 1)%Q -> Z.even n = true).
Proof.
  intros E.
  assert (RoundBank d 2 = mkDec (round_half_even (coeff_at d (scale_of d 2)) (unit_at 2 (scale_of d 2))) (-2)) as E2
    by (by rewrite RoundBank_value).
  rewrite E in E2. injection E2 as En.
  destruct (rhe_spec (coeff_at d (scale_of d 2)) _ (unit_at_pos d 2)) as [R1 R2]. rewrite <- En in R1, R2.
  destruct (rounded_Q d 2 n) as (Q1 & Q2' & _). cbv zeta in *. rewrite <- Q1 in R1. rewrite <- Q2' in R2.
  change (- (2)) with (-2) in *. change ((10 # 1) ^ -2)%Q with (1 # 100)%Q in *.
  assert (Rat (mkDec n (-2)) == inject_Z n * (1 # 100))%Q as ER by (rewrite Rat_mkDec; unfold Qs; done).
  rewrite ER in R1, R2.
  assert (2 * Qabs (inject_Z n - 100 * Rat d) == 100 * (2 * Qabs (inject_Z n * (1 # 100) - Rat d)))%Q as ED.
  { transitivity (2 * (Qabs 100 * Qabs (inject_Z n * (1 # 100) - Rat d)))%Q; [|change (Qabs 100) with 100%Q; ring].
    rewrite <- Qabs_Qmult. f_equiv. f_equiv. field. }
  rewrite ED. split; [lra|]. intros H. apply R2. lra.
Qed.

Lemma ival_Abs d : ival (Abs d) = Z.abs (ival d).
Proof. done. Qed.

Lemma YuanToCent_value bits d n :
  NewFromFloat bits = Ok d -> RoundBank (Abs d) 2 = mkDec n (-2) ->
  YuanToCent bits = Ok (int64 (if float_sign bits =? 1 then - n else n)).
Proof.
  intros Hd Hn. unfold YuanToCent, Sprintf_2f. rewrite Hd. cbn [go_bind].
  destruct (RoundBank_two_digits (Abs d)) as (n' & E & Hpos). rewrite Hn in E. injection E as <-.
  rewrite ival_Abs in Hpos. specialize (Hpos ltac:(lia)).
  unfold StringFixedBank. rewrite Hn.
  destruct (string_shape n (-2) false ltac:(lia)) as (int & frac & k & -> & Hi & Hf & Hne & Hl & Hv & Hk).
  specialize (Hk eq_refl). subst k. cbn [go_bind]. destruct (Z.ltb_spec n 0); [lia|].
  simpl Z.of_nat in Hl, Hv. rewrite Z.pow_0_r, Z.mul_1_r, Z.abs_eq in Hv by done.
  assert (length frac = 2%nat) as Hl2 by lia.
  pose proof (parse_cents (float_sign bits =? 1) int frac n Hi Hf Hne Hl2 Hv) as HP.
  destruct (float_sign bits =? 1); exact HP.
Qed.

(** A finite float as a decimal, with the sign of its value. *)
Lemma float_decimal bits :
  finite_float bits ->
  exists d, NewFromFloat bits = Ok d /\ (Rat d == float_value bits)%Q /\
    (if float_sign bits =? 1 then (float_value bits <= 0)%Q else (0 <= float_value bits)%Q).
Proof.
  intros Hf. destruct (NewFromFloat_value bits Hf) as (d & E & _ & Hq & _). exists d. split; [done|]. split; [done|].
  unfold float_value. set (m := if float_exp bits =? 0 then _ else _).
  assert (0 <= inject_Z m * Q2 ((if float_exp bits =? 0 then 1 else float_exp bits) - 1075))%Q as Hnn.
  { apply Qmult_le_0_compat; [|apply Qlt_le_weak, Q2_pos]. change 0%Q with (inject_Z 0). rewrite <- Zle_Qle.
    pose proof (float_mant_range bits). unfold m. destruct (float_exp bits =? 0); lia. }
  unfold Q2 in Hnn. destruct (float_sign bits =? 1); lra.
Qed.

(** [YuanToCent] returns the integer number of cents nearest to the amount, the
    even one when two are equally near, wrapped to an int64. *)
Theorem YuanToCent_nearest bits (Hf : finite_float bits) :
  exists z, YuanToCent bits = Ok (int64 z) /\
    (2 * Qabs (inject_Z z - 100 * float_value bits) <= 1)%Q /\
    ((2 * Qabs (inject_Z z - 100 * float_value bits) == 1)%Q -> Z.even z = true).
Proof.
  destruct (float_decimal bits Hf) as (d & Hd & Hq & Hs).
  destruct (RoundBank_two_digits (Abs d)) as (n & Hn & _).
  destruct (cents_of (Abs d) n Hn) as [C1 C2].
  exists (if float_sign bits =? 1 then - n else n). split; [by apply (YuanToCent_value bits d)|].
  assert (Qabs (inject_Z (if float_sign bits =? 1 then - n else n) - 100 * float_value bits) ==
          Qabs (inject_Z n - 100 * Rat (Abs d)))%Q as ->.
  { rewrite Rat_Abs, Hq. destruct (float_sign bits =? 1).
    - rewrite inject_Z_opp, (Qabs_neg (float_value bits)) by done.
      rewrite <- (Qabs_opp (inject_Z n - _)). f_equiv. ring.
    - by rewrite (Qabs_pos (float_value bits)) by done. }
  split; [done|]. intros H. specialize (C2 H). destruct (float_sign bits =? 1); [by rewrite Z.even_opp|done].
Qed.

(** ** Cents to yuan and back *)

Lemma CentToYuan_value c :
  Z.abs c <= 10 ^ 15 -> CentToYuan c = Ok (Float64 (mkDec c (-2))).1.
Proof.
  intros Hc. unfold CentToYuan.
  assert (forall z, 0 <= z \/ z < 0 -> NewFromString (FormatInt z) = Ok (mkDec z 0)) as HN.
  { intros z Hz. rewrite FormatInt_number by done.
    unfold NewFromString, split_exponent.
    assert (number_chars (number_text (z <? 0) (FormatUint (Z.abs z)) [])) as Hch
      by (apply number_text_chars; [apply FormatUint_digits; lia|done]).
    rewrite number_no_exponent by done. cbn [go_bind].
    rewrite Split_notin.
    - cbn [go_bind]. unfold number_text. rewrite app_nil_r, SetString10_sign;
        [|apply FormatUint_digits; lia|apply FormatUint_not_nil; lia].
      rewrite FormatUint_val by lia. simpl. do 2 f_equal. destruct (Z.ltb_spec z 0); lia.
    - unfold number_text. rewrite app_nil_r, elem_of_app. intros [Hin|Hin].
      + destruct (z <? 0); [apply list_elem_of_singleton in Hin; done|by apply elem_of_nil in Hin].
      + revert Hin. apply digits_no_dot, FormatUint_digits. lia. }
  rewrite !HN by lia. cbn [must go_bind]. unfold Div. rewrite DivisionPrecision_16.
  rewrite DivRound_value by done. cbn [go_bind].
  unfold div_num, div_den. change (ival (mkDec c 0)) with c. change (ival (mkDec 100 0)) with 100. cbn [exp mkDec].
  change (Z.max 0 (0 - 0 + 16)) with 16. change (100 * 10 ^ Z.max 0 (- (0 - 0 + 16))) with 100.
  change (Z.sgn 100) with 1. change (Z.abs 100) with 100. rewrite Z.mul_1_l.
  replace (c * 10 ^ 16) with (c * 10 ^ 14 * 100) by (change (10 ^ 16) with (10 ^ 14 * 100); ring).
  rewrite rha_exact by done. change (Z.opp 16) with (-16).
  do 3 f_equal. rewrite Round_value by done. unfold coeff_at, unit_at, scale_of. cbn [exp mkDec].
  change (Z.min (-16) (- (2))) with (-16). change (ival (mkDec (c * 10 ^ 14) (-16))) with (c * 10 ^ 14).
  change (10 ^ (-16 - -16)) with 1. change (10 ^ (- (2) - -16)) with (10 ^ 14).
  rewrite Z.mul_1_r, rha_exact by done. done.
Qed.

Lemma Rat_cents c : (Rat (mkDec c (-2)) == inject_Z c * (1 # 100))%Q.
Proof. rewrite Rat_mkDec. done. Qed.

(** The double nearest to c/100, for a positive number of cents. *)
Lemma cents_float c s :
  0 < c <= 10 ^ 15 -> 0 <= s <= 1 ->
  let q := Rat (mkDec c (-2)) in
  let bits := s * 2 ^ 63 + nearest_bits (Qnum q) (Zpos (Qden q)) in
  finite_float bits /\ float_sign bits = s /\
  (2 * Qabs (inject_Z c - 100 * Qabs (float_value bits)) < 1)%Q.
Proof.
  intros Hc Hs q bits. set (a := Qnum q) in *. set (b := Zpos (Qden q)) in *.
  assert (0 < b) as Hb by (unfold b; lia).
  pose proof (inject_pos b Hb) as Hbq.
  assert (inject_Z a == inject_Z c * (1 # 100) * inject_Z b)%Q as Hab.
  { pose proof (Rat_cents c) as E. fold q in E. rewrite <- E. unfold a, b.
    destruct q as [qn qd]. simpl. rewrite (Qmake_Qdiv qn qd). field. discriminate. }
  assert (0 < inject_Z c)%Q as Hcq by (apply inject_pos; lia).
  assert (0 < a) as Ha.
  { rewrite Zlt_Qlt. change (inject_Z 0) with 0%Q. rewrite Hab.
    apply Qmult_lt_0_compat; [apply Qmult_lt_0_compat; [done|reflexivity]|done]. }
  destruct (ratio_log2_spec a b Ha Hb) as [L1 L2]. set (e := ratio_log2 a b) in *.
  assert (Q2 e <= inject_Z c * (1 # 100))%Q as U1.
  { apply (Qmult_le_r _ _ (inject_Z b)); [done|]. rewrite <- Hab, Qmult_comm. done. }
  assert (inject_Z c * (1 # 100) < Q2 (e + 1))%Q as U2.
  { apply (Qmult_lt_r _ _ (inject_Z b)); [done|]. rewrite <- Hab, (Qmult_comm (Q2 _)). done. }
  assert (inject_Z c <= inject_Z (10 ^ 15))%Q as U3 by (rewrite <- Zle_Qle; lia).
  assert (1 <= inject_Z c)%Q as U4 by (change 1%Q with (inject_Z 1); rewrite <- Zle_Qle; lia).
  change (inject_Z (10 ^ 15)) with (1000000000000000 # 1)%Q in U3.
  assert (e <= 43) as He1.
  { apply Z.lt_succ_r. destruct (Z.lt_ge_cases e (Z.succ 43)) as [|Hge]; [done|exfalso].
    assert (Q2 44 <= Q2 e)%Q as Hq by (destruct (Z.eq_dec e 44) as [->|]; [apply Qle_refl|apply Qlt_le_weak, Q2_lt; lia]).
    change (Q2 44) with (17592186044416 # 1)%Q in Hq. lra. }
  assert (-8 <= e) as He2.
  { destruct (Z.le_gt_cases (-8) e) as [|Hgt]; [done|exfalso].
    assert (Q2 (e + 1) <= Q2 (-8))%Q as Hq
      by (destruct (Z.eq_dec (e + 1) (-8)) as [->|]; [apply Qle_refl|apply Qlt_le_weak, Q2_lt; lia]).
    change (Q2 (-8)) with (1 # 256)%Q in Hq. lra. }
  destruct (nearest_bits_spec a b s Ha Hb Hs ltac:(fold e; lia)) as (Hf & Hsg & v & Hv & Herr).
  fold bits in Hf, Hsg, Hv. fold e in Herr. split; [done|]. split; [done|].
  assert (2 * Qabs (v - inject_Z c * (1 # 100)) <= Q2 (e - 52))%Q as Herr2.
  { apply (Qmult_le_r _ _ (inject_Z b)); [done|]. eapply Qle_trans; [|exact Herr].
    rewrite <- Qmult_assoc. rewrite <- (Qabs_pos (inject_Z b)) at 1 by by apply Qlt_le_weak.
    rewrite <- Qabs_Qmult. apply Qmult_le_l; [reflexivity|]. rewrite Hab.
    apply Qle_lteq. right. f_equiv. ring. }
  assert (Q2 (e - 52) <= Q2 (-9))%Q as Hsm.
  { destruct (Z.eq_dec (e - 52) (-9)) as [->|]; [apply Qle_refl|apply Qlt_le_weak, Q2_lt; lia]. }
  change (Q2 (-9)) with (1 # 512)%Q in Hsm.
  assert (Qabs (float_value bits) == Qabs v)%Q as -> by (rewrite Hv; destruct (s =? 1); [apply Qabs_opp|done]).
  assert (- (1 # 1024) <= v - inject_Z c * (1 # 100) <= 1 # 1024)%Q as [V1 V2] by (apply Qabs_Qle_condition; lra).
  rewrite (Qabs_pos v) by lra.
  assert (Qabs (inject_Z c - 100 * v) <= 100 # 1024)%Q as Hfin by (apply Qabs_Qle_condition; split; lra).
  lra.
Qed.

Lemma cents_float_num c : 0 < c -> 0 < Qnum (Rat (mkDec c (-2))).
Proof.
  intros Hc. pose proof (Rat_cents c) as E. assert (0 < Rat (mkDec c (-2)))%Q as H.
  { rewrite E. apply Qmult_lt_0_compat; [by apply inject_pos|reflexivity]. }
  unfold Qlt in H. simpl in H. lia.
Qed.

(** An amount of at most 10^15 cents survives the conversion to a float in yuan
    and back. *)
Theorem cents_roundtrip c (Hc : Z.abs c <= 10 ^ 15) :
  (let! yuan := CentToYuan c in YuanToCent yuan) = Ok c.
Proof.
  rewrite CentToYuan_value by done. cbn [go_bind Float64 fst].
  destruct (Z.eq_dec c 0) as [->|Hnz]; [vm_compute; reflexivity|].
  set (n := Z.abs c). set (s := if c <? 0 then 1 else 0).
  assert (0 < n <= 10 ^ 15) as Hn by lia. assert (0 <= s <= 1) as Hs by (unfold s; destruct (c <? 0); lia).
  assert (rat_float64 (Rat (mkDec c (-2))) =
          s * 2 ^ 63 + nearest_bits (Qnum (Rat (mkDec n (-2)))) (Zpos (Qden (Rat (mkDec n (-2)))))) as ->.
  { unfold rat_float64, s, n. destruct (Z.ltb_spec c 0) as [Hneg|Hpos].
    - assert (Rat (mkDec c (-2)) = Qopp (Rat (mkDec (Z.abs c) (-2)))) as ->.
      { rewrite Z.abs_neq by lia. unfold Rat. cbn [exp mkDec]. change (-2 <=? 0) with true. cbv iota.
        change (ival (mkDec ?x _)) with x. rewrite <- Qred_opp. unfold Qopp. simpl Qnum. simpl Qden.
        by rewrite Z.opp_involutive. }
      pose proof (cents_float_num (Z.abs c) ltac:(lia)) as Hnum. simpl Qnum. simpl Qden.
      destruct (Z.eqb_spec (- Qnum (Rat (mkDec (Z.abs c) (-2)))) 0); [lia|].
      destruct (Z.ltb_spec (- Qnum (Rat (mkDec (Z.abs c) (-2)))) 0); [|lia].
      rewrite Z.opp_involutive. lia.
    - rewrite Z.abs_eq by lia. pose proof (cents_float_num c ltac:(lia)) as Hnum.
      destruct (Z.eqb_spec (Qnum (Rat (mkDec c (-2)))) 0); [lia|].
      destruct (Z.ltb_spec (Qnum (Rat (mkDec c (-2)))) 0); [lia|]. lia. }
  destruct (cents_float n s Hn Hs) as (Hf & Hsg & Hd). set (bits := s * 2 ^ 63 + _) in *.
  destruct (float_decimal bits Hf) as (d & Hd1 & Hq & _).
  destruct (RoundBank_two_digits (Abs d)) as (k & Hk & _).
  destruct (cents_of (Abs d) k Hk) as [C1 _]. rewrite Rat_Abs, Hq in C1.
  assert (k = n) as ->.
  { set (x := (100 * Qabs (float_value bits))%Q) in *.
    assert (Qabs (inject_Z k - inject_Z n) < 1)%Q as Hlt.
    { setoid_replace (inject_Z k - inject_Z n)%Q with ((inject_Z k - x) + - (inject_Z n - x))%Q using relation Qeq by ring.
      eapply Qle_lt_trans; [apply Qabs_triangle|]. rewrite Qabs_opp. lra. }
    assert (Qabs (inject_Z k - inject_Z n) == inject_Z (Z.abs (k - n)))%Q as E.
    { change (inject_Z (Z.abs (k - n))) with (Qabs (inject_Z (k - n))). f_equiv.
      replace (k - n) with (k + - n) by lia. by rewrite inject_Z_plus, inject_Z_opp. }
    rewrite E in Hlt. change 1%Q with (inject_Z 1) in Hlt. rewrite <- Zlt_Qlt in Hlt. lia. }
  rewrite (YuanToCent_value bits d n Hd1 Hk), Hsg. f_equal. rewrite int64_small; unfold s, n.
  - destruct (Z.ltb_spec c 0); simpl; lia.
  - unfold in_int64. change (10 ^ 15) with 1000000000000000 in *. destruct (Z.ltb_spec c 0); simpl; lia.
Qed.

Lemma YuanToCent_nearest_witness :
  finite_float 4591870180066957722 /\ exists z, YuanToCent 4591870180066957722 = Ok (int64 z) /\ int64 z = 10.
Proof.
  assert (finite_float 4591870180066957722) as Hf by (split; [lia|vm_compute; discriminate]).
  split; [exact Hf|]. destruct (YuanToCent_nearest 4591870180066957722 Hf) as (z & E & _).
  exists z. split; [exact E|].
  assert (YuanToCent 4591870180066957722 = Ok 10) as E10 by (vm_compute; reflexivity).
  rewrite E10 in E. by injection E as <-.
Defined.

Lemma cents_roundtrip_witness : (let! yuan := CentToYuan (-1999) in YuanToCent yuan) = Ok (-1999).
Proof. apply cents_roundtrip. vm_compute. discriminate. Defined.
