(* ===== verification/KeyLock.v ===== *)
(** * KeyLock: the per-key locks of [pkg/keylock/keylock.go]

    Each critical section under the map's mutex, each atomic counter update and
    each operation of an inner mutex is one step; the steps of any number of
    threads interleave freely.  A cleaning pass is a sequence of steps, one per
    key, which may interleave with everything else. *)
From S2P Require Import Prelude GoStr.

#[global] Open Scope Z_scope.
#[global] Open Scope go_scope.

(** ** State *)

Record innerLock := mkInner { count : Z; held : bool }.

Definition newInnerLock : innerLock := mkInner 0 false.

(** Inner locks live in a heap, since threads keep pointers to them; [locks] is
    the map from keys to pointers. *)
Record KeyLock := mkKeyLock {
  locks : gmap gostring nat;
  heap : gmap nat innerLock;
  next : nat;
  stopChan_closed : bool
}.

Definition NewKeyLock : KeyLock := mkKeyLock ∅ ∅ O false.

Definition set_inner (l : KeyLock) (r : nat) (f : innerLock -> innerLock) : KeyLock :=
  mkKeyLock (locks l) (alter f r (heap l)) (next l) (stopChan_closed l).

(** [add] and [done] of an inner lock. *)
Definition add (il : innerLock) : innerLock := mkInner (count il + 1) (held il).
Definition done_ (il : innerLock) : innerLock := mkInner (count il - 1) (held il).

(** The section of [Lock] under the mutex: find or create the inner lock of the
    key, and count the caller. *)
Definition Lock_enter (l : KeyLock) (key : gostring) : nat * KeyLock :=
  let '(keyLock, l) :=
    match locks l !! key with
    | Some r => (r, l)
    | None =>
      let r := next l in
      (r, mkKeyLock (<[key := r]> (locks l)) (<[r := newInnerLock]> (heap l)) (S r) (stopChan_closed l))
    end in
  (keyLock, set_inner l keyLock add).

(** [keyLock.Lock()]: possible only while the inner mutex is free. *)
Definition Lock_acquire (l : KeyLock) (r : nat) : option KeyLock :=
  match heap l !! r with
  | Some il => if held il then None else Some (set_inner l r (fun il => mkInner (count il) true))
  | None => None
  end.

(** The section of [Unlock] under the mutex. *)
Definition Unlock_lookup (l : KeyLock) (key : gostring) : option nat := locks l !! key.

Definition Unlock_done (l : KeyLock) (r : nat) : KeyLock := set_inner l r done_.
Definition Unlock_release (l : KeyLock) (r : nat) : KeyLock :=
  set_inner l r (fun il => mkInner (count il) false).

(** One iteration of [Clean]: remove the key if nobody is counted on its lock. *)
Definition Clean_key (l : KeyLock) (key : gostring) : KeyLock :=
  match locks l !! key with
  | Some r =>
    match heap l !! r with
    | Some il => if count il =? 0
                 then mkKeyLock (delete key (locks l)) (heap l) (next l) (stopChan_closed l) else l
    | None => l
    end
  | None => l
  end.

(** A whole pass, over the keys in the order of the map iteration. *)
Definition Clean (l : KeyLock) : KeyLock :=
  fold_left Clean_key (map_to_list (locks l)).*1 l.

(** [StopCleanLoop]: closing a closed channel panics. *)
Definition StopCleanLoop (l : KeyLock) : go gostring KeyLock :=
  if stopChan_closed l then Panicked "close of closed channel"
  else Ok (mkKeyLock (locks l) (heap l) (next l) true).

(** The cases that fire in the background loop, in order: it cleans on every tick
    until it sees the stop. *)
Inductive clean_event := Tick | Stopped.

Fixpoint cleanLoop (events : list clean_event) (l : KeyLock) : KeyLock :=
  match events with
  | Tick :: events' => cleanLoop events' (Clean l)
  | Stopped :: _ => l
  | [] => l
  end.

(** ** Threads *)

Inductive pc :=
| Idle
| Waiting (key : gostring) (r : nat)       (** counted, before the inner [Lock] *)
| Holding (key : gostring) (r : nat)       (** between [Lock] and [Unlock] *)
| Unlocking (key : gostring) (r : nat)     (** in [Unlock], after the lookup *)
| Releasing (key : gostring) (r : nat).    (** in [Unlock], after [done] *)

Record system := mkSystem { klock : KeyLock; threads : list pc }.

Definition set_pc (s : system) (l : KeyLock) (i : nat) (p : pc) : system :=
  mkSystem l (<[i := p]> (threads s)).

Inductive step : system -> system -> Prop :=
| step_enter s i key r l :
    threads s !! i = Some Idle -> Lock_enter (klock s) key = (r, l) ->
    step s (set_pc s l i (Waiting key r))
| step_acquire s i key r l :
    threads s !! i = Some (Waiting key r) -> Lock_acquire (klock s) r = Some l ->
    step s (set_pc s l i (Holding key r))
| step_lookup s i key r r' :
    threads s !! i = Some (Holding key r) -> Unlock_lookup (klock s) key = Some r' ->
    step s (set_pc s (klock s) i (Unlocking key r'))
| step_lookup_gone s i key r :
    threads s !! i = Some (Holding key r) -> Unlock_lookup (klock s) key = None ->
    step s (set_pc s (klock s) i Idle)
| step_done s i key r :
    threads s !! i = Some (Unlocking key r) ->
    step s (set_pc s (Unlock_done (klock s) r) i (Releasing key r))
| step_release s i key r :
    threads s !! i = Some (Releasing key r) ->
    step s (set_pc s (Unlock_release (klock s) r) i Idle)
| step_clean s key :
    step s (mkSystem (Clean_key (klock s) key) (threads s)).

Definition init (s : system) : Prop := klock s = NewKeyLock /\ Forall (fun p => p = Idle) (threads s).

(** ** The invariant *)

(** The threads that the counter of [r] counts, and those that own its mutex. *)
Definition counted (r : nat) (p : pc) : bool :=
  match p with
  | Waiting _ r' | Holding _ r' | Unlocking _ r' => bool_decide (r = r')
  | _ => false
  end.

Definition owner (r : nat) (p : pc) : bool :=
  match p with
  | Holding _ r' | Unlocking _ r' | Releasing _ r' => bool_decide (r = r')
  | _ => false
  end.

(** The key and the lock of a thread that is counted. *)
Definition counted_on (p : pc) : option (gostring * nat) :=
  match p with
  | Waiting k r | Holding k r | Unlocking k r => Some (k, r)
  | _ => None
  end.

Record inv (s : system) : Prop := mkInv {
  inv_counted : forall i p k r, threads s !! i = Some p -> counted_on p = Some (k, r) ->
                locks (klock s) !! k = Some r;
  inv_lt : forall k r, locks (klock s) !! k = Some r -> (r < next (klock s))%nat;
  inv_dom : forall r, is_Some (heap (klock s) !! r) <-> (r < next (klock s))%nat;
  inv_count : forall r il, heap (klock s) !! r = Some il -> count il = count_if (counted r) (threads s);
  inv_owner : forall r il, heap (klock s) !! r = Some il ->
                count_if (owner r) (threads s) = if held il then 1 else 0;
  inv_fresh : forall r, (next (klock s) <= r)%nat ->
                count_if (counted r) (threads s) = 0 /\ count_if (owner r) (threads s) = 0;
  inv_inj : forall k1 k2 r, locks (klock s) !! k1 = Some r -> locks (klock s) !! k2 = Some r -> k1 = k2
}.

Lemma inv_init s : init s -> inv s.
Proof.
  intros [Hk Hidle].
  assert (forall i p, threads s !! i = Some p -> p = Idle) as Hall
    by (intros i p Hp; exact (Forall_lookup_of _ _ _ _ Hidle Hp)).
  split; rewrite ?Hk; cbn [locks heap next NewKeyLock].
  - intros i p k r Hp Hc. apply Hall in Hp as ->. done.
  - intros k r H. by rewrite lookup_empty in H.
  - intros r. rewrite lookup_empty. split; [by intros [? ?]|lia].
  - intros r il H. by rewrite lookup_empty in H.
  - intros r il H. by rewrite lookup_empty in H.
  - intros r _. split; apply count_if_zero; intros i p Hp; by apply Hall in Hp as ->.
  - intros k1 k2 r H. by rewrite lookup_empty in H.
Qed.

Lemma counted_true r p : counted r p = true <-> exists k, counted_on p = Some (k, r).
Proof.
  destruct p as [|k r'|k r'|k r'|k r']; simpl; rewrite ?bool_decide_eq_true; naive_solver.
Qed.

(** A step that changes one thread, the inner lock of one [r], and no map entry. *)
Lemma inv_set_pc s i p p' r f :
  inv s -> threads s !! i = Some p -> (r < next (klock s))%nat ->
  (forall k r', counted_on p' = Some (k, r') -> locks (klock s) !! k = Some r') ->
  (forall r', r' <> r -> counted r' p = counted r' p' /\ owner r' p = owner r' p') ->
  (forall il, heap (klock s) !! r = Some il ->
     count (f il) = count il - (if counted r p then 1 else 0) + (if counted r p' then 1 else 0) /\
     (if held (f il) then 1 else 0) =
       (if held il then 1 else 0) - (if owner r p then 1 else 0) + (if owner r p' then 1 else 0)) ->
  inv (set_pc s (set_inner (klock s) r f) i p').
Proof.
  intros [I1 I2 I3 I4 I5 I6 I7] Hp Hr Hmap Hother Hf.
  assert (forall r' (Q : nat -> pc -> bool), count_if (Q r') (<[i:=p']> (threads s)) =
    count_if (Q r') (threads s) - (if Q r' p then 1 else 0) + (if Q r' p' then 1 else 0)) as Hcnt
    by (intros; by apply count_if_insert).
  split; cbn [klock threads set_pc set_inner locks heap next].
  - intros j q k r' Hq Hc. destruct (decide (i = j)) as [<-|Hij].
    + rewrite list_lookup_insert_eq in Hq by by eapply lookup_lt_Some. injection Hq as <-. by apply Hmap.
    + rewrite list_lookup_insert_ne in Hq by done. by eapply I1.
  - done.
  - intros r'. rewrite <- I3. destruct (decide (r = r')) as [<-|].
    + rewrite lookup_alter_eq. by rewrite fmap_is_Some.
    + by rewrite lookup_alter_ne.
  - intros r' il Hil. rewrite Hcnt. destruct (decide (r = r')) as [<-|Hne].
    + rewrite lookup_alter_eq in Hil. destruct (heap (klock s) !! r) as [il0|] eqn:E; [|done].
      injection Hil as <-. rewrite (proj1 (Hf il0 eq_refl)), (I4 r il0 E). done.
    + rewrite lookup_alter_ne in Hil by done. rewrite (I4 r' il Hil).
      destruct (Hother r' ltac:(done)) as [-> _]. lia.
  - intros r' il Hil. rewrite Hcnt. destruct (decide (r = r')) as [<-|Hne].
    + rewrite lookup_alter_eq in Hil. destruct (heap (klock s) !! r) as [il0|] eqn:E; [|done].
      injection Hil as <-. rewrite (proj2 (Hf il0 eq_refl)), (I5 r il0 E). done.
    + rewrite lookup_alter_ne in Hil by done. rewrite (I5 r' il Hil).
      destruct (Hother r' ltac:(done)) as [_ ->]. lia.
  - intros r' Hr'. rewrite !Hcnt. destruct (I6 r' Hr') as [-> ->].
    destruct (Hother r' ltac:(lia)) as [-> ->]. lia.
  - done.
Qed.

Lemma inv_enter s i key r l :
  inv s -> threads s !! i = Some Idle -> Lock_enter (klock s) key = (r, l) ->
  inv (set_pc s l i (Waiting key r)).
Proof.
  intros HI Hp HL. unfold Lock_enter in HL. destruct (locks (klock s) !! key) as [r0|] eqn:E.
  - injection HL as <- <-. eapply (inv_set_pc s i Idle); [done|done|by eapply inv_lt| | |].
    + intros k r' [= <- <-]. done.
    + intros r' Hne. simpl. by rewrite bool_decide_eq_false_2.
    + intros il Hil. simpl. rewrite bool_decide_eq_true_2 by done. lia.
  - injection HL as <- <-. set (r0 := next (klock s)).
    set (s1 := mkSystem (mkKeyLock (<[key:=r0]> (locks (klock s))) (<[r0:=newInnerLock]> (heap (klock s)))
                                   (S r0) (stopChan_closed (klock s))) (threads s)).
    assert (inv s1) as HI1.
    { destruct HI as [I1 I2 I3 I4 I5 I6 I7].
      assert (heap (klock s) !! r0 = None) as Hfresh.
      { destruct (heap (klock s) !! r0) eqn:Eh; [|done]. assert (is_Some (heap (klock s) !! r0)) as Hs by by rewrite Eh.
        apply I3 in Hs. unfold r0 in Hs. lia. }
      split; cbn [s1 klock threads locks heap next].
      - intros j q k r' Hq Hc. destruct (decide (key = k)) as [<-|].
        + pose proof (I1 _ _ _ _ Hq Hc). congruence.
        + rewrite lookup_insert_ne by done. by eapply I1.
      - intros k r' H. destruct (decide (key = k)) as [<-|].
        + rewrite lookup_insert_eq in H. injection H as <-. lia.
        + rewrite lookup_insert_ne in H by done. apply I2 in H. unfold r0. lia.
      - intros r'. destruct (decide (r0 = r')) as [<-|].
        + rewrite lookup_insert_eq. split; [lia|done].
        + rewrite lookup_insert_ne by done. rewrite I3. unfold r0. unfold r0 in *. lia.
      - intros r' il H. destruct (decide (r0 = r')) as [<-|].
        + rewrite lookup_insert_eq in H. injection H as <-. symmetry. apply (I6 r0). done.
        + rewrite lookup_insert_ne in H by done. by apply I4.
      - intros r' il H. destruct (decide (r0 = r')) as [<-|].
        + rewrite lookup_insert_eq in H. injection H as <-. apply (I6 r0). done.
        + rewrite lookup_insert_ne in H by done. by apply I5.
      - intros r' Hr'. apply I6. unfold r0 in Hr'. lia.
      - intros k1 k2 r' H1 H2. apply lookup_insert_Some in H1 as [[<- <-]|[Hk1 H1]], H2 as [[<- H2]|[Hk2 H2]]; [done|..].
        + apply I2 in H2. unfold r0 in H2. lia.
        + subst r'. apply I2 in H1. unfold r0 in H1. lia.
        + by eapply I7. }
    apply (inv_set_pc s1 i Idle (Waiting key r0) r0 add); cbn [s1 klock threads locks heap next]; try done.
    + lia.
    + intros k r' [= <- <-]. by rewrite lookup_insert_eq.
    + intros r' Hne. simpl. by rewrite bool_decide_eq_false_2.
    + intros il Hil. simpl. rewrite bool_decide_eq_true_2 by done. lia.
Qed.

Lemma inv_clean s key : inv s -> inv (mkSystem (Clean_key (klock s) key) (threads s)).
Proof.
  intros HI. unfold Clean_key. destruct (locks (klock s) !! key) as [r|] eqn:E; [|by destruct s].
  destruct (heap (klock s) !! r) as [il|] eqn:Eh; [|by destruct s].
  destruct (Z.eqb_spec (count il) 0) as [Hc|]; [|by destruct s].
  destruct HI as [I1 I2 I3 I4 I5 I6 I7]. split; cbn [klock threads locks heap next]; try done.
  - intros j q k r' Hq Hc'. pose proof (I1 _ _ _ _ Hq Hc') as Hk.
    destruct (decide (key = k)) as [<-|]; [|by rewrite lookup_delete_ne].
    assert (r' = r) as -> by congruence. rewrite (I4 r il Eh) in Hc. rewrite count_if_zero in Hc.
    specialize (Hc j q Hq). assert (counted r q = true) as Ht by (apply counted_true; eauto). congruence.
  - intros k r' H. apply lookup_delete_Some in H as [_ H]. by eapply I2.
  - intros k1 k2 r' H1 H2. apply lookup_delete_Some in H1 as [_ H1], H2 as [_ H2]. by eapply I7.
Qed.

Lemma inv_step s s' : inv s -> step s s' -> inv s'.
Proof.
  intros HI Hs. destruct Hs as [s i key r l Hp HL|s i key r l Hp HL|s i key r r' Hp HL|s i key r Hp HL
    |s i key r Hp|s i key r Hp|s key].
  - by eapply inv_enter.
  - unfold Lock_acquire in HL. destruct (heap (klock s) !! r) as [il|] eqn:Eh; [|done].
    destruct (held il) eqn:Ehd; [done|]. injection HL as <-.
    assert (locks (klock s) !! key = Some r) as Hk by (by eapply inv_counted).
    apply (inv_set_pc s i (Waiting key r)); try done; [by eapply inv_lt|by intros k r' [= <- <-]| |].
    + intros r' Hne. simpl. by rewrite bool_decide_eq_false_2.
    + intros il' Hil'. simplify_eq. simpl. rewrite Ehd, !bool_decide_eq_true_2 by done. lia.
  - assert (locks (klock s) !! key = Some r) as Hk by (by eapply inv_counted).
    unfold Unlock_lookup in HL. rewrite Hk in HL. injection HL as <-.
    assert (set_inner (klock s) r id = klock s) as <-.
    { unfold set_inner. destruct (klock s) as [L H n b]. cbn. f_equal. apply map_eq. intros j.
      destruct (decide (r = j)) as [<-|]; [rewrite lookup_alter_eq; by destruct (H !! r)|by rewrite lookup_alter_ne]. }
    apply (inv_set_pc s i (Holding key r)); try done; [by eapply inv_lt|by intros k r' [= <- <-]|].
    intros il' Hil'. unfold id. simpl. rewrite bool_decide_eq_true_2 by done. lia.
  - assert (locks (klock s) !! key = Some r) as Hk by (by eapply inv_counted).
    unfold Unlock_lookup in HL. congruence.
  - assert (locks (klock s) !! key = Some r) as Hk by (by eapply inv_counted).
    apply (inv_set_pc s i (Unlocking key r)); try done; [by eapply inv_lt| |].
    + intros r' Hne. simpl. by rewrite bool_decide_eq_false_2.
    + intros il' Hil'. simpl. rewrite bool_decide_eq_true_2 by done. lia.
  - apply (inv_set_pc s i (Releasing key r)); try done.
    + destruct (le_lt_dec (next (klock s)) r) as [Hge|]; [|done].
      destruct (inv_fresh s HI r Hge) as [_ Ho]. rewrite count_if_zero in Ho. specialize (Ho i _ Hp).
      simpl in Ho. by rewrite bool_decide_eq_true_2 in Ho.
    + intros r' Hne. simpl. by rewrite bool_decide_eq_false_2.
    + intros il' Hil'. simpl. rewrite bool_decide_eq_true_2 by done.
      pose proof (inv_owner s HI r il' Hil') as Ho.
      assert (1 <= count_if (owner r) (threads s)) as H1.
      { eapply count_if_pos; [exact Hp|]. simpl. by rewrite bool_decide_eq_true_2. }
      destruct (held il'); lia.
  - by apply inv_clean.
Qed.

Lemma reachable_inv s : reachable init step s -> inv s.
Proof. apply reachable_invariant; [apply inv_init|apply inv_step]. Qed.

(** ** What the lock guarantees *)

(** C7 Two threads never hold the lock of one key at the same time, whatever the
    interleaving of locks, unlocks and cleaning passes. *)
Theorem KeyLock_mutual_exclusion s i j key ri rj (Hs : reachable init step s)
  (Hi : threads s !! i = Some (Holding key ri)) (Hj : threads s !! j = Some (Holding key rj)) : i = j.
Proof.
  pose proof (reachable_inv s Hs) as HI. destruct (decide (i = j)) as [Heq|Hne]; [exact Heq|exfalso].
  pose proof (inv_counted s HI i _ key ri Hi eq_refl) as E1.
  pose proof (inv_counted s HI j _ key rj Hj eq_refl) as E2.
  assert (rj = ri) as -> by congruence.
  assert (2 <= count_if (owner ri) (threads s)) as H2.
  { eapply (count_if_two (owner ri) (threads s) i j _ _ Hi Hj Hne); simpl; by apply bool_decide_eq_true_2. }
  destruct (inv_dom s HI ri) as [_ Hd]. destruct Hd as [il Hil]; [by eapply inv_lt|].
  pose proof (inv_owner s HI ri il Hil). destruct (held il); lia.
Qed.

(** C25 A thread that waits for a key can take its lock as soon as no other thread
    owns it; a thread that leaves never finds its lock gone; and threads that use
    different keys use different inner locks. *)
Theorem KeyLock_progress s i key r (Hs : reachable init step s) :
  (threads s !! i = Some (Waiting key r) ->
     (exists l, Lock_acquire (klock s) r = Some l) \/
     (exists j p, threads s !! j = Some p /\ owner r p = true)) /\
  (threads s !! i = Some (Holding key r) -> Unlock_lookup (klock s) key = Some r) /\
  (forall j key' r', threads s !! i = Some (Holding key r) -> threads s !! j = Some (Holding key' r') ->
     key <> key' -> r <> r').
Proof.
  pose proof (reachable_inv s Hs) as HI. split_and!.
  - intros Hp. assert (locks (klock s) !! key = Some r) as Hk by (by eapply inv_counted).
    destruct (inv_dom s HI r) as [_ Hd]. destruct Hd as [il Hil]; [by eapply inv_lt|].
    unfold Lock_acquire. rewrite Hil. destruct (held il) eqn:E; [right|by left; eauto].
    pose proof (inv_owner s HI r il Hil) as Ho. rewrite E in Ho. apply count_if_ge_1. lia.
  - intros Hp. by eapply inv_counted.
  - intros j key' r' Hp Hp' Hne <-.
    pose proof (inv_counted s HI i _ key r Hp eq_refl) as Hk.
    pose proof (inv_counted s HI j _ key' r Hp' eq_refl) as Hk'.
    by apply Hne, (inv_inj s HI key key' r).
Qed.

Lemma Clean_key_idle l key :
  (forall k r, locks l !! k = Some r -> exists il, heap l !! r = Some il /\ count il = 0) ->
  locks (Clean_key l key) = delete key (locks l) /\ heap (Clean_key l key) = heap l.
Proof.
  intros H. unfold Clean_key. destruct (locks l !! key) as [r|] eqn:E.
  - destruct (H _ _ E) as (il & -> & ->). done.
  - by rewrite delete_id.
Qed.

Lemma foldr_delete_empty {V} (ks : list gostring) (m : gmap gostring V) :
  (forall k v, m !! k = Some v -> k ∈ ks) -> foldr delete m ks = ∅.
Proof.
  intros H. apply map_eq. intros k. rewrite lookup_empty.
  assert (forall ks, k ∈ ks \/ m !! k = None -> foldr delete m ks !! k = None) as Hdel.
  { induction ks0 as [|k' ks0 IH]; intros Hk; simpl; [destruct Hk as [Hk|]; [by apply elem_of_nil in Hk|done]|].
    destruct (decide (k' = k)) as [->|]; [by rewrite lookup_delete_eq|]. rewrite lookup_delete_ne by done.
    apply IH. destruct Hk as [[->|Hk]%elem_of_cons|Hk]; [done|by left|by right]. }
  apply Hdel. destruct (m !! k) as [v|] eqn:E; [left; eauto|by right].
Qed.

Lemma Clean_all_idle ks l :
  (forall k r, locks l !! k = Some r -> exists il, heap l !! r = Some il /\ count il = 0) ->
  locks (fold_left Clean_key ks l) = foldr delete (locks l) (rev ks).
Proof.
  revert l. induction ks as [|k ks IH]; intros l Hl; [done|]. cbn [fold_left rev].
  destruct (Clean_key_idle l k Hl) as [E1 E2]. rewrite IH.
  - by rewrite E1, foldr_app.
  - intros k' r. rewrite E1, E2. intros [_ Hk']%lookup_delete_Some. eauto.
Qed.

(** Once every thread is idle, all counters are zero and all inner locks free,
    and a cleaning pass empties the map. *)
Theorem KeyLock_quiescent s (Hs : reachable init step s) (Hidle : Forall (fun p => p = Idle) (threads s)) :
  (forall r il, heap (klock s) !! r = Some il -> il = newInnerLock) /\ locks (Clean (klock s)) = ∅.
Proof.
  pose proof (reachable_inv s Hs) as HI.
  assert (forall (Q : pc -> bool), Q Idle = false -> count_if Q (threads s) = 0) as Hzero.
  { intros Q HQ. apply count_if_zero. intros i p Hp. by rewrite (Forall_lookup_of _ _ _ _ Hidle Hp). }
  assert (forall r il, heap (klock s) !! r = Some il -> il = newInnerLock) as Hil.
  { intros r [c h] Hr. pose proof (inv_count s HI r _ Hr) as Hc. pose proof (inv_owner s HI r _ Hr) as Ho.
    rewrite Hzero in Hc, Ho by done. simpl in *. unfold newInnerLock. destruct h; [done|]. by subst. }
  split; [done|]. unfold Clean. rewrite Clean_all_idle.
  - apply foldr_delete_empty. intros k r Hk. rewrite list_elem_of_In, <- in_rev, <- list_elem_of_In.
    apply list_elem_of_fmap. exists (k, r). split; [done|]. by apply elem_of_map_to_list.
  - intros k r Hk. destruct (inv_dom s HI r) as [_ Hd]. destruct Hd as [il Hr]; [by eapply inv_lt|].
    exists il. split; [done|]. by rewrite (Hil r il Hr).
Qed.

(** A short run: thread 0 holds ["a"], thread 1 waits for it. *)
Definition demo0 : system := mkSystem NewKeyLock [Idle; Idle].
Definition demo1 : system := set_pc demo0 (Lock_enter (klock demo0) "a").2 0 (Waiting "a" 0).
Definition demo2 : system :=
  set_pc demo1 (default (klock demo1) (Lock_acquire (klock demo1) 0)) 0 (Holding "a" 0).
Definition demo3 : system := set_pc demo2 (Lock_enter (klock demo2) "a").2 1 (Waiting "a" 0).

Lemma demo0_reachable : reachable init step demo0.
Proof. apply reach_init. split; [done|]. repeat constructor. Qed.

Lemma demo3_reachable : reachable init step demo3.
Proof.
  apply reach_step with demo2; [apply reach_step with demo1; [apply reach_step with demo0|]|].
  - apply demo0_reachable.
  - apply (step_enter demo0 0 "a"); reflexivity.
  - apply (step_acquire demo1 0 "a" 0); reflexivity.
  - apply (step_enter demo2 1 "a"); reflexivity.
Qed.

Lemma KeyLock_mutual_exclusion_witness :
  threads demo3 !! O = Some (Holding "a" 0) /\ threads demo3 !! 1%nat = Some (Waiting "a" 0) /\ 0%nat = 0%nat.
Proof.
  split; [reflexivity|]. split; [reflexivity|].
  apply (KeyLock_mutual_exclusion demo3 0 0 "a" 0 0 demo3_reachable); reflexivity.
Defined.

Lemma KeyLock_progress_witness :
  exists j p, threads demo3 !! j = Some p /\ owner 0 p = true.
Proof.
  destruct (KeyLock_progress demo3 1 "a" 0 demo3_reachable) as [H _].
  destruct (H eq_refl) as [[l Hl]|Ho]; [vm_compute in Hl; discriminate|exact Ho].
Defined.

Lemma KeyLock_quiescent_witness : locks (Clean (klock demo0)) = ∅.
Proof.
  apply (KeyLock_quiescent demo0 demo0_reachable). repeat constructor.
Defined.
