(* ===== verification/Wait.v ===== *)
(** * Wait: the registry of waiting channels of [pkg/wait/wait.go]

    The registry is an array of 64 maps, each under its own lock; an identifier
    lives in the map of its remainder.  It refines one flat map.  [Trigger]
    sends and closes after it has left the lock, so the steps of different
    threads interleave there. *)
From S2P Require Import Prelude GoStr.

#[global] Open Scope Z_scope.
#[global] Open Scope go_scope.

(** [%x] of an unsigned integer. *)
Definition Sprintf_x (z : Z) : gostring :=
  if z =? 0 then "0" else map (fun d => if d <? 10 then byte_of (48 + d) else byte_of (87 + d)) (to_digits 16 z).

Section Wait.
Context {X : Type}.

(** ** State *)

(** A channel of capacity one.  [got] lists what its reader has received. *)
Record chan := mkChan { buf : list X; chan_closed : bool; got : list X }.

Definition newCh : chan := mkChan [] false [].

Definition defaultListElementLength : Z := 64.

(** [e] is the array of maps from identifiers to channels; [chans] is the heap
    the channels live in. *)
Record wait := mkWait { e : list (gmap Z nat); chans : gmap nat chan; chan_next : nat }.

Definition New : wait := mkWait (replicate (Z.to_nat defaultListElementLength) ∅) ∅ O.

Definition idx (id : Z) : nat := Z.to_nat (id mod defaultListElementLength).

Definition shard (w : wait) (id : Z) : gmap Z nat := default ∅ (e w !! idx id).

Definition set_chan (w : wait) (r : nat) (f : chan -> chan) : wait :=
  mkWait (e w) (alter f r (chans w)) (chan_next w).

(** ** Operations *)

(** A second registration of an identifier panics: its channel stays unused. *)
Definition Register (w : wait) (id : Z) : go gostring nat * wait :=
  let r := chan_next w in
  let w := mkWait (e w) (<[r := newCh]> (chans w)) (S r) in
  match shard w id !! id with
  | Some _ => (Panicked ("dup id " ++ Sprintf_x id), w)
  | None => (Ok r, mkWait (<[idx id := <[id := r]> (shard w id)]> (e w)) (chans w) (chan_next w))
  end.

(** The section of [Trigger] under the lock. *)
Definition Trigger_take (w : wait) (id : Z) : option nat * wait :=
  (shard w id !! id, mkWait (<[idx id := delete id (shard w id)]> (e w)) (chans w) (chan_next w)).

(** [ch <- x]: [None] while the send blocks. *)
Definition Trigger_send (w : wait) (r : nat) (x : X) : option (go gostring wait) :=
  match chans w !! r with
  | None => None
  | Some c =>
    if chan_closed c then Some (Panicked "send on closed channel")
    else match buf c with
         | [] => Some (Ok (set_chan w r (fun c => mkChan [x] (chan_closed c) (got c))))
         | _ => None
         end
  end.

(** [close(ch)] *)
Definition Trigger_close (w : wait) (r : nat) : go gostring wait :=
  match chans w !! r with
  | None => Panicked "close of nil channel"
  | Some c => if chan_closed c then Panicked "close of closed channel"
              else Ok (set_chan w r (fun c => mkChan (buf c) true (got c)))
  end.

(** [Trigger] without interference. *)
Definition Trigger (w : wait) (id : Z) (x : X) : option (go gostring wait) :=
  let '(ch, w) := Trigger_take w id in
  match ch with
  | None => Some (Ok w)
  | Some r => match Trigger_send w r x with
              | Some (Ok w) => Some (Trigger_close w r)
              | other => other
              end
  end.

Definition IsRegistered (w : wait) (id : Z) : bool := bool_decide (is_Some (shard w id !! id)).

(** [<-ch] of the reader: it takes a buffered value. *)
Definition receive (w : wait) (r : nat) : option (X * wait) :=
  match chans w !! r with
  | Some c => match buf c with
              | x :: rest => Some (x, set_chan w r (fun c => mkChan rest (chan_closed c) (got c ++ [x])))
              | [] => None
              end
  | None => None
  end.

(** ** Refinement of one flat map *)

Definition wf (w : wait) : Prop := length (e w) = Z.to_nat defaultListElementLength.

(** The registry [w] represents the flat map [m]. *)
Definition represents (w : wait) (m : gmap Z nat) : Prop :=
  wf w /\ forall id, shard w id !! id = m !! id.

Lemma idx_lt w id : wf w -> (idx id < length (e w))%nat.
Proof.
  intros ->. unfold idx, defaultListElementLength. pose proof (Z.mod_pos_bound id 64 ltac:(lia)). lia.
Qed.

Lemma represents_New : represents New ∅.
Proof.
  split; [by apply length_replicate|]. intros id. unfold shard, New. cbn [e].
  destruct (replicate _ _ !! _) as [m|] eqn:E; [|done]. by apply lookup_replicate in E as [-> _].
Qed.

Lemma shard_insert w m cs n id id' :
  wf w -> shard (mkWait (<[idx id := m]> (e w)) cs n) id' = if decide (idx id = idx id') then m else shard w id'.
Proof.
  intros Hw. unfold shard. cbn [e]. destruct (decide (idx id = idx id')) as [<-|Hne].
  - by rewrite list_lookup_insert_eq by by apply idx_lt.
  - by rewrite list_lookup_insert_ne.
Qed.

Lemma represents_insert w m cs n id r :
  represents w m -> represents (mkWait (<[idx id := <[id := r]> (shard w id)]> (e w)) cs n) (<[id := r]> m).
Proof.
  intros [Hw Hm]. split; [unfold wf in *; cbn [e]; by rewrite length_insert|].
  intros id'. rewrite shard_insert by done. destruct (decide (id = id')) as [<-|Hne].
  - by rewrite decide_True, !lookup_insert_eq.
  - rewrite (lookup_insert_ne m) by done. case_decide as Hi; [|by apply Hm].
    rewrite lookup_insert_ne by done. unfold shard in *. rewrite Hi. apply Hm.
Qed.

Lemma represents_delete w m cs n id :
  represents w m -> represents (mkWait (<[idx id := delete id (shard w id)]> (e w)) cs n) (delete id m).
Proof.
  intros [Hw Hm]. split; [unfold wf in *; cbn [e]; by rewrite length_insert|].
  intros id'. rewrite shard_insert by done. destruct (decide (id = id')) as [<-|Hne].
  - by rewrite decide_True, !lookup_delete_eq.
  - rewrite (lookup_delete_ne m) by done. case_decide as Hi; [|by apply Hm].
    rewrite lookup_delete_ne by done. unfold shard in *. rewrite Hi. apply Hm.
Qed.

Lemma Register_chans w id :
  chans (Register w id).2 = <[chan_next w := newCh]> (chans w) /\ chan_next (Register w id).2 = S (chan_next w).
Proof. unfold Register. by destruct (shard _ id !! id). Qed.

Lemma Wait_map_step w m id (H : represents w m) :
  represents (Trigger_take w id).2 (delete id m) /\
  represents (Register w id).2 (if m !! id is None then <[id := chan_next w]> m else m).
Proof.
  pose proof H as [Hw Hm]. unfold Trigger_take, Register. cbn [fst snd].
  change (shard (mkWait (e w) ?a ?b) id) with (shard w id). rewrite Hm.
  split; [by apply represents_delete|]. destruct (m !! id) as [r|]; cbn [fst snd].
  - split; [exact Hw|exact Hm].
  - by apply (represents_insert (mkWait (e w) (<[chan_next w:=newCh]> (chans w)) (S (chan_next w)))).
Qed.

(** C10 The 64 maps behave as one: registering, triggering and asking about an
    identifier have the results and the effects they have on a flat map, and a
    second registration of an identifier panics and leaves the map as it is. *)
Theorem Wait_refines_map w m id (H : represents w m) :
  IsRegistered w id = bool_decide (is_Some (m !! id)) /\
  (Trigger_take w id).1 = m !! id /\ represents (Trigger_take w id).2 (delete id m) /\
  match m !! id with
  | None => (Register w id).1 = Ok (chan_next w) /\ represents (Register w id).2 (<[id := chan_next w]> m)
  | Some _ => (Register w id).1 = Panicked ("dup id " ++ Sprintf_x id) /\ represents (Register w id).2 m
  end.
Proof.
  pose proof H as [Hw Hm]. destruct (Wait_map_step w m id H) as [Ht Hr].
  unfold IsRegistered. rewrite Hm. split; [done|]. split; [apply Hm|]. split; [done|].
  revert Hr. unfold Register. change (shard (mkWait (e w) ?a ?b) id) with (shard w id). rewrite Hm.
  by destruct (m !! id).
Qed.

(** ** Interleaving *)

Inductive wpc :=
| WIdle
| Sending (r : nat) (x : X)     (** out of the lock, before [ch <- x] *)
| Closing (r : nat).            (** before [close(ch)] *)

Record wsys := mkWsys { reg : wait; wthreads : list wpc }.

Definition wset (w : wait) (s : wsys) (i : nat) (p : wpc) : wsys := mkWsys w (<[i := p]> (wthreads s)).

Inductive wstep : wsys -> wsys -> Prop :=
| wstep_register s id : wstep s (mkWsys (Register (reg s) id).2 (wthreads s))
| wstep_take s i id x r w :
    wthreads s !! i = Some WIdle -> Trigger_take (reg s) id = (Some r, w) ->
    wstep s (wset w s i (Sending r x))
| wstep_take_none s id w :
    Trigger_take (reg s) id = (None, w) -> wstep s (mkWsys w (wthreads s))
| wstep_send s i r x w :
    wthreads s !! i = Some (Sending r x) -> Trigger_send (reg s) r x = Some (Ok w) ->
    wstep s (wset w s i (Closing r))
| wstep_close s i r w :
    wthreads s !! i = Some (Closing r) -> Trigger_close (reg s) r = Ok w ->
    wstep s (wset w s i WIdle)
| wstep_receive s r x w : receive (reg s) r = Some (x, w) -> wstep s (mkWsys w (wthreads s)).

Definition winit (s : wsys) : Prop := reg s = New /\ Forall (fun p => p = WIdle) (wthreads s).

(** The channel a thread still has to serve. *)
Definition serves (p : wpc) : option nat :=
  match p with WIdle => None | Sending r _ | Closing r => Some r end.

(** A channel is untouched; or it holds or has delivered its one value. *)
Definition fresh_chan (c : chan) : Prop := c = newCh.
Definition served_chan (c : chan) : Prop := length (got c ++ buf c) = 1%nat.

Record winv (m : gmap Z nat) (s : wsys) : Prop := mkWinv {
  winv_map : represents (reg s) m;
  winv_lt : forall r, (chan_next (reg s) <= r)%nat -> chans (reg s) !! r = None;
  winv_reg : forall id r, m !! id = Some r ->
     chans (reg s) !! r = Some newCh /\ forall j p, wthreads s !! j = Some p -> serves p <> Some r;
  winv_inj : forall id id' r, m !! id = Some r -> m !! id' = Some r -> id = id';
  winv_serve : forall i p r, wthreads s !! i = Some p -> serves p = Some r ->
     (exists c, chans (reg s) !! r = Some c /\ chan_closed c = false /\
        match p with Closing _ => served_chan c | _ => c = newCh end) /\
     forall j q, wthreads s !! j = Some q -> serves q = Some r -> i = j;
  winv_chan : forall r c, chans (reg s) !! r = Some c -> c = newCh \/ served_chan c
}.

Lemma winv_init s : winit s -> winv ∅ s.
Proof.
  intros [Hr Hidle]. split; rewrite ?Hr; try done.
  - apply represents_New.
  - intros i p r Hp Hs. by rewrite (Forall_lookup_of _ _ _ _ Hidle Hp) in Hs.
Qed.

Lemma winv_register m s id :
  winv m s -> exists m', winv m' (mkWsys (Register (reg s) id).2 (wthreads s)).
Proof.
  intros [Hm Hlt Hreg Hinj Hserve Hchan]. set (n := chan_next (reg s)).
  assert (forall r c, chans (reg s) !! r = Some c -> r <> n) as Hold
    by (intros r c Hc ->; by rewrite Hlt in Hc).
  destruct (Wait_map_step (reg s) m id Hm) as [_ Hrep].
  pose proof (Register_chans (reg s) id) as [Hcs Hnx].
  exists (if decide (is_Some (m !! id)) then m else <[id := n]> m).
  split; cbn [reg wthreads]; rewrite ?Hcs, ?Hnx.
  - destruct (m !! id) as [r|] eqn:E; [by rewrite decide_True by eauto|].
    rewrite decide_False by (by intros [? ?]). done.
  - intros r Hr. rewrite lookup_insert_ne by lia. apply Hlt. lia.
  - intros id' r Hr. assert (m !! id' = Some r \/ r = n) as [Hr'| ->].
    { case_decide; [by left|]. apply lookup_insert_Some in Hr as [[_ <-]|[_ Hr]]; auto. }
    + destruct (Hreg _ _ Hr') as [Hc Hno]. split; [|done]. rewrite lookup_insert_ne; [done|].
      intros <-. by apply (Hold _ _ Hc).
    + split; [by rewrite lookup_insert_eq|]. intros j p Hp Hs.
      destruct (Hserve j p n Hp Hs) as [(c & Hc & _) _]. by apply (Hold _ _ Hc).
  - intros id1 id2 r. case_decide as Hid; [by apply Hinj|].
    assert (forall id', m !! id' <> Some n) as Hn.
    { intros id' Hn. destruct (Hreg _ _ Hn) as [Hc _]. by apply (Hold _ _ Hc). }
    intros [[<- <-]|[Hk1 H1]]%lookup_insert_Some [[<- H2]|[Hk2 H2]]%lookup_insert_Some; try done.
    + by apply Hn in H2.
    + subst r. by apply Hn in H1.
    + by eapply Hinj.
  - intros i p r Hp Hs. destruct (Hserve i p r Hp Hs) as [(c & Hc & Hrest) Hu]. split; [|done].
    exists c. split; [|done]. rewrite lookup_insert_ne; [done|]. intros <-. by apply (Hold _ _ Hc).
  - intros r c [[_ <-]|[_ Hc]]%lookup_insert_Some; [by left|by eapply Hchan].
Qed.

(** A step that takes a channel out of the map, or changes only the channel a
    thread serves. *)
Lemma winv_take m s i id x r w :
  winv m s -> wthreads s !! i = Some WIdle -> Trigger_take (reg s) id = (Some r, w) ->
  winv (delete id m) (wset w s i (Sending r x)).
Proof.
  intros [Hm Hlt Hreg Hinj Hserve Hchan] Hi Ht.
  destruct (Wait_map_step (reg s) m id Hm) as [Hrep _].
  unfold Trigger_take in *. injection Ht as Hr <-.
  assert (m !! id = Some r) as Hid by (rewrite <- Hr; symmetry; apply Hm).
  destruct (Hreg id r Hid) as [Hc Hno].
  split; cbn [wset reg wthreads chans chan_next]; try done.
  - intros id' r' [Hne Hr']%lookup_delete_Some. destruct (Hreg id' r' Hr') as [Hc' Hno']. split; [done|].
    intros j p [(_ & <- & _)|[_ Hp]]%list_lookup_insert_Some; [|by eapply Hno'].
    intros [= ->]. apply Hne. by eapply Hinj.
  - intros id1 id2 r' [_ H1]%lookup_delete_Some [_ H2]%lookup_delete_Some. by eapply Hinj.
  - intros j p r' [(<- & <- & _)|[Hne Hp]]%list_lookup_insert_Some Hs.
    + injection Hs as <-. split; [by exists newCh|].
      intros j q [(<- & _)|[_ Hq]]%list_lookup_insert_Some Hs'; [done|]. by destruct (Hno _ _ Hq Hs').
    + destruct (Hserve j p r' Hp Hs) as [Hc' Hu]. split; [done|].
      intros j' q [(<- & <- & _)|[_ Hq]]%list_lookup_insert_Some Hs'; [|by eapply Hu].
      injection Hs' as <-. by destruct (Hno _ _ Hp Hs).
Qed.

Lemma winv_set_chan m s i p p' r f :
  winv m s -> wthreads s !! i = Some p -> serves p = Some r ->
  (forall c, chans (reg s) !! r = Some c -> served_chan (f c)) ->
  (serves p' = None \/
   serves p' = Some r /\ (exists x, p' = Closing x) /\
   forall c, chans (reg s) !! r = Some c -> chan_closed (f c) = chan_closed c) ->
  winv m (wset (set_chan (reg s) r f) s i p').
Proof.
  intros [Hm Hlt Hreg Hinj Hserve Hchan] Hi Hp Hf Hp'.
  destruct (Hserve i p r Hi Hp) as [(c0 & Hc0 & Hcl & Hpc) Hu].
  split; cbn [wset reg wthreads set_chan chans chan_next]; try done.
  - intros r' Hr'. destruct (decide (r = r')) as [<-|]; [|rewrite lookup_alter_ne by done; auto].
    by rewrite Hlt in Hc0.
  - intros id r' Hr'. destruct (Hreg id r' Hr') as [Hc' Hno'].
    assert (r <> r') as Hne by (intros <-; by apply (Hno' i p)). rewrite lookup_alter_ne by done. split; [done|].
    intros j q [(_ & <- & _)|[_ Hq]]%list_lookup_insert_Some; [|by eapply Hno'].
    destruct Hp' as [->|(-> & _)]; congruence.
  - intros j q r' [(<- & <- & _)|[Hne Hq]]%list_lookup_insert_Some Hs.
    + destruct Hp' as [Hp'|(Hp' & [x ->] & Hcl')]; [congruence|]. assert (r' = r) as -> by congruence.
      split.
      * exists (f c0). rewrite lookup_alter_eq, Hc0. split; [done|]. rewrite Hcl' by done. auto.
      * intros j q [(<- & _)|[Hne Hq]]%list_lookup_insert_Some Hs'; [done|]. by eapply Hu.
    + destruct (Hserve j q r' Hq Hs) as [(c & Hc & Hcq) Hu'].
      assert (r' <> r) as Hrr by (intros ->; by apply Hne, (Hu j q)).
      split.
      * exists c. by rewrite lookup_alter_ne.
      * intros j' q' [(<- & <- & _)|[_ Hq']]%list_lookup_insert_Some Hs'; [|by eapply Hu'].
        destruct Hp' as [Hp'|(Hp' & _)]; congruence.
  - intros r' c. destruct (decide (r = r')) as [<-|].
    + rewrite lookup_alter_eq, Hc0. intros [= <-]. right. by apply Hf.
    + rewrite lookup_alter_ne by done. apply Hchan.
Qed.

Lemma served_receive c x rest : served_chan c -> buf c = x :: rest ->
  served_chan (mkChan rest (chan_closed c) (got c ++ [x])).
Proof.
  unfold served_chan. cbn [got buf]. intros H E. rewrite E in H. rewrite !length_app in *. simpl in *. lia.
Qed.

Lemma winv_receive m s r x w :
  winv m s -> receive (reg s) r = Some (x, w) -> winv m (mkWsys w (wthreads s)).
Proof.
  intros [Hm Hlt Hreg Hinj Hserve Hchan] Hr. unfold receive in Hr.
  destruct (chans (reg s) !! r) as [c|] eqn:Hc; [|done]. destruct (buf c) as [|x' rest] eqn:Hb; [done|].
  injection Hr as -> <-.
  assert (c <> newCh) as Hnew by (intros ->; done).
  assert (served_chan c) as Hsc by (destruct (Hchan r c Hc); [done|auto]).
  split; cbn [reg wthreads set_chan chans chan_next]; try done.
  - intros r' Hr'. rewrite lookup_alter_ne; [auto|]. intros <-. by rewrite Hlt in Hc.
  - intros id r' Hr'. destruct (Hreg id r' Hr') as [Hc' Hno']. split; [|done].
    rewrite lookup_alter_ne; [done|]. intros <-. congruence.
  - intros i p r' Hp Hs. destruct (Hserve i p r' Hp Hs) as [(c' & Hc' & Hcl & Hpc) Hu]. split; [|done].
    destruct (decide (r = r')) as [<-|]; [|exists c'; by rewrite lookup_alter_ne].
    assert (c' = c) as -> by congruence. eexists. rewrite lookup_alter_eq, Hc. split; [done|]. split; [done|].
    destruct p; [done|by destruct Hnew|]. by eapply served_receive.
  - intros r' c'. destruct (decide (r = r')) as [<-|]; [|rewrite lookup_alter_ne by done; apply Hchan].
    rewrite lookup_alter_eq, Hc. intros [= <-]. right. by eapply served_receive.
Qed.

Lemma winv_step m s s' : winv m s -> wstep s s' -> exists m', winv m' s'.
Proof.
  intros HI Hs. destruct Hs as [s id|s i id x r w Hi Ht|s id w Ht|s i r x w Hi Hw|s i r w Hi Hw|s r x w Hr].
  - by eapply winv_register.
  - exists (delete id m). by eapply winv_take.
  - exists (delete id m). destruct HI as [Hm Hlt Hreg Hinj Hserve Hchan].
    destruct (Wait_map_step (reg s) m id Hm) as [Hrep _]. unfold Trigger_take in *. injection Ht as Hr <-.
    split; cbn [reg wthreads chans chan_next]; try done.
    + intros id' r [_ H]%lookup_delete_Some. by eapply Hreg.
    + intros id1 id2 r [_ H1]%lookup_delete_Some [_ H2]%lookup_delete_Some. by eapply Hinj.
  - exists m. unfold Trigger_send in Hw. destruct (chans (reg s) !! r) as [c|] eqn:Hc; [|done].
    destruct (winv_serve m s HI i _ r Hi eq_refl) as [(c' & Hc' & Hcl & Hpc) _].
    assert (c' = c) as -> by congruence. subst c. cbn in Hw. injection Hw as <-.
    eapply winv_set_chan; [done|exact Hi|done|..].
    + intros c. rewrite Hc. by intros [= <-].
    + right. split; [done|]. split; [by eexists|]. done.
  - exists m. unfold Trigger_close in Hw. destruct (chans (reg s) !! r) as [c|] eqn:Hc; [|done].
    destruct (winv_serve m s HI i _ r Hi eq_refl) as [(c' & Hc' & Hcl & Hpc) _].
    assert (c' = c) as -> by congruence. rewrite Hcl in Hw. injection Hw as <-.
    eapply winv_set_chan; [done|exact Hi|done|..]; [|by left].
    intros c'. rewrite Hc. by intros [= <-].
  - exists m. by eapply winv_receive.
Qed.

Lemma reachable_winv s : reachable winit wstep s -> exists m, winv m s.
Proof.
  apply (reachable_invariant winit wstep (fun s => exists m, winv m s)); [intros s0 H0; exists ∅; by apply winv_init|].
  intros s1 s2 [m Hm] Hs. by eapply winv_step.
Qed.

(** C11 However registrations, triggers and readers interleave, a triggering
    thread neither blocks nor panics at its send or at its close, and a channel
    gets at most one value, which it has got by the time it is closed. *)
Theorem Wait_delivers_once s (Hs : reachable winit wstep s) :
  (forall i r x, wthreads s !! i = Some (Sending r x) -> exists w, Trigger_send (reg s) r x = Some (Ok w)) /\
  (forall i r, wthreads s !! i = Some (Closing r) -> exists w, Trigger_close (reg s) r = Ok w) /\
  (forall r c, chans (reg s) !! r = Some c -> (length (got c ++ buf c) <= 1)%nat /\
     (chan_closed c = true -> length (got c ++ buf c) = 1%nat)).
Proof.
  destruct (reachable_winv s Hs) as [m HI]. split_and!.
  - intros i r x Hi. destruct (winv_serve m s HI i _ r Hi eq_refl) as [(c & Hc & _ & ->) _].
    unfold Trigger_send. rewrite Hc. cbn. eauto.
  - intros i r Hi. destruct (winv_serve m s HI i _ r Hi eq_refl) as [(c & Hc & Hcl & _) _].
    unfold Trigger_close. rewrite Hc, Hcl. eauto.
  - intros r c Hc. destruct (winv_chan m s HI r c Hc) as [->|H]; [|unfold served_chan in H; lia].
    split; [simpl; lia|done].
Qed.
End Wait.

(** A registry in which 6 and 70, of one shard, are registered: asking, taking
    one of them, and registering it a second time. *)
Definition wdemo : wait (X := Z) := (Register (Register New 6).2 70).2.
Definition wdemo_map : gmap Z nat := <[70 := 1%nat]> {[6 := 0%nat]}.

Lemma wdemo_represents : represents wdemo wdemo_map.
Proof.
  destruct (Wait_map_step (X := Z) New ∅ 6 represents_New) as [_ H1]. rewrite lookup_empty in H1.
  destruct (Wait_map_step _ _ 70 H1) as [_ H2]. rewrite lookup_insert_ne, lookup_empty in H2 by done. exact H2.
Qed.

Lemma Wait_refines_map_witness :
  idx 6 = idx 70 /\ IsRegistered wdemo 70 = true /\ (Trigger_take wdemo 70).1 = Some 1%nat /\
  represents (Trigger_take wdemo 70).2 (delete 70 wdemo_map) /\ (Register wdemo 70).1 = Panicked ("dup id " ++ Sprintf_x 70).
Proof.
  split; [by vm_compute|].
  destruct (Wait_refines_map wdemo wdemo_map 70 wdemo_represents) as (Hi & Ht & Hr & Hd).
  split; [rewrite Hi; vm_compute; reflexivity|]. split; [rewrite Ht; vm_compute; reflexivity|]. split; [exact Hr|].
  change (wdemo_map !! 70) with (Some 1%nat) in Hd. exact (proj1 Hd).
Defined.

(** An identifier registered and triggered: the channel is about to be served. *)
Definition wdemo0 : wsys (X := Z) := mkWsys New [WIdle].
Definition wdemo1 : wsys (X := Z) := mkWsys (Register (reg wdemo0) 70).2 (wthreads wdemo0).
Definition wdemo2 : wsys (X := Z) := wset (Trigger_take (reg wdemo1) 70).2 wdemo1 0 (Sending 0 9).

Lemma wdemo2_reachable : reachable winit wstep wdemo2.
Proof.
  apply reach_step with wdemo1; [apply reach_step with wdemo0; [apply reach_init|]|].
  - split; [done|]. repeat constructor.
  - apply wstep_register.
  - apply (wstep_take wdemo1 0 70 9 0); reflexivity.
Qed.

Lemma Wait_delivers_once_witness : exists w, Trigger_send (reg wdemo2) 0 9 = Some (Ok w).
Proof. apply (proj1 (Wait_delivers_once wdemo2 wdemo2_reachable) 0%nat). reflexivity. Defined.

Example Trigger_spec_example :
  Trigger (X := Z) New 5 1 = Some (Ok New).
Proof. reflexivity. Qed.
