(* ===== verification/Queue.v ===== *)
(** * Queue: the blocking queue of [pkg/pool/queue.go]

    The buffer is a third-party FIFO, known here through the interface
    [Buffer].  Every method of the queue runs under its mutex, so each locked
    section is one step; a [Pop] that finds nothing sleeps on the condition
    variable, and a signal makes some sleeper compete for the mutex again. *)
From S2P Require Import Prelude GoStr.

#[global] Open Scope Z_scope.
#[global] Open Scope go_scope.

(** ** The buffer *)

(** What the queue relies on: [contents] lists the elements, oldest first;
    [Peek] and [Remove] panic on an empty buffer. *)
Class Buffer (B V : Type) := {
  buffer_new : B;
  Length : B -> nat;
  Add : B -> V -> B;
  Peek : B -> go gostring V;
  Remove : B -> go gostring B;
  contents : B -> list V;
  contents_new : contents buffer_new = [];
  Length_contents b : Length b = length (contents b);
  Add_contents b v : contents (Add b v) = contents b ++ [v];
  Peek_contents b v vs : contents b = v :: vs -> Peek b = Ok v;
  Remove_contents b v vs : contents b = v :: vs -> exists b', Remove b = Ok b' /\ contents b' = vs
}.

(** Lists are such buffers. *)
#[export] Instance list_buffer (V : Type) : Buffer (list V) V.
Proof.
  refine (@Build_Buffer (list V) V [] length (fun b v => b ++ [v])
    (fun b => match b with v :: _ => Ok v | [] => Panicked "queue: Peek() called on empty queue" end)
    (fun b => match b with _ :: b => Ok b | [] => Panicked "queue: Remove() called on empty queue" end)
    (fun b => b) _ _ _ _ _); try done.
  - by intros b v vs ->.
  - intros b v vs ->. eauto.
Defined.

Section Queue.
Context {B V : Type} `{HB : !Buffer B V}.

(** ** State and locked sections *)

Record Queue := mkQueue { buffer : B; closed : bool }.

Definition NewQueue : Queue := mkQueue buffer_new false.

(** [Push], with whether it signals. *)
Definition Push (e : Queue) (v : V) : Queue * bool :=
  if negb (closed e) then (mkQueue (Add (buffer e) v) (closed e), true) else (e, false).

(** [Close], with whether it broadcasts. *)
Definition Close (e : Queue) : Queue * bool :=
  if negb (closed e) then (mkQueue (buffer e) true, true) else (e, false).

(** The test of the loop of [Pop]: the thread waits while it holds. *)
Definition Pop_waits (e : Queue) : bool := (Length (buffer e) =? 0)%nat && negb (closed e).

(** The rest of [Pop]; [None] is the [nil] value. *)
Definition Pop_take (e : Queue) : go gostring (option V * Queue) :=
  if closed e then Ok (None, e)
  else if (0 <? Length (buffer e))%nat then
    let! v := Peek (buffer e) in
    let! b := Remove (buffer e) in
    Ok (Some v, mkQueue b (closed e))
  else Ok (None, e).

Definition TryPop (e : Queue) : go gostring (option V * bool * Queue) :=
  if (0 <? Length (buffer e))%nat then
    let! v := Peek (buffer e) in
    let! b := Remove (buffer e) in
    Ok (Some v, true, mkQueue b (closed e))
  else if closed e then Ok (None, true, e)
  else Ok (None, false, e).

Definition Len (e : Queue) : nat := Length (buffer e).

(** One round of [Wait]: whether the loop is left. *)
Definition Wait_done (e : Queue) : bool := closed e || (Length (buffer e) =? 0)%nat.

(** ** Functional behaviour *)

Lemma Pop_take_closed e : closed e = true -> Pop_take e = Ok (None, e).
Proof. intros H. unfold Pop_take. by rewrite H. Qed.

Lemma Pop_take_front e v vs : closed e = false -> contents (buffer e) = v :: vs ->
  exists b, Pop_take e = Ok (Some v, mkQueue b false) /\ contents b = vs.
Proof.
  intros Hc H. destruct (Remove_contents _ v vs H) as (b & Hb & Hvs). exists b. split; [|done].
  unfold Pop_take. rewrite Hc, Length_contents, H. cbn [length Nat.ltb Nat.leb].
  by rewrite (Peek_contents _ v vs H), Hb.
Qed.

Lemma TryPop_front e v vs : contents (buffer e) = v :: vs ->
  exists b, TryPop e = Ok (Some v, true, mkQueue b (closed e)) /\ contents b = vs.
Proof.
  intros H. destruct (Remove_contents _ v vs H) as (b & Hb & Hvs). exists b. split; [|done].
  unfold TryPop. rewrite Length_contents, H. cbn [length Nat.ltb Nat.leb].
  by rewrite (Peek_contents _ v vs H), Hb.
Qed.

Lemma TryPop_empty e : contents (buffer e) = [] -> TryPop e = Ok (None, closed e, e).
Proof. intros H. unfold TryPop. rewrite Length_contents, H. cbn. by destruct (closed e). Qed.

Lemma Pop_waits_iff e : Pop_waits e = true <-> contents (buffer e) = [] /\ closed e = false.
Proof.
  unfold Pop_waits. rewrite Length_contents. destruct (contents (buffer e)), (closed e); simpl; naive_solver.
Qed.

(** A closed queue: [Pop] returns [nil] although items are left, and [TryPop]
    reports success with no value once they are gone. *)
Lemma Pop_after_Close e v vs : contents (buffer e) = v :: vs ->
  Pop_take (Close e).1 = Ok (None, (Close e).1) /\
  forall e', closed e' = true -> contents (buffer e') = [] -> TryPop e' = Ok (None, true, e').
Proof.
  intros _. split.
  - apply Pop_take_closed. unfold Close. by destruct (closed e) eqn:E.
  - intros e' Hc H. by rewrite TryPop_empty, Hc.
Qed.

(** ** Threads *)

Inductive qpc :=
| Running                (** outside [Pop] *)
| Asleep                 (** in [c.Wait()], not notified *)
| Woken.                 (** notified, before it takes the mutex again *)

(** [pushed] and [popped] record the values accepted and handed out so far. *)
Record qsys := mkQsys { que : Queue; qthreads : list qpc; pushed : list V; popped : list V }.

(** [Signal] wakes one sleeper if there is one; [Broadcast] wakes all. *)
Inductive signal : list qpc -> list qpc -> Prop :=
| signal_one ts i : ts !! i = Some Asleep -> signal ts (<[i := Woken]> ts)
| signal_none ts : (forall i, ts !! i <> Some Asleep) -> signal ts ts.

Definition broadcast (ts : list qpc) : list qpc :=
  map (fun p => match p with Asleep => Woken | p => p end) ts.

Inductive qstep : qsys -> qsys -> Prop :=
| qstep_push s v ts :
    (if (Push (que s) v).2 then signal (qthreads s) ts else ts = qthreads s) ->
    qstep s (mkQsys (Push (que s) v).1 ts (if closed (que s) then pushed s else pushed s ++ [v]) (popped s))
| qstep_close s :
    qstep s (mkQsys (Close (que s)).1 (if (Close (que s)).2 then broadcast (qthreads s) else qthreads s)
                    (pushed s) (popped s))
| qstep_sleep s i p :
    qthreads s !! i = Some p -> p <> Asleep -> Pop_waits (que s) = true ->
    qstep s (mkQsys (que s) (<[i := Asleep]> (qthreads s)) (pushed s) (popped s))
| qstep_pop s i p v e :
    qthreads s !! i = Some p -> p <> Asleep -> Pop_waits (que s) = false -> Pop_take (que s) = Ok (v, e) ->
    qstep s (mkQsys e (<[i := Running]> (qthreads s)) (pushed s) (popped s ++ option_list v))
| qstep_trypop s i v ok e :
    qthreads s !! i = Some Running -> TryPop (que s) = Ok (v, ok, e) ->
    qstep s (mkQsys e (qthreads s) (pushed s) (popped s ++ option_list v)).

Definition qinit (s : qsys) : Prop :=
  que s = NewQueue /\ pushed s = [] /\ popped s = [] /\ Forall (fun p => p = Running) (qthreads s).

Definition is_asleep (p : qpc) : bool := match p with Asleep => true | _ => false end.
Definition is_woken (p : qpc) : bool := match p with Woken => true | _ => false end.

(** ** The invariant *)

Record qinv (s : qsys) : Prop := mkQinv {
  qinv_fifo : pushed s = popped s ++ contents (buffer (que s));
  qinv_wake : forall i, qthreads s !! i = Some Asleep ->
    closed (que s) = false /\
    Z.of_nat (length (contents (buffer (que s)))) <= count_if is_woken (qthreads s)
}.

Lemma option_list_nil (l : list V) : l ++ option_list None = l.
Proof. apply app_nil_r. Qed.

Lemma qinv_init s : qinit s -> qinv s.
Proof.
  intros (Hq & Hp & Ho & Hr). split; rewrite ?Hq, ?Hp, ?Ho; cbn; rewrite ?contents_new; [done|].
  intros i Hi. by apply (Forall_lookup_of _ _ _ _ Hr) in Hi.
Qed.

Lemma signal_wakes ts ts' i : signal ts ts' -> ts' !! i = Some Asleep ->
  ts !! i = Some Asleep /\ count_if is_woken ts' = count_if is_woken ts + 1.
Proof.
  intros Hs Hi. destruct Hs as [ts j Hj|ts Hno]; [|by destruct (Hno i)].
  rewrite (count_if_insert _ _ _ Asleep) by done. cbn.
  apply list_lookup_insert_Some in Hi as [(_ & ? & _)|[_ Hi]]; [done|]. split; [done|lia].
Qed.

Lemma broadcast_wakes ts i : broadcast ts !! i <> Some Asleep.
Proof. unfold broadcast. rewrite (list_lookup_fmap _ ts i : map _ ts !! i = _). by destruct (ts !! i) as [[]|]. Qed.

(** A pop by a thread that is not asleep keeps the wake-up bound. *)
Lemma pop_wakes s e i p :
  qinv s -> qthreads s !! i = Some p -> p <> Asleep -> closed e = closed (que s) ->
  (length (contents (buffer e)) < length (contents (buffer (que s))))%nat ->
  forall j, <[i := Running]> (qthreads s) !! j = Some Asleep ->
    closed e = false /\ Z.of_nat (length (contents (buffer e))) <= count_if is_woken (<[i := Running]> (qthreads s)).
Proof.
  intros [_ Hw] Hi Hp Hc Hlen j Hj.
  apply list_lookup_insert_Some in Hj as [(_ & ? & _)|[_ Hj]]; [done|].
  destruct (Hw j Hj) as [H1 H2]. rewrite (count_if_insert _ _ _ p) by done. split; [congruence|].
  destruct p; simpl; lia.
Qed.

Lemma qinv_step s s' : qinv s -> qstep s s' -> qinv s'.
Proof.
  intros HI Hs. pose proof HI as [Hf Hw].
  destruct Hs as [s v ts Hsig|s|s i p Hi Hp Hwt|s i p v e Hi Hp Hwt Ht|s i v ok e Hi Ht].
  - unfold Push in *. destruct (closed (que s)) eqn:Hc; cbn in *; [subst ts; split; cbn; rewrite ?Hc; done|].
    split; cbn; rewrite Add_contents; [by rewrite Hf, app_assoc|].
    intros i Hi. destruct (signal_wakes _ _ _ Hsig Hi) as [Hi' ->]. destruct (Hw i Hi') as [_ H].
    rewrite length_app. simpl. split; [done|lia].
  - unfold Close. destruct (closed (que s)) eqn:Hc; cbn; [split; cbn; rewrite ?Hc; done|]. split; cbn; [done|].
    intros i Hi. by apply broadcast_wakes in Hi.
  - apply Pop_waits_iff in Hwt as [He Hc]. split; cbn; [done|]. rewrite He, Hc. simpl. intros j _.
    split; [done|apply count_if_nonneg].
  - destruct (contents (buffer (que s))) as [|x xs] eqn:E.
    + assert (closed (que s) = true) as Hc.
      { destruct (closed (que s)) eqn:Hc; [done|]. rewrite (proj2 (Pop_waits_iff (que s))) in Hwt; done. }
      rewrite Pop_take_closed in Ht by done. injection Ht as <- <-. rewrite option_list_nil.
      split; cbn; [by rewrite E|]. intros j [(_ & ? & _)|[_ Hj]]%list_lookup_insert_Some; [done|].
      destruct (Hw j Hj). congruence.
    + destruct (closed (que s)) eqn:Hc.
      * rewrite Pop_take_closed in Ht by done. injection Ht as <- <-. rewrite option_list_nil.
        split; cbn; [by rewrite E|]. intros j [(_ & ? & _)|[_ Hj]]%list_lookup_insert_Some; [done|].
        destruct (Hw j Hj). congruence.
      * destruct (Pop_take_front _ x xs Hc E) as (b & Hb & Hxs). rewrite Hb in Ht. injection Ht as <- <-.
        split; [cbn; by rewrite Hf, Hxs, <- app_assoc|]. intros j.
        apply (pop_wakes s (mkQueue b false) i p); cbn; rewrite ?Hxs, ?E; auto; simpl; lia.
  - destruct (contents (buffer (que s))) as [|x xs] eqn:E.
    + rewrite TryPop_empty in Ht by done. injection Ht as <- <- <-. rewrite option_list_nil.
      split; cbn; rewrite E; done.
    + destruct (TryPop_front _ x xs E) as (b & Hb & Hxs). rewrite Hb in Ht. injection Ht as <- <- <-.
      split; cbn; [by rewrite Hf, Hxs, <- app_assoc|]. rewrite Hxs. intros j Hj.
      destruct (Hw j Hj) as [H1 H2]. simpl in H2. split; [done|lia].
Qed.

Lemma reachable_qinv s : reachable qinit qstep s -> qinv s.
Proof. apply reachable_invariant; [apply qinv_init|apply qinv_step]. Qed.

(** C9 The values handed out are the values accepted, in order, none lost and
    none twice; a pop never panics; what is not handed out is in the buffer. *)
Theorem Queue_fifo s (Hs : reachable qinit qstep s) :
  pushed s = popped s ++ contents (buffer (que s)) /\
  (exists r, Pop_take (que s) = Ok r) /\ (exists r, TryPop (que s) = Ok r).
Proof.
  split; [by apply qinv_fifo, reachable_qinv|]. destruct (contents (buffer (que s))) as [|v vs] eqn:E.
  - split; [|by eexists; apply TryPop_empty]. unfold Pop_take. rewrite Length_contents, E.
    destruct (closed (que s)); cbn; eauto.
  - split; [|destruct (TryPop_front _ v vs E) as (b & Hb & _); eauto].
    destruct (closed (que s)) eqn:Hc; [by eexists; apply Pop_take_closed|].
    destruct (Pop_take_front _ v vs Hc E) as (b & Hb & _). eauto.
Qed.

(** C8 No wake-up is lost: while a thread sleeps the queue is open and, for every
    item in the buffer, a notified thread is on its way; so a sleeper and an item
    never wait for each other, and closing wakes every sleeper. *)
Theorem Queue_no_lost_wakeup s i (Hs : reachable qinit qstep s) (Hi : qthreads s !! i = Some Asleep) :
  closed (que s) = false /\
  Z.of_nat (Len (que s)) <= count_if is_woken (qthreads s) /\
  (contents (buffer (que s)) <> [] -> exists j, qthreads s !! j = Some Woken /\
     exists v e, Pop_waits (que s) = false /\ Pop_take (que s) = Ok (Some v, e)) /\
  forall j, broadcast (qthreads s) !! j <> Some Asleep.
Proof.
  destruct (qinv_wake s (reachable_qinv s Hs) i Hi) as [Hc Hn]. split; [done|].
  unfold Len. rewrite Length_contents. split; [done|]. split.
  - intros Hne. destruct (contents (buffer (que s))) as [|v vs] eqn:E; [done|]. simpl in Hn.
    destruct (count_if_ge_1 is_woken (qthreads s)) as (j & p & Hj & Hp); [lia|]. exists j.
    split; [by destruct p|]. destruct (Pop_take_front _ v vs Hc E) as (b & Hb & _). exists v, (mkQueue b false).
    split; [|done]. unfold Pop_waits. by rewrite Length_contents, E.
  - intros j. apply broadcast_wakes.
Qed.
End Queue.

(** A popper sleeps, then a value is pushed. *)
Definition qdemo0 : qsys (B := list Z) (V := Z) := mkQsys (NewQueue (V := Z)) [Running; Running] [] [].
Definition qdemo1 : qsys (B := list Z) (V := Z) := mkQsys (NewQueue (V := Z)) [Asleep; Running] [] [].
Definition qdemo2 : qsys (B := list Z) (V := Z) := mkQsys (NewQueue (V := Z)) [Asleep; Asleep] [] [].
Definition qdemo3 : qsys (B := list Z) (V := Z) := mkQsys (Push (NewQueue (V := Z)) (7 : Z)).1 [Woken; Asleep] [7] [].

Lemma qdemo3_reachable : reachable qinit qstep qdemo3.
Proof.
  apply reach_step with qdemo2; [apply reach_step with qdemo1; [apply reach_step with qdemo0; [apply reach_init|]|]|].
  - split_and!; [done..|]. repeat constructor.
  - by apply (qstep_sleep qdemo0 0 Running).
  - by apply (qstep_sleep qdemo1 1 Running).
  - apply (qstep_push qdemo2 7 [Woken; Asleep]). by apply (signal_one [Asleep; Asleep] 0).
Qed.

Lemma Queue_fifo_witness : pushed qdemo3 = popped qdemo3 ++ [7].
Proof. exact (proj1 (Queue_fifo qdemo3 qdemo3_reachable)). Defined.

Lemma Queue_no_lost_wakeup_witness : Z.of_nat (Len (que qdemo3)) <= count_if is_woken (qthreads qdemo3).
Proof. exact (proj1 (proj2 (Queue_no_lost_wakeup qdemo3 1 qdemo3_reachable eq_refl))). Defined.
