(* ===== verification/Pool.v ===== *)
(** * Pool: the worker pool ([pkg/pool/dispatcher.go], [pkg/pool/job.go])

    The jobs come from a channel, in order; the pool of the ants library is an
    argument: how many workers run, and whether it takes a job. *)
From S2P Require Import Prelude GoStr.

#[global] Open Scope Z_scope.
#[global] Open Scope go_scope.

(** A job: its data, and a function of a worker number and the data. *)
Record Job (D R : Type) := mkJob { Data : D; JobFunc : Z -> D -> R }.
Arguments mkJob {D R}.
Arguments Data {D R}.
Arguments JobFunc {D R}.

(** ants: [pool_Submit] hands a task over or reports why it does not. *)
Class AntsPool (P R E : Type) := {
  pool_Running : P -> Z;
  pool_Submit : R -> P -> P * option E;
}.

Section Dispatcher.
Context {D R P E : Type} `{AntsPool P R E}.

Record Collector := mkCollector { pool : P; workerCount : Z }.

Definition StartDispatcher (NewPool : Z -> E + P) (errText : E -> gostring) (workerCount : Z) : go unit Collector :=
  match NewPool workerCount with
  | inl err => Panicked ("start dispatcher error: " ++ errText err)
  | inr p => Ok (mkCollector p workerCount)
  end.

(** What the loop prints or does. *)
Inductive event := WillFull (running workerCount : Z) | Submitted (job : Job D R) | SubmitError (job : Job D R) (err : E).

(** One turn of the loop: the task runs the job as worker 0. *)
Definition loopPop_step (c : Collector) (job : Job D R) : Collector * list event :=
  let warn := if workerCount c + 1 <=? pool_Running (pool c) then [WillFull (pool_Running (pool c)) (workerCount c)] else [] in
  let '(p, err) := pool_Submit (JobFunc job 0 (Data job)) (pool c) in
  (mkCollector p (workerCount c), warn ++ [match err with Some e => SubmitError job e | None => Submitted job end]).

(** The loop over the jobs received until the channel is closed. *)
Fixpoint loopPop (c : Collector) (jobs : list (Job D R)) : Collector * list event :=
  match jobs with
  | [] => (c, [])
  | job :: jobs => let '(c, es) := loopPop_step c job in let '(c, es') := loopPop c jobs in (c, es ++ es')
  end.

Definition job_of (e : event) : option (Job D R) :=
  match e with WillFull _ _ => None | Submitted job => Some job | SubmitError job _ => Some job end.

(** Every job received is handed over once, or reported once, in order. *)
Lemma loopPop_jobs c jobs : omap job_of (loopPop c jobs).2 = jobs.
Proof.
  revert c. induction jobs as [|job jobs IH]; intros c; [done|]. cbn [loopPop]. unfold loopPop_step.
  destruct (pool_Submit (JobFunc job 0 (Data job)) (pool c)) as [p err]. specialize (IH (mkCollector p (workerCount c))).
  destruct (loopPop (mkCollector p (workerCount c)) jobs) as [c' es']. cbn [snd] in *.
  rewrite !omap_app, IH. by destruct (_ <=? _), err.
Qed.

(** A pool of a size never runs more workers than that, so the warning about a
    full pool, which waits for one more, is never printed. *)
Lemma loopPop_never_warns (inv : P -> Prop) c jobs :
  (forall p r, inv p -> inv (pool_Submit r p).1) -> (forall p, inv p -> pool_Running p <= workerCount c) -> inv (pool c) ->
  forall running n, WillFull running n ∉ (loopPop c jobs).2.
Proof.
  intros Hsub. revert c. induction jobs as [|job jobs IH]; intros c Hrun Hinv running n; [apply not_elem_of_nil|].
  cbn [loopPop]. unfold loopPop_step. replace (workerCount c + 1 <=? pool_Running (pool c)) with false by (specialize (Hrun _ Hinv); lia).
  pose proof (Hsub (pool c) (JobFunc job 0 (Data job)) Hinv) as Hinv'.
  destruct (pool_Submit (JobFunc job 0 (Data job)) (pool c)) as [p err].
  pose proof (IH (mkCollector p (workerCount c)) Hrun Hinv' running n) as IH'.
  destruct (loopPop (mkCollector p (workerCount c)) jobs) as [c' es']. cbn [snd app] in *.
  rewrite not_elem_of_cons. split; [by destruct err|done].
Qed.
End Dispatcher.
