(* ===== verification/Json.v ===== *)
(** * Json: the part of Go's [encoding/json] that the code relies on

    This is language library code, modelled as documented; it has no entry in
    the map of the development except for the helpers of [pkg/util/json.go].
    Values are syntax trees; an object keeps its members in order, duplicates
    included.  A [json.RawMessage] is the tree of its bytes. The encoder fails on
    a number without a literal; a decoder keeps the literals of numbers when it
    is told to, and stores float64 values otherwise. *)
From S2P Require Import Prelude GoStr Decimals DecRound DecimalText Money GoUrl.

#[global] Open Scope Z_scope.
#[global] Open Scope go_scope.

(** ** Syntax trees *)

Inductive json :=
| JNull
| JBool (b : bool)
| JNum (lit : gostring)          (** by its text: the literal of a [json.Number], or what a float prints as *)
| JStr (s : gostring)
| JArr (l : list json)
| JObj (members : list (gostring * json)).

Definition JInt (z : Z) : json := JNum (FormatInt z).

(** A map: the encoder sorts its keys. *)
Definition obj_of_map (m : gmap gostring json) : json :=
  JObj (map (fun k => (k, default JNull (m !! k))) (sort_strings (map_to_list m).*1)).

(** ** Encoding *)

Definition u_escape (r : Z) : gostring :=
  "\u" ++ [hex_digit (r / 4096); hex_digit ((r / 256) mod 16); hex_digit ((r / 16) mod 16); hex_digit (r mod 16)].

(** An ASCII byte of a string, with the escapes that keep the text safe in HTML. *)
Definition enc_byte (c : ascii) : gostring :=
  if bool_decide (c = "\"%char) || bool_decide (c = dquote) then ["\"%char; c]
  else if byte_val c =? 10 then "\n"
  else if byte_val c =? 13 then "\r"
  else if byte_val c =? 9 then "\t"
  else if (byte_val c <? 32) || bool_decide (c ∈ ("<>&" : gostring)) then u_escape (byte_val c)
  else [c].

Fixpoint enc_string (fuel : nat) (s : gostring) : gostring :=
  match fuel, s with
  | S f, c :: s' =>
    if byte_val c <? 128 then enc_byte c ++ enc_string f s'
    else
      let '(r, w) := DecodeRune s in
      if (r =? RuneError) && (w =? 1)%nat then "\ufffd" ++ enc_string f s'
      else if (r =? 8232) || (r =? 8233) then u_escape r ++ enc_string f (drop w s)
      else take w s ++ enc_string f (drop w s)
  | _, _ => []
  end.

Definition quote (s : gostring) : gostring := [dquote] ++ enc_string (length s) s ++ [dquote].

Definition commas (parts : list gostring) : gostring := Join parts ",".

(** The text of a tree; the empty [json.Number] is written as zero. *)
Fixpoint marshal (v : json) : gostring :=
  match v with
  | JNull => "null"
  | JBool b => if b then "true" else "false"
  | JNum lit => match lit with [] => "0" | _ => lit end
  | JStr s => quote s
  | JArr l => "[" ++ commas (map marshal l) ++ "]"
  | JObj kvs => "{" ++ commas (map (fun kv => quote kv.1 ++ ":" ++ marshal kv.2) kvs) ++ "}"
  end.

(** ** Decoding *)

Definition is_ws (c : ascii) : bool :=
  bool_decide (byte_val c = 32) || bool_decide (byte_val c = 9) || bool_decide (byte_val c = 10) || bool_decide (byte_val c = 13).

Definition skip_ws (s : gostring) : gostring := drop_while is_ws s.

Definition hex4 (s : gostring) : option Z :=
  match s with
  | a :: b :: c :: d :: _ =>
    if is_hex a && is_hex b && is_hex c && is_hex d
    then Some (unhex a * 4096 + unhex b * 256 + unhex c * 16 + unhex d) else None
  | _ => None
  end.

(** The escape after a backslash: the text it stands for, and the bytes it takes. *)
Definition unescape_u (s : gostring) : option (gostring * nat) :=
  match hex4 s with
  | None => None
  | Some r =>
    if (55296 <=? r) && (r <=? 57343) then
      let r2 := match drop 4 s with
                | b :: u :: t => if bool_decide (b = "\"%char) && bool_decide (u = "u"%char) then hex4 t else None
                | _ => None
                end in
      match r2 with
      | Some r2 => if (r <? 56320) && (56320 <=? r2) && (r2 <=? 57343)
                   then Some (EncodeRune ((r - 55296) * 1024 + (r2 - 56320) + 65536), 10%nat)
                   else Some (EncodeRune RuneError, 4%nat)
      | None => Some (EncodeRune RuneError, 4%nat)
      end
    else Some (EncodeRune r, 4%nat)
  end.

Definition unescape1 (s : gostring) : option (gostring * nat) :=
  match s with
  | c :: t =>
    if bool_decide (c = dquote) || bool_decide (c = "\"%char) || bool_decide (c = "/"%char) then Some ([c], 1%nat)
    else if bool_decide (c = "b"%char) then Some ([byte_of 8], 1%nat)
    else if bool_decide (c = "f"%char) then Some ([byte_of 12], 1%nat)
    else if bool_decide (c = "n"%char) then Some ([byte_of 10], 1%nat)
    else if bool_decide (c = "r"%char) then Some ([byte_of 13], 1%nat)
    else if bool_decide (c = "t"%char) then Some ([byte_of 9], 1%nat)
    else if bool_decide (c = "u"%char) then
      match unescape_u t with Some (o, n) => Some (o, S n) | None => None end
    else None
  | [] => None
  end.

(** The rest of a string literal, after the opening quote. *)
Fixpoint parse_string (fuel : nat) (s : gostring) : option (gostring * gostring) :=
  match fuel, s with
  | S f, c :: s' =>
    let continue (out : gostring) (rest : gostring) :=
      match parse_string f rest with Some (o, r) => Some (out ++ o, r) | None => None end in
    if bool_decide (c = dquote) then Some ([], s')
    else if bool_decide (c = "\"%char) then
      match unescape1 s' with Some (o, n) => continue o (drop n s') | None => None end
    else if byte_val c <? 32 then None
    else if byte_val c <? 128 then continue [c] s'
    else let '(r, w) := DecodeRune s in continue (EncodeRune r) (drop w s)
  | _, _ => None
  end.

Fixpoint span_digits (s : gostring) : gostring * gostring :=
  match s with
  | c :: s' => if ascii_digit c then let '(a, b) := span_digits s' in (c :: a, b) else ([], s)
  | [] => ([], [])
  end.

(** A number literal and what follows it: the sign, the integer part, the
    fraction and the exponent. *)
Definition parse_sign (s : gostring) : gostring * gostring :=
  match s with
  | c :: t => if bool_decide (c = "-"%char) then ("-", t) else ([], s)
  | [] => ([], [])
  end.

Definition parse_digits (s : gostring) : option (gostring * gostring) :=
  match span_digits s with ([], _) => None | r => Some r end.

Definition parse_int (s : gostring) : option (gostring * gostring) :=
  match s with
  | c :: t => if bool_decide (c = "0"%char) then Some ("0" : gostring, t) else parse_digits s
  | [] => None
  end.

Definition parse_frac (s : gostring) : option (gostring * gostring) :=
  match s with
  | c :: t => if bool_decide (c = "."%char) then
                match parse_digits t with Some (ds, r) => Some (c :: ds, r) | None => None end
              else Some ([], s)
  | [] => Some ([], [])
  end.

Definition exp_sign (s : gostring) : gostring * gostring :=
  match s with
  | d :: u => if bool_decide (d = "+"%char) || bool_decide (d = "-"%char) then ([d], u) else ([], s)
  | [] => ([], [])
  end.

Definition parse_exp (s : gostring) : option (gostring * gostring) :=
  match s with
  | c :: t => if bool_decide (c = "e"%char) || bool_decide (c = "E"%char) then
                let '(sg, t1) := exp_sign t in
                match parse_digits t1 with Some (ds, r) => Some (c :: sg ++ ds, r) | None => None end
              else Some ([], s)
  | [] => Some ([], [])
  end.

Definition parse_number (s : gostring) : option (gostring * gostring) :=
  let '(sign, s1) := parse_sign s in
  match parse_int s1 with
  | None => None
  | Some (int, s2) =>
    match parse_frac s2 with
    | None => None
    | Some (frac, s3) =>
      match parse_exp s3 with
      | None => None
      | Some (exp, s4) => Some (sign ++ int ++ frac ++ exp, s4)
      end
    end
  end.

(** A text that is one number literal. *)
Definition valid_number (lit : gostring) : bool := bool_decide (parse_number lit = Some (lit, [])).

(** The members of an array or an object after the opening bracket, given the
    parser of one member. *)
Fixpoint parse_list {A} (close : ascii) (p : gostring -> option (A * gostring)) (fuel : nat) (s : gostring)
  : option (list A * gostring) :=
  match fuel with
  | O => None
  | S f =>
    match p s with
    | Some (v, s1) =>
      match skip_ws s1 with
      | c :: s2 =>
        if bool_decide (c = close) then Some ([v], s2)
        else if bool_decide (c = ","%char) then
          match parse_list close p f s2 with Some (vs, r) => Some (v :: vs, r) | None => None end
        else None
      | [] => None
      end
    | None => None
    end
  end.

Definition parse_seq {A} (close : ascii) (p : gostring -> option (A * gostring)) (s : gostring)
  : option (list A * gostring) :=
  match skip_ws s with
  | c :: t => if bool_decide (c = close) then Some ([], t) else parse_list close p (length s) s
  | [] => None
  end.

Definition parse_member (p : gostring -> option (json * gostring)) (s : gostring)
  : option ((gostring * json) * gostring) :=
  match skip_ws s with
  | c :: t =>
    if bool_decide (c = dquote) then
      match parse_string (length t) t with
      | Some (k, s1) =>
        match skip_ws s1 with
        | d :: s2 => if bool_decide (d = ":"%char)
                     then match p s2 with Some (v, r) => Some ((k, v), r) | None => None end
                     else None
        | [] => None
        end
      | None => None
      end
    else None
  | [] => None
  end.

(** One value at the start of a text, and what follows it; [depth] levels of
    nesting are allowed. *)
Fixpoint parse_value (depth : nat) (s : gostring) : option (json * gostring) :=
  match skip_ws s with
  | [] => None
  | c :: t =>
    if bool_decide (c = dquote) then
      match parse_string (length t) t with Some (o, r) => Some (JStr o, r) | None => None end
    else if bool_decide (c = "["%char) then
      match depth with
      | O => None
      | S d => match parse_seq "]"%char (parse_value d) t with Some (l, r) => Some (JArr l, r) | None => None end
      end
    else if bool_decide (c = "{"%char) then
      match depth with
      | O => None
      | S d => match parse_seq "}"%char (parse_member (parse_value d)) t with
               | Some (l, r) => Some (JObj l, r) | None => None end
      end
    else if HasPrefix (c :: t) "null" then Some (JNull, drop 4 (c :: t))
    else if HasPrefix (c :: t) "true" then Some (JBool true, drop 4 (c :: t))
    else if HasPrefix (c :: t) "false" then Some (JBool false, drop 5 (c :: t))
    else match parse_number (c :: t) with Some (n, r) => Some (JNum n, r) | None => None end
  end.

(** What the encoder has a text for: a [json.Number] that is no number literal,
    or a float that is not finite, is an error. *)
Fixpoint encodable (v : json) : bool :=
  match v with
  | JNull | JBool _ | JStr _ => true
  | JNum lit => eqs lit [] || valid_number lit
  | JArr l => forallb encodable l
  | JObj kvs => forallb (fun kv => encodable kv.2) kvs
  end.

(** [json.Marshal]; [None] is its error. *)
Definition Marshal (v : json) : option gostring := if encodable v then Some (marshal v) else None.

(** The limit of the library. *)
Definition maxNestingDepth : nat := Z.to_nat 10000.

(** [Decoder.Decode]: one value and the input left, [None] at a syntax error or
    at the end of the input. *)
Definition Decode (s : gostring) : option (json * gostring) := parse_value maxNestingDepth s.

(** Whether [Decode] reports [io.EOF]. *)
Definition at_EOF (s : gostring) : bool := bool_decide (skip_ws s = []).

(** The syntax check and the tree of [json.Unmarshal]: the whole input is one value. *)
Definition Unmarshal (s : gostring) : option json :=
  match Decode s with
  | Some (v, rest) => if at_EOF rest then Some v else None
  | None => None
  end.

(** ** Reading back what was written *)

Lemma hex4_u_escape r rest : 0 <= r < 65536 ->
  hex4 (drop 2 (u_escape r) ++ rest) = Some r.
Proof.
  intros Hr. unfold u_escape, hex4. cbn [app drop].
  destruct (hex_digit_spec (r / 4096)) as [-> ->]; [split; [apply Z.div_pos; lia|apply Z.div_lt_upper_bound; lia]|].
  destruct (hex_digit_spec ((r / 256) mod 16)) as [-> ->]; [apply Z.mod_pos_bound; lia|].
  destruct (hex_digit_spec ((r / 16) mod 16)) as [-> ->]; [apply Z.mod_pos_bound; lia|].
  destruct (hex_digit_spec (r mod 16)) as [-> ->]; [apply Z.mod_pos_bound; lia|].
  cbn. f_equal. pose proof (Z.div_mod r 16 ltac:(lia)). pose proof (Z.div_mod (r / 16) 16 ltac:(lia)).
  pose proof (Z.div_mod (r / 256) 16 ltac:(lia)).
  replace (r / 256) with (r / 16 / 16) in * by (rewrite Z.div_div by lia; f_equal).
  replace (r / 4096) with (r / 16 / 16 / 16) by (rewrite !Z.div_div by lia; f_equal). lia.
Qed.

Lemma split64 a l : 0 <= l < 64 -> (a * 64 + l) / 64 = a /\ (a * 64 + l) mod 64 = l.
Proof.
  intros H. split; [rewrite Z.div_add_l, Z.div_small by lia; lia|].
  rewrite Z.add_comm, Z.mod_add, Z.mod_small by lia. done.
Qed.

Lemma cont_low6 c : cont c = true -> 0 <= low6 c < 64 /\ byte_of (128 + low6 c) = c.
Proof.
  unfold cont, low6. rewrite in_range_spec. intros H. split; [lia|].
  replace (128 + (byte_val c - 128)) with (byte_val c) by lia. apply byte_of_val.
Qed.

Lemma in_range_cont lo hi c : in_range lo hi c = true -> 128 <= lo -> hi <= 191 -> cont c = true.
Proof. unfold cont. rewrite !in_range_spec. lia. Qed.

Lemma EncodeRune_range r : 0 <= r <= 1114111 -> ~ (55296 <= r <= 57343) ->
  EncodeRune r =
    if r <? 128 then [byte_of r]
    else if r <? 2048 then [byte_of (192 + r / 64); byte_of (128 + r mod 64)]
    else if r <? 65536 then
      [byte_of (224 + r / 4096); byte_of (128 + (r / 64) mod 64); byte_of (128 + r mod 64)]
    else [byte_of (240 + r / 262144); byte_of (128 + (r / 4096) mod 64);
          byte_of (128 + (r / 64) mod 64); byte_of (128 + r mod 64)].
Proof.
  intros H1 H2. unfold EncodeRune. destruct (Z.ltb_spec r 0); [lia|]. destruct (Z.ltb_spec 1114111 r); [lia|].
  destruct (Z.leb_spec 55296 r), (Z.leb_spec r 57343); done || lia.
Qed.

Lemma EncodeRune_2 c0 c1 : in_range 194 223 c0 = true -> cont c1 = true ->
  EncodeRune ((byte_val c0 - 192) * 64 + low6 c1) = [c0; c1].
Proof.
  rewrite in_range_spec. intros H0 [H1 E1]%cont_low6. destruct (split64 (byte_val c0 - 192) (low6 c1) H1) as [D M].
  rewrite EncodeRune_range, D, M, E1 by lia. rewrite (proj2 (Z.ltb_ge _ _)), (proj2 (Z.ltb_lt _ _)) by lia.
  replace (192 + (byte_val c0 - 192)) with (byte_val c0) by lia. by rewrite byte_of_val.
Qed.

Lemma EncodeRune_3 c0 c1 c2 : in_range 224 239 c0 = true ->
  in_range (if byte_val c0 =? 224 then 160 else 128) (if byte_val c0 =? 237 then 159 else 191) c1 = true ->
  cont c2 = true ->
  EncodeRune ((byte_val c0 - 224) * 4096 + low6 c1 * 64 + low6 c2) = [c0; c1; c2].
Proof.
  rewrite in_range_spec. intros H0 Hc1 [H2 E2]%cont_low6.
  assert (cont c1 = true) as [H1 E1]%cont_low6.
  { eapply in_range_cont; [exact Hc1|destruct (Z.eqb_spec (byte_val c0) 224); lia|destruct (Z.eqb_spec (byte_val c0) 237); lia]. }
  apply in_range_spec in Hc1. unfold low6 in H1.
  replace ((byte_val c0 - 224) * 4096 + low6 c1 * 64 + low6 c2)
    with (((byte_val c0 - 224) * 64 + low6 c1) * 64 + low6 c2) by lia.
  destruct (split64 (byte_val c0 - 224) (low6 c1) ltac:(unfold low6; lia)) as [D1 M1].
  destruct (split64 ((byte_val c0 - 224) * 64 + low6 c1) (low6 c2) H2) as [D M].
  assert (2048 <= ((byte_val c0 - 224) * 64 + low6 c1) * 64 + low6 c2 < 65536 /\
          ~ (55296 <= ((byte_val c0 - 224) * 64 + low6 c1) * 64 + low6 c2 <= 57343)) as [Hr Hs].
  { unfold low6 in *. destruct (Z.eqb_spec (byte_val c0) 224), (Z.eqb_spec (byte_val c0) 237); lia. }
  rewrite EncodeRune_range by lia. rewrite !(proj2 (Z.ltb_ge _ _)), (proj2 (Z.ltb_lt _ _)) by lia.
  change 4096 with (64 * 64). rewrite <- !Z.div_div, !D, !M, D1, M1 by lia.
  replace (224 + (byte_val c0 - 224)) with (byte_val c0) by lia. by rewrite byte_of_val, E1, E2.
Qed.

Lemma EncodeRune_4 c0 c1 c2 c3 : in_range 240 244 c0 = true ->
  in_range (if byte_val c0 =? 240 then 144 else 128) (if byte_val c0 =? 244 then 143 else 191) c1 = true ->
  cont c2 = true -> cont c3 = true ->
  EncodeRune ((byte_val c0 - 240) * 262144 + low6 c1 * 4096 + low6 c2 * 64 + low6 c3) = [c0; c1; c2; c3].
Proof.
  rewrite in_range_spec. intros H0 Hc1 [H2 E2]%cont_low6 [H3 E3]%cont_low6.
  assert (cont c1 = true) as [H1 E1]%cont_low6.
  { eapply in_range_cont; [exact Hc1|destruct (Z.eqb_spec (byte_val c0) 240); lia|destruct (Z.eqb_spec (byte_val c0) 244); lia]. }
  apply in_range_spec in Hc1. unfold low6 in H1.
  replace ((byte_val c0 - 240) * 262144 + low6 c1 * 4096 + low6 c2 * 64 + low6 c3)
    with ((((byte_val c0 - 240) * 64 + low6 c1) * 64 + low6 c2) * 64 + low6 c3) by lia.
  destruct (split64 (byte_val c0 - 240) (low6 c1) ltac:(unfold low6; lia)) as [D1 M1].
  destruct (split64 ((byte_val c0 - 240) * 64 + low6 c1) (low6 c2) H2) as [D2 M2].
  destruct (split64 (((byte_val c0 - 240) * 64 + low6 c1) * 64 + low6 c2) (low6 c3) H3) as [D M].
  assert (65536 <= (((byte_val c0 - 240) * 64 + low6 c1) * 64 + low6 c2) * 64 + low6 c3 <= 1114111) as Hr.
  { unfold low6 in *. destruct (Z.eqb_spec (byte_val c0) 240), (Z.eqb_spec (byte_val c0) 244); lia. }
  rewrite EncodeRune_range, !(proj2 (Z.ltb_ge _ _)) by lia.
  change 262144 with (64 * 64 * 64). change 4096 with (64 * 64).
  rewrite <- !Z.div_div, !D, !M, !D2, !M2, D1, M1 by lia.
  replace (240 + (byte_val c0 - 240)) with (byte_val c0) by lia. by rewrite byte_of_val, E1, E2, E3.
Qed.

(** A valid multi-byte rune at the start of a string: the bytes it takes encode
    it, and they alone decide it. *)
Lemma DecodeRune_valid c s r w :
  DecodeRune (c :: s) = (r, w) -> 128 <= byte_val c -> ~ (r = RuneError /\ w = 1%nat) ->
  exists p t, c :: s = (c :: p) ++ t /\ w = S (length p) /\ EncodeRune r = c :: p /\
    forall t', DecodeRune ((c :: p) ++ t') = (r, w).
Proof.
  intros E Hc Hv. assert (byte_val c <? 128 = false) as Hlt by lia. unfold DecodeRune in E. rewrite Hlt in E.
  destruct (in_range 194 223 c) eqn:R2.
  { destruct s as [|c1 s]; [by injection E as <- <-; destruct Hv|].
    destruct (cont c1) eqn:C1; [|by injection E as <- <-; destruct Hv]. injection E as <- <-.
    exists [c1], s. split_and!; [done..|by apply EncodeRune_2|].
    intros t'. unfold DecodeRune. cbn [app]. by rewrite Hlt, R2, C1. }
  destruct (in_range 224 239 c) eqn:R3.
  { destruct s as [|c1 [|c2 s]]; try by injection E as <- <-; destruct Hv.
    destruct (_ && _) eqn:C1 in E; [|by injection E as <- <-; destruct Hv]. injection E as <- <-.
    pose proof C1 as [H1 H2]%andb_true_iff.
    exists [c1; c2], s. split_and!; [done..|by apply EncodeRune_3|].
    intros t'. unfold DecodeRune. cbn [app]. by rewrite Hlt, R2, R3, C1. }
  destruct (in_range 240 244 c) eqn:R4; [|by injection E as <- <-; destruct Hv].
  destruct s as [|c1 [|c2 [|c3 s]]]; try by injection E as <- <-; destruct Hv.
  destruct (_ && _) eqn:C1 in E; [|by injection E as <- <-; destruct Hv]. injection E as <- <-.
  pose proof C1 as [[H1 H2]%andb_true_iff H3]%andb_true_iff.
  exists [c1; c2; c3], s. split_and!; [done..|by apply EncodeRune_4|].
  intros t'. unfold DecodeRune. cbn [app]. by rewrite Hlt, R2, R3, R4, C1.
Qed.

Lemma runes_skip_drop k s : runes_skip k s = runes (drop k s).
Proof.
  revert k. induction s as [|c s IH]; intros [|k]; try done. cbn [runes_skip drop]. apply IH.
Qed.

Lemma ValidString_cons c s :
  ValidString (c :: s) = true ->
  let '(r, w) := DecodeRune (c :: s) in
  ~ (r = RuneError /\ w = 1%nat) /\ ValidString (drop (pred w) s) = true.
Proof.
  unfold ValidString, runes at 1. cbn [runes_skip]. rewrite runes_skip_drop.
  destruct (DecodeRune (c :: s)) as [r w] eqn:E. cbn [forallb fst snd]. intros [H1 H2]%andb_true_iff.
  split; [|done]. intros [-> ->]. done.
Qed.

Lemma ValidString_step c s :
  (let '(r, w) := DecodeRune (c :: s) in ~ (r = RuneError /\ w = 1%nat) /\ ValidString (drop (pred w) s) = true) ->
  ValidString (c :: s) = true.
Proof.
  unfold ValidString, runes at 2. cbn [runes_skip]. rewrite runes_skip_drop.
  destruct (DecodeRune (c :: s)) as [r w]. intros [Hn Hv]. cbn [forallb fst snd]. rewrite Hv, andb_true_r.
  destruct (Z.eqb_spec r RuneError), (Nat.eqb_spec w 1); naive_solver.
Qed.

Lemma DecodeRune_ascii c s : byte_val c < 128 -> DecodeRune (c :: s) = (byte_val c, 1%nat).
Proof. intros H. unfold DecodeRune. by destruct (Z.ltb_spec (byte_val c) 128); [|lia]. Qed.

Lemma ValidString_app a b : ValidString a = true -> ValidString b = true -> ValidString (a ++ b) = true.
Proof.
  intros Ha Hb. remember (length a) as n eqn:Hn. revert a Ha Hn.
  induction (lt_wf n) as [n _ IH]. intros a Ha ->. destruct a as [|c a]; [done|].
  apply ValidString_cons in Ha. cbn [app]. apply ValidString_step.
  destruct (Z.ltb_spec (byte_val c) 128) as [Hlt|Hge].
  - rewrite DecodeRune_ascii in Ha |- * by done. destruct Ha as [? Ha]. split; [done|].
    cbn [pred drop] in *. apply (IH (length a)); [simpl; lia|done|done].
  - destruct (DecodeRune (c :: a)) as [r w] eqn:E. destruct Ha as [Hn Hv].
    destruct (DecodeRune_valid c a r w E ltac:(lia) Hn) as (p & t & Es & -> & He & Hd).
    cbn [app] in Es. injection Es as ->. rewrite <- app_assoc. pose proof (Hd (t ++ b)) as Hd'. cbn [app] in Hd'.
    rewrite Hd'. cbn [pred] in *. rewrite drop_app_length in *. split; [done|].
    apply (IH (length t)); [simpl; rewrite length_app; lia|done|done].
Qed.

Lemma ValidString_concat l : Forall (fun s => ValidString s = true) l -> ValidString (concat l) = true.
Proof. induction 1 as [|s l Hs _ IH]; [done|]. by apply ValidString_app. Qed.

Lemma parse_enc_byte c g t : byte_val c < 128 ->
  parse_string (S g) (enc_byte c ++ t) =
    match parse_string g t with Some (o, r) => Some (c :: o, r) | None => None end.
Proof.
  intros H. destruct c as [[] [] [] [] [] [] [] []]; try (exfalso; revert H; by vm_compute); reflexivity.
Qed.

Lemma parse_u2028 r g t : r = 8232 \/ r = 8233 ->
  parse_string (S g) (u_escape r ++ t) =
    match parse_string g t with Some (o, rest) => Some (EncodeRune r ++ o, rest) | None => None end.
Proof. intros [-> | ->]; reflexivity. Qed.

Lemma parse_rune c p r g t : 128 <= byte_val c -> EncodeRune r = c :: p ->
  (forall t', DecodeRune ((c :: p) ++ t') = (r, S (length p))) ->
  parse_string (S g) ((c :: p) ++ t) =
    match parse_string g t with Some (o, rest) => Some ((c :: p) ++ o, rest) | None => None end.
Proof.
  intros Hc He Hd. cbn [parse_string app]. rewrite bool_decide_eq_false_2 by (intros ->; by vm_compute in Hc).
  rewrite bool_decide_eq_false_2 by (intros ->; by vm_compute in Hc).
  destruct (Z.ltb_spec (byte_val c) 32); [lia|]. destruct (Z.ltb_spec (byte_val c) 128); [lia|].
  change (c :: p ++ t) with ((c :: p) ++ t). rewrite Hd, He. cbn [drop app]. by rewrite drop_app_length.
Qed.

Lemma enc_byte_length c : (1 <= length (enc_byte c))%nat.
Proof. unfold enc_byte. repeat case_match; simpl; lia. Qed.

(** A valid string is read back from its literal. *)
Lemma parse_string_enc f s g rest :
  ValidString s = true -> (length s <= f)%nat -> (length (enc_string f s) < g)%nat ->
  parse_string g (enc_string f s ++ dquote :: rest) = Some (s, rest).
Proof.
  revert s g. induction f as [|f IH]; intros s g Hs Hf Hg.
  { destruct s; [|simpl in Hf; lia]. destruct g; [simpl in Hg; lia|]. reflexivity. }
  destruct s as [|c s]; [destruct g; [simpl in Hg; lia|]; reflexivity|].
  cbn [length] in Hf. cbn [enc_string] in *. pose proof (ValidString_cons c s Hs) as Hv.
  destruct (Z.ltb_spec (byte_val c) 128) as [Hlt|Hge].
  - assert (DecodeRune (c :: s) = (byte_val c, 1%nat)) as E
      by (unfold DecodeRune; by destruct (Z.ltb_spec (byte_val c) 128); [|lia]).
    rewrite E in Hv. destruct Hv as [_ Hv]. cbn in Hv.
    rewrite length_app in Hg. pose proof (enc_byte_length c). destruct g as [|g]; [lia|].
    rewrite <- app_assoc, parse_enc_byte, IH by (done || lia). done.
  - destruct (DecodeRune (c :: s)) as [r w] eqn:E. destruct Hv as [Hn Hv].
    destruct (DecodeRune_valid c s r w E ltac:(lia) Hn) as (p & t & Es & -> & He & Hd).
    cbn [app] in Es. injection Es as ->. cbn [pred drop] in Hv, Hg |- *. rewrite drop_app_length in Hv, Hg |- *.
    assert ((r =? RuneError) && (S (length p) =? 1)%nat = false) as Hr.
    { apply andb_false_iff. destruct (Z.eqb_spec r RuneError); [|by left]. right. apply Nat.eqb_neq. naive_solver. }
    rewrite Hr in *. rewrite length_app in Hf.
    destruct ((r =? 8232) || (r =? 8233)) eqn:H28.
    + apply orb_true_iff in H28. rewrite !Z.eqb_eq in H28. rewrite length_app in Hg. cbn in Hg.
      destruct g as [|g]; [lia|]. rewrite <- app_assoc, parse_u2028, IH by (done || lia). by rewrite He.
    + cbn [take] in *. rewrite take_app_length in *. rewrite length_app in Hg. cbn [length] in Hg.
      destruct g as [|g]; [lia|]. rewrite <- app_assoc, (parse_rune c p r), IH by (done || lia). done.
Qed.

(** What may follow a number literal. *)
Definition num_end (s : gostring) : Prop :=
  match s with
  | c :: _ => ascii_digit c = false /\ c <> "."%char /\ c <> "e"%char /\ c <> "E"%char
  | [] => True
  end.

Lemma span_digits_app ds rest : all_digits ds = true ->
  match rest with c :: _ => ascii_digit c = false | [] => True end -> span_digits (ds ++ rest) = (ds, rest).
Proof.
  intros Hd Hr. induction ds as [|c ds IH]; simpl in *.
  - destruct rest as [|c rest]; [done|]. cbn. by rewrite Hr.
  - apply andb_true_iff in Hd as [-> Hd]. by rewrite IH.
Qed.

Lemma FormatUint_head n : 0 < n -> exists c ds, FormatUint n = c :: ds /\ c <> "0"%char /\ c <> "-"%char.
Proof.
  intros Hn. unfold FormatUint. destruct (Z.eqb_spec n 0); [lia|].
  destruct (to_digits_spec 10 ltac:(lia) n ltac:(lia)) as (Hd & _ & Hh).
  destruct (Hh Hn) as (d & l & E & Hne). rewrite E in *. apply Forall_cons in Hd as [Hd _]. cbn [map].
  exists (digit_char d), (map digit_char l). split; [done|].
  pose proof (digit_char_val d Hd) as Hv. unfold is_digit in Hd.
  split; intros Heq; rewrite Heq in Hv;
    [change (byte_val "0"%char) with 48 in Hv|change (byte_val "-"%char) with 45 in Hv]; lia.
Qed.

(** What a scan of digits takes, and that it stops there whatever follows. *)
Lemma span_digits_spec s : let '(ds, r) := span_digits s in
  s = ds ++ r /\ all_digits ds = true /\ match r with c :: _ => ascii_digit c = false | [] => True end.
Proof.
  induction s as [|c s IH]; [done|]. cbn [span_digits]. destruct (ascii_digit c) eqn:E; [|by rewrite E].
  destruct (span_digits s) as [ds r]. destruct IH as (-> & Hd & Hr). split; [done|]. split; [|done]. cbn. by rewrite E.
Qed.

Lemma parse_digits_app s ds r rest : num_end rest -> parse_digits s = Some (ds, r) ->
  parse_digits (s ++ rest) = Some (ds, r ++ rest).
Proof.
  intros Hrest. unfold parse_digits. pose proof (span_digits_spec s) as Hs. destruct (span_digits s) as [[|d ds'] r']; [done|].
  destruct Hs as (-> & Hd & Hr). intros [= <- <-]. rewrite <- app_assoc, span_digits_app; [done|done|].
  destruct r' as [|c r']; [|done]. destruct rest; [done|]. by destruct Hrest.
Qed.

Lemma parse_int_app s i r rest : num_end rest -> parse_int s = Some (i, r) -> parse_int (s ++ rest) = Some (i, r ++ rest).
Proof.
  intros Hrest. destruct s as [|c s]; [done|]. unfold parse_int. cbn [app].
  case_bool_decide; [by intros [= <- <-]|]. by apply (parse_digits_app (c :: s)).
Qed.

Lemma parse_frac_app s f r rest : num_end rest -> parse_frac s = Some (f, r) -> parse_frac (s ++ rest) = Some (f, r ++ rest).
Proof.
  intros Hrest. destruct s as [|c s]; cbn [parse_frac app].
  - intros [= <- <-]. destruct rest as [|d rest]; [done|]. cbn [parse_frac app]. destruct Hrest as (_ & ? & _). by rewrite bool_decide_eq_false_2.
  - case_bool_decide; [|by intros [= <- <-]]. destruct (parse_digits s) as [[ds r']|] eqn:E; [|done].
    intros [= <- <-]. by rewrite (parse_digits_app s ds r' rest Hrest E).
Qed.

Lemma parse_exp_app s e r rest : num_end rest -> parse_exp s = Some (e, r) -> parse_exp (s ++ rest) = Some (e, r ++ rest).
Proof.
  intros Hrest. destruct s as [|c s]; cbn [parse_exp app].
  - intros [= <- <-]. destruct rest as [|d rest]; [done|]. cbn [parse_exp app]. destruct Hrest as (_ & _ & ? & ?).
    by rewrite !bool_decide_eq_false_2.
  - destruct (bool_decide _ || bool_decide _); [|by intros [= <- <-]]. destruct s as [|d s]; [done|]. unfold exp_sign. cbn [app].
    destruct (bool_decide (d = "+"%char) || bool_decide (d = "-"%char)).
    + destruct (parse_digits s) as [[ds r']|] eqn:E; [|done]. intros [= <- <-]. by rewrite (parse_digits_app s ds r' rest Hrest E).
    + destruct (parse_digits (d :: s)) as [[ds r']|] eqn:E; [|done]. intros [= <- <-].
      change (d :: s ++ rest) with ((d :: s) ++ rest). by rewrite (parse_digits_app (d :: s) ds r' rest Hrest E).
Qed.

(** A number literal is read whatever follows it, if that does not continue it. *)
Lemma parse_number_app lit rest : valid_number lit = true -> num_end rest -> parse_number (lit ++ rest) = Some (lit, rest).
Proof.
  unfold valid_number. intros H%bool_decide_eq_true Hrest. revert H. unfold parse_number at 1.
  assert (parse_sign (lit ++ rest) = ((parse_sign lit).1, (parse_sign lit).2 ++ rest) \/ lit = []) as [Hs| ->]; [| |done].
  { destruct lit as [|c lit]; [by right|left]. cbn. by destruct (bool_decide _). }
  unfold parse_number. rewrite Hs. destruct (parse_sign lit) as [sg s1]. cbn [fst snd].
  destruct (parse_int s1) as [[i s2]|] eqn:Ei; [|done]. rewrite (parse_int_app s1 i s2 rest Hrest Ei).
  destruct (parse_frac s2) as [[f s3]|] eqn:Ef; [|done]. rewrite (parse_frac_app s2 f s3 rest Hrest Ef).
  destruct (parse_exp s3) as [[e s4]|] eqn:Ee; [|done]. rewrite (parse_exp_app s3 e s4 rest Hrest Ee).
  intros [= E ->]. by rewrite E.
Qed.

(** A number literal starts with a digit or the sign. *)
Lemma valid_number_head lit : valid_number lit = true -> exists c t, lit = c :: t /\ (ascii_digit c = true \/ c = "-"%char).
Proof.
  unfold valid_number. intros H%bool_decide_eq_true. destruct lit as [|c t]; [done|]. exists c, t. split; [done|].
  revert H. unfold parse_number, parse_sign. case_bool_decide as E; [by right|]. left. revert H. cbn [parse_int].
  case_bool_decide as E0; [by subst c|]. unfold parse_digits. cbn [span_digits]. by destruct (ascii_digit c).
Qed.

(** The text of an integer is a number literal. *)
Lemma valid_FormatInt z : valid_number (FormatInt z) = true.
Proof.
  assert (forall n, 0 <= n -> parse_int (FormatUint n) = Some (FormatUint n, [])) as Hint.
  { intros n Hn. destruct (decide (n = 0)) as [->|Hne]; [done|].
    destruct (FormatUint_head n ltac:(lia)) as (c & ds & E & H0 & _). pose proof (FormatUint_digits n Hn) as Hd.
    rewrite E in *. cbn [parse_int]. rewrite bool_decide_eq_false_2 by done. unfold parse_digits.
    rewrite <- (app_nil_r (c :: ds)) at 1. by rewrite span_digits_app. }
  apply bool_decide_eq_true. unfold FormatInt, parse_number. destruct (Z.ltb_spec z 0) as [Hz|Hz].
  - cbn [parse_sign app]. rewrite bool_decide_eq_true_2, Hint by (done || lia). cbn. by rewrite !app_nil_r.
  - assert (parse_sign (FormatUint z) = ([], FormatUint z)) as ->.
    { destruct (decide (z = 0)) as [->|]; [done|]. destruct (FormatUint_head z ltac:(lia)) as (c & ds & -> & _ & Hc).
      cbn. by rewrite bool_decide_eq_false_2. }
    rewrite Hint by done. cbn. by rewrite !app_nil_r.
Qed.

(** Trees whose strings are valid UTF-8, whose numbers are number literals, and
    whose nesting is at most [d]. *)
Fixpoint wf_json (d : nat) (v : json) : bool :=
  match v with
  | JNull | JBool _ => true
  | JNum lit => valid_number lit
  | JStr s => ValidString s
  | JArr l => match d with O => false | S d => forallb (wf_json d) l end
  | JObj kvs => match d with O => false | S d => forallb (fun kv => ValidString kv.1 && wf_json d kv.2) kvs end
  end.

Lemma wf_JNum d lit : wf_json d (JNum lit) = valid_number lit.
Proof. by destruct d. Qed.

Lemma wf_JInt d z : wf_json d (JInt z) = true.
Proof. unfold JInt. rewrite wf_JNum. apply valid_FormatInt. Qed.

Lemma wf_JStr d s : wf_json d (JStr s) = ValidString s.
Proof. by destruct d. Qed.

Lemma wf_JObj d kvs : wf_json (S d) (JObj kvs) = forallb (fun kv => ValidString kv.1 && wf_json d kv.2) kvs.
Proof. done. Qed.

Lemma wf_JArr d l : wf_json (S d) (JArr l) = forallb (wf_json d) l.
Proof. done. Qed.

Lemma wf_json_mono d d' v : wf_json d v = true -> (d <= d')%nat -> wf_json d' v = true.
Proof.
  revert d' v. induction d as [|d IH]; intros d' v Hv Hd; destruct v as [|b|lit|s|l|kvs]; try done; try by destruct d'.
  - destruct d' as [|d']; [lia|]. rewrite wf_JArr, forallb_forall in *. intros v Hin. apply IH; [by apply Hv|lia].
  - destruct d' as [|d']; [lia|]. rewrite wf_JObj, forallb_forall in *. intros kv Hin. specialize (Hv kv Hin).
    apply andb_true_iff in Hv as [-> Hv]. apply IH; [done|lia].
Qed.

(** Such a tree can be encoded. *)
Lemma wf_encodable d v : wf_json d v = true -> encodable v = true.
Proof.
  revert v. induction d as [|d IH]; intros v Hv; destruct v as [|b|lit|s|l|kvs]; try done;
    try (cbn [encodable]; rewrite wf_JNum in Hv; by rewrite Hv, orb_true_r).
  - rewrite wf_JArr in Hv. cbn [encodable]. rewrite forallb_forall in *. intros v Hin. by apply IH, Hv.
  - rewrite wf_JObj in Hv. cbn [encodable]. rewrite forallb_forall in *. intros kv Hin.
    apply IH. by destruct (andb_prop _ _ (Hv kv Hin)).
Qed.

Lemma Marshal_wf d v : wf_json d v = true -> Marshal v = Some (marshal v).
Proof. intros Hv. unfold Marshal. by rewrite (wf_encodable d v Hv). Qed.

Lemma parse_quote g s rest : ValidString s = true -> (length (quote s ++ rest) <= S g)%nat ->
  exists t, quote s ++ rest = dquote :: t /\ (length t <= g)%nat /\ parse_string g t = Some (s, rest).
Proof.
  intros Hs Hg. unfold quote in *. rewrite <- !app_assoc in *. cbn [app] in *.
  eexists. split; [done|]. cbn [length] in Hg. split; [lia|]. apply parse_string_enc; [done|done|].
  rewrite length_app in Hg. cbn in Hg. lia.
Qed.

(** The first byte of an encoded value. *)
Lemma marshal_head d v : wf_json d v = true ->
  exists c t, marshal v = c :: t /\ is_ws c = false /\ c <> "]"%char /\ c <> "}"%char.
Proof.
  intros Hv. destruct v as [|[]|lit|s|l|kvs]; try by (do 2 eexists; split; [reflexivity|]; vm_compute).
  rewrite wf_JNum in Hv. destruct (valid_number_head lit Hv) as (c & t & -> & Hc). exists c, t. split; [done|].
  destruct Hc as [Hc| ->]; [|done]. destruct c as [[] [] [] [] [] [] [] []]; (discriminate Hc || by vm_compute).
Qed.

Lemma skip_ws_head c t : is_ws c = false -> skip_ws (c :: t) = c :: t.
Proof. intros H. unfold skip_ws. cbn. by rewrite H. Qed.

(** ** The round trip *)

Section ListRoundtrip.
Context {A : Type} (close : ascii) (p : gostring -> option (A * gostring)) (enc : A -> gostring) (ok : A -> Prop).
Context (Hclose : is_ws close = false) (Hcomma : close <> ","%char).
Context (Hp : forall v c r, ok v -> c = ","%char \/ c = close -> p (enc v ++ c :: r) = Some (v, c :: r)).
Context (Henc : forall v, ok v -> exists c t, enc v = c :: t /\ is_ws c = false /\ c <> close).

Lemma parse_list_commas l rest g : Forall ok l -> l <> [] -> (length l <= g)%nat ->
  parse_list close p g (commas (map enc l) ++ close :: rest) = Some (l, rest).
Proof.
  unfold commas. intros Hl. revert g. induction Hl as [|v l Hv Hl IH]; intros g Hn Hg; [done|].
  destruct g as [|g]; [simpl in Hg; lia|]. cbn [map parse_list]. destruct l as [|v2 l].
  - cbn [map Join]. rewrite Hp by auto. rewrite skip_ws_head, bool_decide_eq_true_2 by done. done.
  - cbn [map Join]. rewrite <- !app_assoc. cbn [app]. rewrite Hp by auto. rewrite skip_ws_head by done.
    rewrite bool_decide_eq_false_2, bool_decide_eq_true_2 by done. cbn [map] in IH.
    cbn [length] in Hg. rewrite IH by (done || (cbn [length]; lia)). done.
Qed.

Lemma commas_length l : Forall ok l -> (length l <= length (commas (map enc l)))%nat.
Proof.
  unfold commas. induction 1 as [|v l Hv Hl IH]; [simpl; lia|]. destruct (Henc v Hv) as (c & t & E & _).
  destruct l as [|v2 l]; cbn [map Join length] in *; [rewrite E; simpl; lia|].
  rewrite !length_app, E. cbn [length]. lia.
Qed.

Lemma parse_seq_commas l rest : Forall ok l ->
  parse_seq close p (commas (map enc l) ++ close :: rest) = Some (l, rest).
Proof.
  intros Hl. pose proof (commas_length l Hl) as Hlen. unfold parse_seq. destruct l as [|v l].
  - cbn [map commas Join app]. by rewrite skip_ws_head, bool_decide_eq_true_2.
  - pose proof (Forall_inv Hl) as Hv. destruct (Henc v Hv) as (c & t & E & Hc & Hne).
    assert (exists t', commas (map enc (v :: l)) ++ close :: rest = c :: t') as [t' Et].
    { unfold commas. destruct l; cbn [map Join]; rewrite E; cbn [app]; eauto. }
    rewrite Et, skip_ws_head, bool_decide_eq_false_2, <- Et by done.
    apply parse_list_commas; [done|done|]. rewrite length_app. lia.
Qed.
End ListRoundtrip.

Lemma num_end_close c r : c = ","%char \/ c = "]"%char \/ c = "}"%char -> num_end (c :: r).
Proof. intros [->|[->| ->]]; by vm_compute. Qed.

Lemma parse_number_value d lit rest : valid_number lit = true -> num_end rest ->
  parse_value d (lit ++ rest) = Some (JNum lit, rest).
Proof.
  intros Hv Hr. destruct (valid_number_head lit Hv) as (c & t & E & Hc).
  pose proof (parse_number_app lit rest Hv Hr) as Hn. rewrite E in *. cbn [app] in *.
  assert (is_ws c = false) as Hws.
  { destruct Hc as [Hc| ->]; [|done]. destruct c as [[] [] [] [] [] [] [] []]; (discriminate Hc || by vm_compute). }
  assert (forall c', (ascii_digit c' = false) -> c' <> "-"%char -> c <> c') as Hne 
    by (intros c' H1 H2 ->; destruct Hc; congruence).
  assert (forall x p s, c <> x -> HasPrefix (c :: s) (x :: p) = false) as Hpre
    by (intros x p s Hx; cbn [HasPrefix]; by rewrite bool_decide_eq_false_2 by congruence).
  destruct d; cbn [parse_value]; rewrite skip_ws_head by done;
    rewrite !bool_decide_eq_false_2 by (apply Hne; by vm_compute);
    rewrite !Hpre by (apply Hne; by vm_compute); by rewrite Hn.
Qed.

Lemma parse_string_value d s rest : ValidString s = true ->
  parse_value d (quote s ++ rest) = Some (JStr s, rest).
Proof.
  intros Hs. destruct (parse_quote (pred (length (quote s ++ rest))) s rest Hs) as (t & E & _ & _); [lia|].
  destruct (parse_quote (length t) s rest Hs) as (t' & E' & _ & Ht); [rewrite E; simpl; lia|].
  assert (t' = t) as -> by congruence. rewrite E.
  destruct d; cbn [parse_value]; rewrite skip_ws_head, bool_decide_eq_true_2, Ht by done; done.
Qed.

Lemma parse_member_enc p k v c r : ValidString k = true -> p (marshal v ++ c :: r) = Some (v, c :: r) ->
  parse_member p ((quote k ++ ":" ++ marshal v) ++ c :: r) = Some ((k, v), c :: r).
Proof.
  intros Hk Hp. rewrite <- !app_assoc. set (rest := ":" ++ marshal v ++ c :: r).
  destruct (parse_quote (pred (length (quote k ++ rest))) k rest Hk) as (t & E & _ & _); [lia|].
  destruct (parse_quote (length t) k rest Hk) as (t' & E' & _ & Ht); [rewrite E; simpl; lia|].
  assert (t' = t) as -> by congruence. unfold parse_member. rewrite E, skip_ws_head, bool_decide_eq_true_2, Ht by done.
  unfold rest. cbn [app]. rewrite skip_ws_head, bool_decide_eq_true_2, Hp by done. done.
Qed.

Lemma parse_value_scalar d v rest : wf_json d v = true -> num_end rest ->
  match v with JArr _ | JObj _ => False | _ => True end ->
  parse_value d (marshal v ++ rest) = Some (v, rest).
Proof.
  intros Hv Hr Hs. destruct v as [|b|lit|s|l|kvs]; try done.
  - by destruct d.
  - by destruct d, b.
  - rewrite wf_JNum in Hv. rewrite <- (parse_number_value d lit rest Hv Hr). by destruct lit.
  - apply parse_string_value. by destruct d.
Qed.

(** A tree is read back from its encoding, whatever follows it. *)
Lemma parse_value_marshal d v rest : wf_json d v = true -> num_end rest ->
  parse_value d (marshal v ++ rest) = Some (v, rest).
Proof.
  revert v rest. induction d as [|d IH]; intros v rest Hv Hrest;
    (destruct v as [|b|lit|s|l|kvs]; [by apply parse_value_scalar..| |]); try done; cbn [wf_json] in Hv.
  - cbn [marshal]. rewrite <- !app_assoc. cbn [app]. change ("]" ++ rest) with ("]"%char :: rest).
    assert (Forall (fun v => wf_json d v = true) l) as Hl.
    { apply Forall_forall. intros v Hin. rewrite forallb_forall in Hv. apply Hv. by apply list_elem_of_In. }
    change (parse_value (S d) ("["%char :: ?s)) with
      (match parse_seq "]"%char (parse_value d) s with Some (l, r) => Some (JArr l, r) | None => None end).
    rewrite (parse_seq_commas "]"%char (parse_value d) marshal (fun v => wf_json d v = true)); try done.
    + intros v c r Hv' Hc. apply IH; [done|]. apply num_end_close. naive_solver.
    + intros v Hv'. destruct (marshal_head d v Hv') as (c & t & ? & ? & ? & ?). eauto.
  - cbn [marshal]. rewrite <- !app_assoc. cbn [app]. change ("}" ++ rest) with ("}"%char :: rest).
    assert (Forall (fun kv : gostring * json => ValidString kv.1 = true /\ wf_json d kv.2 = true) kvs) as Hl.
    { apply Forall_forall. intros kv Hin. rewrite forallb_forall in Hv. apply andb_true_iff, Hv. by apply list_elem_of_In. }
    change (parse_value (S d) ("{"%char :: ?s)) with
      (match parse_seq "}"%char (parse_member (parse_value d)) s with Some (l, r) => Some (JObj l, r) | None => None end).
    rewrite (parse_seq_commas "}"%char (parse_member (parse_value d)) (fun kv => quote kv.1 ++ ":" ++ marshal kv.2)
      (fun kv => ValidString kv.1 = true /\ wf_json d kv.2 = true)); try done.
    + intros [k v] c r [Hk Hv'] Hc. apply parse_member_enc; [done|]. apply IH; [done|]. apply num_end_close. naive_solver.
    + intros [k v] [Hk Hv']. unfold quote. cbn [app]. do 2 eexists. done.
Qed.

(** The value of an encoded tree, as [json.Unmarshal] and a [json.Decoder] read it. *)
Lemma Decode_marshal v : wf_json maxNestingDepth v = true -> Decode (marshal v) = Some (v, []).
Proof. intros H. unfold Decode. rewrite <- (app_nil_r (marshal v)) at 1. by apply parse_value_marshal. Qed.

Lemma Unmarshal_marshal v : wf_json maxNestingDepth v = true -> Unmarshal (marshal v) = Some v.
Proof. intros H. unfold Unmarshal. by rewrite Decode_marshal. Qed.

(** ** Reading into Go values *)

(** [json.Unmarshal] into a variable: [zero] is its zero value, [into old v]
    the value after storing [v] over [old], [None] an [UnmarshalTypeError]. *)
Class Unmarshaler (A : Type) := { zero : A; into : A -> json -> option A }.

#[export] Instance string_unmarshaler : Unmarshaler gostring := {
  zero := [];
  into old v := match v with JNull => Some old | JStr s => Some s | _ => None end
}.

#[export] Instance bool_unmarshaler : Unmarshaler bool := {
  zero := false;
  into old v := match v with JNull => Some old | JBool b => Some b | _ => None end
}.

(** Integers of a width; the width is an argument of the instance. *)
Definition into_int (bits : Z) (old : Z) (v : json) : option Z :=
  match v with
  | JNull => Some old
  | JNum lit => match ParseInt lit bits with (z, None) => Some z | _ => None end
  | _ => None
  end.

Definition into_uint (bits : Z) (old : Z) (v : json) : option Z :=
  match v with
  | JNull => Some old
  | JNum lit => match ParseUint lit bits with (z, None) => Some z | _ => None end
  | _ => None
  end.

#[export] Instance int_unmarshaler : Unmarshaler Z := { zero := 0; into := into_int 64 }.

(** [json.RawMessage] and [interface{}] with [UseNumber]. *)
#[export] Instance json_unmarshaler : Unmarshaler json := { zero := JNull; into _ v := Some v }.

(** A map: a later duplicate replaces an earlier one; [null] makes it nil. *)
Definition obj_map (kvs : list (gostring * json)) (m : gmap gostring json) : gmap gostring json :=
  fold_left (fun m kv => <[kv.1 := kv.2]> m) kvs m.

#[export] Instance map_unmarshaler : Unmarshaler (option (gmap gostring json)) := {
  zero := None;
  into old v := match v with
                | JNull => Some None
                | JObj kvs => Some (Some (obj_map kvs (default ∅ old)))
                | _ => None
                end
}.

(** A slice: [null] makes it nil; elements are read over the old ones. *)
Fixpoint into_elems {A} `{Unmarshaler A} (old : list A) (l : list json) : option (list A) :=
  match l with
  | [] => Some []
  | v :: l' =>
    match into (match old with x :: _ => x | [] => zero end) v, into_elems (tail old) l' with
    | Some x, Some xs => Some (x :: xs)
    | _, _ => None
    end
  end.

#[export] Instance slice_unmarshaler {A} `{Unmarshaler A} : Unmarshaler (option (list A)) := {
  zero := None;
  into old v := match v with
                | JNull => Some None
                | JArr l => match into_elems (default [] old) l with Some xs => Some (Some xs) | None => None end
                | _ => None
                end
}.

(** A struct, given the names of its fields and how each is stored: a member
    goes to the field of that name, else to the first whose name matches
    without regard to case, else it is ignored. *)
Definition find_field `{Unicode} {F} (fields : list (gostring * F)) (name : gostring) : option F :=
  match list_find (fun f => f.1 = name) fields with
  | Some (_, f) => Some f.2
  | None => match list_find (fun f => EqualFold f.1 name = true) fields with
            | Some (_, f) => Some f.2
            | None => None
            end
  end.

Definition into_struct `{Unicode} {A} (fields : list (gostring * (A -> json -> option A))) (old : A) (v : json) : option A :=
  match v with
  | JNull => Some old
  | JObj kvs =>
    fold_left (fun acc kv => match acc with
                             | None => None
                             | Some a => match find_field fields kv.1 with
                                         | Some store => store a kv.2
                                         | None => Some a
                                         end
                             end) kvs (Some old)
  | _ => None
  end.

(** The same by field, for large structs: the members that go to the field
    [name] of a struct with the fields [names], stored in order. *)
Definition field_of `{Unicode} (names : list gostring) (key : gostring) : option gostring :=
  find_field (map (fun n => (n, n)) names) key.

Definition into_field `{Unicode} {A} (names : list gostring) (kvs : list (gostring * json)) (name : gostring)
    (store : A -> json -> option A) (old : A) : option A :=
  fold_left (fun acc kv => match acc with
                           | None => None
                           | Some a => if bool_decide (field_of names kv.1 = Some name) then store a kv.2 else Some a
                           end) kvs (Some old).

(** A pointer: [null] makes it nil, another value is stored in what it points
    to, which is created if need be. *)
Definition into_ptr {A} (z : A) (store : A -> json -> option A) (old : option A) (v : json) : option (option A) :=
  match v with
  | JNull => Some None
  | _ => option_map Some (store (default z old) v)
  end.

(** A slice, given how an element is stored. *)
Fixpoint into_list {A} (z : A) (store : A -> json -> option A) (old : list A) (l : list json) : option (list A) :=
  match l with
  | [] => Some []
  | v :: l' =>
    match store (match old with x :: _ => x | [] => z end) v, into_list z store (tail old) l' with
    | Some x, Some xs => Some (x :: xs)
    | _, _ => None
    end
  end.

Definition into_slice {A} (z : A) (store : A -> json -> option A) (old : option (list A)) (v : json) : option (option (list A)) :=
  match v with
  | JNull => Some None
  | JArr l => option_map Some (into_list z store (default [] old) l)
  | _ => None
  end.

(** ** Numbers in [interface{}] values

    A decoder stores a number that goes into an [interface{}] as the float64
    nearest to its literal, unless it was told to keep the literal. *)

(** The text of a finite float64 given by its bits, exactly; [None] for an infinity. *)
Definition float64_text (bits : Z) : option gostring :=
  match (let! d := NewFromFloat bits in String d) with Ok s => Some s | _ => None end.

Definition digits_value (ds : gostring) : Z := default 0 (SetString10 ds).

(** The number literal after its conversion to a float64. *)
Definition float64_number (lit : gostring) : option json :=
  let '(sign, s1) := parse_sign lit in
  match parse_int s1 with
  | None => None
  | Some (int, s2) =>
    match parse_frac s2 with
    | None => None
    | Some (frac, s3) =>
      match parse_exp s3 with
      | None => None
      | Some (exp, _) =>
        let mant := digits_value (int ++ drop 1 frac) in
        let e10 := (let '(sg, ds) := exp_sign (drop 1 exp) in if eqs sg "-" then - digits_value ds else digits_value ds)
                   - Z.of_nat (length (drop 1 frac)) in
        if mant =? 0 then Some (JNum (sign ++ "0"))
        else match float64_text (nearest_bits (mant * 10 ^ Z.max 0 e10) (10 ^ Z.max 0 (- e10))) with
             | Some s => Some (JNum (sign ++ s))
             | None => None
             end
      end
    end
  end.

(** Every number of a tree converted; [None] when one is out of range. *)
Fixpoint float64_numbers (v : json) : option json :=
  match v with
  | JNum lit => float64_number lit
  | JArr l => JArr <$> mapM float64_numbers l
  | JObj kvs => JObj <$> mapM (fun kv => (fun x => (kv.1, x)) <$> float64_numbers kv.2) kvs
  | _ => Some v
  end.

(** Whether the numbers of a tree land in [interface{}] values of a variable of
    the type: they do in an [interface{}] and in a map of them. *)
Class AnyTarget (A : Type) := any_target : bool.
#[export] Instance any_json : AnyTarget json := true.
#[export] Instance any_map : AnyTarget (option (gmap gostring json)) := true.
#[export] Instance no_any {A} : AnyTarget A | 100 := false.

(** [json.Decoder]: its input, and whether it keeps the literals of numbers. *)
Record Decoder := mkDecoder { dec_input : gostring; dec_useNumber : bool }.

Definition NewDecoder (input : gostring) : Decoder := mkDecoder input false.
Definition UseNumber (dec : Decoder) : Decoder := mkDecoder (dec_input dec) true.

(** [Decoder.Decode] into a variable: the first value of the input. *)
Definition Decoder_Decode {A} `{Unmarshaler A, AnyTarget A} (dec : Decoder) (obj : A) : option A :=
  match Decode (dec_input dec) with
  | Some (v, _) =>
      if any_target && negb (dec_useNumber dec)
      then match float64_numbers v with Some v => into obj v | None => None end
      else into obj v
  | None => None
  end.

(** ** [pkg/util/json.go] *)

(** The empty text when the object cannot be encoded. *)
Definition ToJson (obj : json) : gostring :=
  match Marshal obj with
  | Some jsonData => jsonData
  | None => []
  end.

Definition ReadJsonByByte {A} `{Unmarshaler A, AnyTarget A} (body : gostring) (obj : A) : option A :=
  let mdz := NewDecoder body in
  let mdz := UseNumber mdz in
  Decoder_Decode mdz obj.

Definition JsonToMap (s : gostring) : option (option (gmap gostring json)) := ReadJsonByByte s zero.

(** What the number 2^53 + 1 is read as with the literals kept, and without. *)
Example UseNumber_matters :
  ReadJsonByByte "9007199254740993" JNull = Some (JNum "9007199254740993") /\
  Decoder_Decode (NewDecoder "[9007199254740993,0.1e1,-2.5,1e-1]") JNull =
    Some (JArr [JNum "9007199254740992"; JNum "1"; JNum "-2.5"; JNum "0.1000000000000000055511151231257827021181583404541015625"]) /\
  Decoder_Decode (NewDecoder "1e309") JNull = None /\ ReadJsonByByte "1e309" JNull = Some (JNum "1e309").
Proof. by vm_compute. Qed.

(** A decoder that keeps literals stores the tree of the first value as it is. *)
Lemma ReadJsonByByte_first {A} `{Unmarshaler A, AnyTarget A} body (obj : A) v rest :
  Decode body = Some (v, rest) -> ReadJsonByByte body obj = into obj v.
Proof. intros E. unfold ReadJsonByByte, Decoder_Decode, UseNumber. cbn [dec_input NewDecoder dec_useNumber negb]. by rewrite E, andb_false_r. Qed.

Lemma ToJson_wf d v : wf_json d v = true -> ToJson v = marshal v.
Proof. intros Hv. unfold ToJson. by rewrite (Marshal_wf d v Hv). Qed.

(** *** Maps *)

Lemma obj_map_lookup kvs m k :
  obj_map kvs m !! k = match list_find (fun kv => kv.1 = k) (rev kvs) with
                       | Some (_, kv) => Some kv.2 | None => m !! k end.
Proof.
  revert m. unfold obj_map. induction kvs as [|[k' v'] kvs IH]; intros m; [done|].
  cbn [fold_left rev]. rewrite IH. cbn [fst snd].
  destruct (list_find _ (rev kvs)) as [[i kv]|] eqn:E.
  - by rewrite (list_find_app_l _ _ _ _ _ E).
  - rewrite list_find_app_r by done. cbn. case_decide as Hk; cbn; [subst; by rewrite lookup_insert_eq|].
    by rewrite lookup_insert_ne.
Qed.

Lemma elem_of_sort_strings k l : k ∈ sort_strings l <-> k ∈ l.
Proof. unfold sort_strings. by rewrite (merge_sort_Permutation str_le l). Qed.

(** Reading the encoding of a map gives the map. *)
Lemma obj_map_of_map m : match obj_of_map m with JObj kvs => obj_map kvs ∅ = m | _ => False end.
Proof.
  unfold obj_of_map. apply map_eq. intros k. rewrite obj_map_lookup, lookup_empty.
  set (kvs := map _ _).
  assert (forall kv, kv ∈ kvs <-> m !! kv.1 = Some kv.2) as Hkvs.
  { intros [k' v']. unfold kvs. rewrite list_elem_of_In, in_map_iff. cbn. split.
    - intros (k0 & [= <- <-] & Hin%list_elem_of_In). rewrite elem_of_sort_strings in Hin.
      apply list_elem_of_fmap in Hin as ([k1 v1] & -> & Hin). apply elem_of_map_to_list in Hin. cbn. by rewrite Hin.
    - intros Hm. exists k'. rewrite Hm. split; [done|]. apply list_elem_of_In, elem_of_sort_strings, list_elem_of_fmap.
      exists (k', v'). split; [done|]. by apply elem_of_map_to_list. }
  destruct (list_find _ (rev kvs)) as [[i [k' v']]|] eqn:E.
  - apply list_find_Some in E as (Hi & Hk & _). cbn in Hk. subst k'.
    apply list_elem_of_lookup_2 in Hi. rewrite list_elem_of_In, <- in_rev, <- list_elem_of_In in Hi. by apply Hkvs in Hi.
  - apply list_find_None in E. destruct (m !! k) as [v|] eqn:Em; [|done]. exfalso.
    assert ((k, v) ∈ kvs) as Hin by by apply Hkvs. rewrite Forall_forall in E. apply (E (k, v)); [|done].
    rewrite list_elem_of_In, <- in_rev, <- list_elem_of_In. done.
Qed.

(** Well-formed maps encode to well-formed trees. *)
Lemma wf_obj_of_map d m : map_Forall (fun k v => ValidString k = true /\ wf_json d v = true) m ->
  wf_json (S d) (obj_of_map m) = true.
Proof.
  intros H. unfold obj_of_map. cbn [wf_json]. apply forallb_forall. intros kv Hin.
  apply in_map_iff in Hin as (k & <- & Hin%list_elem_of_In). rewrite elem_of_sort_strings in Hin.
  apply list_elem_of_fmap in Hin as ([k1 v1] & -> & Hin). apply elem_of_map_to_list in Hin. cbn [fst snd]. rewrite Hin.
  destruct (H _ _ Hin) as [-> Hv]. exact Hv.
Qed.

Lemma Decode_ToJson v : wf_json maxNestingDepth v = true -> Decode (ToJson v) = Some (v, []).
Proof. intros Hv. rewrite (ToJson_wf _ v Hv). by apply Decode_marshal. Qed.

(** What follows the first value is not looked at. *)
Lemma ReadJsonByByte_written {A} `{Unmarshaler A, AnyTarget A} (obj : A) v rest :
  wf_json maxNestingDepth v = true -> num_end rest -> ReadJsonByByte (ToJson v ++ rest) obj = into obj v.
Proof. intros Hv Hr. rewrite (ToJson_wf _ v Hv). by apply (ReadJsonByByte_first _ _ _ rest), parse_value_marshal. Qed.

Lemma JsonToMap_ToJson v : wf_json maxNestingDepth v = true -> JsonToMap (ToJson v) = into zero v.
Proof. intros Hv. unfold JsonToMap. rewrite <- (app_nil_r (ToJson v)). by apply ReadJsonByByte_written. Qed.

Lemma JsonToMap_obj kvs : wf_json maxNestingDepth (JObj kvs) = true ->
  JsonToMap (ToJson (JObj kvs)) = Some (Some (obj_map kvs ∅)).
Proof. intros H. by rewrite JsonToMap_ToJson. Qed.

(** A map is read back as the same map. *)
Lemma JsonToMap_written m : wf_json maxNestingDepth (obj_of_map m) = true ->
  JsonToMap (ToJson (obj_of_map m)) = Some (Some m).
Proof.
  intros H. rewrite JsonToMap_ToJson by done. pose proof (obj_map_of_map m) as Hm.
  destruct (obj_of_map m); try done. cbn. by rewrite Hm.
Qed.

(** C37 [ReadJsonByByte] reads back what [ToJson] wrote, for every value whose
    strings are UTF-8 and that is nested up to the limit of the library: every
    number comes back as the literal it was, whatever its size, because the
    decoder is told to keep it, and whatever follows the value is not read; a map
    comes back as the same map. A value that has no encoding is written as the
    empty text, and reading that is an error. *)
Theorem json_roundtrip v m rest :
  (wf_json maxNestingDepth v = true -> num_end rest -> ReadJsonByByte (ToJson v ++ rest) JNull = Some v) /\
  (wf_json maxNestingDepth (obj_of_map m) = true -> JsonToMap (ToJson (obj_of_map m)) = Some (Some m)) /\
  (encodable v = false -> ToJson v = [] /\ ReadJsonByByte (ToJson v) JNull = None /\ JsonToMap (ToJson v) = None).
Proof.
  split; [|split; [apply JsonToMap_written|]].
  - intros Hv Hr. by rewrite ReadJsonByByte_written.
  - intros He. unfold ToJson, Marshal. by rewrite He.
Qed.

Lemma json_roundtrip_witness :
  JsonToMap (ToJson (obj_of_map {["a" := JArr [JInt 1; JStr "<é>"]; "id" := JNum "12345678901234567890.50e+3"]})) =
    Some (Some {["a" := JArr [JInt 1; JStr "<é>"]; "id" := JNum "12345678901234567890.50e+3"]}) /\
  ReadJsonByByte (ToJson (JNum "9007199254740993") ++ " [") JNull = Some (JNum "9007199254740993") /\
  ToJson (JArr [JNum "NaN"]) = [].
Proof.
  split; [|split].
  - apply (json_roundtrip JNull _ []). vm_compute. reflexivity.
  - apply (json_roundtrip (JNum "9007199254740993") ∅ " ["); vm_compute; done.
  - apply (json_roundtrip (JArr [JNum "NaN"]) ∅ []). vm_compute. reflexivity.
Defined.
