(* ===== verification/IpLookup.v ===== *)
(** * IpLookup: addresses asked of web services ([pkg/util/ip.go])

    [http.Get] is an argument: an error, or a status with a body that may fail to
    be read. *)
From S2P Require Import Prelude GoStr Json.

#[global] Open Scope Z_scope.
#[global] Open Scope go_scope.

Inductive lookup_err := GetErr (text : gostring) | ReadErr (text : gostring) | JSONErr | TextErr (text : gostring).

Section Lookup.
Context (http_Get : gostring -> gostring + Z * (gostring + gostring)).

Definition GetExternalIP : gostring * option lookup_err :=
  match http_Get "https://ipw.cn/api/ip/myip" with
  | inl err => ([], Some (GetErr err))
  | inr (_, inl err) => ([], Some (ReadErr err))
  | inr (_, inr body) => (TrimSpace body, None)
  end.

Definition field (k : gostring) (m : option (gmap gostring json)) : option json :=
  match m with None => None | Some m => match m !! k with Some JNull => None | v => v end end.

(** Province, city, error. *)
Definition GetIPAddress (ip apiKey : gostring) : gostring * gostring * option lookup_err :=
  if eqs apiKey [] then ([], [], Some (TextErr "apiKey is required"))
  else
    match http_Get ("https://restapi.amap.com/v3/ip?key=" ++ apiKey ++ "&ip=" ++ ip) with
    | inl err => ([], [], Some (GetErr err))
    | inr (status, body) =>
        if negb (status =? 200) then ([], [], Some (TextErr "查询地址失败！"))
        else
          match body with
          | inl err => ([], [], Some (ReadErr err))
          | inr data =>
              match JsonToMap data with
              | None => ([], [], Some JSONErr)
              | Some resultMap =>
                  match field "province" resultMap, field "city" resultMap with
                  | Some (JStr province), Some (JStr city) => (province, city, None)
                  | Some (JStr province), Some _ => (province, [], None)
                  | _, _ => ([], [], None)
                  end
              end
          end
    end.

(** An address without an error comes from an answer 200 that is a JSON object or
    null; a field that is missing or is not a text is left empty, silently. *)
Lemma GetIPAddress_ok ip apiKey province city : GetIPAddress ip apiKey = (province, city, None) ->
  apiKey <> [] /\ exists data m, http_Get ("https://restapi.amap.com/v3/ip?key=" ++ apiKey ++ "&ip=" ++ ip) = inr (200, inr data) /\
    JsonToMap data = Some m /\
    (province <> [] -> field "province" m = Some (JStr province)) /\ (city <> [] -> field "city" m = Some (JStr city)).
Proof.
  unfold GetIPAddress. destruct (eqs apiKey []) eqn:E; [done|].
  destruct (http_Get _) as [err|[status body]]; [done|].
  destruct (Z.eqb_spec status 200) as [->|]; [|done]. cbn [negb].
  destruct body as [err|data]; [done|]. destruct (JsonToMap data) as [m|] eqn:Em; [|done].
  intros Hr. split; [intros ->; by rewrite eqs_refl in E|]. exists data, m. split; [done|]. split; [done|].
  destruct (field "province" m) as [[]|]; destruct (field "city" m) as [[]|]; by simplify_eq/=.
Qed.
End Lookup.
