(* ===== verification/Markdown.v ===== *)
(** * Markdown: the page of a markdown text ([pkg/markdown/markdown.go])

    The parser and renderer of gomarkdown and the highlighter are arguments; the
    hook that replaces the renderer's own output for code is this package's. *)
From S2P Require Import Prelude GoStr.

#[global] Open Scope Z_scope.
#[global] Open Scope go_scope.

(** A node of the library's tree as the hook sees it: code in a line, a block of
    code, each with its literal, or anything else. *)
Inductive Node := Code (Literal : gostring) | CodeBlock (Literal : gostring) | OtherNode.

Inductive WalkStatus := GoToNext.

(** The classes the callback sets; the other fields stay the library's. *)
Record HTMLConfig := mkHTMLConfig { h_Type : gostring; h_Keyword : gostring; h_Plaintext : gostring; h_String : gostring; h_Comment : gostring }.

Definition quote_mark : ascii := byte_of 34.
Definition pre_open : gostring := "<pre class=" ++ [quote_mark] ++ "notranslate" ++ [quote_mark] ++ ">".
Definition pre_close : gostring := "</pre>".

(** What the hook writes to: the page, and standard output. *)
Record outputs := mkOutputs { page : gostring; stdout : list gostring }.
Definition Write (s : gostring) (o : outputs) : outputs := mkOutputs (page o ++ s) (stdout o).
Definition Println (s : gostring) (o : outputs) : outputs := mkOutputs (page o) (stdout o ++ [s]).

Section Markdown.
(** The options the highlighter starts from are changed by the callback. *)
Context {Err : Type} (AsHTML : gostring -> (HTMLConfig -> HTMLConfig) -> gostring * option Err).

Definition code_classes (options : HTMLConfig) : HTMLConfig := mkHTMLConfig "pl-en" "pl-k" "pl-s1" "pl-s1" "pl-c".

(** The answer says whether the hook has rendered the node. *)
Definition renderHookCodeBlock (w : outputs) (node : Node) (entering : bool) : outputs * (WalkStatus * bool) :=
  match node with
  | Code literal => (Write (pre_open ++ literal ++ pre_close) (Println "code-------------->" w), (GoToNext, true))
  | CodeBlock literal =>
      let '(syncHtml, _) := AsHTML literal code_classes in
      (Write (pre_open ++ syncHtml ++ pre_close) w, (GoToNext, true))
  | OtherNode => (w, (GoToNext, false))
  end.

Record RendererOptions := mkRendererOptions { Flags : Z; RenderNodeHook : outputs -> Node -> bool -> outputs * (WalkStatus * bool) }.

Definition ToHtml (CommonFlags HrefTargetBlank : Z) (ToHTML : gostring -> RendererOptions -> outputs -> outputs * gostring) (v : gostring) (w : outputs) : outputs * gostring :=
  if eqs v [] then (w, [])
  else ToHTML v (mkRendererOptions (Z.lor CommonFlags HrefTargetBlank) renderHookCodeBlock) w.

(** The hook renders code and nothing else, whichever way the walk passes. What
    it writes for code in a line is the literal itself: two literals that differ
    give pages that differ in exactly that place, and nothing of the literal is
    escaped, so its markup becomes markup of the page. *)
Lemma hook_renders w node entering :
  (renderHookCodeBlock w node entering).2.2 = match node with OtherNode => false | _ => true end /\
  (forall literal, node = Code literal -> page (renderHookCodeBlock w node entering).1 = page w ++ pre_open ++ literal ++ pre_close).
Proof.
  split; [|by intros literal ->]. destruct node as [l|l|]; [done| |done]. cbn. by destruct (AsHTML l code_classes).
Qed.
End Markdown.

Example hook_code_not_escaped : forall (AsHTML : gostring -> (HTMLConfig -> HTMLConfig) -> gostring * option unit),
  page (renderHookCodeBlock AsHTML (mkOutputs [] []) (Code "<script>alert(1)</script>") true).1 =
  pre_open ++ "<script>alert(1)</script></pre>".
Proof. reflexivity. Qed.
