(* ===== verification/Visibility.v ===== *)
(** * Visibility: who may find a message ([contract/searchmsg])

    [ExtractVisibility] of [visibility.go] with its shared test vectors of
    [visibility_vectors.go], and the message contract of [searchmsg.go]. *)
From S2P Require Import Prelude GoStr Json.

#[global] Open Scope Z_scope.
#[global] Open Scope go_scope.

(** ** The contract of the search pipeline *)

Definition SchemaVersion : Z := 2.

Definition SourceETLMessageTable : gostring := "etl-message-table".

Record Message := mkMessage {
  m_SchemaVersion : Z;
  m_MessageID : gostring;
  m_ChannelID : gostring;
  m_ChannelType : Z;
  m_FromUID : gostring;
  m_SpaceID : gostring;
  m_Visibles : list gostring;
  m_Content : option gostring;
  m_ContentType : Z;
  m_RawPayload : option json;
  m_RawExcluded : bool;
  m_MsgTimestamp : Z;
  m_CreatedAt : Z;
  m_MessageSeq : Z;
  m_Source : gostring
}.

(** A member left out when its field is empty ([omitempty]). *)
Definition omitempty (empty : bool) (k : gostring) (v : json) : list (gostring * json) :=
  if empty then [] else [(k, v)].

Definition Message_json (m : Message) : json :=
  JObj ([("schema_version", JInt (m_SchemaVersion m)); ("message_id", JStr (m_MessageID m));
         ("channel_id", JStr (m_ChannelID m)); ("channel_type", JInt (m_ChannelType m));
         ("from_uid", JStr (m_FromUID m))] ++
        omitempty (eqs (m_SpaceID m) []) "space_id" (JStr (m_SpaceID m)) ++
        omitempty (bool_decide (m_Visibles m = [])) "visibles" (JArr (map JStr (m_Visibles m))) ++
        [("content", match m_Content m with Some s => JStr s | None => JNull end);
         ("content_type", JInt (m_ContentType m))] ++
        omitempty (if m_RawPayload m then false else true) "raw_payload" (default JNull (m_RawPayload m)) ++
        [("raw_excluded", JBool (m_RawExcluded m)); ("msg_timestamp", JInt (m_MsgTimestamp m));
         ("created_at", JInt (m_CreatedAt m))] ++
        omitempty (m_MessageSeq m =? 0) "message_seq" (JInt (m_MessageSeq m)) ++
        [("source", JStr (m_Source m))]).

(** ** [ExtractVisibility] *)

(** The reasons for failing closed; all of them wrap [ErrVisibilityFailClosed]. *)
Inductive ErrVisibilityFailClosed :=
| NotAnObject
| PayloadNull
| TrailingData
| VisiblesNull
| VisiblesNotArray
| VisiblesEmpty.

(** The elements that are non-empty strings. *)
Fixpoint valid_uids (elems : list json) : list gostring :=
  match elems with
  | [] => []
  | raw :: elems =>
    match into (zero : gostring) raw with
    | None => valid_uids elems
    | Some s => if negb (eqs s []) then s :: valid_uids elems else valid_uids elems
    end
  end.

Definition ExtractVisibility (payload : gostring) : go ErrVisibilityFailClosed (gostring * option (list gostring)) :=
  match Decode payload with
  | None => Err NotAnObject
  | Some (v, rest) =>
    match into (zero : option (gmap gostring json)) v with
    | None => Err NotAnObject
    | Some None => Err PayloadNull
    | Some (Some top) =>
      if negb (at_EOF rest) then Err TrailingData
      else
        let spaceID := match top !! ("space_id" : gostring) with
                       | Some raw => match into (zero : gostring) raw with Some s => s | None => [] end
                       | None => []
                       end in
        match top !! ("visibles" : gostring) with
        | None => Ok (spaceID, None)
        | Some JNull => Err VisiblesNull
        | Some rawVis =>
          match into (zero : option (list json)) rawVis with
          | None => Err VisiblesNotArray
          | Some elems =>
            match valid_uids (default [] elems) with
            | [] => Err VisiblesEmpty
            | out => Ok (spaceID, Some out)
            end
          end
        end
    end
  end.

(** ** What the caller may rely on *)

Lemma into_elems_json old (l : list json) : into_elems old l = Some l.
Proof. revert old. induction l as [|v l IH]; intros old; [done|]. cbn. by rewrite IH. Qed.

(** The space identifier that a payload object carries. *)
Definition space_of (top : gmap gostring json) : gostring :=
  match top !! ("space_id" : gostring) with Some (JStr s) => s | _ => [] end.

Lemma space_of_spec top :
  (match top !! ("space_id" : gostring) with
   | Some raw => match into (zero : gostring) raw with Some s => s | None => [] end
   | None => [] end) = space_of top.
Proof. unfold space_of. by destruct (top !! _) as [[]|]. Qed.

Lemma valid_uids_spec elems : valid_uids elems = omap (fun v => match v with JStr (c :: s) => Some (c :: s) | _ => None end) elems.
Proof.
  induction elems as [|v elems IH]; [done|]. cbn [valid_uids omap list_omap]. rewrite IH.
  by destruct v as [| | |[|c s]| |].
Qed.

Lemma ExtractVisibility_accepts payload kvs rest vis :
  Decode payload = Some (JObj kvs, rest) -> at_EOF rest = true ->
  match obj_map kvs ∅ !! ("visibles" : gostring) with
  | None => vis = None
  | Some (JArr l) => valid_uids l <> [] /\ vis = Some (valid_uids l)
  | Some _ => False
  end ->
  ExtractVisibility payload = Ok (space_of (obj_map kvs ∅), vis).
Proof.
  unfold ExtractVisibility. intros -> Hr H. cbn [into map_unmarshaler zero from_option].
  rewrite space_of_spec, Hr. cbn [negb].
  destruct (obj_map kvs ∅ !! _) as [[| | | |l|]|]; try done; [|by subst].
  destruct H as [Hne ->]. cbn. rewrite into_elems_json. cbn. by destruct (valid_uids l).
Qed.

(** A list element that names a user: a string, and not the empty one. *)
Definition names_user (v : json) : bool :=
  match v with JStr (_ :: _) => true | _ => false end.

(** The user identifiers of a whitelist, without the code's loop: as strings of
    the tree they are the elements that name a user, in their order. *)
Lemma valid_uids_filter elems us :
  us = valid_uids elems <-> map JStr us = List.filter names_user elems.
Proof.
  revert us. induction elems as [|v elems IH]; intros us; cbn [valid_uids List.filter].
  - by destruct us.
  - destruct v as [| | |[|c s]| |]; cbn; try apply IH. change (eqs (c :: s) []) with false. cbn [negb]. split.
    + intros ->. cbn. f_equal. by apply IH.
    + destruct us as [|u us]; [done|]. intros [= -> E%IH]. by rewrite E.
Qed.

(** C12 [ExtractVisibility] fails closed: it accepts a payload only when the bytes
    are exactly one JSON object, and then either the object has no "visibles"
    member and the message is a broadcast, or the member is an array and the
    visibles are exactly its elements that are non-empty strings, in order, of
    which there is at least one; so it never returns an empty whitelist, and
    every identifier of the whitelist is a non-empty string of the array. *)
Theorem ExtractVisibility_iff payload space vis :
  ExtractVisibility payload = Ok (space, vis) <->
  exists kvs rest, Decode payload = Some (JObj kvs, rest) /\ at_EOF rest = true /\
    space = space_of (obj_map kvs ∅) /\
    match obj_map kvs ∅ !! ("visibles" : gostring), vis with
    | None, None => True
    | Some (JArr l), Some us => us <> [] /\ map JStr us = List.filter names_user l
    | _, _ => False
    end.
Proof.
  split.
  - unfold ExtractVisibility. destruct (Decode payload) as [[v rest]|]; [|done].
    destruct v as [| | | | |kvs]; cbn [into map_unmarshaler]; try done.
    cbn [zero map_unmarshaler from_option]. rewrite space_of_spec. destruct (at_EOF rest) eqn:Hr; cbn [negb]; [|done].
    intros H. exists kvs, rest. split; [done|]. split; [done|]. revert H.
    destruct (obj_map kvs ∅ !! _) as [[| | | |l|]|]; cbn; intros H; try done; [|by injection H as <- <-].
    rewrite into_elems_json in H. cbn in H. destruct (valid_uids l) as [|u us] eqn:Eu; [done|]. injection H as <- <-.
    split; [done|]. split; [done|]. by apply valid_uids_filter.
  - intros (kvs & rest & HD & Hr & -> & H). apply (ExtractVisibility_accepts _ _ _ _ HD); [done|].
    destruct (obj_map kvs ∅ !! _) as [[| | | |l|]|], vis as [us|]; try done.
    destruct H as [Hne Hus%valid_uids_filter]. by subst us.
Qed.

(** ** The shared vectors *)

Record VisibilityVector := mkVector {
  Name : gostring; Payload : gostring; WantErr : bool; WantSpaceID : gostring; WantVisibles : option (list gostring)
}.

(** In the payloads the apostrophes stand for double quotes. *)
Definition FailClosedVisibilityVectors : list VisibilityVector := [
  mkVector "broadcast/no_visibles_key" (jq "{'type':1,'content':'hello group'}") false "" None;
  mkVector "broadcast/no_visibles_with_space_id" (jq "{'type':1,'content':'hi','space_id':'space_42'}") false "space_42" None;
  mkVector "valid/visibles_single_uid" (jq "{'type':99,'content':'you were removed','visibles':['u_alice']}") false "" (Some [("u_alice" : gostring)]);
  mkVector "valid/visibles_multi_uid_with_space" (jq "{'content':'x','visibles':['u_a','u_b'],'space_id':'s1'}") false "s1" (Some [("u_a" : gostring); ("u_b" : gostring)]);
  mkVector "tolerant/space_id_number_does_not_drop_visibles" (jq "{'content':'x','space_id':123,'visibles':['u_a','u_b']}") false "" (Some [("u_a" : gostring); ("u_b" : gostring)]);
  mkVector "valid/visibles_mixed_skips_non_string" (jq "{'content':'x','visibles':['u_a',123,null,'u_b']}") false "" (Some [("u_a" : gostring); ("u_b" : gostring)]);
  mkVector "failclosed/payload_not_json" (jq "{not valid json") true "" None;
  mkVector "failclosed/payload_top_level_array" (jq "['a','b']") true "" None;
  mkVector "failclosed/payload_top_level_scalar" (jq "'just a string'") true "" None;
  mkVector "failclosed/payload_json_null" "null" true "" None;
  mkVector "failclosed/payload_trailing_data" (jq "{'content':'x'} garbage") true "" None;
  mkVector "failclosed/payload_trailing_bracket" (jq "{'content':'x'}]") true "" None;
  mkVector "failclosed/payload_trailing_brace" (jq "{'content':'x'}}") true "" None;
  mkVector "failclosed/visibles_object_not_array" (jq "{'content':'x','visibles':{'u_a':true}}") true "" None;
  mkVector "failclosed/visibles_string_not_array" (jq "{'content':'x','visibles':'u_a'}") true "" None;
  mkVector "failclosed/visibles_empty_array" (jq "{'content':'x','visibles':[]}") true "" None;
  mkVector "failclosed/visibles_null" (jq "{'content':'x','visibles':null}") true "" None;
  mkVector "failclosed/visibles_all_non_string" (jq "{'content':'x','visibles':[123,456,null]}") true "" None;
  mkVector "failclosed/visibles_all_empty_string" (jq "{'content':'x','visibles':['','']}") true "" None
].

(** Whether the function does what a vector wants. *)
Definition meets (v : VisibilityVector) : bool :=
  match ExtractVisibility (Payload v) with
  | Ok (s, vis) => negb (WantErr v) && bool_decide (s = WantSpaceID v) && bool_decide (vis = WantVisibles v)
  | _ => WantErr v
  end.

Example vectors_met : forallb meets FailClosedVisibilityVectors = true.
Proof. vm_compute. reflexivity. Qed.

(** A payload written by the library itself: the whitelist comes back as it went in. *)
Lemma ExtractVisibility_written m space vis :
  wf_json maxNestingDepth (obj_of_map m) = true ->
  m !! ("visibles" : gostring) = Some (JArr (map JStr vis)) -> vis <> [] -> Forall (fun u => u <> []) vis ->
  space_of m = space -> ExtractVisibility (ToJson (obj_of_map m)) = Ok (space, Some vis).
Proof.
  intros Hwf Hv Hne Hall <-. pose proof (obj_map_of_map m) as Hm.
  pose proof (Decode_ToJson _ Hwf) as HD. destruct (obj_of_map m) as [| | | | |kvs]; try done.
  rewrite <- Hm. apply (ExtractVisibility_accepts _ _ _ _ HD); [done|]. rewrite Hm, Hv.
  assert (valid_uids (map JStr vis) = vis) as ->; [|done].
  clear - Hall. induction Hall as [|[|c u] us Hu _ IH]; [done|done|]. cbn. by rewrite IH.
Qed.

Lemma ExtractVisibility_broadcast m :
  wf_json maxNestingDepth (obj_of_map m) = true -> m !! ("visibles" : gostring) = None ->
  ExtractVisibility (ToJson (obj_of_map m)) = Ok (space_of m, None).
Proof.
  intros Hwf Hv. pose proof (obj_map_of_map m) as Hm.
  pose proof (Decode_ToJson _ Hwf) as HD. destruct (obj_of_map m) as [| | | | |kvs]; try done.
  rewrite <- Hm. apply (ExtractVisibility_accepts _ _ _ _ HD); [done|]. by rewrite Hm, Hv.
Qed.

Lemma ExtractVisibility_null m :
  wf_json maxNestingDepth (obj_of_map m) = true -> m !! ("visibles" : gostring) = Some JNull ->
  ExtractVisibility (ToJson (obj_of_map m)) = Err VisiblesNull.
Proof.
  intros Hwf Hv. unfold ExtractVisibility. rewrite Decode_ToJson by done.
  pose proof (obj_map_of_map m) as Hm. destruct (obj_of_map m) as [| | | | |kvs]; try done.
  cbn [into map_unmarshaler zero from_option id]. by rewrite Hm, Hv.
Qed.

(** A whitelist without a valid identifier. *)
Lemma ExtractVisibility_none_valid m l :
  wf_json maxNestingDepth (obj_of_map m) = true -> m !! ("visibles" : gostring) = Some (JArr l) -> valid_uids l = [] ->
  ExtractVisibility (ToJson (obj_of_map m)) = Err VisiblesEmpty.
Proof.
  intros Hwf Hv Hl. unfold ExtractVisibility. rewrite Decode_ToJson by done.
  pose proof (obj_map_of_map m) as Hm. destruct (obj_of_map m) as [| | | | |kvs]; try done.
  cbn [into map_unmarshaler zero from_option]. rewrite Hm, Hv. cbn [into slice_unmarshaler zero from_option].
  rewrite into_elems_json. cbn [from_option id]. by rewrite Hl.
Qed.
