(* ===== verification/Msg.v ===== *)
(** * Msg: message types, channels and constants ([common/msg.go],
    [common/constant.go], [common/page.go]) *)
From S2P Require Import Prelude GoStr Json Crypto.

#[global] Open Scope Z_scope.
#[global] Open Scope go_scope.

(** ** Content types *)

Definition ContentType := Z.

Definition Text : ContentType := 1.
Definition Image : ContentType := 2.
Definition GIF : ContentType := 3.
Definition Voice : ContentType := 4.
Definition Video : ContentType := 5.
Definition Location : ContentType := 6.
Definition Card : ContentType := 7.
Definition File : ContentType := 8.
Definition MultipleForward : ContentType := 11.
Definition VectorSticker : ContentType := 12.
Definition EmojiSticker : ContentType := 13.
Definition RichText : ContentType := 14.
Definition InviteJoinOrganization : ContentType := 16.
Definition ContentError : ContentType := 97.
Definition SignalError : ContentType := 98.
Definition CMD : ContentType := 99.
Definition Tip : ContentType := 2000.
Definition FriendApply : ContentType := 1000.
Definition GroupCreate : ContentType := 1001.
Definition GroupMemberAdd : ContentType := 1002.
Definition GroupMemberRemove : ContentType := 1003.
Definition FriendSure : ContentType := 1004.
Definition GroupUpdate : ContentType := 1005.
Definition RevokeMessage : ContentType := 1006.
Definition GroupMemberScanJoin : ContentType := 1007.
Definition GroupTransferGrouper : ContentType := 1008.
Definition GroupMemberInvite : ContentType := 1009.
Definition GroupMemberBeRemove : ContentType := 1020.
Definition GroupMemberQuit : ContentType := 1021.
Definition GroupUpgrade : ContentType := 1022.
Definition HotlineAssignTo : ContentType := 1200.
Definition HotlineSolved : ContentType := 1201.
Definition HotlineReopen : ContentType := 1202.
Definition VideoCallResult : ContentType := 9989.

Definition ContentType_Int (c : ContentType) : Z := c.

Definition GetDisplayText (contentType : Z) : gostring :=
  if contentType =? Text then "文本消息"
  else if contentType =? Image then "图片消息"
  else if contentType =? GIF then "GIF"
  else if contentType =? Voice then "语音"
  else if contentType =? Video then "视频"
  else if contentType =? Location then "位置"
  else if contentType =? Card then "名片"
  else if contentType =? File then "文件"
  else if contentType =? MultipleForward then "合并转发消息"
  else if contentType =? VectorSticker then "贴纸"
  else if contentType =? EmojiSticker then "emoji"
  else if contentType =? RichText then "富文本消息"
  else "未知消息类型".

Definition ContentType_String (c : ContentType) : gostring :=
  if c =? Text then "Text"
  else if c =? Image then "Image"
  else if c =? GIF then "GIF"
  else if c =? Voice then "Voice"
  else if c =? CMD then "CMD"
  else if c =? FriendApply then "FriendApply"
  else if c =? GroupCreate then "GroupCreate"
  else if c =? GroupMemberAdd then "GroupMemberAdd"
  else if c =? GroupMemberRemove then "GroupMemberRemove"
  else if c =? FriendSure then "FriendSure"
  else if c =? GroupUpdate then "GroupUpdate"
  else if c =? RevokeMessage then "RevokeMessage"
  else FormatInt c.

(** ** Fake channel identifiers

    The conversation of two users is the channel named after both, the one with
    the larger hash first. *)

Definition at_sign : ascii := "@"%char.

Definition GetFakeChannelIDWith (fromUID toUID : gostring) : gostring :=
  let fromUIDHash := HashCrc32 fromUID in
  let toUIDHash := HashCrc32 toUID in
  if toUIDHash <? fromUIDHash then fromUID ++ [at_sign] ++ toUID
  else toUID ++ [at_sign] ++ fromUID.

Definition IsFakeChannel (channelID : gostring) : bool := ContainsByte channelID at_sign.

(** The other party of a fake channel. *)
Definition GetToChannelIDWithFakeChannelID (fakeChannelID uid : gostring) : gostring :=
  match Split fakeChannelID at_sign with
  | [a; b] => if eqs a uid then b else a
  | _ => fakeChannelID
  end.

(** The fake channel of two users is recognised as one, gives back to each of
    them the other, and is the same from both sides unless their hashes collide. *)
Theorem FakeChannel_spec a b (Ha : at_sign ∉ a) (Hb : at_sign ∉ b) :
  IsFakeChannel (GetFakeChannelIDWith a b) = true /\
  GetToChannelIDWithFakeChannelID (GetFakeChannelIDWith a b) a = b /\
  GetToChannelIDWithFakeChannelID (GetFakeChannelIDWith a b) b = a /\
  (HashCrc32 a <> HashCrc32 b -> GetFakeChannelIDWith a b = GetFakeChannelIDWith b a).
Proof.
  assert (forall x y, at_sign ∉ x -> at_sign ∉ y -> Split (x ++ [at_sign] ++ y) at_sign = [x; y]) as Hs.
  { intros x y Hx Hy. cbn [app]. by rewrite Split_app, Split_notin. }
  assert (forall x y, IsFakeChannel (x ++ [at_sign] ++ y) = true) as Hf.
  { intros x y. unfold IsFakeChannel, ContainsByte. apply bool_decide_eq_true. set_solver. }
  assert (forall x y, at_sign ∉ x -> at_sign ∉ y ->
    GetToChannelIDWithFakeChannelID (x ++ [at_sign] ++ y) x = y /\
    GetToChannelIDWithFakeChannelID (x ++ [at_sign] ++ y) y = x) as Hg.
  { intros x y Hx Hy. unfold GetToChannelIDWithFakeChannelID. rewrite Hs by done. rewrite eqs_refl. split; [done|].
    destruct (eqs x y) eqn:E; [|done]. by apply eqs_spec in E. }
  unfold GetFakeChannelIDWith. split; [by case_match|]. split; [|split].
  - case_match; by apply Hg.
  - case_match; by apply Hg.
  - intros Hne. destruct (Z.ltb_spec (HashCrc32 b) (HashCrc32 a)), (Z.ltb_spec (HashCrc32 a) (HashCrc32 b)); done || lia.
Qed.

Lemma FakeChannel_spec_witness :
  HashCrc32 "alice" <> HashCrc32 "bob" /\ GetFakeChannelIDWith "alice" "bob" = GetFakeChannelIDWith "bob" "alice".
Proof.
  split; [by vm_compute|]. apply FakeChannel_spec; [apply (bool_decide_unpack _); by vm_compute..|by vm_compute].
Defined.

(** ** Constants of [constant.go] *)

Definition ErrData : gostring := "数据格式有误！".

Definition ChannelTypeNone : Z := 0.
Definition ChannelTypePerson : Z := 1.
Definition ChannelTypeGroup : Z := 2.
Definition ChannelTypeCustomerService : Z := 3.
Definition ChannelTypeCommunity : Z := 4.
Definition ChannelTypeCommunityTopic : Z := 5.
Definition ChannelTypeInfo : Z := 6.
Definition ChannelType_Uint8 (c : Z) : Z := uint8 c.

Definition GroupMemberStatusNormal : Z := 1.
Definition GroupMemberStatusBlacklist : Z := 2.
Definition GroupMemberRoleCreater : Z := 1.
Definition GroupMemberRoleManager : Z := 2.
Definition GroupMemberRoleNormal : Z := 0.
Definition GroupAllowViewHistoryMsgDisabled : Z := 0.
Definition GroupAllowViewHistoryMsgEnabled : Z := 1.

(** The keys under which sequence numbers are kept. *)
Definition seq_keys : list gostring :=
  ["groupMember"; "groupSetting"; "group"; "userSetting"; "user"; "friend"; "messageExtra"; "messageReaction";
   "robot"; "robotEventSeq:"; "sensitiveWords"; "reminders"; "syncConversationExtra"; "ProhibitWord"].

Definition GroupAttrKeyName : gostring := "name".
Definition GroupAttrKeyNotice : gostring := "notice".
Definition GroupAttrKeyForbidden : gostring := "forbidden".
Definition GroupAttrKeyInvite : gostring := "invite".
Definition GroupAttrKeyForbiddenAddFriend : gostring := "forbidden_add_friend".
Definition GroupAttrKeyStatus : gostring := "status".
Definition GroupAllowViewHistoryMsg : gostring := "allow_view_history_msg".
Definition GroupAllowMemberPinnedMessage : gostring := "allow_member_pinned_message".

Definition CMDChannelUpdate : gostring := "channelUpdate".
Definition CMDGroupMemberUpdate : gostring := "memberUpdate".
Definition CMDConversationUnreadClear : gostring := "unreadClear".
Definition CMDFriendDeleted : gostring := "friendDeleted".
Definition CMDTyping : gostring := "typing".

(** The other command names, in the order of the source. *)
Definition cmd_names : list gostring :=
  [CMDChannelUpdate; CMDGroupMemberUpdate; CMDConversationUnreadClear; "groupAvatarUpdate"; "communityAvatarUpdate";
   "communityCoverUpdate"; "conversationDelete"; "friendRequest"; "friendAccept"; CMDFriendDeleted; "userAvatarUpdate";
   CMDTyping; "onlineStatus"; "momentMsg"; "syncMessageExtra"; "syncMessageReaction"; "pcQuit"; "conversationDeleted";
   "syncReminders"; "syncConversationExtra"; "organizationInfoUpdate"; "quitOrganization"; "joinOrganization";
   "syncPinnedMessage"; "messageErase"].

Definition cache_prefixes : list gostring :=
  ["userDeviceToken:"; "userDeviceBadge"; "qrcode:"; "authcode:"; "deviceCacheUUID:"].

Definition auth_code_types : list gostring := ["joinGroup"; "groupMemberInvite"; "scanLogin"].
Definition device_types : list gostring := ["IOS"; "MI"; "HMS"; "FIREBASE"; "OPPO"; "VIVO"].
Definition QRCodeTypeGroup : gostring := "group".
Definition QRCodeTypeScanLogin : gostring := "scanLogin".
Definition scan_login_statuses : list gostring := ["expired"; "waitScan"; "scanned"; "authed"].

(** The sequence keys, the commands and the cache prefixes are told apart. *)
Example names_distinct : NoDup seq_keys /\ NoDup cmd_names /\ NoDup cache_prefixes.
Proof. split_and!; apply (bool_decide_unpack _); vm_compute; exact I. Qed.

(** Codes for how a friend was found. *)
Inductive VercodeType := User | GroupMember | QRCode | Friend | MailList | InvitationCode.

Definition VercodeType_value (v : VercodeType) : Z :=
  match v with User => 1 | GroupMember => 2 | QRCode => 3 | Friend => 4 | MailList => 5 | InvitationCode => 6 end.

Definition UserAvailable : Z := 1.
Definition UserDisable : Z := 0.

Record QRCodeModel := mkQRCodeModel { qr_Type : gostring; qr_Data : option (gmap gostring json) }.
Definition NewQRCodeModel (typ : gostring) (data : option (gmap gostring json)) : QRCodeModel := mkQRCodeModel typ data.

(** The text between quotes as it is, with no escapes. *)
Definition QRCodeType_MarshalJSON (q : gostring) : gostring := [dquote] ++ q ++ [dquote].

Definition QRCodeType_UnmarshalJSON (q b : gostring) : option gostring :=
  match Unmarshal b with
  | Some v => into (zero : gostring) v
  | None => None
  end.

Definition RTCCallTypeAudio : Z := 0.
Definition RTCCallTypeVideo : Z := 1.
Definition RTCResultTypeCancel : Z := 0.
Definition RTCResultTypeHangup : Z := 1.
Definition RTCResultTypeMissed : Z := 2.
Definition RTCResultTypeRefuse : Z := 3.

(** The QR code types survive their JSON form. *)
Example QRCodeType_roundtrip :
  Forall (fun q => QRCodeType_UnmarshalJSON [] (QRCodeType_MarshalJSON q) = Some q) [QRCodeTypeGroup; QRCodeTypeScanLogin].
Proof. repeat constructor. Qed.

(** [page.go] *)
Record PageResult (A : Type) := mkPageResult { pr_PageIndex : Z; pr_PageSize : Z; pr_Total : Z; pr_Data : A }.
Definition NewPageResult {A} (pageIndex pageSize total : Z) (data : A) : PageResult A :=
  mkPageResult A pageIndex pageSize total data.
