(* ===== verification/RichText.v ===== *)
(** * RichText: mixed text and image payloads ([common/richtext.go]) *)
From S2P Require Import Prelude GoStr GoUrl Json Msg.

#[global] Open Scope Z_scope.
#[global] Open Scope go_scope.

Section RichText.
Context `{Unicode}.

(** ** Data *)

Definition RichTextBlockText : gostring := "text".
Definition RichTextBlockImage : gostring := "image".
Definition RichTextImagePlaceholder : gostring := "[图片]".
Definition RichTextMaxPayloadBytes : Z := 1048576.

Inductive richtext_err :=
| ErrRichTextPayloadTooLarge
| ErrRichTextEmptyContent
| ErrRichTextUnknownBlock
| ErrRichTextTextEmpty
| ErrRichTextImageNoURL
| ErrRichTextImageBadScheme
| ErrRichTextImageNoSize
| ErrJSON.        (** an error of [encoding/json] *)

Record RichTextBlock := mkBlock {
  Type_ : gostring; bText : gostring; bURL : gostring; Width : Z; Height : Z; Size : Z; bName : gostring
}.

(** A nil [Content] differs from an empty one in the JSON text only. *)
Record RichTextPayload := mkPayload { Content : option (list RichTextBlock); Plain : gostring }.

(** ** JSON form of the data *)

#[export] Instance block_unmarshaler : Unmarshaler RichTextBlock := {
  zero := mkBlock [] [] [] 0 0 0 [];
  into := into_struct [
    ("type" : gostring, fun b v => option_map (fun x => mkBlock x (bText b) (bURL b) (Width b) (Height b) (Size b) (bName b)) (into (Type_ b) v));
    ("text" : gostring, fun b v => option_map (fun x => mkBlock (Type_ b) x (bURL b) (Width b) (Height b) (Size b) (bName b)) (into (bText b) v));
    ("url" : gostring, fun b v => option_map (fun x => mkBlock (Type_ b) (bText b) x (Width b) (Height b) (Size b) (bName b)) (into (bURL b) v));
    ("width" : gostring, fun b v => option_map (fun x => mkBlock (Type_ b) (bText b) (bURL b) x (Height b) (Size b) (bName b)) (into (Width b) v));
    ("height" : gostring, fun b v => option_map (fun x => mkBlock (Type_ b) (bText b) (bURL b) (Width b) x (Size b) (bName b)) (into (Height b) v));
    ("size" : gostring, fun b v => option_map (fun x => mkBlock (Type_ b) (bText b) (bURL b) (Width b) (Height b) x (bName b)) (into (Size b) v));
    ("name" : gostring, fun b v => option_map (fun x => mkBlock (Type_ b) (bText b) (bURL b) (Width b) (Height b) (Size b) x) (into (bName b) v))]
}.

Definition opt_string (k s : gostring) : list (gostring * json) := if eqs s [] then [] else [(k, JStr s)].
Definition opt_int (k : gostring) (z : Z) : list (gostring * json) := if z =? 0 then [] else [(k, JInt z)].

Definition RichTextBlock_json (b : RichTextBlock) : json :=
  JObj ([("type" : gostring, JStr (Type_ b))] ++ opt_string "text" (bText b) ++ opt_string "url" (bURL b) ++
        opt_int "width" (Width b) ++ opt_int "height" (Height b) ++ opt_int "size" (Size b) ++ opt_string "name" (bName b)).

Definition RichTextPayload_json (p : RichTextPayload) : json :=
  JObj [("content" : gostring, match Content p with Some bs => JArr (map RichTextBlock_json bs) | None => JNull end);
        ("plain" : gostring, JStr (Plain p))].

(** [RichTextPayload.UnmarshalJSON]: the content is an array of blocks, or, in
    old messages, one string. *)
Definition UnmarshalJSON (data : json) : option RichTextPayload :=
  match into_struct [
    ("content" : gostring, fun (raw : option json * gostring) v => Some (Some v, raw.2));
    ("plain" : gostring, fun raw v => option_map (fun s => (raw.1, s)) (into raw.2 v))] (None, []) data with
  | None => None
  | Some (rawContent, plain) =>
    match rawContent with
    | None | Some JNull => Some (mkPayload None plain)
    | Some content =>
      match into (zero : option (list RichTextBlock)) content with
      | Some blocks => Some (mkPayload blocks plain)
      | None =>
        match into (zero : gostring) content with
        | None => None
        | Some s => Some (mkPayload (Some [mkBlock RichTextBlockText s [] 0 0 0 []])
                                    (if eqs plain [] then s else plain))
        end
      end
    end
  end.

(** ** Plain text *)

Definition block_plain (blk : RichTextBlock) : gostring :=
  if eqs (Type_ blk) RichTextBlockImage then RichTextImagePlaceholder
  else if eqs (Type_ blk) RichTextBlockText then bText blk
  else if negb (eqs (bText blk) []) then bText blk else [].

Definition BuildRichTextPlain (content : list RichTextBlock) : gostring :=
  fold_left (fun b blk => b ++ block_plain blk) content [].

Definition blocks (p : RichTextPayload) : list RichTextBlock := default [] (Content p).

Definition FillPlain (p : RichTextPayload) : gostring * RichTextPayload :=
  let plain := BuildRichTextPlain (blocks p) in (plain, mkPayload (Content p) plain).

(** The plain text, the payload with it filled in, and the error if the whole
    payload is then too large. *)
Definition FillPlainBounded (p : RichTextPayload) : gostring * RichTextPayload * option richtext_err :=
  let '(plain, p) := FillPlain p in
  let out := marshal (RichTextPayload_json p) in
  (plain, p, if RichTextMaxPayloadBytes <? Z.of_nat (length out) then Some ErrRichTextPayloadTooLarge else None).

(** ** Validation *)

Definition isAllowedImageURLScheme (raw : gostring) : bool :=
  match Parse (TrimSpace raw) with
  | None => false
  | Some u =>
    if eqs (ToLower (Scheme u)) "http" || eqs (ToLower (Scheme u)) "https" then negb (eqs (Host u) []) else false
  end.

Fixpoint ValidateRichTextBlocks (content : list RichTextBlock) : option richtext_err :=
  match content with
  | [] => None
  | blk :: content =>
    if eqs (Type_ blk) RichTextBlockText then
      if eqs (TrimSpace (bText blk)) [] then Some ErrRichTextTextEmpty
      else ValidateRichTextBlocks content
    else if eqs (Type_ blk) RichTextBlockImage then
      if eqs (TrimSpace (bURL blk)) [] then Some ErrRichTextImageNoURL
      else if negb (isAllowedImageURLScheme (bURL blk)) then Some ErrRichTextImageBadScheme
      else if (Width blk <=? 0) || (Height blk <=? 0) then Some ErrRichTextImageNoSize
      else ValidateRichTextBlocks content
    else Some ErrRichTextUnknownBlock
  end.

Definition ValidateRichTextPayload (data : gostring) : go richtext_err RichTextPayload :=
  if RichTextMaxPayloadBytes <? Z.of_nat (length data) then Err ErrRichTextPayloadTooLarge
  else
    match match Unmarshal data with Some v => UnmarshalJSON v | None => None end with
    | None => Err ErrJSON
    | Some p =>
      if (length (blocks p) =? 0)%nat then Err ErrRichTextEmptyContent
      else match ValidateRichTextBlocks (blocks p) with
           | Some err => Err err
           | None => Ok p
           end
    end.

Definition GetRichTextDisplayText (payload : gostring) : gostring :=
  if (length payload =? 0)%nat then GetDisplayText (ContentType_Int RichText)
  else
    match match Unmarshal payload with Some v => UnmarshalJSON v | None => None end with
    | None => GetDisplayText (ContentType_Int RichText)
    | Some p =>
      if negb (eqs (TrimSpace (Plain p)) []) then Plain p
      else
        let plain := BuildRichTextPlain (blocks p) in
        if negb (eqs plain []) then plain else GetDisplayText (ContentType_Int RichText)
    end.

(** ** Correctness *)

Lemma BuildRichTextPlain_concat content : BuildRichTextPlain content = concat (map block_plain content).
Proof.
  unfold BuildRichTextPlain. assert (forall acc, fold_left (fun b blk => b ++ block_plain blk) content acc =
    acc ++ concat (map block_plain content)) as ->; [|done].
  induction content as [|b bs IH]; intros acc; cbn; [by rewrite app_nil_r|]. by rewrite IH, app_assoc.
Qed.

(** An absolute URL of the web: the scheme is http or https and there is a host. *)
Definition web_url (raw : gostring) : Prop :=
  exists u, Parse (TrimSpace raw) = Some u /\ Host u <> [] /\ (ToLower (Scheme u) = "http" \/ ToLower (Scheme u) = "https").

(** What the contract asks of one block. *)
Definition valid_block (b : RichTextBlock) : Prop :=
  (Type_ b = RichTextBlockText /\ TrimSpace (bText b) <> []) \/
  (Type_ b = RichTextBlockImage /\ TrimSpace (bURL b) <> [] /\ 0 < Width b /\ 0 < Height b /\ web_url (bURL b)).

(** The payload that the bytes hold. *)
Definition read_payload (data : gostring) (p : RichTextPayload) : Prop :=
  exists v, Unmarshal data = Some v /\ UnmarshalJSON v = Some p.

Lemma isAllowedImageURLScheme_spec raw : isAllowedImageURLScheme raw = true <-> web_url raw.
Proof.
  unfold isAllowedImageURLScheme, web_url. destruct (Parse (TrimSpace raw)) as [u|]; [|split; [done|by intros (? & ? & _)]].
  split.
  - destruct (_ || _) eqn:E; [|done]. intros Hh. exists u. split; [done|].
    split; [intros E'; by rewrite E' in Hh|]. apply orb_true_iff in E. by rewrite !eqs_spec in E.
  - intros (u' & [= <-] & Hh & Ho). rewrite (proj2 (orb_true_iff _ _)) by (rewrite !eqs_spec; done).
    destruct (eqs (Host u) []) eqn:E; [by apply eqs_spec in E|done].
Qed.

Lemma ValidateRichTextBlocks_spec content : ValidateRichTextBlocks content = None <-> Forall valid_block content.
Proof.
  induction content as [|b bs IH]; [by split|]. rewrite Forall_cons, <- IH. cbn [ValidateRichTextBlocks].
  unfold valid_block. rewrite <- isAllowedImageURLScheme_spec.
  rewrite <- !eqs_false.
  destruct (eqs (Type_ b) RichTextBlockText) eqn:Et.
  { apply eqs_spec in Et. rewrite Et. destruct (eqs (TrimSpace (bText b)) []); [|naive_solver].
    split; [done|]. intros [[[_ ?]|[? _]] _]; done. }
  assert (Type_ b <> RichTextBlockText) by (intros E; by rewrite E, eqs_refl in Et).
  destruct (eqs (Type_ b) RichTextBlockImage) eqn:Ei.
  2: { split; [done|]. intros [[[? _]|[E _]] _]; [done|]. by rewrite E, eqs_refl in Ei. }
  apply eqs_spec in Ei. destruct (eqs (TrimSpace (bURL b)) []); [split; [done|]; intros [[[? _]|(_ & ? & _)] _]; done|].
  destruct (isAllowedImageURLScheme (bURL b)); cbn [negb];
    [|split; [done|]; intros [[[? _]|(_ & _ & _ & _ & ?)] _]; done].
  destruct (Z.leb_spec (Width b) 0), (Z.leb_spec (Height b) 0); cbn [orb];
    (split; [first [done|intros ?; split; [right|]; done]|intros [[[? _]|(_ & _ & ? & ? & _)] ?]; done || lia]).
Qed.

(** What is wrong with a block, by the rules of the contract in their order. *)
Inductive block_fault (b : RichTextBlock) : richtext_err -> Prop :=
| fault_text : Type_ b = RichTextBlockText -> TrimSpace (bText b) = [] -> block_fault b ErrRichTextTextEmpty
| fault_url : Type_ b = RichTextBlockImage -> TrimSpace (bURL b) = [] -> block_fault b ErrRichTextImageNoURL
| fault_scheme : Type_ b = RichTextBlockImage -> TrimSpace (bURL b) <> [] -> ~ web_url (bURL b) ->
    block_fault b ErrRichTextImageBadScheme
| fault_size : Type_ b = RichTextBlockImage -> TrimSpace (bURL b) <> [] -> web_url (bURL b) ->
    Width b <= 0 \/ Height b <= 0 -> block_fault b ErrRichTextImageNoSize
| fault_type : Type_ b <> RichTextBlockText -> Type_ b <> RichTextBlockImage -> block_fault b ErrRichTextUnknownBlock.

(** A list of blocks is refused for the fault of its first faulty block. *)
Lemma ValidateRichTextBlocks_fault content err : ValidateRichTextBlocks content = Some err ->
  exists pre b post, content = pre ++ b :: post /\ Forall valid_block pre /\ block_fault b err.
Proof.
  induction content as [|b bs IH]; [done|]. cbn [ValidateRichTextBlocks].
  assert (block_fault b err -> exists pre b' post, b :: bs = pre ++ b' :: post /\ Forall valid_block pre /\ block_fault b' err) as Hhere
    by (intros Hb; by exists [], b, bs).
  assert (valid_block b -> ValidateRichTextBlocks bs = Some err ->
    exists pre b' post, b :: bs = pre ++ b' :: post /\ Forall valid_block pre /\ block_fault b' err) as Hlater.
  { intros Hb (pre & b' & post & -> & Hpre & Hf)%IH. exists (b :: pre), b', post. by split_and!; [|constructor|]. }
  destruct (eqs (Type_ b) RichTextBlockText) eqn:Et.
  { apply eqs_spec in Et. destruct (eqs (TrimSpace (bText b)) []) eqn:E1.
    - apply eqs_spec in E1. intros [= <-]. by apply Hhere, fault_text.
    - apply Hlater. left. split; [done|]. by apply eqs_false. }
  apply eqs_false in Et. destruct (eqs (Type_ b) RichTextBlockImage) eqn:Ei;
    [apply eqs_spec in Ei|apply eqs_false in Ei; intros [= <-]; by apply Hhere, fault_type].
  destruct (eqs (TrimSpace (bURL b)) []) eqn:E1; [apply eqs_spec in E1; intros [= <-]; by apply Hhere, fault_url|].
  apply eqs_false in E1. pose proof (isAllowedImageURLScheme_spec (bURL b)) as Hw.
  destruct (isAllowedImageURLScheme (bURL b)); cbn [negb];
    [|intros [= <-]; apply Hhere, fault_scheme; [done..|]; by intros ?%Hw].
  destruct (Z.leb_spec (Width b) 0), (Z.leb_spec (Height b) 0); cbn [orb];
    try (intros [= <-]; apply Hhere, fault_size; [done|done|by apply Hw|lia]).
  apply Hlater. right. split_and!; [done..|by apply Hw].
Qed.

Lemma block_types_differ : RichTextBlockText <> RichTextBlockImage.
Proof. done. Qed.

Lemma block_fault_invalid b err : block_fault b err -> ~ valid_block b.
Proof. pose proof block_types_differ. intros [] [[? ?]|(? & ? & ? & ? & ?)]; try done; try lia; congruence. Qed.

Lemma block_fault_unique b e1 e2 : block_fault b e1 -> block_fault b e2 -> e1 = e2.
Proof. pose proof block_types_differ. intros [] []; try done; congruence. Qed.

(** The verdict on a payload, rule by rule. *)
Inductive payload_verdict (data : gostring) : go richtext_err RichTextPayload -> Prop :=
| verdict_large : RichTextMaxPayloadBytes < Z.of_nat (length data) -> payload_verdict data (Err ErrRichTextPayloadTooLarge)
| verdict_syntax : Z.of_nat (length data) <= RichTextMaxPayloadBytes ->
    ~ (exists p, read_payload data p) -> payload_verdict data (Err ErrJSON)
| verdict_empty p : Z.of_nat (length data) <= RichTextMaxPayloadBytes -> read_payload data p ->
    blocks p = [] -> payload_verdict data (Err ErrRichTextEmptyContent)
| verdict_fault p pre b post err : Z.of_nat (length data) <= RichTextMaxPayloadBytes -> read_payload data p ->
    blocks p = pre ++ b :: post -> Forall valid_block pre -> block_fault b err -> payload_verdict data (Err err)
| verdict_ok p : Z.of_nat (length data) <= RichTextMaxPayloadBytes -> read_payload data p ->
    blocks p <> [] -> Forall valid_block (blocks p) -> payload_verdict data (Ok p).

Lemma read_payload_unique data p q : read_payload data p -> read_payload data q -> p = q.
Proof. intros (v & E1 & E2) (v' & E1' & E2'). congruence. Qed.

(** The first fault is one: what comes before it is valid. *)
Lemma first_fault_unique l pre1 b1 post1 e1 pre2 b2 post2 e2 :
  l = pre1 ++ b1 :: post1 -> Forall valid_block pre1 -> block_fault b1 e1 ->
  l = pre2 ++ b2 :: post2 -> Forall valid_block pre2 -> block_fault b2 e2 -> e1 = e2.
Proof.
  intros -> H1 F1. revert pre2. induction H1 as [|x pre1 Hx H1 IH]; intros pre2 E H2 F2.
  - destruct pre2 as [|y pre2]; injection E as -> ->; [by eapply block_fault_unique|].
    apply Forall_cons in H2 as [H2 _]. by apply block_fault_invalid in F1.
  - destruct pre2 as [|y pre2]; cbn in E; injection E as -> E; [by apply block_fault_invalid in F2|].
    apply Forall_cons in H2 as [_ H2]. by apply (IH pre2).
Qed.

Lemma all_valid_no_fault l pre b post err : Forall valid_block l -> l = pre ++ b :: post -> ~ block_fault b err.
Proof. intros Hl -> Hf. apply Forall_app in Hl as [_ [Hb _]%Forall_cons]. by apply block_fault_invalid in Hf. Qed.

Lemma payload_verdict_unique data r1 r2 : payload_verdict data r1 -> payload_verdict data r2 -> r1 = r2.
Proof.
  intros [H1|H1 N1|p1 H1 R1 B1|p1 pre1 b1 post1 e1 H1 R1 B1 V1 F1|p1 H1 R1 B1 V1]
         [H2|H2 N2|p2 H2 R2 B2|p2 pre2 b2 post2 e2 H2 R2 B2 V2 F2|p2 H2 R2 B2 V2];
    try done; try lia; try (exfalso; by eauto);
    pose proof (read_payload_unique _ _ _ R1 R2) as <-; try done;
    first [ exfalso; rewrite B1 in B2; by destruct pre2
          | exfalso; rewrite B1 in B2; by destruct pre1
          | f_equal; by apply (first_fault_unique _ _ _ _ _ _ _ _ _ B1 V1 F1 B2 V2 F2)
          | exfalso; by apply (all_valid_no_fault _ _ _ _ e1 V2 B1)
          | exfalso; by apply (all_valid_no_fault _ _ _ _ e2 V1 B2) ].
Qed.

Lemma ValidateRichTextPayload_verdict data : payload_verdict data (ValidateRichTextPayload data).
Proof.
  unfold ValidateRichTextPayload.
  destruct (Z.ltb_spec RichTextMaxPayloadBytes (Z.of_nat (length data))) as [Hl|Hl]; [by apply verdict_large|].
  destruct (match Unmarshal data with Some v => UnmarshalJSON v | None => None end) as [p|] eqn:Ep.
  - assert (read_payload data p) as Hp by (unfold read_payload; destruct (Unmarshal data) as [v|]; [eauto|done]).
    destruct (Nat.eqb_spec (length (blocks p)) 0) as [E|E]; [apply nil_length_inv in E; by apply (verdict_empty data p)|].
    assert (blocks p <> []) as Hne by (intros E'; by rewrite E' in E).
    destruct (ValidateRichTextBlocks (blocks p)) as [err|] eqn:Ev.
    + apply ValidateRichTextBlocks_fault in Ev as (pre & b & post & Eb & Hpre & Hf). by apply (verdict_fault data p pre b post).
    + apply verdict_ok; [done..|]. by apply ValidateRichTextBlocks_spec.
  - apply verdict_syntax; [done|]. intros (p & v & E1 & E2). by rewrite E1, E2 in Ep.
Qed.

(** C18 [ValidateRichTextPayload] gives the verdict of the rules, in their order:
    a payload over 1 MiB is too large; else one that does not parse is a syntax
    error; else one without a block is empty; else the first block that is
    neither a text with more than white space nor an image with an absolute http
    or https URL and a positive size is reported, by its first fault; and every
    other payload is accepted as it was parsed. *)
Theorem ValidateRichTextPayload_iff data r : ValidateRichTextPayload data = r <-> payload_verdict data r.
Proof.
  split; [intros <-; apply ValidateRichTextPayload_verdict|].
  intros Hr. by apply (payload_verdict_unique data); [apply ValidateRichTextPayload_verdict|].
Qed.

(** ** Stored payloads *)

(** A block that Go can hold: UTF-8 text and int64 sizes. *)
Definition storable_block (b : RichTextBlock) : Prop :=
  ValidString (Type_ b) = true /\ ValidString (bText b) = true /\ ValidString (bURL b) = true /\
  ValidString (bName b) = true /\ in_int64 (Width b) /\ in_int64 (Height b) /\ in_int64 (Size b).

Lemma into_int_JInt old z : in_int64 z -> into (A := Z) old (JInt z) = Some z.
Proof. intros Hz. unfold in_int64 in Hz. cbn. rewrite ParseInt_FormatInt; [done|lia|]. change (2 ^ (64 - 1)) with 9223372036854775808. lia. Qed.

Lemma into_int_JInt' old z : in_int64 z -> into_int 64 old (JInt z) = Some z.
Proof. apply (into_int_JInt old). Qed.

(** A block is read back from its JSON form. *)
Lemma block_roundtrip b : storable_block b -> into (zero : RichTextBlock) (RichTextBlock_json b) = Some b.
Proof.
  destruct b as [ty tx ur w h sz nm]. intros (_ & _ & _ & _ & Hw & Hh & Hs). cbn [Width Height Size] in *.
  unfold RichTextBlock_json, opt_string, opt_int. cbn [Type_ bText bURL Width Height Size bName].
  assert (forall s, eqs s [] = true -> s = []) as Hnil by (intros s; by rewrite eqs_spec).
  destruct (eqs tx []) eqn:E1; [apply Hnil in E1 as ->|]; (destruct (eqs ur []) eqn:E2; [apply Hnil in E2 as ->|]);
  (destruct (eqs nm []) eqn:E3; [apply Hnil in E3 as ->|]);
  (destruct (Z.eqb_spec w 0) as [->|]); (destruct (Z.eqb_spec h 0) as [->|]); (destruct (Z.eqb_spec sz 0) as [->|]);
    lazy -[into_int JInt in_int64]; rewrite ?into_int_JInt' by done; lazy -[into_int JInt in_int64];
    rewrite ?into_int_JInt' by done; lazy -[into_int JInt in_int64]; rewrite ?into_int_JInt' by done; reflexivity.
Qed.

Lemma wf_block b : storable_block b -> wf_json 2 (RichTextBlock_json b) = true.
Proof.
  destruct b as [ty tx ur w h sz nm]. intros (H1 & H2 & H3 & H4 & _).
  cbn [Type_ bText bURL bName] in *. unfold RichTextBlock_json, opt_string, opt_int.
  cbn [Type_ bText bURL Width Height Size bName].
  destruct (eqs tx []), (eqs ur []), (eqs nm []), (w =? 0), (h =? 0), (sz =? 0);
    rewrite wf_JObj; cbn [app forallb fst snd]; rewrite ?wf_JStr, ?H1, ?H2, ?H3, ?H4, ?wf_JInt; reflexivity.
Qed.

Lemma into_blocks bs : Forall storable_block bs ->
  into_elems (A := RichTextBlock) [] (map RichTextBlock_json bs) = Some bs.
Proof.
  induction 1 as [|b bs Hb _ IH]; [done|]. cbn [map into_elems tail]. by rewrite IH, block_roundtrip.
Qed.

(** A payload is read back from its JSON form. *)
Lemma payload_roundtrip bs plain : Forall storable_block bs ->
  UnmarshalJSON (RichTextPayload_json (mkPayload (Some bs) plain)) = Some (mkPayload (Some bs) plain).
Proof.
  intros Hbs. pose proof (into_blocks bs Hbs) as Hb. unfold UnmarshalJSON, RichTextPayload_json. cbn [Content Plain].
  assert (forall (fields := [("content" : gostring, fun (raw : option json * gostring) v => Some (Some v, raw.2));
    ("plain" : gostring, fun raw v => option_map (fun s => (raw.1, s)) (into raw.2 v))]) v s,
    into_struct fields (None, []) (JObj [("content" : gostring, v); ("plain" : gostring, JStr s)]) = Some (Some v, s)) as ->
    by reflexivity.
  cbn [into slice_unmarshaler zero from_option]. change (default [] None) with (@nil RichTextBlock). by rewrite Hb.
Qed.

Lemma wf_payload bs plain : Forall storable_block bs -> ValidString plain = true ->
  wf_json maxNestingDepth (RichTextPayload_json (mkPayload (Some bs) plain)) = true.
Proof.
  intros Hbs Hp. apply (wf_json_mono 4); [|apply Nat.leb_le; by vm_compute].
  unfold RichTextPayload_json. rewrite wf_JObj. cbn [Content Plain forallb fst snd].
  rewrite wf_JStr, Hp, wf_JArr. rewrite (proj2 (forallb_forall (wf_json 2) _)); [done|].
  intros v (b & <- & Hin)%in_map_iff. apply wf_block. rewrite Forall_forall in Hbs. apply Hbs. by apply list_elem_of_In.
Qed.

Lemma plain_valid bs : Forall storable_block bs -> ValidString (BuildRichTextPlain bs) = true.
Proof.
  intros Hbs. rewrite BuildRichTextPlain_concat. apply ValidString_concat, Forall_forall.
  intros s (b & <- & Hin%list_elem_of_In)%list_elem_of_In%in_map_iff. rewrite Forall_forall in Hbs.
  destruct (Hbs b Hin) as (_ & Ht & _). unfold block_plain. repeat case_match; done.
Qed.

(** C19 The server fills in the concatenation of the blocks, whatever plain text
    the client sent, and reports exactly the payloads whose JSON text then
    exceeds 1 MiB; what it stored reads back as it was, and what is displayed
    for it is the text filled in, unless that is blank. *)
Theorem FillPlainBounded_stored bs client plain p err (Hbs : Forall storable_block bs)
  (HF : FillPlainBounded (mkPayload (Some bs) client) = (plain, p, err)) :
  let out := marshal (RichTextPayload_json p) in
  plain = concat (map block_plain bs) /\ p = mkPayload (Some bs) plain /\
  (err = None <-> Z.of_nat (length out) <= RichTextMaxPayloadBytes) /\
  (exists v, Unmarshal out = Some v /\ UnmarshalJSON v = Some p) /\
  (TrimSpace plain <> [] -> GetRichTextDisplayText out = plain).
Proof.
  unfold FillPlainBounded, FillPlain, blocks in HF. cbn [Content from_option id] in HF. injection HF as <- <- <-.
  rewrite <- BuildRichTextPlain_concat. cbn zeta.
  pose proof (wf_payload bs _ Hbs (plain_valid bs Hbs)) as Hwf.
  pose proof (Unmarshal_marshal _ Hwf) as HU. pose proof (payload_roundtrip bs (BuildRichTextPlain bs) Hbs) as HP.
  split; [done|]. split; [done|]. split; [rewrite <- Z.ltb_ge; by destruct (_ <? _)|].
  split; [eauto|]. intros Hne. unfold GetRichTextDisplayText.
  destruct (Nat.eqb_spec (length (marshal (RichTextPayload_json (mkPayload (Some bs) (BuildRichTextPlain bs))))) 0) as [E|_].
  { apply nil_length_inv in E. done. }
  rewrite HU, HP. cbn [Plain]. destruct (eqs (TrimSpace _) []) eqn:E; [by apply eqs_spec in E|done].
Qed.
End RichText.

Lemma FillPlainBounded_stored_witness :
  let p := mkPayload (Some [mkBlock "text" "hi" "" 0 0 0 ""; mkBlock "image" "" "https://x.io/a.png" 2 3 0 ""]) "hi[图片]" in
  GetRichTextDisplayText (marshal (RichTextPayload_json p)) = "hi[图片]".
Proof.
  apply (FillPlainBounded_stored [mkBlock "text" "hi" "" 0 0 0 ""; mkBlock "image" "" "https://x.io/a.png" 2 3 0 ""] "forged"
    "hi[图片]" _ None); [|reflexivity|by vm_compute].
  apply Forall_cons_2; [|apply Forall_cons_2; [|apply Forall_nil_2]];
    unfold storable_block, in_int64; cbn [Type_ bText bURL bName Width Height Size]; split_and!; first [lia|by vm_compute].
Defined.

(** The forms of [ValidateRichTextPayload]'s input, old and new. *)
Example richtext_examples :
  ValidateRichTextPayload (jq "{'content':[{'type':'text','text':'hi'}],'plain':'x'}") =
    Ok (mkPayload (Some [mkBlock "text" "hi" "" 0 0 0 ""]) "x") /\
  ValidateRichTextPayload (jq "{'content':'old'}") = Ok (mkPayload (Some [mkBlock "text" "old" "" 0 0 0 ""]) "old") /\
  ValidateRichTextPayload (jq "{'content':[]}") = Err ErrRichTextEmptyContent /\
  ValidateRichTextPayload (jq "{'content':[{'type':'image','url':'data:image/png;base64,AA','width':1,'height':1}]}") =
    Err ErrRichTextImageBadScheme /\
  ValidateRichTextPayload (jq "{'content':[{'type':'video'}]}") = Err ErrRichTextUnknownBlock.
Proof. by vm_compute. Qed.
