(* ===== verification/Network.v ===== *)
(** * Network: HTTP calls to other services ([pkg/network/network.go])

    The HTTP clients are third-party code: a call of the development is a
    function of the client, which answers a request or fails; it returns its
    result and the requests it made, in order. *)
From S2P Require Import Prelude GoStr Json.

#[global] Open Scope Z_scope.
#[global] Open Scope go_scope.

(** ** Requests, responses, calls *)

Inductive method := Get_ | Post_ | Put_.

Record rest_request := mkRequest {
  Method : method;
  BaseURL : gostring;
  req_Body : option gostring;
  QueryParams : option (gmap gostring gostring);
  Headers : option (gmap gostring gostring)
}.

Record rest_response := mkResponse { StatusCode : Z; Body : gostring }.

(** The errors a call can end with. *)
Inductive net_err :=
| ErrTransport (text : gostring)     (** the client failed *)
| ErrJSON                            (** [encoding/json] rejected a body *)
| ErrText (text : gostring).         (** a message of this program *)

Definition client := rest_request -> go net_err rest_response.

Definition call (A : Type) := client -> go net_err A * list rest_request.

Definition ret {A} (a : A) : call A := fun _ => (Ok a, []).
Definition fail {A} (e : net_err) : call A := fun _ => (Err e, []).

Definition bind {A B} (m : call A) (k : A -> call B) : call B := fun api =>
  match m api with
  | (Ok a, reqs) => let '(r, reqs') := k a api in (r, reqs ++ reqs')
  | (Err e, reqs) => (Err e, reqs)
  | (Panicked msg, reqs) => (Panicked msg, reqs)
  end.

Notation "'do!' x := c 'in' k" := (bind c (fun x => k))
  (at level 10, x name, c at level 200, k at level 200) : go_scope.

(** [rest.API]. *)
Definition API (r : rest_request) : call rest_response := fun api => (api r, [r]).

(** ** The requests of the package *)

Definition RequestBoy (url : gostring) (body : gostring) (headers : option (gmap gostring gostring)) (m : method)
  : call rest_response :=
  do! response := API (mkRequest m url (Some body) None headers) in ret response.

Definition RequestBoyForQueryParam (url : gostring) (queryParams headers : option (gmap gostring gostring)) (m : method)
  : call rest_response :=
  do! response := API (mkRequest m url None queryParams headers) in ret response.

Definition Post (url body : gostring) (headers : option (gmap gostring gostring)) : call rest_response :=
  RequestBoy url body headers Post_.

Definition Put (url body : gostring) (headers : option (gmap gostring gostring)) : call rest_response :=
  RequestBoy url body headers Put_.

Definition PostForQueryParam (url : gostring) (queryParams headers : option (gmap gostring gostring)) : call rest_response :=
  RequestBoyForQueryParam url queryParams headers Post_.

Definition Get (url : gostring) (queryParams headers : option (gmap gostring gostring)) : call rest_response :=
  do! response := API (mkRequest Get_ url None queryParams headers) in ret response.

Definition GetJson (url : gostring) (queryParams headers : option (gmap gostring gostring)) : call gostring :=
  do! response := API (mkRequest Get_ url None queryParams headers) in ret (Body response).

(** *** Forms

    The body of a form is put together in the order [order] in which the map is
    ranged over, each pair in front of the earlier ones; keys and values are
    not escaped. *)
Definition form_query (order : list gostring) (params : gmap gostring gostring) : gostring :=
  let queryStr := fold_left (fun queryStr key => key ++ "=" ++ default [] (params !! key) ++ "&" ++ queryStr) order [] in
  if (0 <? length queryStr)%nat then take (length queryStr - 1) queryStr else queryStr.

(** The content type overwrites one that the caller gave. *)
Definition form_headers (headers : gmap gostring gostring) : gmap gostring gostring :=
  <["Content-Type" := "application/x-www-form-urlencoded"]> headers.

Definition form_request (urlStr queryStr : gostring) (headers : gmap gostring gostring) : rest_request :=
  mkRequest Post_ urlStr (Some queryStr) None (Some (form_headers headers)).

(** A status other than 200 comes with the body. *)
Definition PostForWWWFormForBytres (order : list gostring) (urlStr : gostring) (params headers : gmap gostring gostring)
  : call (gostring * option net_err) :=
  do! resp := API (form_request urlStr (form_query order params) headers) in
  if negb (StatusCode resp =? 200)
  then ret (Body resp, Some (ErrText ("状态码：" ++ FormatInt (StatusCode resp))))
  else ret (Body resp, None).

Definition PostForWWWForm (order : list gostring) (urlStr : gostring) (params headers : gmap gostring gostring)
  : call (option (gmap gostring json)) :=
  do! r := PostForWWWFormForBytres order urlStr params headers in
  match r.2 with
  | Some err => fail err
  | None => match ReadJsonByByte r.1 zero with Some m => ret m | None => fail ErrJSON end
  end.

Definition PostForWWWFormForAll (urlStr bodyData : gostring) (headers : gmap gostring gostring) : call gostring :=
  do! resp := API (form_request urlStr bodyData headers) in
  if negb (StatusCode resp =? 200) then fail (ErrText ("状态码：" ++ FormatInt (StatusCode resp)))
  else ret (Body resp).

(** The status is not looked at. *)
Definition PostForWWWFormReXML (order : list gostring) (urlStr : gostring) (params headers : gmap gostring gostring)
  : call gostring :=
  do! resp := API (form_request urlStr (form_query order params) headers) in ret (Body resp).

(** ** What was sent *)

Lemma bind_Ok {A B} (m : call A) (k : A -> call B) api b reqs :
  bind m k api = (Ok b, reqs) <->
  exists a r1 r2, m api = (Ok a, r1) /\ k a api = (Ok b, r2) /\ reqs = r1 ++ r2.
Proof.
  unfold bind. destruct (m api) as [[a|e|msg] r1].
  - destruct (k a api) as [r r2] eqn:E. split.
    + intros [= -> <-]. exists a, r1, r2. done.
    + intros (a' & r1' & r2' & [= <- <-] & E' & ->). congruence.
  - split; [done|by intros (? & ? & ? & [=] & _)].
  - split; [done|by intros (? & ? & ? & [=] & _)].
Qed.

(** The form is the pairs, the last one ranged over first, joined by ampersands. *)
Lemma form_query_join order params :
  form_query order params = Join (map (fun k => k ++ "=" ++ default [] (params !! k)) (rev order)) "&".
Proof.
  unfold form_query. set (pair := fun k => k ++ "=" ++ default [] (params !! k)).
  assert (forall order acc, fold_left (fun q k => k ++ "=" ++ default [] (params !! k) ++ "&" ++ q) order acc =
    concat (map (fun k => pair k ++ "&") (rev order)) ++ acc) as Hf.
  { clear. intros order. induction order as [|k ks IH]; intros acc; [done|]. cbn [fold_left rev].
    rewrite IH, map_app, concat_app, <- app_assoc. cbn [map concat app]. unfold pair. by rewrite app_nil_r, <- !app_assoc. }
  rewrite Hf, app_nil_r. generalize (rev order) as ks. clear. intros ks.
  assert (ks <> [] -> concat (map (fun k => pair k ++ "&") ks) = Join (map pair ks) "&" ++ "&") as Hj.
  { induction ks as [|k ks IH]; [done|]. intros _. destruct ks as [|k2 ks]; [cbn; by rewrite app_nil_r|].
    cbn [map concat Join] in *. rewrite IH by done. by rewrite !app_assoc. }
  destruct ks as [|k ks]; [done|]. rewrite Hj by done. rewrite length_app. cbn [length].
  destruct (Nat.ltb_spec 0 (length (Join (map pair (k :: ks)) "&") + 1)); [|lia].
  by rewrite Nat.add_sub, take_app_length.
Qed.
