(* ===== verification/ImApi.v ===== *)
(** * ImApi: the client of the messaging service ([config/msg.go],
    [config/stream.go], [config/msg_channel.go])

    Each operation of the [Context] is a call; a request type is a Record with
    the JSON form that its field tags give it. *)
From S2P Require Import Prelude GoStr Crypto Json Msg Network.

#[global] Open Scope Z_scope.
#[global] Open Scope go_scope.

(** ** JSON forms *)

(** A slice: nil encodes as [null]. *)
Definition slice (A : Type) := option (list A).
Definition slice_json {A} (f : A -> json) (l : slice A) : json :=
  match l with Some l => JArr (map f l) | None => JNull end.
Definition strings_json : slice gostring -> json := slice_json JStr.
Definition ints_json : slice Z -> json := slice_json JInt.

(** A byte slice: base64 text. *)
Definition bytes_json (b : option gostring) : json :=
  match b with Some b => JStr (b64_encode b) | None => JNull end.

(** [util.ToJson] of a literal [map[string]interface{}]. *)
Definition map_json (l : list (gostring * json)) : json := obj_of_map (list_to_map l).

(** ** Types of requests and responses *)

Definition DeviceLevelSlave : Z := 0.
Definition DeviceLevelMaster : Z := 1.
Definition APP : Z := 0.
Definition Web : Z := 1.
Definition PC : Z := 2.
Definition DeviceFlag_Uint8 (d : Z) : Z := uint8 d.

Record Channel := mkChannel { ch_ChannelID : gostring; ch_ChannelType : Z }.
Definition Channel_json (c : Channel) : json :=
  JObj [("channel_id" : gostring, JStr (ch_ChannelID c)); ("channel_type" : gostring, JInt (ch_ChannelType c))].

Record UpdateIMTokenReq := mkUpdateIMTokenReq { ut_UID : gostring; ut_Token : gostring; ut_DeviceFlag : Z; ut_DeviceLevel : Z }.
Definition UpdateTokenStatusSuccess : Z := 200.
Definition UpdateTokenStatusBan : Z := 19.

Record MsgHeader := mkHeader { NoPersist : Z; RedDot : Z; SyncOnce : Z }.
Definition MsgHeader_json (h : MsgHeader) : json :=
  JObj [("no_persist" : gostring, JInt (NoPersist h)); ("red_dot" : gostring, JInt (RedDot h)); ("sync_once" : gostring, JInt (SyncOnce h))].
Definition MsgHeader_String (h : MsgHeader) : gostring :=
  "NoPersist:" ++ FormatInt (NoPersist h) ++ " RedDot:" ++ FormatInt (RedDot h) ++ " SyncOnce:" ++ FormatInt (SyncOnce h).

Record MsgSendReq := mkMsgSendReq {
  ms_Header : MsgHeader; ms_Setting : Z; ms_FromUID : gostring; ms_ChannelID : gostring; ms_ChannelType : Z;
  ms_StreamNo : gostring; ms_Subscribers : slice gostring; ms_Payload : option gostring
}.
Definition MsgSendReq_json (m : MsgSendReq) : json :=
  JObj [("header" : gostring, MsgHeader_json (ms_Header m)); ("setting" : gostring, JInt (ms_Setting m));
        ("from_uid" : gostring, JStr (ms_FromUID m)); ("channel_id" : gostring, JStr (ms_ChannelID m));
        ("channel_type" : gostring, JInt (ms_ChannelType m)); ("stream_no" : gostring, JStr (ms_StreamNo m));
        ("subscribers" : gostring, strings_json (ms_Subscribers m)); ("payload" : gostring, bytes_json (ms_Payload m))].
Definition MsgSendReq_String (m : MsgSendReq) : gostring :=
  "ChannelID:" ++ ms_ChannelID m ++ " ChannelType:" ++ FormatInt (ms_ChannelType m) ++ " Payload:" ++ default [] (ms_Payload m).

Record MsgSendResp := mkMsgSendResp { sr_MessageID : Z; sr_ClientMsgNo : gostring; sr_MessageSeq : Z }.

Record MsgSendBatch := mkMsgSendBatch {
  mb_Header : MsgHeader; mb_FromUID : gostring; mb_Subscribers : slice gostring; mb_Payload : option gostring
}.
Definition MsgSendBatch_json (m : MsgSendBatch) : json :=
  JObj [("header" : gostring, MsgHeader_json (mb_Header m)); ("from_uid" : gostring, JStr (mb_FromUID m));
        ("subscribers" : gostring, strings_json (mb_Subscribers m)); ("payload" : gostring, bytes_json (mb_Payload m))].

Record UserBaseVo := mkUserBaseVo { uv_UID : gostring; uv_Name : gostring }.
Definition UserBaseVo_json (u : UserBaseVo) : json :=
  JObj [("uid" : gostring, JStr (uv_UID u)); ("name" : gostring, JStr (uv_Name u))].

Record MsgFriendApplyReq := mkMsgFriendApplyReq {
  fa_ApplyUID : gostring; fa_ApplyName : gostring; fa_ToUID : gostring; fa_Remark : gostring; fa_Token : gostring }.
Record MsgFriendSureReq := mkMsgFriendSureReq { fs_ToUID : gostring; fs_FromUID : gostring; fs_FromName : gostring }.
Record MsgFriendDeleteReq := mkMsgFriendDeleteReq { fd_FromUID : gostring; fd_ToUID : gostring }.

Record MsgCMDReq := mkMsgCMDReq {
  cmd_NoPersist : bool; cmd_FromUID : gostring; cmd_ChannelID : gostring; cmd_ChannelType : Z;
  cmd_Subscribers : slice gostring; cmd_CMD : gostring; cmd_Param : option (gmap gostring json) }.

Record MsgSyncReq := mkMsgSyncReq { sy_UID : gostring; sy_MessageSeq : Z; sy_Limit : Z }.
Definition MsgSyncReq_json (r : MsgSyncReq) : json :=
  JObj [("uid" : gostring, JStr (sy_UID r)); ("message_seq" : gostring, JInt (sy_MessageSeq r)); ("limit" : gostring, JInt (sy_Limit r))].

Definition PullModeDown : Z := 0.
Definition PullModeUp : Z := 1.

Record SyncChannelMessageReq := mkSyncChannelMessageReq {
  sc_LoginUID : gostring; sc_DeviceUUID : gostring; sc_ChannelID : gostring; sc_ChannelType : Z;
  sc_StartMessageSeq : Z; sc_EndMessageSeq : Z; sc_Limit : Z; sc_PullMode : Z }.
Definition SyncChannelMessageReq_json (r : SyncChannelMessageReq) : json :=
  JObj [("login_uid" : gostring, JStr (sc_LoginUID r)); ("device_uuid" : gostring, JStr (sc_DeviceUUID r));
        ("channel_id" : gostring, JStr (sc_ChannelID r)); ("channel_type" : gostring, JInt (sc_ChannelType r));
        ("start_message_seq" : gostring, JInt (sc_StartMessageSeq r)); ("end_message_seq" : gostring, JInt (sc_EndMessageSeq r));
        ("limit" : gostring, JInt (sc_Limit r)); ("pull_mode" : gostring, JInt (sc_PullMode r))].

Record ClearConversationUnreadReq := mkClearConversationUnreadReq {
  cu_UID : gostring; cu_ChannelID : gostring; cu_ChannelType : Z; cu_Unread : Z; cu_MessageSeq : Z }.
Definition ClearConversationUnreadReq_json (r : ClearConversationUnreadReq) : json :=
  JObj [("uid" : gostring, JStr (cu_UID r)); ("channel_id" : gostring, JStr (cu_ChannelID r)); ("channel_type" : gostring, JInt (cu_ChannelType r));
        ("unread" : gostring, JInt (cu_Unread r)); ("message_seq" : gostring, JInt (cu_MessageSeq r))].

Record SyncackReq := mkSyncackReq { sa_UID : gostring; sa_LastMessageSeq : Z }.
Definition SyncackReq_json (r : SyncackReq) : json :=
  JObj [("uid" : gostring, JStr (sa_UID r)); ("last_message_seq" : gostring, JInt (sa_LastMessageSeq r))].
Definition SyncackReq_String (s : SyncackReq) : gostring :=
  "UID: " ++ sa_UID s ++ " LastMessageSeq: " ++ FormatInt (sa_LastMessageSeq s).
Definition SyncackReq_Check (s : SyncackReq) : option gostring :=
  if eqs (TrimSpace (sa_UID s)) [] then Some ("用户UID不能为空！" : gostring)
  else if sa_LastMessageSeq s =? 0 then Some ("最后一次messageSeq不能为0！" : gostring)
  else None.

Record MessageRevokeReq := mkMessageRevokeReq { mr_ChannelID : gostring; mr_ChannelType : Z; mr_MessageIDs : slice Z }.
Definition MessageRevokeReq_json (r : MessageRevokeReq) : json :=
  JObj [("channel_id" : gostring, JStr (mr_ChannelID r)); ("channel_type" : gostring, JInt (mr_ChannelType r)); ("message_ids" : gostring, ints_json (mr_MessageIDs r))].

Record ChannelDeleteReq := mkChannelDeleteReq { cd_ChannelID : gostring; cd_ChannelType : Z }.
Definition ChannelDeleteReq_json (r : ChannelDeleteReq) : json :=
  JObj [("channel_id" : gostring, JStr (cd_ChannelID r)); ("channel_type" : gostring, JInt (cd_ChannelType r))].

Record MsgRevokeReq := mkMsgRevokeReq {
  rv_FromUID : gostring; rv_Operator : gostring; rv_OperatorName : gostring; rv_ChannelID : gostring; rv_ChannelType : Z; rv_MessageID : Z }.

Record SearchUserMessageReq := mkSearchUserMessageReq {
  su_UID : gostring; su_Payload : option (gmap gostring json); su_PayloadTypes : slice Z; su_FromUID : gostring;
  su_ChannelID : gostring; su_ChannelType : Z; su_Topic : gostring; su_Limit : Z; su_Page : Z;
  su_StartTime : Z; su_EndTime : Z; su_Highlights : slice gostring }.
Definition SearchUserMessageReq_json (r : SearchUserMessageReq) : json :=
  JObj [("uid" : gostring, JStr (su_UID r));
        ("payload" : gostring, match su_Payload r with Some m => obj_of_map m | None => JNull end);
        ("payload_types" : gostring, ints_json (su_PayloadTypes r)); ("from_uid" : gostring, JStr (su_FromUID r));
        ("channel_id" : gostring, JStr (su_ChannelID r)); ("channel_type" : gostring, JInt (su_ChannelType r));
        ("topic" : gostring, JStr (su_Topic r)); ("limit" : gostring, JInt (su_Limit r)); ("page" : gostring, JInt (su_Page r));
        ("start_time" : gostring, JInt (su_StartTime r)); ("end_time" : gostring, JInt (su_EndTime r));
        ("highlights" : gostring, strings_json (su_Highlights r))].

Record MsgSearchReq := mkMsgSearchReq {
  se_LoginUID : gostring; se_ChannelID : gostring; se_ChannelType : Z; se_MessageSeqs : slice Z;
  se_MessageIds : slice Z; se_ClientMsgNos : slice gostring }.
Definition MsgSearchReq_json (r : MsgSearchReq) : json :=
  JObj [("login_uid" : gostring, JStr (se_LoginUID r)); ("channel_id" : gostring, JStr (se_ChannelID r));
        ("channel_type" : gostring, JInt (se_ChannelType r)); ("message_seqs" : gostring, ints_json (se_MessageSeqs r));
        ("message_ids" : gostring, ints_json (se_MessageIds r)); ("client_msg_nos" : gostring, strings_json (se_ClientMsgNos r))].

Record ChannelCreateReq := mkChannelCreateReq {
  cc_ChannelID : gostring; cc_ChannelType : Z; cc_Ban : Z; cc_Large : Z; cc_Subscribers : slice gostring }.
Definition ChannelCreateReq_json (r : ChannelCreateReq) : json :=
  JObj [("channel_id" : gostring, JStr (cc_ChannelID r)); ("channel_type" : gostring, JInt (cc_ChannelType r)); ("ban" : gostring, JInt (cc_Ban r));
        ("large" : gostring, JInt (cc_Large r)); ("subscribers" : gostring, strings_json (cc_Subscribers r))].

Record ChannelInfoCreateReq := mkChannelInfoCreateReq { ci_ChannelID : gostring; ci_ChannelType : Z; ci_Ban : Z; ci_Large : Z; ci_Disband : Z }.
Definition ChannelInfoCreateReq_json (r : ChannelInfoCreateReq) : json :=
  JObj [("channel_id" : gostring, JStr (ci_ChannelID r)); ("channel_type" : gostring, JInt (ci_ChannelType r)); ("ban" : gostring, JInt (ci_Ban r));
        ("large" : gostring, JInt (ci_Large r)); ("disband" : gostring, JInt (ci_Disband r))].

Record ChannelReq := mkChannelReq { cr_ChannelID : gostring; cr_ChannelType : Z }.

Record DeleteConversationReq := mkDeleteConversationReq { dc_UID : gostring; dc_ChannelID : gostring; dc_ChannelType : Z }.
Definition DeleteConversationReq_json (r : DeleteConversationReq) : json :=
  JObj [("uid" : gostring, JStr (dc_UID r)); ("channel_id" : gostring, JStr (dc_ChannelID r)); ("channel_type" : gostring, JInt (dc_ChannelType r))].

(** Black and white lists embed the channel. *)
Record ChannelListReq := mkChannelListReq { cl_Channel : ChannelReq; cl_UIDs : slice gostring }.
Definition ChannelListReq_json (r : ChannelListReq) : json :=
  JObj [("channel_id" : gostring, JStr (cr_ChannelID (cl_Channel r))); ("channel_type" : gostring, JInt (cr_ChannelType (cl_Channel r)));
        ("uids" : gostring, strings_json (cl_UIDs r))].

Record SubscriberAddReq := mkSubscriberAddReq { sub_ChannelID : gostring; sub_ChannelType : Z; sub_Reset : Z; sub_Subscribers : slice gostring }.
Definition SubscriberAddReq_json (r : SubscriberAddReq) : json :=
  JObj [("channel_id" : gostring, JStr (sub_ChannelID r)); ("channel_type" : gostring, JInt (sub_ChannelType r));
        ("reset" : gostring, JInt (sub_Reset r)); ("subscribers" : gostring, strings_json (sub_Subscribers r))].

Record SubscriberRemoveReq := mkSubscriberRemoveReq { srm_ChannelID : gostring; srm_ChannelType : Z; srm_Subscribers : slice gostring }.
Definition SubscriberRemoveReq_json (r : SubscriberRemoveReq) : json :=
  JObj [("channel_id" : gostring, JStr (srm_ChannelID r)); ("channel_type" : gostring, JInt (srm_ChannelType r)); ("subscribers" : gostring, strings_json (srm_Subscribers r))].

Record MessageStreamStartReq := mkMessageStreamStartReq {
  st_Header : MsgHeader; st_ClientMsgNo : gostring; st_FromUID : gostring; st_ChannelID : gostring; st_ChannelType : Z; st_Payload : option gostring }.
Definition MessageStreamStartReq_json (r : MessageStreamStartReq) : json :=
  JObj [("header" : gostring, MsgHeader_json (st_Header r)); ("client_msg_no" : gostring, JStr (st_ClientMsgNo r)); ("from_uid" : gostring, JStr (st_FromUID r));
        ("channel_id" : gostring, JStr (st_ChannelID r)); ("channel_type" : gostring, JInt (st_ChannelType r)); ("payload" : gostring, bytes_json (st_Payload r))].

Record MessageStreamEndReq := mkMessageStreamEndReq { sn_StreamNo : gostring; sn_ChannelID : gostring; sn_ChannelType : Z }.
Definition MessageStreamEndReq_json (r : MessageStreamEndReq) : json :=
  JObj [("stream_no" : gostring, JStr (sn_StreamNo r)); ("channel_id" : gostring, JStr (sn_ChannelID r)); ("channel_type" : gostring, JInt (sn_ChannelType r))].

(** ** Settings of a message *)

Record Setting := mkSetting { Receipt : bool; NoUpdateConversation : bool; Signal : bool }.

Definition encodeBool (b : bool) : Z := if b then 1 else 0.

Definition Setting_ToUint8 (s : Setting) : Z :=
  uint8 (Z.lor (Z.lor (Z.shiftl (encodeBool (Receipt s)) 7) (Z.shiftl (encodeBool (NoUpdateConversation s)) 6))
               (Z.shiftl (encodeBool (Signal s)) 5)).

Definition SettingFromUint8 (v : Z) : Setting :=
  mkSetting (0 <? Z.land (Z.shiftr v 7) 1) (0 <? Z.land (Z.shiftr v 6) 1) (0 <? Z.land (Z.shiftr v 5) 1).

(** Settings survive their byte form, and the byte keeps only their three bits. *)
Lemma Setting_roundtrip s v : 0 <= v < 256 ->
  SettingFromUint8 (Setting_ToUint8 s) = s /\ Setting_ToUint8 (SettingFromUint8 v) = Z.land v 224.
Proof.
  intros Hv. split; [by destruct s as [[] [] []]|].
  assert (Forall (fun n => Setting_ToUint8 (SettingFromUint8 (Z.of_nat n)) = Z.land (Z.of_nat n) 224) (seq 0 256)) as Hall.
  { apply (bool_decide_unpack _). vm_compute. exact I. }
  rewrite Forall_forall in Hall. specialize (Hall (Z.to_nat v)). rewrite Z2Nat.id in Hall by lia. apply Hall.
  apply elem_of_seq. lia.
Qed.

(** ** Responses *)

Section Responses.
Context `{Unicode}.

(** A byte slice: base64 text. *)
Definition into_bytes (old : option gostring) (v : json) : option (option gostring) :=
  match v with
  | JNull => Some None
  | JStr s => match b64_decode s with Some b => Some (Some b) | None => None end
  | _ => None
  end.

Record UpdateIMTokenResp := mkUpdateIMTokenResp { utr_Status : Z }.
Definition into_UpdateIMTokenResp (old : UpdateIMTokenResp) (v : json) : option UpdateIMTokenResp :=
  match v with
  | JNull => Some old
  | JObj kvs => a ← into_field ["status" : gostring] kvs "status" (into_int 64) (utr_Status old); Some (mkUpdateIMTokenResp a)
  | _ => None
  end.

Definition MsgHeader_fields : list gostring := ["no_persist"; "red_dot"; "sync_once"].
Definition zero_header : MsgHeader := mkHeader 0 0 0.
Definition into_MsgHeader (old : MsgHeader) (v : json) : option MsgHeader :=
  match v with
  | JNull => Some old
  | JObj kvs =>
    a ← into_field MsgHeader_fields kvs "no_persist" (into_int 64) (NoPersist old);
    b ← into_field MsgHeader_fields kvs "red_dot" (into_int 64) (RedDot old);
    c ← into_field MsgHeader_fields kvs "sync_once" (into_int 64) (SyncOnce old);
    Some (mkHeader a b c)
  | _ => None
  end.

Record StreamItemResp := mkStreamItemResp { si_StreamSeq : Z; si_ClientMsgNo : gostring; si_Blob : option gostring }.
Definition StreamItemResp_fields : list gostring := ["stream_seq"; "client_msg_no"; "blob"].
Definition into_StreamItemResp (old : StreamItemResp) (v : json) : option StreamItemResp :=
  match v with
  | JNull => Some old
  | JObj kvs =>
    a ← into_field StreamItemResp_fields kvs "stream_seq" (into_uint 32) (si_StreamSeq old);
    b ← into_field StreamItemResp_fields kvs "client_msg_no" into (si_ClientMsgNo old);
    c ← into_field StreamItemResp_fields kvs "blob" into_bytes (si_Blob old);
    Some (mkStreamItemResp a b c)
  | _ => None
  end.

(** The field [mr_payloadMap] is the cache of [GetPayloadMap], not part of the JSON. *)
Record MessageResp := mkMessageResp {
  mr_Header : MsgHeader; mr_Setting : Z; mr_MessageIDStr : gostring; mr_MessageID : Z; mr_MessageSeq : Z;
  mr_ClientMsgNo : gostring; mr_Expire : Z; mr_FromUID : gostring; mr_ToUID : gostring; mr_Channel : gostring;
  mr_ChanType : Z; mr_Timestamp : Z; mr_Payload : option gostring; mr_StreamNo : gostring;
  mr_Streams : slice (option StreamItemResp); mr_IsDeleted : Z; mr_VoiceStatus : Z;
  mr_payloadMap : option (gmap gostring json) }.
Definition zero_MessageResp : MessageResp :=
  mkMessageResp zero_header 0 [] 0 0 [] 0 [] [] [] 0 0 None [] None 0 0 None.
Definition MessageResp_fields : list gostring :=
  ["header"; "setting"; "message_idstr"; "message_id"; "message_seq"; "client_msg_no"; "expire"; "from_uid"; "to_uid";
   "channel_id"; "channel_type"; "timestamp"; "payload"; "stream_no"; "streams"; "is_deleted"; "voice_status"].
Definition into_MessageResp (old : MessageResp) (v : json) : option MessageResp :=
  match v with
  | JNull => Some old
  | JObj kvs =>
    a1 ← into_field MessageResp_fields kvs "header" into_MsgHeader (mr_Header old);
    a2 ← into_field MessageResp_fields kvs "setting" (into_uint 8) (mr_Setting old);
    a3 ← into_field MessageResp_fields kvs "message_idstr" into (mr_MessageIDStr old);
    a4 ← into_field MessageResp_fields kvs "message_id" (into_int 64) (mr_MessageID old);
    a5 ← into_field MessageResp_fields kvs "message_seq" (into_uint 32) (mr_MessageSeq old);
    a6 ← into_field MessageResp_fields kvs "client_msg_no" into (mr_ClientMsgNo old);
    a7 ← into_field MessageResp_fields kvs "expire" (into_uint 32) (mr_Expire old);
    a8 ← into_field MessageResp_fields kvs "from_uid" into (mr_FromUID old);
    a9 ← into_field MessageResp_fields kvs "to_uid" into (mr_ToUID old);
    a10 ← into_field MessageResp_fields kvs "channel_id" into (mr_Channel old);
    a11 ← into_field MessageResp_fields kvs "channel_type" (into_uint 8) (mr_ChanType old);
    a12 ← into_field MessageResp_fields kvs "timestamp" (into_int 32) (mr_Timestamp old);
    a13 ← into_field MessageResp_fields kvs "payload" into_bytes (mr_Payload old);
    a14 ← into_field MessageResp_fields kvs "stream_no" into (mr_StreamNo old);
    a15 ← into_field MessageResp_fields kvs "streams"
            (into_slice None (into_ptr (mkStreamItemResp 0 [] None) into_StreamItemResp)) (mr_Streams old);
    a16 ← into_field MessageResp_fields kvs "is_deleted" (into_int 64) (mr_IsDeleted old);
    a17 ← into_field MessageResp_fields kvs "voice_status" (into_int 64) (mr_VoiceStatus old);
    Some (mkMessageResp a1 a2 a3 a4 a5 a6 a7 a8 a9 a10 a11 a12 a13 a14 a15 a16 a17 (mr_payloadMap old))
  | _ => None
  end.
Definition into_messages := into_slice None (into_ptr zero_MessageResp into_MessageResp).

(** [GetPayloadMap]: the map, and the message with it cached. *)
Definition set_payloadMap (m : MessageResp) (pm : option (gmap gostring json)) : MessageResp :=
  mkMessageResp (mr_Header m) (mr_Setting m) (mr_MessageIDStr m) (mr_MessageID m) (mr_MessageSeq m) (mr_ClientMsgNo m)
    (mr_Expire m) (mr_FromUID m) (mr_ToUID m) (mr_Channel m) (mr_ChanType m) (mr_Timestamp m) (mr_Payload m)
    (mr_StreamNo m) (mr_Streams m) (mr_IsDeleted m) (mr_VoiceStatus m) pm.

Definition GetPayloadMap (m : MessageResp) : go net_err (option (gmap gostring json)) * MessageResp :=
  match mr_payloadMap m with
  | Some pm => (Ok (Some pm), m)
  | None =>
    match ReadJsonByByte (default [] (mr_Payload m)) zero with
    | None => (Err ErrJSON, m)
    | Some pm => (Ok pm, set_payloadMap m pm)
    end
  end.

(** [GetContentType]: the type assertion panics when "type" is missing or is not
    a number; a number that is not an int64 reads as its clamped value, or 0. *)
Definition GetContentType (m : MessageResp) : go net_err Z * MessageResp :=
  match GetPayloadMap m with
  | (Err _, m) => (Ok 0, m)
  | (Panicked msg, m) => (Panicked msg, m)
  | (Ok pm, m) =>
    match default ∅ pm !! ("type" : gostring) with
    | Some (JNum lit) => (Ok (ParseInt lit 64).1, m)
    | _ => (Panicked "interface conversion", m)
    end
  end.

Record SyncUserConversationResp := mkSyncUserConversationResp {
  uc_ChannelID : gostring; uc_ChannelType : Z; uc_Unread : Z; uc_Timestamp : Z; uc_LastMsgSeq : Z;
  uc_LastClientMsgNo : gostring; uc_OffsetMsgSeq : Z; uc_Version : Z; uc_Recents : slice (option MessageResp) }.
Definition SyncUserConversationResp_fields : list gostring :=
  ["channel_id"; "channel_type"; "unread"; "timestamp"; "last_msg_seq"; "last_client_msg_no"; "offset_msg_seq"; "version"; "recents"].
Definition into_SyncUserConversationResp (old : SyncUserConversationResp) (v : json) : option SyncUserConversationResp :=
  match v with
  | JNull => Some old
  | JObj kvs =>
    let fs := SyncUserConversationResp_fields in
    a1 ← into_field fs kvs "channel_id" into (uc_ChannelID old);
    a2 ← into_field fs kvs "channel_type" (into_uint 8) (uc_ChannelType old);
    a3 ← into_field fs kvs "unread" (into_int 64) (uc_Unread old);
    a4 ← into_field fs kvs "timestamp" (into_int 64) (uc_Timestamp old);
    a5 ← into_field fs kvs "last_msg_seq" (into_int 64) (uc_LastMsgSeq old);
    a6 ← into_field fs kvs "last_client_msg_no" into (uc_LastClientMsgNo old);
    a7 ← into_field fs kvs "offset_msg_seq" (into_int 64) (uc_OffsetMsgSeq old);
    a8 ← into_field fs kvs "version" (into_int 64) (uc_Version old);
    a9 ← into_field fs kvs "recents" into_messages (uc_Recents old);
    Some (mkSyncUserConversationResp a1 a2 a3 a4 a5 a6 a7 a8 a9)
  | _ => None
  end.

Record ConversationResp := mkConversationResp {
  cv_ChannelID : gostring; cv_ChannelType : Z; cv_Unread : Z; cv_Timestamp : Z; cv_LastMessage : option MessageResp }.
Definition ConversationResp_fields : list gostring := ["channel_id"; "channel_type"; "unread"; "timestamp"; "last_message"].
Definition into_ConversationResp (old : ConversationResp) (v : json) : option ConversationResp :=
  match v with
  | JNull => Some old
  | JObj kvs =>
    let fs := ConversationResp_fields in
    a1 ← into_field fs kvs "channel_id" into (cv_ChannelID old);
    a2 ← into_field fs kvs "channel_type" (into_uint 8) (cv_ChannelType old);
    a3 ← into_field fs kvs "unread" (into_int 64) (cv_Unread old);
    a4 ← into_field fs kvs "timestamp" (into_int 64) (cv_Timestamp old);
    a5 ← into_field fs kvs "last_message" (into_ptr zero_MessageResp into_MessageResp) (cv_LastMessage old);
    Some (mkConversationResp a1 a2 a3 a4 a5)
  | _ => None
  end.

Record SyncChannelMessageResp := mkSyncChannelMessageResp {
  sm_StartMessageSeq : Z; sm_EndMessageSeq : Z; sm_PullMode : Z; sm_Messages : slice (option MessageResp) }.
Definition SyncChannelMessageResp_fields : list gostring := ["start_message_seq"; "end_message_seq"; "pull_mode"; "messages"].
Definition into_SyncChannelMessageResp (old : SyncChannelMessageResp) (v : json) : option SyncChannelMessageResp :=
  match v with
  | JNull => Some old
  | JObj kvs =>
    let fs := SyncChannelMessageResp_fields in
    a1 ← into_field fs kvs "start_message_seq" (into_uint 32) (sm_StartMessageSeq old);
    a2 ← into_field fs kvs "end_message_seq" (into_uint 32) (sm_EndMessageSeq old);
    a3 ← into_field fs kvs "pull_mode" (into_int 64) (sm_PullMode old);
    a4 ← into_field fs kvs "messages" into_messages (sm_Messages old);
    Some (mkSyncChannelMessageResp a1 a2 a3 a4)
  | _ => None
  end.

Record ChannelMaxSeqResp := mkChannelMaxSeqResp { cm_MessageSeq : Z }.
Definition into_ChannelMaxSeqResp (old : ChannelMaxSeqResp) (v : json) : option ChannelMaxSeqResp :=
  match v with
  | JNull => Some old
  | JObj kvs => a ← into_field ["message_seq" : gostring] kvs "message_seq" (into_uint 32) (cm_MessageSeq old); Some (mkChannelMaxSeqResp a)
  | _ => None
  end.

Record OnlinestatusResp := mkOnlinestatusResp { os_UID : gostring; os_DeviceFlag : Z; os_LastOffline : Z; os_Online : Z }.
Definition OnlinestatusResp_fields : list gostring := ["uid"; "device_flag"; "last_offline"; "online"].
Definition into_OnlinestatusResp (old : OnlinestatusResp) (v : json) : option OnlinestatusResp :=
  match v with
  | JNull => Some old
  | JObj kvs =>
    let fs := OnlinestatusResp_fields in
    a1 ← into_field fs kvs "uid" into (os_UID old);
    a2 ← into_field fs kvs "device_flag" (into_uint 8) (os_DeviceFlag old);
    a3 ← into_field fs kvs "last_offline" (into_int 64) (os_LastOffline old);
    a4 ← into_field fs kvs "online" (into_int 64) (os_Online old);
    Some (mkOnlinestatusResp a1 a2 a3 a4)
  | _ => None
  end.

Record SearchUserMessageResp := mkSearchUserMessageResp {
  sur_Total : Z; sur_Limit : Z; sur_Page : Z; sur_Messages : slice (option MessageResp) }.
Definition SearchUserMessageResp_fields : list gostring := ["total"; "limit"; "page"; "messages"].
Definition into_SearchUserMessageResp (old : SearchUserMessageResp) (v : json) : option SearchUserMessageResp :=
  match v with
  | JNull => Some old
  | JObj kvs =>
    let fs := SearchUserMessageResp_fields in
    a1 ← into_field fs kvs "total" (into_int 64) (sur_Total old);
    a2 ← into_field fs kvs "limit" (into_int 64) (sur_Limit old);
    a3 ← into_field fs kvs "page" (into_int 64) (sur_Page old);
    a4 ← into_field fs kvs "messages" into_messages (sur_Messages old);
    Some (mkSearchUserMessageResp a1 a2 a3 a4)
  | _ => None
  end.
End Responses.

(** ** Operations *)

(** The part of the configuration the client reads. *)
Record im_config := mkImConfig { APIURL : gostring; ManagerToken : gostring; cfg_Test : bool }.

(** [github.com/tidwall/gjson], third-party: a result of a path query. *)
Class Gjson := {
  gresult : Type;
  gjson_Get : gostring -> gostring -> gresult;
  res_Get : gresult -> gostring -> gresult;
  res_Int : gresult -> Z;
  res_String : gresult -> gostring
}.

(** [%s] of a decoded JSON value. *)
Fixpoint Sprintf_s (v : json) : gostring :=
  match v with
  | JNull => "%!s(<nil>)"
  | JBool b => "%!s(bool=" ++ (if b then "true" else "false") ++ ")"
  | JNum lit => lit
  | JStr s => s
  | JArr l => "[" ++ Join (map Sprintf_s l) " " ++ "]"
  | JObj kvs =>
    (* the map of the members, printed in the order of its keys *)
    let printed := map (fun kv => (kv.1, Sprintf_s kv.2)) kvs in
    let m := fold_left (fun (m : gmap gostring gostring) kv => <[kv.1 := kv.2]> m) printed ∅ in
    "map[" ++ Join (map (fun k => k ++ ":" ++ default [] (m !! k)) (sort_strings (map_to_list m).*1)) " " ++ "]"
  end.

Section Operations.
Context `{Unicode} `{Gjson} (c : im_config).

Definition wkIMManagerTokenHeader : option (gmap gostring gostring) :=
  if eqs (ManagerToken c) [] then None else Some {["token" := ManagerToken c]}.

(** [Config.WuKongIMManagerTokenHeaderMap], the same for other modules. *)
Definition WuKongIMManagerTokenHeaderMap : option (gmap gostring gostring) :=
  if eqs (ManagerToken c) [] then None else Some {["token" := ManagerToken c]}.

(** The message that a bad request carries, if it carries one. *)
Definition bad_request_msg (resp : rest_response) (prefix : gostring) (otherwise : net_err) : net_err :=
  if StatusCode resp =? 400 then
    match JsonToMap (Body resp) with
    | None => ErrJSON
    | Some resultMap =>
      match default ∅ resultMap !! ("msg" : gostring) with
      | Some JNull | None => otherwise
      | Some msg => ErrText (prefix ++ " -> " ++ Sprintf_s msg)
      end
    end
  else otherwise.

Definition handlerIMError (resp : rest_response) : call unit :=
  if negb (StatusCode resp =? 200)
  then fail (bad_request_msg resp "IM服务失败！" (ErrText ("IM服务返回状态[" ++ FormatInt (StatusCode resp) ++ "]失败！")))
  else ret tt.

(** A response body read into a variable. *)
Definition read_body {A} (store : A -> json -> option A) (z : A) (resp : rest_response) : call A :=
  match Decode (Body resp) with
  | Some (v, _) => match store z v with Some a => ret a | None => fail ErrJSON end
  | None => fail ErrJSON
  end.

(** The shape most operations share: post, and look at the status. *)
Definition im_post (path : gostring) (body : json) : call rest_response :=
  Post (APIURL c ++ path) (ToJson body) wkIMManagerTokenHeader.

Definition im_post_ok (path : gostring) (body : json) : call unit :=
  do! resp := im_post path body in handlerIMError resp.

Definition im_post_read {A} (path : gostring) (body : json) (store : A -> json -> option A) (z : A) : call A :=
  do! resp := im_post path body in
  do! _ := handlerIMError resp in
  read_body store z resp.

Definition UpdateIMToken (req : UpdateIMTokenReq) : call (option UpdateIMTokenResp) :=
  im_post_read "/user/token"
    (map_json [("uid" : gostring, JStr (ut_UID req)); ("token" : gostring, JStr (ut_Token req));
               ("device_level" : gostring, JInt (ut_DeviceLevel req)); ("device_flag" : gostring, JInt (ut_DeviceFlag req))])
    (into_ptr (mkUpdateIMTokenResp 0) into_UpdateIMTokenResp) None.

Definition QuitUserDevice (uid : gostring) (deviceFlag : Z) : call unit :=
  do! resp := im_post "/user/device_quit" (map_json [("uid" : gostring, JStr uid); ("device_flag" : gostring, JInt deviceFlag)]) in
  if negb (StatusCode resp =? 200)
  then fail (ErrText ("IM服务返回状态[" ++ FormatInt (StatusCode resp) ++ "]失败！"))
  else ret tt.

Definition SendMessageBatch (req : MsgSendBatch) : call unit :=
  do! resp := im_post "/message/sendbatch" (MsgSendBatch_json req) in
  if negb (StatusCode resp =? 200)
  then fail (bad_request_msg resp "IM服务[SendMessageBatch]失败！"
               (ErrText ("IM服务[SendMessageBatch]返回状态[" ++ FormatInt (StatusCode resp) ++ "]失败！")))
  else ret tt.

Definition SendMessageWithResult (req : MsgSendReq) : call MsgSendResp :=
  do! resp := im_post "/message/send" (MsgSendReq_json req) in
  if negb (StatusCode resp =? 200)
  then fail (bad_request_msg resp "IM服务[SendMessage]失败！"
               (ErrText ("IM服务[SendMessage]返回状态[" ++ FormatInt (StatusCode resp) ++ "]失败！")))
  else
    let dataResult := gjson_Get (Body resp) "data" in
    ret (mkMsgSendResp (res_Int (res_Get dataResult "message_id")) (res_String (res_Get dataResult "client_msg_no"))
                       (uint32 (res_Int (res_Get dataResult "message_seq")))).

Definition SendMessage (req : MsgSendReq) : call unit := do! _ := SendMessageWithResult req in ret tt.

Definition SendFriendApply (req : MsgFriendApplyReq) : call unit :=
  SendMessage (mkMsgSendReq (mkHeader 0 0 1) 0 [] (fa_ToUID req) (ChannelType_Uint8 ChannelTypePerson) [] None
    (Some (ToJson (map_json [
       ("apply_uid" : gostring, JStr (fa_ApplyUID req)); ("apply_name" : gostring, JStr (fa_ApplyName req));
       ("to_uid" : gostring, JStr (fa_ToUID req)); ("remark" : gostring, JStr (fa_Remark req));
       ("token" : gostring, JStr (fa_Token req)); ("type" : gostring, JInt FriendApply)])))).

Definition SendFriendSure (req : MsgFriendSureReq) : call unit :=
  SendMessage (mkMsgSendReq (mkHeader 0 0 1) 0 [] (fs_ToUID req) (ChannelType_Uint8 ChannelTypePerson) [] None
    (Some (ToJson (map_json [
       ("sure_uid" : gostring, JStr (fs_FromUID req)); ("sure_name" : gostring, JStr (fs_FromName req));
       ("to_uid" : gostring, JStr (fs_ToUID req)); ("content" : gostring, JStr "你们已经是好友了，可以愉快的聊天了！");
       ("type" : gostring, JInt FriendSure)])))).

(** The command message: it is not persisted on request, is synchronised once,
    and leaves the conversation list alone. *)
Definition SendCMD (req : MsgCMDReq) : call unit :=
  let contentMap := [("cmd" : gostring, JStr (cmd_CMD req)); ("type" : gostring, JInt CMD)] ++
                    match cmd_Param req with Some p => [("param" : gostring, obj_of_map p)] | None => [] end in
  let noPersist := if cmd_NoPersist req then 1 else 0 in
  let setting := mkSetting false true false in
  SendMessage (mkMsgSendReq (mkHeader noPersist 0 1) (Setting_ToUint8 setting) (cmd_FromUID req) (cmd_ChannelID req)
    (cmd_ChannelType req) [] (cmd_Subscribers req) (Some (ToJson (map_json contentMap)))).

Definition SendFriendDelete (req : MsgFriendDeleteReq) : call unit :=
  SendCMD (mkMsgCMDReq false [] (fd_FromUID req) (ChannelType_Uint8 ChannelTypePerson) None CMDFriendDeleted
    (Some (list_to_map [("uid" : gostring, JStr (fd_ToUID req))]))).

Definition IMCreateOrUpdateChannelInfo (req : ChannelInfoCreateReq) : call unit := im_post_ok "/channel/info" (ChannelInfoCreateReq_json req).
Definition IMCreateOrUpdateChannel (req : ChannelCreateReq) : call unit := im_post_ok "/channel" (ChannelCreateReq_json req).
Definition IMBlacklistAdd (req : ChannelListReq) : call unit := im_post_ok "/channel/blacklist_add" (ChannelListReq_json req).
Definition IMBlacklistSet (req : ChannelListReq) : call unit := im_post_ok "/channel/blacklist_set" (ChannelListReq_json req).
Definition IMBlacklistRemove (req : ChannelListReq) : call unit := im_post_ok "/channel/blacklist_remove" (ChannelListReq_json req).
Definition IMWhitelistAdd (req : ChannelListReq) : call unit := im_post_ok "/channel/whitelist_add" (ChannelListReq_json req).
Definition IMWhitelistSet (req : ChannelListReq) : call unit := im_post_ok "/channel/whitelist_set" (ChannelListReq_json req).
Definition IMWhitelistRemove (req : ChannelListReq) : call unit := im_post_ok "/channel/whitelist_remove" (ChannelListReq_json req).

Definition IMAddSubscriber (req : SubscriberAddReq) : call unit :=
  do! resp := im_post "/channel/subscriber_add" (SubscriberAddReq_json req) in
  if negb (StatusCode resp =? 200)
  then fail (ErrText ("IM服务[IMAddSubscriber]返回状态[" ++ FormatInt (StatusCode resp) ++ "]失败！"))
  else ret tt.

Definition IMRemoveSubscriber (req : SubscriberRemoveReq) : call unit := im_post_ok "/channel/subscriber_remove" (SubscriberRemoveReq_json req).

Definition IMGetConversations (uid : gostring) : call (slice (option ConversationResp)) :=
  do! resp := Get (APIURL c ++ "/conversations") (Some {["uid" := uid]}) wkIMManagerTokenHeader in
  do! _ := handlerIMError resp in
  read_body (into_slice None (into_ptr (mkConversationResp [] 0 0 0 None) into_ConversationResp)) None resp.

Definition IMClearConversationUnread (req : ClearConversationUnreadReq) : call unit :=
  im_post_ok "/conversations/setUnread" (ClearConversationUnreadReq_json req).
Definition IMDeleteConversation (req : DeleteConversationReq) : call unit :=
  im_post_ok "/conversations/delete" (DeleteConversationReq_json req).

Definition IMSyncUserConversation (uid : gostring) (version msgCount : Z) (lastMsgSeqs : gostring) (larges : slice (option Channel))
  : call (slice (option SyncUserConversationResp)) :=
  im_post_read "/conversation/sync"
    (map_json [("uid" : gostring, JStr uid); ("version" : gostring, JInt version); ("last_msg_seqs" : gostring, JStr lastMsgSeqs);
               ("msg_count" : gostring, JInt msgCount);
               ("larges" : gostring, slice_json (fun o => match o with Some ch => Channel_json ch | None => JNull end) larges)])
    (into_slice None (into_ptr (mkSyncUserConversationResp [] 0 0 0 0 [] 0 0 None) into_SyncUserConversationResp)) None.

Definition IMGetChannelMaxSeq (channelID : gostring) (channelType : Z) : call (option ChannelMaxSeqResp) :=
  do! resp := Get (APIURL c ++ "/channel/max_message_seq")
                (Some (list_to_map [("channel_id" : gostring, channelID); ("channel_type" : gostring, FormatInt channelType)])) wkIMManagerTokenHeader in
  do! _ := handlerIMError resp in
  read_body (into_ptr (mkChannelMaxSeqResp 0) into_ChannelMaxSeqResp) None resp.

Definition zero_SyncChannelMessageResp : SyncChannelMessageResp := mkSyncChannelMessageResp 0 0 0 None.

Definition IMGetWithChannelAndSeqs (channelID : gostring) (channelType : Z) (loginUID : gostring) (seqs : slice Z)
  : call (option SyncChannelMessageResp) :=
  im_post_read "/messages"
    (map_json [("channel_id" : gostring, JStr channelID); ("channel_type" : gostring, JInt channelType);
               ("message_seqs" : gostring, ints_json seqs); ("login_uid" : gostring, JStr loginUID)])
    (into_ptr zero_SyncChannelMessageResp into_SyncChannelMessageResp) None.

Definition IMSyncChannelMessage (req : SyncChannelMessageReq) : call (option SyncChannelMessageResp) :=
  im_post_read "/channel/messagesync" (SyncChannelMessageReq_json req)
    (into_ptr zero_SyncChannelMessageResp into_SyncChannelMessageResp) None.

Definition IMSyncMessage (req : MsgSyncReq) : call (slice (option MessageResp)) :=
  im_post_read "/message/sync" (MsgSyncReq_json req) into_messages None.

Definition IMSyncMessageAck (req : SyncackReq) : call unit := im_post_ok "/message/syncack" (SyncackReq_json req).
Definition IMRevokeMessage (req : MessageRevokeReq) : call unit := im_post_ok "/message/revoke" (MessageRevokeReq_json req).
Definition IMDelChannel (req : ChannelDeleteReq) : call unit := im_post_ok "/channel/delete" (ChannelDeleteReq_json req).

Definition IMSearchUserMessages (req : SearchUserMessageReq) : call (option SearchUserMessageResp) :=
  im_post_read "/plugins/wk.plugin.search/usersearch" (SearchUserMessageReq_json req)
    (into_ptr (mkSearchUserMessageResp 0 0 0 None) into_SearchUserMessageResp) None.

Definition IMSearchMessages (req : MsgSearchReq) : call (option SyncChannelMessageResp) :=
  im_post_read "/messages" (MsgSearchReq_json req) (into_ptr zero_SyncChannelMessageResp into_SyncChannelMessageResp) None.

Definition SendRevoke (req : MsgRevokeReq) : call unit :=
  SendCMD (mkMsgCMDReq false (rv_FromUID req) (rv_ChannelID req) (rv_ChannelType req) None "messageRevoke"
    (Some (list_to_map [("message_id" : gostring, JStr (FormatInt (rv_MessageID req)))]))).

Definition SendTyping (channelID : gostring) (channelType : Z) (fromUID : gostring) : call unit :=
  SendCMD (mkMsgCMDReq true [] channelID channelType None CMDTyping
    (Some (list_to_map [("from_uid" : gostring, JStr fromUID); ("channel_id" : gostring, JStr channelID); ("channel_type" : gostring, JInt channelType)]))).

(** In test mode nothing is asked. *)
Definition IMSOnlineStatus (uids : slice gostring) : call (slice (option OnlinestatusResp)) :=
  if cfg_Test c then ret None
  else im_post_read "/user/onlinestatus" (strings_json uids)
         (into_slice None (into_ptr (mkOnlinestatusResp [] 0 0 0) into_OnlinestatusResp)) None.

(** *** [stream.go] *)

Definition IMStreamStart (req : MessageStreamStartReq) : call gostring :=
  do! resp := im_post "/streammessage/start" (MessageStreamStartReq_json req) in
  do! _ := handlerIMError resp in
  do! resultMap := read_body into (zero : option (gmap gostring json)) resp in
  match resultMap with
  | None => fail (ErrText "result is nil")
  | Some m => match m !! ("stream_no" : gostring) with
              | Some (JStr streamNo) => ret streamNo
              | _ => fail (ErrText "stream_no field missing or not a string")
              end
  end.

Definition IMStreamEnd (req : MessageStreamEndReq) : call unit :=
  do! resp := im_post "/streammessage/end" (MessageStreamEndReq_json req) in
  do! _ := handlerIMError resp in
  ret tt.

(** *** [msg_channel.go] *)

Definition SendChannelUpdateWithFromUID (channel updateChannel : ChannelReq) (fromUID : gostring) : call unit :=
  SendCMD (mkMsgCMDReq false fromUID (cr_ChannelID channel) (cr_ChannelType channel) None CMDChannelUpdate
    (Some (list_to_map [("channel_id" : gostring, JStr (cr_ChannelID updateChannel));
                        ("channel_type" : gostring, JInt (cr_ChannelType updateChannel))]))).

Definition SendChannelUpdate (channel updateChannel : ChannelReq) : call unit :=
  SendChannelUpdateWithFromUID channel updateChannel [].

Definition SendChannelUpdateToGroup (groupNo : gostring) : call unit :=
  let channelReq := mkChannelReq groupNo (ChannelType_Uint8 ChannelTypeGroup) in
  SendChannelUpdateWithFromUID channelReq channelReq [].

Definition SendChannelUpdateToUser (uid : gostring) (channel : ChannelReq) : call unit :=
  SendChannelUpdateWithFromUID (mkChannelReq uid (ChannelType_Uint8 ChannelTypePerson)) channel [].
End Operations.

(** ** What the service receives *)

(** The payload bytes in the body of a request, as the service decodes them. *)
Definition payload_of (m : option (option (gmap gostring json))) : option gostring :=
  match m with
  | Some (Some m) => match m !! ("payload" : gostring) with Some (JStr s) => b64_decode s | _ => None end
  | _ => None
  end.

Definition delivered (r : rest_request) : option gostring :=
  match req_Body r with Some body => payload_of (JsonToMap body) | None => None end.

Lemma ascii_ValidString s : Forall (fun c => byte_val c < 128) s -> ValidString s = true.
Proof.
  induction 1 as [|c s Hc _ IH]; [done|]. apply ValidString_step. rewrite DecodeRune_ascii by done.
  split; [|done]. intros [E _]. unfold RuneError in E. lia.
Qed.

Lemma b64_char_ascii d : 0 <= d -> byte_val (b64_char d) < 128.
Proof.
  intros Hd. unfold b64_char. repeat case_match; rewrite ?byte_val_of; try by vm_compute.
  all: match goal with |- ?x mod 256 < 128 => rewrite Z.mod_small by lia; lia end.
Qed.

Lemma b64_encode_ascii s : Forall (fun c => byte_val c < 128) (b64_encode s).
Proof.
  induction s as [|a|a b|a b c s IH] using three_ind; [constructor|..];
    pose proof (quarter_range _ (byte_val_range a)); try pose proof (quarter_range _ (byte_val_range b));
    try pose proof (quarter_range _ (byte_val_range c));
    cbn [b64_encode]; repeat (apply Forall_cons; split); try (apply b64_char_ascii; lia); try done; by apply Forall_nil.
Qed.

Lemma wf_strings_json d l : Forall (fun s => ValidString s = true) (default [] l) -> wf_json (S d) (strings_json l) = true.
Proof.
  destruct l as [l|]; [|done]. intros Hl. unfold strings_json, slice_json. rewrite wf_JArr.
  apply forallb_forall. intros v (s & <- & Hin%list_elem_of_In)%in_map_iff. rewrite wf_JStr.
  rewrite Forall_forall in Hl. by apply Hl.
Qed.

(** The literal maps of the code: their lookups and their well-formedness. *)
Lemma wf_map_json d l : Forall (fun kv => ValidString kv.1 = true /\ wf_json d kv.2 = true) l ->
  wf_json (S d) (map_json l) = true.
Proof.
  intros Hl. apply wf_obj_of_map. intros k v Hkv. apply elem_of_list_to_map_2 in Hkv.
  rewrite Forall_forall in Hl. exact (Hl _ Hkv).
Qed.

(** A request that Go can hold: its strings are UTF-8. *)
Definition storable_send (m : MsgSendReq) : Prop :=
  ValidString (ms_FromUID m) = true /\ ValidString (ms_ChannelID m) = true /\ ValidString (ms_StreamNo m) = true /\
  Forall (fun s => ValidString s = true) (default [] (ms_Subscribers m)).

Lemma wf_send m : storable_send m -> wf_json maxNestingDepth (MsgSendReq_json m) = true.
Proof.
  intros (H1 & H2 & H3 & H4). apply (wf_json_mono 2); [|apply Nat.leb_le; by vm_compute].
  unfold MsgSendReq_json, MsgHeader_json. rewrite wf_JObj. cbn [forallb fst snd].
  rewrite wf_JObj. cbn [forallb fst snd].
  rewrite !wf_JStr, !wf_JInt, H1, H2, H3, (wf_strings_json 0) by done.
  destruct (ms_Payload m); cbn [bytes_json]; rewrite ?wf_JStr, ?(ascii_ValidString (b64_encode _)) by apply b64_encode_ascii; reflexivity.
Qed.

(** The one request of [SendMessage]. *)
Definition send_request (c : im_config) (m : MsgSendReq) : rest_request :=
  mkRequest Post_ (APIURL c ++ "/message/send") (Some (ToJson (MsgSendReq_json m))) None (wkIMManagerTokenHeader c).

Lemma delivered_body r body m s :
  req_Body r = Some body -> JsonToMap body = Some (Some m) -> m !! ("payload" : gostring) = Some (JStr s) ->
  delivered r = b64_decode s.
Proof.
  intros H1 H2 H3. unfold delivered. rewrite H1, H2. unfold payload_of. by rewrite H3.
Qed.

Lemma delivered_send c m p : storable_send m -> ms_Payload m = Some p -> delivered (send_request c m) = Some p.
Proof.
  intros Hm Hp. rewrite <- (b64_roundtrip p).
  eapply (delivered_body _ (ToJson (MsgSendReq_json m))); [done|apply JsonToMap_obj; by apply wf_send|].
  unfold obj_map. cbn [fold_left fst snd]. rewrite lookup_insert_eq, Hp. done.
Qed.

(** The outcome of [SendMessage] on each answer of the client. *)
Lemma SendMessage_run `{Gjson} c m api :
  (SendMessage c m api).2 = [send_request c m] /\
  match api (send_request c m) with
  | Ok resp => (SendMessage c m api).1 = Ok tt <-> StatusCode resp = 200
  | Err e => (SendMessage c m api).1 = Err e
  | Panicked msg => (SendMessage c m api).1 = Panicked msg
  end.
Proof.
  unfold SendMessage, SendMessageWithResult, im_post, Post, RequestBoy, API, ret, fail, bind.
  change (mkRequest Post_ (APIURL c ++ "/message/send") (Some (ToJson (MsgSendReq_json m))) None (wkIMManagerTokenHeader c))
    with (send_request c m).
  destruct (api (send_request c m)) as [resp|e|msg]; [|done..].
  destruct (Z.eqb_spec (StatusCode resp) 200) as [->|Hne]; [done|]. cbn [negb].
  split; [done|]. by split.
Qed.

(** [SendMessage] makes one POST, with the manager token as its header when
    one is configured, and succeeds exactly when the answer has status 200; what
    the service decodes from the body is the payload that was given. *)
Theorem SendMessage_delivers `{Gjson} c m p api (Hm : storable_send m) (Hp : ms_Payload m = Some p) :
  (SendMessage c m api).2 = [send_request c m] /\
  delivered (send_request c m) = Some p /\
  Headers (send_request c m) = (if eqs (ManagerToken c) [] then None else Some {["token" := ManagerToken c]}) /\
  (forall resp, api (send_request c m) = Ok resp ->
     ((SendMessage c m api).1 = Ok tt <-> StatusCode resp = 200)) /\
  (forall e, api (send_request c m) = Err e -> (SendMessage c m api).1 = Err e).
Proof.
  destruct (SendMessage_run c m api) as [H1 H2]. split; [done|]. split; [by apply delivered_send|].
  split; [done|]. split; intros x Hx; by rewrite Hx in H2.
Qed.

(** A command always travels as a message that is synchronised once and leaves
    the conversation list alone; its payload carries the command, its type and
    the parameters, and says nothing about who may see it. *)
Theorem SendCMD_payload `{Gjson} c req api
  (Hid : ValidString (cmd_FromUID req) = true /\ ValidString (cmd_ChannelID req) = true /\
         Forall (fun s => ValidString s = true) (default [] (cmd_Subscribers req)))
  (Hcmd : ValidString (cmd_CMD req) = true)
  (Hparam : match cmd_Param req with Some p => wf_json 3 (obj_of_map p) = true | None => True end) :
  exists r body m, (SendCMD c req api).2 = [r] /\ delivered r = Some body /\ JsonToMap body = Some (Some m) /\
    m !! ("cmd" : gostring) = Some (JStr (cmd_CMD req)) /\ m !! ("type" : gostring) = Some (JInt CMD) /\
    m !! ("param" : gostring) = option_map obj_of_map (cmd_Param req) /\ m !! ("visibles" : gostring) = None.
Proof.
  unfold SendCMD.
  match goal with |- context [SendMessage c ?x] => set (msg := x) end.
  destruct (SendMessage_run c msg api) as [Hrun _]. exists (send_request c msg).
  set (l := [("cmd" : gostring, JStr (cmd_CMD req)); ("type" : gostring, JInt CMD)] ++
            match cmd_Param req with Some p => [("param" : gostring, obj_of_map p)] | None => [] end) in *.
  assert (wf_json 4 (map_json l) = true) as Hwf.
  { apply wf_map_json. unfold l. destruct (cmd_Param req) as [p|]; cbn [app];
      repeat (apply Forall_cons_2; [cbn [fst snd]; rewrite ?wf_JStr, ?wf_JInt; done|]); by apply Forall_nil. }
  exists (ToJson (map_json l)), (list_to_map l). split; [done|]. split.
  { apply delivered_send; [|done]. destruct Hid as (? & ? & ?). by split_and!. }
  split; [apply JsonToMap_written, (wf_json_mono 4); [done|apply Nat.leb_le; by vm_compute]|].
  unfold l. destruct (cmd_Param req); split_and!; reflexivity.
Qed.

Definition demo_gjson : Gjson :=
  {| gresult := unit; gjson_Get _ _ := tt; res_Get _ _ := tt; res_Int _ := 0; res_String _ := [] |}.
Definition demo_config : im_config := mkImConfig "http://im" "secret" false.
Definition demo_send : MsgSendReq := mkMsgSendReq zero_header 0 "u1" "u2" 1 [] None (Some "{}").

Lemma SendMessage_delivers_witness :
  delivered (send_request demo_config demo_send) = Some "{}" /\
  (@SendMessage demo_gjson demo_config demo_send (fun _ => Ok (mkResponse 200 "{}"))).1 = Ok tt.
Proof.
  destruct (@SendMessage_delivers demo_gjson demo_config demo_send "{}" (fun _ => Ok (mkResponse 200 "{}")))
    as (_ & Hd & _ & Hok & _); [split_and!; try reflexivity; constructor|reflexivity|].
  split; [exact Hd|]. by apply (Hok (mkResponse 200 "{}")).
Defined.

Lemma SendCMD_payload_witness :
  exists r body m, (@SendCMD demo_gjson demo_config (mkMsgCMDReq true "u1" "u2" 1 None "typing" None) (fun _ => Err ErrJSON)).2 = [r] /\
    delivered r = Some body /\ JsonToMap body = Some (Some m) /\ m !! ("cmd" : gostring) = Some (JStr "typing").
Proof.
  destruct (@SendCMD_payload demo_gjson demo_config (mkMsgCMDReq true "u1" "u2" 1 None "typing" None) (fun _ => Err ErrJSON))
    as (r & body & m & H1 & H2 & H3 & H4 & _); [split_and!; try reflexivity; constructor|reflexivity|exact I|].
  exists r, body, m. split_and!; assumption.
Defined.

(** [GetContentType] panics on a payload without a numeric "type". *)
Example GetContentType_panics :
  (GetContentType (mkMessageResp zero_header 0 [] 0 0 [] 0 [] [] [] 0 0 (Some "{}") [] None 0 0 None)).1 =
    Panicked "interface conversion" /\
  (GetContentType (mkMessageResp zero_header 0 [] 0 0 [] 0 [] [] [] 0 0 (Some (jq "{'type':'1'}")) [] None 0 0 None)).1 =
    Panicked "interface conversion".
Proof. split; reflexivity. Qed.
