(* ===== verification/GroupMsg.v ===== *)
(** * GroupMsg: system messages to groups and persons ([config/msg_group.go],
    [config/msg_personal.go], [config/msg_rtc.go]) *)
From S2P Require Import Prelude GoStr Json Visibility Msg Network ImApi.

#[global] Open Scope Z_scope.
#[global] Open Scope go_scope.

(** ** Requests *)

(** Members are pointers, which may be nil. *)
Abbreviation members_t := (slice (option UserBaseVo)).

Record MsgGroupCreateReq := mkMsgGroupCreateReq {
  gc_Creator : gostring; gc_CreatorName : gostring; gc_GroupNo : gostring; gc_Version : Z; gc_Members : members_t }.
Record MsgGroupUpdateReq := mkMsgGroupUpdateReq {
  gu_GroupNo : gostring; gu_Operator : gostring; gu_OperatorName : gostring; gu_Attr : gostring;
  gu_Data : option (gmap gostring gostring) }.
Record MsgGroupMemberAddReq := mkMsgGroupMemberAddReq {
  ga_Operator : gostring; ga_OperatorName : gostring; ga_GroupNo : gostring; ga_Members : members_t }.
Record MsgGroupMemberRemoveReq := mkMsgGroupMemberRemoveReq {
  gr_Operator : gostring; gr_OperatorName : gostring; gr_GroupNo : gostring; gr_Members : members_t }.
Record MsgGroupMemberScanJoin := mkMsgGroupMemberScanJoin {
  gj_GroupNo : gostring; gj_Generator : gostring; gj_GeneratorName : gostring; gj_Scaner : gostring; gj_ScanerName : gostring }.
Record MsgGroupTransferGrouper := mkMsgGroupTransferGrouper {
  gt_GroupNo : gostring; gt_OldGrouper : gostring; gt_OldGrouperName : gostring; gt_NewGrouper : gostring; gt_NewGrouperName : gostring }.
Record MsgGroupMemberInviteReq := mkMsgGroupMemberInviteReq {
  gi_GroupNo : gostring; gi_InviteNo : gostring; gi_Inviter : gostring; gi_InviterName : gostring; gi_Num : Z;
  gi_Subscribers : slice gostring }.

Definition member_json (m : option UserBaseVo) : json :=
  match m with Some u => UserBaseVo_json u | None => JNull end.

(** ** Texts *)

(** The placeholder of the [i]-th extra. *)
Definition placeholder (i : Z) : gostring := "{" ++ FormatInt i ++ "}".

(** The members other than the creator, each with its placeholder. *)
Fixpoint invited (creator : gostring) (i : Z) (members : list (option UserBaseVo))
  : go net_err (list gostring * list (option UserBaseVo)) :=
  match members with
  | [] => Ok ([], [])
  | None :: _ => Panicked "invalid memory address or nil pointer dereference"
  | Some member :: members =>
    if eqs (uv_UID member) creator then invited creator i members
    else
      let! '(params, newMembers) := invited creator (i + 1) members in
      Ok (placeholder i :: params, Some member :: newMembers)
  end.

(** The placeholders of all members. *)
Definition placeholders (members : list (option UserBaseVo)) : list gostring :=
  map (fun i => placeholder (Z.of_nat i)) (seq 0 (length members)).

Fixpoint member_uids (members : list (option UserBaseVo)) : go net_err (list gostring) :=
  match members with
  | [] => Ok []
  | None :: _ => Panicked "invalid memory address or nil pointer dereference"
  | Some member :: members => let! uids := member_uids members in Ok (uv_UID member :: uids)
  end.

Definition lift {A} (m : go net_err A) : call A := fun _ => (m, []).

(** The text that a change of an attribute shows. *)
Definition group_update_content (attr : gostring) (data : gmap gostring gostring) : gostring :=
  let get k := default [] (data !! k) in
  let quoted s := [dquote] ++ s ++ [dquote] in
  "{0}" ++
  if eqs attr GroupAttrKeyName then "修改群名为" ++ quoted (get GroupAttrKeyName)
  else if eqs attr GroupAttrKeyNotice then
    let notice := get GroupAttrKeyNotice in
    if eqs notice [] then "清空了群公告" else "修改群公告为" ++ quoted notice
  else if eqs attr GroupAttrKeyForbidden then
    if eqs (get GroupAttrKeyForbidden) "1" then "开启了群禁言" else "关闭了群禁言"
  else if eqs attr GroupAttrKeyInvite then
    if eqs (get GroupAttrKeyInvite) "1"
    then "已启用“群聊邀请确认”，群成员需群主或管理员确认才能邀请朋友进群。" else "已恢复默认进群方式。"
  else if eqs attr GroupAttrKeyStatus then
    if eqs (get GroupAttrKeyStatus) "1" then "解禁了该群" else "封禁了该群"
  else [].

(** ** Messages *)

Section Messages.
Context `{Gjson} (c : im_config).

(** A group message with a red dot. *)
Definition group_msg (groupNo : gostring) (setting : Z) (subscribers : slice gostring) (payload : list (gostring * json)) : MsgSendReq :=
  mkMsgSendReq (mkHeader 0 1 0) setting [] groupNo (ChannelType_Uint8 ChannelTypeGroup) [] subscribers
    (Some (ToJson (map_json payload))).

Definition SendGroupCreate (req : MsgGroupCreateReq) : call unit :=
  do! r := lift (invited (gc_Creator req) 0 (default [] (gc_Members req))) in
  let content := gc_CreatorName req ++ "邀请" ++ Join r.1 "," ++ "加入群聊" in
  SendMessage c (group_msg (gc_GroupNo req) 0 None [
    ("creator" : gostring, JStr (gc_Creator req)); ("creator_name" : gostring, JStr (gc_CreatorName req));
    ("content" : gostring, JStr content); ("version" : gostring, JInt (gc_Version req));
    ("extra" : gostring, JArr (map member_json r.2)); ("type" : gostring, JInt GroupCreate)]).

Definition SendUnableAddDestoryAccountInGroup (req : MsgGroupCreateReq) : call unit :=
  do! r := lift (invited (gc_Creator req) 0 (default [] (gc_Members req))) in
  let content := "用户" ++ Join r.1 "," ++ "已注销，无法添加到群聊" in
  SendMessage c (group_msg (gc_GroupNo req) 0 None [
    ("content" : gostring, JStr content); ("extra" : gostring, JArr (map member_json r.2)); ("type" : gostring, JInt Tip)]).

Definition SendGroupUpdate (req : MsgGroupUpdateReq) : call unit :=
  let content := group_update_content (gu_Attr req) (default ∅ (gu_Data req)) in
  SendMessage c (group_msg (gu_GroupNo req) 0 None [
    ("content" : gostring, JStr content);
    ("extra" : gostring, JArr [UserBaseVo_json (mkUserBaseVo (gu_Operator req) (gu_OperatorName req))]);
    ("data" : gostring, match gu_Data req with Some m => obj_of_map (JStr <$> m) | None => JNull end);
    ("type" : gostring, JInt GroupUpdate)]).

Definition SendGroupMemberAdd (req : MsgGroupMemberAddReq) : call unit :=
  let members := default [] (ga_Members req) in
  let content := ga_OperatorName req ++ "邀请" ++ Join (placeholders members) "," ++ "加入群聊" in
  SendMessage c (group_msg (ga_GroupNo req) 0 None [
    ("from_uid" : gostring, JStr (ga_Operator req)); ("from_name" : gostring, JStr (ga_OperatorName req));
    ("content" : gostring, JStr content); ("extra" : gostring, JArr (map member_json members));
    ("type" : gostring, JInt GroupMemberAdd)]).

Definition SendGroupUpgrade (upgradeWhenMemberCount : Z) (groupNo : gostring) : call unit :=
  let content := "群成员超过" ++ FormatInt upgradeWhenMemberCount ++ "，将自动升级为超级群" in
  SendMessage c (group_msg groupNo 0 None [("content" : gostring, JStr content); ("type" : gostring, JInt GroupUpgrade)]).

Definition SendGroupMemberBeRemove (req : MsgGroupMemberRemoveReq) : call unit :=
  if (length (default [] (gr_Members req)) =? 0)%nat then ret tt
  else
    do! subscribers := lift (member_uids (default [] (gr_Members req))) in
    let setting := mkSetting false true false in
    SendMessage c (group_msg (gr_GroupNo req) (Setting_ToUint8 setting) (Some subscribers) [
      ("content" : gostring, JStr "你被{0}移除群聊"); ("visibles" : gostring, strings_json (Some subscribers));
      ("extra" : gostring, JArr [UserBaseVo_json (mkUserBaseVo (gr_Operator req) (gr_OperatorName req))]);
      ("type" : gostring, JInt GroupMemberBeRemove)]).

Definition SendGroupMemberRemove (req : MsgGroupMemberRemoveReq) : call unit :=
  let members := default [] (gr_Members req) in
  let content := gr_OperatorName req ++ "将" ++ Join (placeholders members) "," ++ "移除群聊" in
  SendMessage c (group_msg (gr_GroupNo req) 0 None [
    ("content" : gostring, JStr content); ("extra" : gostring, JArr (map member_json members));
    ("type" : gostring, JInt GroupMemberRemove)]).

Definition SendGroupMemberScanJoin (req : MsgGroupMemberScanJoin) : call unit :=
  SendMessage c (group_msg (gj_GroupNo req) 0 None [
    ("content" : gostring, JStr "“{0}”通过“{1}”的二维码加入群聊");
    ("extra" : gostring, JArr [UserBaseVo_json (mkUserBaseVo (gj_Scaner req) (gj_ScanerName req));
                               UserBaseVo_json (mkUserBaseVo (gj_Generator req) (gj_GeneratorName req))]);
    ("type" : gostring, JInt GroupMemberScanJoin)]).

Definition SendGroupTransferGrouper (req : MsgGroupTransferGrouper) : call unit :=
  SendMessage c (group_msg (gt_GroupNo req) 0 None [
    ("content" : gostring, JStr "“{0}”已成为新群主");
    ("extra" : gostring, JArr [UserBaseVo_json (mkUserBaseVo (gt_NewGrouper req) (gt_NewGrouperName req))]);
    ("type" : gostring, JInt GroupTransferGrouper)]).

(** The subscribers are in the payload only, whatever they are. *)
Definition SendGroupMemberInviteReq (req : MsgGroupMemberInviteReq) : call unit :=
  let content := "“{0}“想邀请" ++ FormatInt (gi_Num req) ++ "位朋友加入群聊" in
  SendMessage c (group_msg (gi_GroupNo req) 0 None [
    ("content" : gostring, JStr content);
    ("extra" : gostring, JArr [UserBaseVo_json (mkUserBaseVo (gi_Inviter req) (gi_InviterName req))]);
    ("invite_no" : gostring, JStr (gi_InviteNo req)); ("type" : gostring, JInt GroupMemberInvite);
    ("visibles" : gostring, strings_json (gi_Subscribers req))]).

Definition SendGroupExit (groupNo uid name : gostring) (visibleUids : slice gostring) : call unit :=
  SendMessage c (group_msg groupNo 0 None [
    ("content" : gostring, JStr "“{0}“退出群聊"); ("type" : gostring, JInt GroupMemberQuit);
    ("extra" : gostring, JArr [UserBaseVo_json (mkUserBaseVo uid name)]);
    ("visibles" : gostring, strings_json visibleUids)]).

Definition SendGroupMemberUpdate (groupNo : gostring) : call unit :=
  SendCMD c (mkMsgCMDReq false [] groupNo (ChannelType_Uint8 ChannelTypeGroup) None CMDGroupMemberUpdate
    (Some (list_to_map [("group_no" : gostring, JStr groupNo)]))).

(** ** Calls ([msg_rtc.go]) *)

Record P2pRtcMessageReq := mkP2pRtcMessageReq {
  rt_FromUID : gostring; rt_ToUID : gostring; rt_CallType : Z; rt_ResultType : Z; rt_Second : Z }.

Definition two_digits (n : Z) : gostring := if n <? 10 then "0" ++ FormatInt n else FormatInt n.

Definition formatSecond (t : Z) : gostring :=
  two_digits (Z.quot t 60) ++ ":" ++ two_digits (Z.rem t 60).

Definition SendRTCCallResult (req : P2pRtcMessageReq) : call unit :=
  let content : gostring :=
    if rt_ResultType req =? RTCResultTypeCancel then "通话取消"
    else if rt_ResultType req =? RTCResultTypeMissed then "未接听"
    else if rt_ResultType req =? RTCResultTypeRefuse then "通话拒绝"
    else if rt_ResultType req =? RTCResultTypeHangup then "通话时长：" ++ formatSecond (rt_Second req)
    else [] in
  SendMessage c (mkMsgSendReq (mkHeader 0 1 0) 0 (rt_FromUID req) (rt_ToUID req) (uint8 ChannelTypePerson) [] None
    (Some (ToJson (map_json [
      ("type" : gostring, JInt VideoCallResult); ("content" : gostring, JStr content);
      ("second" : gostring, JInt (rt_Second req)); ("call_type" : gostring, JInt (rt_CallType req));
      ("result_type" : gostring, JInt (rt_ResultType req))])))).
End Messages.

(** ** Personal messages ([msg_personal.go]) *)

Record PersonalMsgOptions := mkPersonalMsgOptions {
  po_Header : MsgHeader; po_Setting : Z; po_StreamNo : gostring; po_Subscribers : slice gostring }.

(** The request, and the map of the caller, which is changed in place; a nil map
    is replaced by a new one and stays nil for the caller. *)
Definition NewPersonalMsgSendReq (channelID fromUID : gostring) (payload : option (gmap gostring json))
    (senderSpaceID : gostring) (opts : PersonalMsgOptions) : MsgSendReq * option (gmap gostring json) :=
  let m := default ∅ payload in
  let m := if negb (eqs senderSpaceID []) then <[("space_id" : gostring) := JStr senderSpaceID]> m
           else delete ("space_id" : gostring) m in
  (mkMsgSendReq (po_Header opts) (po_Setting opts) fromUID channelID (ChannelType_Uint8 ChannelTypePerson)
     (po_StreamNo opts) (po_Subscribers opts) (Some (ToJson (obj_of_map m))),
   match payload with Some _ => Some m | None => None end).

(** ** Correctness *)

Definition valid_user (u : UserBaseVo) : Prop := ValidString (uv_UID u) = true /\ ValidString (uv_Name u) = true.

Lemma wf_member d u : valid_user u -> wf_json (S d) (UserBaseVo_json u) = true.
Proof.
  intros [H1 H2]. unfold UserBaseVo_json. rewrite wf_JObj. cbn [forallb fst snd]. by rewrite !wf_JStr, H1, H2.
Qed.

Lemma wf_members d us : Forall valid_user us -> wf_json (S (S d)) (JArr (map member_json (map Some us))) = true.
Proof.
  intros Hus. rewrite wf_JArr, map_map. apply forallb_forall. intros v (u & <- & Hin%list_elem_of_In)%in_map_iff.
  rewrite Forall_forall in Hus. by apply wf_member, Hus.
Qed.

Lemma Forall_of_map {A B} (f : A -> B) (P : B -> Prop) l : Forall (fun x => P (f x)) l -> Forall P (map f l).
Proof. induction 1; by constructor. Qed.

Lemma FormatInt_valid z : ValidString (FormatInt z) = true.
Proof.
  apply ascii_ValidString. unfold FormatInt.
  assert (forall n, 0 <= n -> Forall (fun c => byte_val c < 128) (FormatUint n)) as Hu.
  { intros n Hn. apply Forall_forall. intros c Hc. pose proof (FormatUint_digits n Hn) as Hd.
    apply all_digits_Forall in Hd. rewrite Forall_forall in Hd. specialize (Hd c Hc).
    unfold ascii_digit in Hd. apply in_range_spec in Hd. lia. }
  destruct (Z.ltb_spec z 0); [apply Forall_cons_2; [by vm_compute|]; apply Hu; lia|apply Hu; lia].
Qed.

Lemma Join_valid l sep : ValidString sep = true -> Forall (fun s => ValidString s = true) l -> ValidString (Join l sep) = true.
Proof.
  intros Hs. induction 1 as [|s l Hv Hl IH]; [done|]. destruct l; [done|]. cbn [Join] in *. by repeat apply ValidString_app.
Qed.

Lemma placeholders_valid (f : nat -> Z) (l : list nat) : ValidString (Join (map (fun n => placeholder (f n)) l) ",") = true.
Proof.
  apply Join_valid; [by vm_compute|]. apply Forall_of_map, Forall_forall. intros n _. unfold placeholder.
  apply ValidString_app; [by vm_compute|]. apply ValidString_app; [apply FormatInt_valid|by vm_compute].
Qed.

Lemma member_uids_Some us : member_uids (map Some us) = Ok (map uv_UID us).
Proof. induction us as [|u us IH]; [done|]. cbn. by rewrite IH. Qed.

Lemma group_delivered c groupNo setting subs payload :
  ValidString groupNo = true -> Forall (fun s => ValidString s = true) (default [] subs) ->
  delivered (send_request c (group_msg groupNo setting subs payload)) = Some (ToJson (map_json payload)).
Proof. intros Hg Hs. apply delivered_send; [by split_and!|done]. Qed.

Lemma wf_limit v : wf_json 4 v = true -> wf_json maxNestingDepth v = true.
Proof. intros H. apply (wf_json_mono 4); [done|]. apply Nat.leb_le. by vm_compute. Qed.

Lemma lift_run {A B} (m : go net_err A) (k : A -> call B) api a :
  m = Ok a -> bind (lift m) k api = (let '(r, reqs) := k a api in (r, reqs)).
Proof. intros ->. unfold bind, lift. by destruct (k a api). Qed.

(** The members who were removed, and only they, may find the message that
    tells them: the payload that is posted has exactly their identifiers as its
    whitelist. When nobody was removed nothing is posted. *)
Theorem SendGroupMemberBeRemove_visibility `{Gjson} c req us api
  (Hm : gr_Members req = Some (map Some us)) (Hg : ValidString (gr_GroupNo req) = true)
  (Ho : ValidString (gr_Operator req) = true /\ ValidString (gr_OperatorName req) = true)
  (Hus : Forall (fun u => valid_user u /\ uv_UID u <> []) us) :
  match us with
  | [] => SendGroupMemberBeRemove c req api = (Ok tt, [])
  | _ => exists r p, (SendGroupMemberBeRemove c req api).2 = [r] /\ delivered r = Some p /\
           ExtractVisibility p = Ok ([], Some (map uv_UID us))
  end.
Proof.
  unfold SendGroupMemberBeRemove. rewrite Hm. destruct us as [|u us]; [done|]. cbn [from_option id length map Nat.eqb].
  change (Some u :: map Some us) with (map Some (u :: us)).
  rewrite (lift_run _ _ _ _ (member_uids_Some (u :: us))).
  set (uids := map uv_UID (u :: us)).
  assert (Forall (fun s => ValidString s = true) uids) as Hv.
  { apply (Forall_of_map uv_UID _ (u :: us)). eapply Forall_impl; [exact Hus|]. by intros x [[? _] _]. }
  match goal with |- context [group_msg ?g ?s ?sb ?l] => set (payload := l); set (msg := group_msg g s sb payload) end.
  pose proof (SendMessage_run c msg api) as [Hrun _].
  exists (send_request c msg), (ToJson (map_json payload)).
  split; [by destruct (SendMessage c msg api)|]. split; [by apply group_delivered|].
  apply ExtractVisibility_written.
  - apply wf_limit, wf_map_json. unfold payload.
    repeat (apply Forall_cons_2; [cbn [fst snd]; split; [reflexivity|]|]); try by apply Forall_nil.
    + by rewrite wf_JStr.
    + by apply wf_strings_json.
    + rewrite wf_JArr. cbn [forallb]. by rewrite wf_member.
    + apply wf_JInt.
  - done.
  - done.
  - apply (Forall_of_map uv_UID _ (u :: us)). eapply Forall_impl; [exact Hus|]. by intros x [_ ?].
  - done.
Qed.

(** C13 The invitation and the leave message restrict their readers to the
    subscribers they are given; but nothing checks that there are any, and with
    none the payload that is posted is one the search pipeline must reject. *)
Theorem SendGroupMemberInviteReq_visibility `{Gjson} c req api
  (Hg : ValidString (gi_GroupNo req) = true) (Hno : ValidString (gi_InviteNo req) = true)
  (Ho : ValidString (gi_Inviter req) = true /\ ValidString (gi_InviterName req) = true)
  (Hs : Forall (fun s => ValidString s = true /\ s <> []) (default [] (gi_Subscribers req))) :
  exists r p, (SendGroupMemberInviteReq c req api).2 = [r] /\ delivered r = Some p /\
    ExtractVisibility p = match gi_Subscribers req with
                          | None => Err VisiblesNull
                          | Some [] => Err VisiblesEmpty
                          | Some us => Ok ([], Some us)
                          end.
Proof.
  unfold SendGroupMemberInviteReq.
  match goal with |- context [group_msg ?g ?s ?sb ?l] => set (payload := l); set (msg := group_msg g s sb payload) end.
  pose proof (SendMessage_run c msg api) as [Hrun _].
  exists (send_request c msg), (ToJson (map_json payload)).
  split; [done|]. split; [apply group_delivered; [done|by apply Forall_nil]|].
  assert (wf_json maxNestingDepth (map_json payload) = true) as Hwf.
  { apply wf_limit, wf_map_json. unfold payload.
    repeat (apply Forall_cons_2; [cbn [fst snd]; split; [reflexivity|]|]); try by apply Forall_nil.
    + rewrite wf_JStr. apply ValidString_app; [by vm_compute|]. apply ValidString_app; [|by vm_compute].
      apply FormatInt_valid.
    + rewrite wf_JArr. cbn [forallb]. by rewrite wf_member.
    + by rewrite wf_JStr.
    + apply wf_JInt.
    + apply wf_strings_json. eapply Forall_impl; [exact Hs|]. by intros x [? _]. }
  assert ((list_to_map payload : gmap gostring json) !! ("visibles" : gostring) = Some (strings_json (gi_Subscribers req))) as Hv by done.
  destruct (gi_Subscribers req) as [[|u us]|]; cbn [strings_json slice_json map] in Hv.
  - exact (ExtractVisibility_none_valid _ [] Hwf Hv eq_refl).
  - apply (ExtractVisibility_written _ [] (u :: us) Hwf Hv); [done| |reflexivity].
    eapply Forall_impl; [exact Hs|]. by intros x [_ ?].
  - exact (ExtractVisibility_null _ Hwf Hv).
Qed.

(** A personal message carries the space of its sender and no other: a value
    that the client put there is replaced, or removed when the sender has no
    space; the rest of the payload is as it was given. *)
Theorem NewPersonalMsgSendReq_space channelID fromUID payload senderSpaceID opts
  (Hs : ValidString senderSpaceID = true)
  (Hp : map_Forall (fun k v => ValidString k = true /\ wf_json 3 v = true) (default ∅ payload)) :
  let '(msg, caller) := NewPersonalMsgSendReq channelID fromUID payload senderSpaceID opts in
  exists body m, ms_Payload msg = Some body /\ JsonToMap body = Some (Some m) /\
    space_of m = senderSpaceID /\
    (senderSpaceID = [] -> m !! ("space_id" : gostring) = None) /\
    (forall k, k <> ("space_id" : gostring) -> m !! k = default ∅ payload !! k) /\
    ms_ChannelType msg = ChannelTypePerson /\ ms_ChannelID msg = channelID /\ ms_FromUID msg = fromUID /\
    (payload <> None -> caller = Some m).
Proof.
  unfold NewPersonalMsgSendReq. set (m0 := default ∅ payload) in *.
  set (m := if negb (eqs senderSpaceID []) then _ else _).
  exists (ToJson (obj_of_map m)), m. cbn [ms_Payload ms_ChannelType ms_ChannelID ms_FromUID].
  split; [done|]. split.
  { apply JsonToMap_written. apply wf_limit, wf_obj_of_map. unfold m.
    destruct (eqs senderSpaceID []); cbn [negb].
    - intros k v Hkv. apply lookup_delete_Some in Hkv as [_ Hkv]. by apply Hp.
    - intros k v Hkv. apply lookup_insert_Some in Hkv as [[<- <-]|[_ Hkv]]; [by rewrite wf_JStr|by apply Hp]. }
  unfold m. destruct (eqs senderSpaceID []) eqn:E; cbn [negb].
  - apply eqs_spec in E. subst senderSpaceID. unfold space_of. rewrite lookup_delete_eq. split_and!; try done.
    + intros k Hk. by rewrite lookup_delete_ne.
    + by destruct payload.
  - unfold space_of. rewrite lookup_insert_eq. split_and!; try done.
    + intros ->. done.
    + intros k Hk. by rewrite lookup_insert_ne.
    + by destruct payload.
Qed.

Lemma invited_spec creator i us :
  invited creator i (map Some us) =
    let others := filter (fun u => uv_UID u <> creator) us in
    Ok (map (fun n => placeholder (i + Z.of_nat n)) (seq 0 (length others)), map Some others).
Proof.
  revert i. induction us as [|u us IH]; intros i; [done|]. cbn [map invited].
  rewrite filter_cons. destruct (eqs (uv_UID u) creator) eqn:E.
  - apply eqs_spec in E. rewrite decide_False by naive_solver. apply IH.
  - assert (uv_UID u <> creator) as Hne by (intros Hc; apply eqs_spec in Hc; congruence).
    rewrite decide_True by done. rewrite IH. cbn [length seq map go_bind]. rewrite Z.add_0_r.
    do 2 f_equal. f_equal. rewrite <- seq_shift, map_map. apply map_ext. intros n. f_equal. lia.
Qed.

(** The group-created message names, after its creator, exactly the other
    members in order, and its text has one placeholder per member named; anyone
    in the group may find it. *)
Theorem SendGroupCreate_content `{Gjson} c req us api
  (Hm : gc_Members req = Some (map Some us)) (Hg : ValidString (gc_GroupNo req) = true)
  (Ho : ValidString (gc_Creator req) = true /\ ValidString (gc_CreatorName req) = true)
  (Hus : Forall valid_user us) :
  let others := filter (fun u => uv_UID u <> gc_Creator req) us in
  exists r p m, (SendGroupCreate c req api).2 = [r] /\ delivered r = Some p /\ JsonToMap p = Some (Some m) /\
    m !! ("extra" : gostring) = Some (JArr (map UserBaseVo_json others)) /\
    m !! ("content" : gostring) = Some (JStr (gc_CreatorName req ++ "邀请" ++
       Join (map (fun n => placeholder (Z.of_nat n)) (seq 0 (length others))) "," ++ "加入群聊")) /\
    ExtractVisibility p = Ok ([], None).
Proof.
  cbn zeta. unfold SendGroupCreate. rewrite Hm. cbn [from_option id].
  rewrite (lift_run _ _ _ _ (invited_spec (gc_Creator req) 0 us)). cbn [fst snd]. cbn zeta. cbn [fst snd].
  set (others := filter _ us).
  assert (Forall valid_user others) as Hoth.
  { apply Forall_forall. intros u [_ Hin]%list_elem_of_filter. rewrite Forall_forall in Hus. by apply Hus. }
  match goal with |- context [group_msg ?g ?s ?sb ?l] => set (payload := l); set (msg := group_msg g s sb payload) end.
  pose proof (SendMessage_run c msg api) as [Hrun _].
  assert (wf_json maxNestingDepth (map_json payload) = true) as Hwf.
  { apply wf_limit, wf_map_json. unfold payload. destruct Ho as [Ho1 Ho2].
    repeat (apply Forall_cons_2; [cbn [fst snd]; split; [reflexivity|]|]); try by apply Forall_nil.
    + by rewrite wf_JStr.
    + by rewrite wf_JStr.
    + rewrite wf_JStr. apply ValidString_app; [done|]. apply ValidString_app; [by vm_compute|].
      apply ValidString_app; [|by vm_compute]. apply placeholders_valid.
    + apply wf_JInt.
    + by apply wf_members.
    + apply wf_JInt. }
  exists (send_request c msg), (ToJson (map_json payload)), (list_to_map payload).
  split; [by destruct (SendMessage c msg api)|]. split; [apply group_delivered; [done|by apply Forall_nil]|].
  split; [exact (JsonToMap_written _ Hwf)|]. split.
  - assert (map member_json (map Some others) = map UserBaseVo_json others) as <- by (by rewrite map_map). done.
  - split; [reflexivity|]. exact (ExtractVisibility_broadcast _ Hwf eq_refl).
Qed.

(** ** Witnesses *)

Definition demo_ok : client := fun _ => Ok (mkResponse 200 "{}").
Definition demo_user : UserBaseVo := mkUserBaseVo "u7" "七".

Lemma SendGroupMemberBeRemove_visibility_witness :
  exists r p, (@SendGroupMemberBeRemove demo_gjson demo_config (mkMsgGroupMemberRemoveReq "op" "Op" "g1" (Some [Some demo_user])) demo_ok).2 = [r] /\
    delivered r = Some p /\ ExtractVisibility p = Ok ([], Some [("u7" : gostring)]).
Proof.
  apply (@SendGroupMemberBeRemove_visibility demo_gjson demo_config (mkMsgGroupMemberRemoveReq "op" "Op" "g1" (Some [Some demo_user]))
    [demo_user] demo_ok); [reflexivity|reflexivity|split; reflexivity|].
  apply Forall_cons_2; [split; [split; reflexivity|discriminate]|apply Forall_nil_2].
Defined.

(** With two subscribers, with an empty list and with none. *)
Lemma SendGroupMemberInviteReq_visibility_witness :
  let sends subscribers visibility :=
    exists r p, (@SendGroupMemberInviteReq demo_gjson demo_config (mkMsgGroupMemberInviteReq "g1" "i1" "u1" "A" 2 subscribers) demo_ok).2 = [r] /\
      delivered r = Some p /\ ExtractVisibility p = visibility in
  sends (Some ["u8"%go; "u9"%go]) (Ok ([], Some ["u8"%go; "u9"%go])) /\ sends (Some []) (Err VisiblesEmpty) /\ sends None (Err VisiblesNull).
Proof.
  split; [|split].
  - apply (@SendGroupMemberInviteReq_visibility demo_gjson demo_config (mkMsgGroupMemberInviteReq "g1" "i1" "u1" "A" 2 (Some ["u8"%go; "u9"%go])) demo_ok);
      [reflexivity|reflexivity|split; reflexivity|].
    apply Forall_cons_2; [split; [reflexivity|discriminate]|]. apply Forall_cons_2; [split; [reflexivity|discriminate]|apply Forall_nil_2].
  - apply (@SendGroupMemberInviteReq_visibility demo_gjson demo_config (mkMsgGroupMemberInviteReq "g1" "i1" "u1" "A" 2 (Some [])) demo_ok);
      [reflexivity|reflexivity|split; reflexivity|apply Forall_nil_2].
  - apply (@SendGroupMemberInviteReq_visibility demo_gjson demo_config (mkMsgGroupMemberInviteReq "g1" "i1" "u1" "A" 2 None) demo_ok);
      [reflexivity|reflexivity|split; reflexivity|apply Forall_nil_2].
Defined.

Lemma NewPersonalMsgSendReq_space_witness :
  exists body m, ms_Payload (NewPersonalMsgSendReq "c1" "u1" (Some {[("space_id" : gostring) := JStr "forged"]}) "s1"
      (mkPersonalMsgOptions zero_header 0 [] None)).1 = Some body /\ JsonToMap body = Some (Some m) /\ space_of m = "s1".
Proof.
  destruct (NewPersonalMsgSendReq_space "c1" "u1" (Some {[("space_id" : gostring) := JStr "forged"]}) "s1"
    (mkPersonalMsgOptions zero_header 0 [] None)) as (body & m & H1 & H2 & H3 & _);
    [reflexivity|apply map_Forall_singleton; split; reflexivity|].
  exists body, m. split; [exact H1|]. split; [exact H2|exact H3].
Defined.

Lemma SendGroupCreate_content_witness :
  exists r p m, (@SendGroupCreate demo_gjson demo_config
      (mkMsgGroupCreateReq "u1" "A" "g1" 1 (Some [Some (mkUserBaseVo "u1" "A"); Some demo_user])) demo_ok).2 = [r] /\
    delivered r = Some p /\ JsonToMap p = Some (Some m) /\
    m !! ("extra" : gostring) = Some (JArr [UserBaseVo_json demo_user]).
Proof.
  destruct (@SendGroupCreate_content demo_gjson demo_config
      (mkMsgGroupCreateReq "u1" "A" "g1" 1 (Some [Some (mkUserBaseVo "u1" "A"); Some demo_user]))
      [mkUserBaseVo "u1" "A"; demo_user] demo_ok) as (r & p & m & H1 & H2 & H3 & H4 & _);
    [reflexivity|reflexivity|split; reflexivity|repeat (apply Forall_cons_2; [split; reflexivity|]); apply Forall_nil_2|].
  exists r, p, m. split; [exact H1|]. split; [exact H2|]. split; [exact H3|exact H4].
Defined.

(** The time of a call, and what a nil member does. *)
Example formatSecond_examples :
  formatSecond 65 = "01:05" /\ formatSecond 3600 = "60:00" /\ formatSecond 9 = "00:09".
Proof. split_and!; reflexivity. Qed.

Example BeRemove_nil_member :
  (@SendGroupMemberBeRemove demo_gjson demo_config (mkMsgGroupMemberRemoveReq "op" "Op" "g1" (Some [None])) demo_ok).1 =
    Panicked "invalid memory address or nil pointer dereference".
Proof. reflexivity. Qed.
