(* ===== verification/Seq.v ===== *)
(** * Seq: sequence numbers ([config/seq.go])

    [GenSeq] hands out the numbers of a flag from a block of [seqStep] numbers
    whose end is in the database row of the flag before the block is used, so
    that a restarted process starts behind every number handed out before. *)
From S2P Require Import Prelude GoStr.

#[global] Open Scope Z_scope.
#[global] Open Scope go_scope.

(** ** Data *)

Record Seq := mkSeq { CurSeq : Z; MaxSeq : Z }.
Record seqModel := mkSeqModel { Key : gostring; MinSeq : Z; Step : Z }.

Definition seqStep : Z := 1000.

(** The database: what its table holds for a key, the query and the
    insert-or-update statement, and what the statements are relied on for. A
    statement that reports an error may have been carried out or not. *)
Class SeqDB (D E : Type) := {
  row : D -> gostring -> option Z;
  query : D -> gostring -> D * (E + option seqModel);
  exec : D -> seqModel -> D * option E;
  query_row d k d' r : query d k = (d', inr r) -> row d' k = MinSeq <$> r;
  query_keeps d k k' : row (query d k).1 k' = row d k';
  exec_ok d m d' : exec d m = (d', None) -> row d' (Key m) = Some (MinSeq m);
  exec_err d m d' e : exec d m = (d', Some e) -> row d' (Key m) = Some (MinSeq m) \/ row d' (Key m) = row d (Key m);
  exec_others d m k : k <> Key m -> row (exec d m).1 k = row d k;
}.

(** The error of [GenSeq] names the step that failed and the flag. *)
Inductive seq_err (E : Type) := query_seq_for (flag : gostring) (e : E) | init_seq_for (flag : gostring) (e : E) | extend_seq_for (flag : gostring) (e : E).
Arguments query_seq_for {E} flag e.
Arguments init_seq_for {E} flag e.
Arguments extend_seq_for {E} flag e.

Section GenSeq.
Context {D E : Type} `{SeqDB D E}.

(** The map of the process and the database. *)
Record world := mkWorld { seqMap : gmap gostring Seq; DB : D }.

Definition querySeqWithKey (session : D) (key : gostring) : D * (E + option seqModel) := query session key.
Definition addOrUpdateSeq (session : D) (m : seqModel) : D * option E := exec session m.

Definition seq_key (flag : gostring) : gostring := "seq:" ++ flag.
#[local] Arguments seq_key : simpl never.

(** The sequence of a flag: from the map, or loaded, or created in the database. *)
Definition load_seq (w : world) (flag : gostring) : world * go (seq_err E) Seq :=
  let key := seq_key flag in
  match seqMap w !! flag with
  | Some seq => (w, Ok seq)
  | None =>
      match querySeqWithKey (DB w) key with
      | (d, inl e) => (mkWorld (seqMap w) d, Err (query_seq_for flag e))
      | (d, inr None) =>
          let currSeq := 1000000 in
          match addOrUpdateSeq d (mkSeqModel key (currSeq + seqStep) seqStep) with
          | (d', Some e) => (mkWorld (seqMap w) d', Err (init_seq_for flag e))
          | (d', None) =>
              let seq := mkSeq currSeq (currSeq + seqStep) in
              (mkWorld (<[flag := seq]> (seqMap w)) d', Ok seq)
          end
      | (d, inr (Some seqM)) =>
          let seq := mkSeq (MinSeq seqM) (MinSeq seqM) in
          (mkWorld (<[flag := seq]> (seqMap w)) d, Ok seq)
      end
  end.

(** The next number of the sequence, after the block was extended where it is used up. *)
Definition next_seq (w : world) (flag : gostring) (seq : Seq) : world * go (seq_err E) Z :=
  let bump w seq :=
    let seq' := mkSeq (int64 (CurSeq seq + 1)) (MaxSeq seq) in
    (mkWorld (<[flag := seq']> (seqMap w)) (DB w), Ok (CurSeq seq')) in
  if MaxSeq seq <=? CurSeq seq then
    match addOrUpdateSeq (DB w) (mkSeqModel (seq_key flag) (int64 (CurSeq seq + seqStep)) seqStep) with
    | (d, Some e) => (mkWorld (seqMap w) d, Err (extend_seq_for flag e))
    | (d, None) => bump (mkWorld (seqMap w) d) (mkSeq (CurSeq seq) (int64 (MaxSeq seq + seqStep)))
    end
  else bump w seq.

Definition GenSeq (w : world) (flag : gostring) : world * go (seq_err E) Z :=
  match load_seq w flag with
  | (w', Ok seq) => next_seq w' flag seq
  | (w', Err e) => (w', Err e)
  | (w', Panicked m) => (w', Panicked m)
  end.

(** ** Runs

    A run is a series of calls and restarts, a restart losing the map. *)
Inductive event := Gen (flag : gostring) | Restarted.

Definition restart (w : world) : world := mkWorld ∅ (DB w).

(** The numbers handed out, each with its flag. *)
Fixpoint run (w : world) (es : list event) : world * list (gostring * Z) :=
  match es with
  | [] => (w, [])
  | Restarted :: es' => run (restart w) es'
  | Gen flag :: es' =>
      let '(w', r) := GenSeq w flag in
      let '(w'', out) := run w' es' in
      (w'', match r with Ok z => (flag, z) :: out | _ => out end)
  end.

(** ** The invariant

    Under a bound of the numbers, the block of a flag in the map ends at most
    where the row of the flag says. *)
Definition floor (w : world) (flag : gostring) : Z := default 0 (row (DB w) (seq_key flag)).

Definition seq_inv (b : Z) (w : world) : Prop :=
  (forall flag, 0 <= floor w flag <= b) /\
  (forall flag s, seqMap w !! flag = Some s -> 0 <= CurSeq s <= MaxSeq s /\ MaxSeq s <= floor w flag).

(** Where the numbers of a flag start: below are only numbers already handed out. *)
Definition last_used (w : world) (flag : gostring) : Z :=
  match seqMap w !! flag with
  | Some s => CurSeq s
  | None => floor w flag
  end.

(** What a step does to the numbers: the invariant holds under the new bound and no flag goes back. *)
Definition advances (b : Z) (w w' : world) : Prop :=
  seq_inv b w' /\ forall f, last_used w f <= last_used w' f.

Lemma seq_key_inj a b : seq_key a = seq_key b -> a = b.
Proof. unfold seq_key. intros Hk. by apply app_inv_head in Hk. Qed.

Lemma seq_inv_weaken b b' w : seq_inv b w -> b <= b' -> seq_inv b' w.
Proof. intros [H1 H2] Hb. split; [|done]. intros f. specialize (H1 f). lia. Qed.

(** Putting a sequence into the map, over a database where its row is past its block. *)
Lemma seq_inv_insert b w d flag s :
  seq_inv b w -> 0 <= CurSeq s <= MaxSeq s -> MaxSeq s <= default 0 (row d (seq_key flag)) <= b ->
  (forall f, f <> flag -> row d (seq_key f) = row (DB w) (seq_key f)) ->
  last_used w flag <= CurSeq s ->
  advances b w (mkWorld (<[flag := s]> (seqMap w)) d).
Proof.
  intros [H1 H2] Hs Hr Ho Hl. unfold advances, seq_inv, floor, last_used in *. cbn [seqMap DB]. split; [split|].
  - intros f. destruct (decide (f = flag)) as [->|Hf]; [lia|]. rewrite (Ho _ Hf). apply H1.
  - intros f s'. destruct (decide (f = flag)) as [->|Hf].
    + rewrite lookup_insert_eq. intros [= <-]. lia.
    + rewrite lookup_insert_ne by done. rewrite (Ho _ Hf). apply H2.
  - intros f. destruct (decide (f = flag)) as [->|Hf].
    + rewrite lookup_insert_eq. done.
    + rewrite lookup_insert_ne by done. unfold floor. cbn [DB]. rewrite (Ho _ Hf). lia.
Qed.

(** The end of the block of a flag: the row must not fall behind it. *)
Definition block_end (w : world) (flag : gostring) : Z :=
  match seqMap w !! flag with Some s => MaxSeq s | None => floor w flag end.

(** Writing the row of a flag where the map does not change. *)
Lemma seq_inv_written b w d flag :
  seq_inv b w -> block_end w flag <= default 0 (row d (seq_key flag)) <= b ->
  (forall f, f <> flag -> row d (seq_key f) = row (DB w) (seq_key f)) ->
  advances b w (mkWorld (seqMap w) d).
Proof.
  intros [H1 H2] Hr Ho. unfold advances, seq_inv, last_used, block_end, floor in *. cbn [seqMap DB]. split; [split|].
  - intros f. destruct (decide (f = flag)) as [->|Hf]; [|rewrite (Ho _ Hf); apply H1].
    specialize (H1 flag). destruct (seqMap w !! flag) eqn:Es; [apply H2 in Es|]; lia.
  - intros f s Hs. destruct (decide (f = flag)) as [->|Hf]; [|rewrite (Ho _ Hf); by apply H2].
    rewrite Hs in Hr. apply H2 in Hs. lia.
  - intros f. destruct (seqMap w !! f) eqn:Es; [lia|]. unfold floor. cbn [DB].
    destruct (decide (f = flag)) as [->|Hf]; [|rewrite (Ho _ Hf); lia]. rewrite Es in Hr. lia.
Qed.

Lemma exec_rows d m flag : Key m = seq_key flag ->
  forall f, f <> flag -> row (exec d m).1 (seq_key f) = row d (seq_key f).
Proof. intros Hk f Hf. apply exec_others. rewrite Hk. intros Heq. by apply Hf, seq_key_inj. Qed.

Lemma load_seq_spec b w flag :
  1001000 <= b -> seq_inv b w ->
  advances b w (load_seq w flag).1 /\
  forall s, (load_seq w flag).2 = Ok s -> seqMap (load_seq w flag).1 !! flag = Some s.
Proof.
  intros Hb Hi. pose proof Hi as [H1 H2].
  assert (seqMap w !! flag = None -> block_end w flag = floor w flag) as He by (unfold block_end; by intros ->).
  unfold load_seq, querySeqWithKey, addOrUpdateSeq.
  destruct (seqMap w !! flag) as [s|] eqn:Es.
  { cbn. split; [split; [done|lia]|naive_solver]. }
  destruct (query (DB w) (seq_key flag)) as [d r] eqn:Eq.
  assert (forall k, row d k = row (DB w) k) as Hd.
  { intros k. pose proof (query_keeps (DB w) (seq_key flag) k) as Hk. by rewrite Eq in Hk. }
  assert (last_used w flag = floor w flag) as Hu by (unfold last_used; by rewrite Es).
  destruct r as [e|[m|]].
  - cbn. split; [|done]. apply (seq_inv_written b w d flag); [done| |done].
    rewrite Hd, He by done. specialize (H1 flag). unfold floor in *. lia.
  - pose proof (query_row _ _ _ _ Eq) as Hr. cbn in Hr.
    assert (MinSeq m = floor w flag) as Hm by (unfold floor; by rewrite <- Hd, Hr).
    specialize (H1 flag). cbn [fst snd]. split.
    + apply (seq_inv_insert b w d); cbn; [done|lia| |done|lia]. rewrite Hr. cbn. lia.
    + cbn. intros s [= <-]. apply lookup_insert_eq.
  - pose proof (query_row _ _ _ _ Eq) as Hr. cbn in Hr.
    assert (floor w flag = 0) as Hm by (unfold floor; by rewrite <- Hd, Hr).
    set (m := mkSeqModel (seq_key flag) (1000000 + seqStep) seqStep).
    pose proof (exec_rows d m flag eq_refl) as Ho.
    destruct (exec d m) as [d' [e|]] eqn:Ee; cbn [fst] in Ho.
    + cbn [fst snd]. split; [|done]. apply (seq_inv_written b w d' flag); [done| |intros f Hf; by rewrite Ho].
      rewrite He, Hm by done.
      destruct (exec_err _ _ _ _ Ee) as [Hw|Hw]; cbn in Hw; rewrite Hw; [cbn; unfold seqStep; lia|].
      rewrite Hr. cbn. lia.
    + cbn [fst snd]. pose proof (exec_ok _ _ _ Ee) as Hw. cbn in Hw. split.
      * apply (seq_inv_insert b w d'); cbn; [done|unfold seqStep; lia| |intros f Hf; by rewrite Ho|lia].
        rewrite Hw. cbn. unfold seqStep. lia.
      * cbn. intros s [= <-]. apply lookup_insert_eq.
Qed.

Lemma next_seq_spec b w flag s :
  seq_inv b w -> b + 2 * seqStep <= MaxInt64 -> seqMap w !! flag = Some s ->
  advances (b + seqStep) w (next_seq w flag s).1 /\
  forall z, (next_seq w flag s).2 = Ok z -> last_used w flag < z <= floor (next_seq w flag s).1 flag /\ last_used (next_seq w flag s).1 flag = z.
Proof.
  intros Hi Hb Hs. pose proof Hi as [H1 H2]. specialize (H1 flag). pose proof (H2 _ _ Hs) as [Hc Hm].
  unfold seqStep in *.
  assert (last_used w flag = CurSeq s) as Hu by (unfold last_used; by rewrite Hs).
  unfold next_seq, addOrUpdateSeq, seqStep.
  destruct (Z.leb_spec (MaxSeq s) (CurSeq s)) as [Hfull|Hroom].
  - rewrite (int64_small (CurSeq s + 1000)) by (split; lia).
    set (m := mkSeqModel (seq_key flag) (CurSeq s + 1000) 1000).
    pose proof (exec_rows (DB w) m flag eq_refl) as Ho.
    destruct (exec (DB w) m) as [d [e|]] eqn:Ee; cbn [fst] in Ho; cbn [fst snd].
    + split; [|done]. apply (seq_inv_written (b + 1000) w d flag); [by apply (seq_inv_weaken b); [|lia]| |done].
      unfold block_end. rewrite Hs.
      destruct (exec_err _ _ _ _ Ee) as [Hw|Hw]; cbn in Hw; rewrite Hw; [cbn; lia|unfold floor in *; lia].
    + pose proof (exec_ok _ _ _ Ee) as Hw. cbn in Hw.
      cbn [CurSeq MaxSeq DB seqMap]. rewrite !int64_small by (split; lia). split.
      * apply (seq_inv_insert (b + 1000) w d); cbn [CurSeq MaxSeq]; [by apply (seq_inv_weaken b); [|lia]|lia| |done|lia].
        rewrite Hw. cbn. lia.
      * intros z [= <-]. unfold last_used, floor. cbn [seqMap DB]. rewrite Hs, lookup_insert_eq, Hw. cbn. lia.
  - cbn [CurSeq MaxSeq]. rewrite !int64_small by (split; lia). cbn [fst snd]. split.
    + apply (seq_inv_insert (b + 1000) w (DB w)); cbn [CurSeq MaxSeq]; [by apply (seq_inv_weaken b); [|lia]|lia| |done|lia].
      unfold floor in *. lia.
    + intros z [= <-]. unfold last_used, floor in *. cbn [seqMap DB]. rewrite Hs, lookup_insert_eq. cbn. lia.
Qed.

(** One call: a number handed out is above everything used before, and persisted. *)
Lemma GenSeq_spec b w flag :
  1001000 <= b -> b + 2 * seqStep <= MaxInt64 -> seq_inv b w ->
  advances (b + seqStep) w (GenSeq w flag).1 /\
  forall z, (GenSeq w flag).2 = Ok z -> last_used w flag < z <= floor (GenSeq w flag).1 flag /\ last_used (GenSeq w flag).1 flag = z.
Proof.
  intros Hb Hm Hi. unfold GenSeq. pose proof (load_seq_spec b w flag Hb Hi) as [[Hi' Hl] Hs].
  destruct (load_seq w flag) as [w' [s|e|msg]]; cbn [fst snd] in *.
  - pose proof (next_seq_spec b w' flag s Hi' Hm (Hs s eq_refl)) as [[Hi2 Hl2] Hz]. split.
    + split; [done|]. intros f. specialize (Hl f). specialize (Hl2 f). lia.
    + intros z Hr. specialize (Hl flag). destruct (Hz z Hr). lia.
  - split; [split; [apply (seq_inv_weaken b); [done|unfold seqStep; lia]|done]|done].
  - split; [split; [apply (seq_inv_weaken b); [done|unfold seqStep; lia]|done]|done].
Qed.

Lemma restart_advances b w : seq_inv b w -> advances b w (restart w).
Proof.
  intros [H1 H2]. split; [split; [apply H1|done]|].
  intros f. unfold last_used, restart. cbn [seqMap]. rewrite lookup_empty.
  change (floor (mkWorld ∅ (DB w)) f) with (floor w f).
  destruct (seqMap w !! f) as [s|] eqn:Es; [apply H2 in Es|]; lia.
Qed.

(** The numbers of a flag in a run, in the order they were handed out. *)
Definition numbers (flag : gostring) (out : list (gostring * Z)) : list Z :=
  snd <$> filter (fun p => p.1 = flag) out.

(** A sequence number is given out by one call at most: for every flag the
    numbers increase over the whole run, across restarts and database errors. *)
Lemma run_increasing b w es flag :
  1001000 <= b -> b + (Z.of_nat (length es) + 2) * seqStep <= MaxInt64 -> seq_inv b w ->
  Sorted Z.lt (last_used w flag :: numbers flag (run w es).2).
Proof.
  revert b w. induction es as [|[f|] es IH]; intros b w Hb Hm Hi; cbn [run length] in *.
  - repeat constructor.
  - unfold seqStep in *.
    pose proof (GenSeq_spec b w f Hb ltac:(unfold seqStep; lia) Hi) as [[Hi' Hl] Hz]. unfold seqStep in *.
    destruct (GenSeq w f) as [w' r]. cbn [fst snd] in *.
    specialize (IH (b + 1000) w' ltac:(lia) ltac:(lia) Hi').
    destruct (run w' es) as [w'' out]. cbn [fst snd] in *.
    assert (Sorted Z.lt (last_used w flag :: numbers flag out)) as Hskip.
    { specialize (Hl flag). apply Sorted_inv in IH as [Hs Hh]. constructor; [done|].
      destruct Hh; constructor; lia. }
    destruct r as [z|e|msg]; [|done|done]. unfold numbers. rewrite filter_cons. cbn [fst].
    destruct (decide (f = flag)) as [->|]; [|done].
    destruct (Hz z eq_refl) as [? <-]. rewrite fmap_cons. cbn [snd]. constructor; [done|constructor; lia].
  - pose proof (restart_advances b w Hi) as [Hi' Hl]. specialize (Hl flag).
    specialize (IH b (restart w) Hb ltac:(unfold seqStep in *; lia) Hi').
    apply Sorted_inv in IH as [Hs Hh]. constructor; [done|]. destruct Hh; constructor; lia.
Qed.
End GenSeq.

(** ** A database for the examples: a table that fails when its schedule says so *)

Inductive weather := Fine | Lost | Late.
Record table := mkTable { rows : gmap gostring Z; schedule : list weather }.

Definition table_exec (d : table) (m : seqModel) : table * option gostring :=
  let written := <[Key m := MinSeq m]> (rows d) in
  match schedule d with
  | Lost :: s => (mkTable (rows d) s, Some "bad connection"%go)
  | Late :: s => (mkTable written s, Some "timeout"%go)
  | s => (mkTable written (tail s), None)
  end.

#[export, program] Instance table_db : SeqDB table gostring := {|
  row d k := rows d !! k;
  query d k := (d, inr ((fun z => mkSeqModel k z seqStep) <$> rows d !! k));
  exec := table_exec;
|}.
Next Obligation. intros d k d' r [= <- <-]. by destruct (rows d !! k). Qed.
Next Obligation. done. Qed.
Next Obligation. unfold table_exec. intros d m d'. repeat case_match; intros [= <-]; cbn; apply lookup_insert_eq. Qed.
Next Obligation.
  unfold table_exec. intros d m d' e. repeat case_match; intros [= <- <-]; cbn; [by right|left; apply lookup_insert_eq].
Qed.
Next Obligation. unfold table_exec. intros d m k Hk. repeat case_match; cbn; rewrite ?lookup_insert_ne by done; done. Qed.

Definition fresh_world (s : list weather) : @world table := mkWorld ∅ (mkTable ∅ s).

Lemma fresh_inv s : seq_inv 1001000 (fresh_world s).
Proof. split; [|done]. intros f. unfold floor. cbn. done. Qed.

(** C6 Under one flag no sequence number is handed out twice: through any series
    of calls for any flags, lost and late database writes and restarts of the
    process, the numbers of a flag strictly increase, as long as the calls are
    too few to overflow an int64. *)
Theorem GenSeq_increasing `{SeqDB D E} (w : world) es flag b
  (Hw : seq_inv b w) (Hb : 1001000 <= b) (Hlen : b + (Z.of_nat (length es) + 2) * seqStep <= MaxInt64) :
  Sorted Z.lt (last_used w flag :: numbers flag (run w es).2).
Proof. by apply (run_increasing b). Qed.

Definition demo_events : list event :=
  [Gen "a"; Gen "b"; Gen "a"; Restarted; Gen "a"; Gen "a"; Restarted; Gen "a"; Gen "a"; Gen "b"].

Lemma GenSeq_increasing_witness :
  numbers "a" (run (fresh_world [Fine; Fine; Lost; Late]) demo_events).2 = [1000001; 1000002; 1002001; 1002002] /\
  Sorted Z.lt (last_used (fresh_world [Fine; Fine; Lost; Late]) "a" :: numbers "a" (run (fresh_world [Fine; Fine; Lost; Late]) demo_events).2).
Proof.
  split; [by vm_compute|].
  apply (GenSeq_increasing (fresh_world [Fine; Fine; Lost; Late]) demo_events "a" 1001000);
    [apply fresh_inv|lia|by vm_compute].
Defined.

(** Two processes over one database hand out the same numbers: the second one
    starts behind the row the first one wrote, and the first one, when its block
    is used up, takes the block the second one already took. *)
Example GenSeq_two_processes :
  let first := (run (fresh_world []) (repeat (Gen "a") 1000)).1 in
  let '(second, r2) := GenSeq (restart first) "a" in
  let '(_, r1) := GenSeq (mkWorld (seqMap first) (DB second)) "a" in
  r2 = Ok 1001001 /\ r1 = Ok 1001001.
Proof. by vm_compute. Qed.
