(* ===== verification/NetIp.v ===== *)
(** * NetIp: the addresses of [net/netip]

    Parsing an address and printing it, as the standard library does, and the
    round trip between the two. *)
From S2P Require Import Prelude GoStr GoUrl.

#[global] Open Scope Z_scope.
#[global] Open Scope go_scope.

(** [netip.ParseAddr]: the bytes of an address and its zone; the first of dot,
    colon and percent sign decides. *)
Definition ParseAddr (s : gostring) : option (gostring * gostring) :=
  match IndexAny s ".:%" with
  | None => None
  | Some i =>
      if bool_decide (s !! i = Some "."%char) then (fun a => (a, [])) <$> parse_ipv4 s
      else if bool_decide (s !! i = Some ":"%char) then
        let '(addr, zone, found) := Cut s "%"%char in
        if found && eqs zone [] then None
        else (fun a => (a, zone)) <$> parse_ipv6 addr
      else None
  end.

(** [Addr.Unmap] on the bytes: an IPv4-mapped IPv6 address becomes the IPv4 address. *)
Definition Unmap (a : gostring) : gostring := default a (To4 a).

(** A group in hexadecimal without leading zeros. *)
Definition hex_group (g : Z) : gostring :=
  match map hex_digit (to_digits 16 g) with [] => "0" | t => t end.

Fixpoint groups_of (a : gostring) : list Z :=
  match a with
  | x :: y :: rest => byte_val x * 256 + byte_val y :: groups_of rest
  | _ => []
  end.

(** How many of the groups are zero at the front. *)
Fixpoint zero_run (g : list Z) : nat :=
  match g with 0 :: g' => S (zero_run g') | _ => O end.

(** The first longest run of at least two zero groups: where it starts and how long it is. *)
Fixpoint longest_run (i : nat) (best : nat * nat) (g : list Z) : nat * nat :=
  match g with
  | [] => best
  | _ :: g' =>
      let n := zero_run g in
      longest_run (S i) (if (n <=? best.2)%nat then best else (i, n)) g'
  end.

(** [Addr.String] of an address without a zone that is not IPv4-mapped. *)
Definition addr_String (a : gostring) : gostring :=
  if (length a =? 4)%nat then Join (map (fun b => FormatInt (byte_val b)) a) "."
  else
    let g := groups_of a in
    let '(start, n) := longest_run O (O, 1%nat) g in
    if (1 <? n)%nat
    then Join (map hex_group (take start g)) ":" ++ "::" ++ Join (map hex_group (drop (start + n) g)) ":"
    else Join (map hex_group g) ":".


(** ** Groups *)

Definition is_group (g : Z) : Prop := 0 <= g < 65536.

(** The bytes of groups. *)
Definition group_bytes (gs : list Z) : gostring := concat (map (be_fixed 2) gs).

Lemma group_bytes_length gs : length (group_bytes gs) = (2 * length gs)%nat.
Proof. induction gs as [|g gs IH]; [done|]. unfold group_bytes in *. cbn [map concat]. rewrite length_app, be_fixed_length, IH. cbn. lia. Qed.

Lemma group_bytes_app a b : group_bytes (a ++ b) = group_bytes a ++ group_bytes b.
Proof. unfold group_bytes. by rewrite map_app, concat_app. Qed.

Lemma group_bytes_zeros n : group_bytes (replicate n 0) = replicate (2 * n) (byte_of 0).
Proof. induction n as [|n IH]; [done|]. replace (2 * S n)%nat with (S (S (2 * n))) by lia. cbn [replicate]. by rewrite <- IH. Qed.

Lemma two_ind {A} (P : list A -> Prop) :
  P [] -> (forall x y l, P l -> P (x :: y :: l)) -> forall l, Nat.Even (length l) -> P l.
Proof.
  intros H0 HS l. induction l as [l IH] using (induction_ltof1 _ (@length _)). unfold ltof in IH.
  destruct l as [|x [|y l]]; intros He; [done|by destruct He as [k Hk]; cbn in Hk; lia|].
  apply HS, IH; [cbn; lia|]. destruct He as [k Hk]. exists (k - 1)%nat. cbn in Hk. lia.
Qed.

Lemma groups_of_spec a : Nat.Even (length a) ->
  group_bytes (groups_of a) = a /\ (2 * length (groups_of a) = length a)%nat /\ Forall is_group (groups_of a).
Proof.
  revert a. apply two_ind; [done|]. intros x y l (IH1 & IH2 & IH3). cbn [groups_of].
  pose proof (byte_val_range x). pose proof (byte_val_range y). split; [|split].
  - unfold group_bytes in *. cbn [map concat]. rewrite IH1. cbn [be_fixed app].
    change (256 ^ Z.of_nat 1) with 256. change (256 ^ Z.of_nat 0) with 1. rewrite Z.div_1_r.
    rewrite Z.div_add_l, (Z.div_small (byte_val y)), Z.add_0_r by lia. f_equal; [apply byte_of_val|].
    f_equal. rewrite <- (byte_of_val y) at 2. unfold byte_of. do 2 f_equal. rewrite Z.add_comm, Z.mod_add by lia. done.
  - cbn. lia.
  - constructor; [unfold is_group; lia|done].
Qed.

(** ** Groups in hexadecimal *)

Lemma hex_group_spec g : is_group g ->
  Forall (fun c => is_hex c = true) (hex_group g) /\ (1 <= length (hex_group g) <= 4)%nat /\ hex_num (hex_group g) = g.
Proof.
  intros [Hg0 Hg]. destruct (Z.eq_dec g 0) as [->|Hne].
  { split_and!; [repeat constructor|cbn; lia..|done]. }
  destruct (to_digits_spec 16 ltac:(lia) g Hg0) as (HF & Hv & Hh). destruct (Hh ltac:(lia)) as (d & l & E & Hd).
  assert (hex_group g = map hex_digit (d :: l)) as -> by (unfold hex_group; by rewrite E).
  rewrite E in *. split; [|split].
  - apply Forall_forall. intros c (x & -> & Hx)%list_elem_of_fmap. rewrite Forall_forall in HF.
    by apply hex_digit_spec, HF.
  - pose proof (from_digits_head_bounds 16 ltac:(lia) d l HF Hd) as [B _]. rewrite Hv in B.
    assert (Z.of_nat (length l) < 4) by (apply (Z.pow_lt_mono_r_iff 16); lia). rewrite length_map. cbn. lia.
  - rewrite <- Hv. unfold hex_num, from_digits. clear Hv E Hh Hd. generalize 0.
    induction HF as [|x xs Hx HF IH]; intros acc; [done|]. cbn. rewrite (proj2 (hex_digit_spec x Hx)). apply IH.
Qed.

Lemma span_hex_app t r : Forall (fun c => is_hex c = true) t -> match r with c :: _ => is_hex c = false | [] => True end ->
  span_hex (t ++ r) = (t, r).
Proof.
  intros Ht Hr. induction Ht as [|c t Hc Ht IH]; cbn; [|by rewrite Hc, IH].
  destruct r as [|c r]; [done|]. cbn. by rewrite Hr.
Qed.

(** ** Printed groups are parsed back *)

Definition hex_groups (gs : list Z) : gostring := Join (map hex_group gs) ":".

(** A group begins with a digit, so that no colon is where one would be read. *)
Lemma hex_group_head g : is_group g -> exists c t, hex_group g = c :: t /\ is_hex c = true.
Proof.
  intros Hg. destruct (hex_group_spec g Hg) as (HF & Hlen & _). destruct (hex_group g) as [|c t]; [cbn in Hlen; lia|].
  exists c, t. split; [done|]. by apply Forall_cons in HF as [? _].
Qed.

Lemma hex_groups_cons g gs : hex_groups (g :: gs) = hex_group g ++ match gs with [] => [] | _ => ":"%char :: hex_groups gs end.
Proof. unfold hex_groups. destruct gs; cbn; [by rewrite app_nil_r|done]. Qed.

Lemma parse_group_step f acc ell g r :
  is_group g -> (length acc < 16)%nat -> match r with c :: _ => c = ":"%char | [] => True end ->
  parse_ipv6_groups (S f) acc ell (hex_group g ++ r) =
  match r with
  | [] => Some (acc ++ be_fixed 2 g, ell, [])
  | _ :: c2 :: r2 =>
      if bool_decide (c2 = ":"%char) then
        match ell with
        | Some _ => None
        | None => match r2 with
                  | [] => Some (acc ++ be_fixed 2 g, Some (length (acc ++ be_fixed 2 g)), [])
                  | _ => parse_ipv6_groups f (acc ++ be_fixed 2 g) (Some (length (acc ++ be_fixed 2 g))) r2
                  end
        end
      else parse_ipv6_groups f (acc ++ be_fixed 2 g) ell (c2 :: r2)
  | _ => None
  end.
Proof.
  intros Hg Hacc Hr. destruct (hex_group_spec g Hg) as (HF & Hlen & Hn).
  cbn [parse_ipv6_groups]. rewrite (proj2 (Nat.leb_gt _ _) Hacc).
  rewrite span_hex_app; [|done|by destruct r; subst].
  rewrite (proj2 (Nat.ltb_ge 4 _)) by lia.
  destruct (eqs (hex_group g) []) eqn:E; [apply eqs_spec in E; rewrite E in Hlen; cbn in Hlen; lia|].
  rewrite Hn. destruct r as [|c r]; [done|]. subst c. rewrite bool_decide_eq_false_2 by done.
  by rewrite bool_decide_eq_true_2.
Qed.

Lemma parse_groups_end f acc ell gs :
  Forall is_group gs -> gs <> [] -> (length gs <= f)%nat -> (length acc + 2 * length gs <= 16)%nat ->
  parse_ipv6_groups f acc ell (hex_groups gs) = Some (acc ++ group_bytes gs, ell, []).
Proof.
  intros HF. revert f acc. induction HF as [|g gs Hg HF IH]; intros f acc Hne Hf Hlen; [done|].
  destruct f as [|f]; [cbn in Hf; lia|]. cbn [length] in *. rewrite hex_groups_cons, parse_group_step; [|done|lia|by destruct gs].
  unfold group_bytes in *. cbn [map concat]. rewrite (app_assoc acc (be_fixed 2 g)). destruct gs as [|g' gs]; [by rewrite app_nil_r|].
  pose proof (hex_group_head g' ltac:(by apply Forall_cons in HF as [? _])) as (c & t & Hc & Hx).
  specialize (IH f (acc ++ be_fixed 2 g) ltac:(done) ltac:(cbn in *; lia) ltac:(rewrite length_app, be_fixed_length; lia)).
  rewrite (hex_groups_cons g' gs), Hc in *. cbn [app] in *. rewrite bool_decide_eq_false_2 by (intros ->; by vm_compute in Hx). done.
Qed.

Lemma parse_groups_gap f acc gs rest :
  Forall is_group gs -> gs <> [] -> (length gs <= f)%nat -> (length acc + 2 * length gs <= 16)%nat ->
  parse_ipv6_groups f acc None (hex_groups gs ++ "::" ++ rest) =
  match rest with
  | [] => Some (acc ++ group_bytes gs, Some (length (acc ++ group_bytes gs)), [])
  | _ => parse_ipv6_groups (f - length gs) (acc ++ group_bytes gs) (Some (length (acc ++ group_bytes gs))) rest
  end.
Proof.
  intros HF. revert f acc. induction HF as [|g gs Hg HF IH]; intros f acc Hne Hf Hlen; [done|].
  destruct f as [|f]; [cbn in Hf; lia|]. cbn [length] in *. rewrite hex_groups_cons, <- app_assoc, parse_group_step; [|done|lia|by destruct gs].
  unfold group_bytes in *. cbn [map concat]. rewrite (app_assoc acc (be_fixed 2 g)). destruct gs as [|g' gs].
  - cbn [app map concat length]. rewrite bool_decide_eq_true_2, app_nil_r by done. by rewrite Nat.sub_succ, Nat.sub_0_r.
  - pose proof (hex_group_head g' ltac:(by apply Forall_cons in HF as [? _])) as (c & t & Hc & Hx).
    specialize (IH f (acc ++ be_fixed 2 g) ltac:(done) ltac:(cbn in *; lia) ltac:(rewrite length_app, be_fixed_length; lia)).
    rewrite (hex_groups_cons g' gs), Hc in *. cbn [app] in *. rewrite bool_decide_eq_false_2 by (intros ->; by vm_compute in Hx). done.
Qed.

(** ** Runs of zero groups *)

Lemma zero_run_spec g : take (zero_run g) g = replicate (zero_run g) 0 /\ (zero_run g <= length g)%nat.
Proof. induction g as [|[|p|p] g [IH1 IH2]]; cbn; [by split; [|lia]| |by split; [|lia]|by split; [|lia]]. split; [by rewrite IH1|lia]. Qed.

(** A run that starts at [st] of [n] zero groups. *)
Definition is_run (g : list Z) (r : nat * nat) : Prop :=
  (r.1 + r.2 <= length g)%nat /\ take r.2 (drop r.1 g) = replicate r.2 0.

Lemma longest_run_spec g i best :
  ((1 < best.2)%nat -> is_run g best) ->
  let r := longest_run i best (drop i g) in (1 < r.2)%nat -> is_run g r.
Proof.
  remember (drop i g) as h eqn:Eh. revert i best Eh. induction h as [|x h IH]; intros i best Eh Hb; [done|].
  cbn [longest_run]. apply IH.
  - rewrite <- (Nat.add_1_r i), <- drop_drop, <- Eh. done.
  - case_match eqn:E; [done|]. intros _. unfold is_run. cbn [fst snd]. rewrite <- Eh.
    destruct (zero_run_spec (x :: h)) as [Hz Hl]. split; [|done].
    assert (length (x :: h) = (length g - i)%nat) as Hlen by (by rewrite Eh, length_drop).
    apply Nat.leb_gt in E. lia.
Qed.

Lemma groups_at_run g st n :
  is_run g (st, n) -> g = take st g ++ replicate n 0 ++ drop (st + n) g.
Proof.
  intros [Hl Hr]. cbn [fst snd] in *. rewrite <- Hr, <- drop_drop, take_drop. by rewrite take_drop.
Qed.

(** ** The round trip of IPv6 addresses *)

Definition v6_char (c : ascii) : bool := is_hex c || bool_decide (c = ":"%char).

Lemma v6_char_group g : is_group g -> Forall (fun c => v6_char c = true) (hex_group g).
Proof. intros Hg. eapply Forall_impl; [by apply hex_group_spec|]. intros c Hc. unfold v6_char. by rewrite Hc. Qed.

Lemma v6_char_groups gs : Forall is_group gs -> Forall (fun c => v6_char c = true) (hex_groups gs).
Proof.
  induction 1 as [|g gs Hg HF IH]; [done|]. rewrite hex_groups_cons. apply Forall_app. split; [by apply v6_char_group|].
  destruct gs; [done|]. by constructor.
Qed.

Lemma v6_char_not c : v6_char c = true -> c <> "%"%char /\ c <> "."%char.
Proof. intros Hc. split; intros ->; by vm_compute in Hc. Qed.

Lemma parse_ipv6_zone s : Forall (fun c => v6_char c = true) s -> ContainsByte s "%"%char = false.
Proof.
  intros HF. apply bool_decide_eq_false. intros Hin. rewrite Forall_forall in HF. by apply HF, v6_char_not in Hin as [? _].
Qed.

(** The two printed forms of eight groups. *)
Lemma parse_ipv6_full gs : Forall is_group gs -> length gs = 8%nat -> parse_ipv6 (hex_groups gs) = Some (group_bytes gs).
Proof.
  intros HF Hl. unfold parse_ipv6. rewrite parse_ipv6_zone by (by apply v6_char_groups).
  assert (HasPrefix (hex_groups gs) "::" = false) as ->.
  { destruct gs as [|g gs]; [done|]. rewrite hex_groups_cons. apply Forall_cons in HF as [Hg _].
    destruct (hex_group_head g Hg) as (c & t & -> & Hc). cbn. rewrite bool_decide_eq_false_2; [done|].
    intros Heq. subst c. by vm_compute in Hc. }
  rewrite parse_groups_end; [|done|by intros ->|lia|cbn; lia]. cbn [app].
  rewrite group_bytes_length, Hl. done.
Qed.

Lemma parse_ipv6_gap hd tl :
  Forall is_group hd -> Forall is_group tl -> (length hd + length tl <= 6)%nat ->
  parse_ipv6 (hex_groups hd ++ "::" ++ hex_groups tl) =
  Some (group_bytes hd ++ replicate (16 - 2 * (length hd + length tl)) (byte_of 0) ++ group_bytes tl).
Proof.
  intros Hh Ht Hl. unfold parse_ipv6. rewrite parse_ipv6_zone.
  2:{ apply Forall_app. split; [by apply v6_char_groups|]. apply Forall_app. split; [by repeat constructor|by apply v6_char_groups]. }
  assert (tl = [] \/ tl <> [] /\ hex_groups tl <> []) as Htl.
  { destruct tl as [|g tl]; [by left|right]. split; [done|]. rewrite hex_groups_cons. apply Forall_cons in Ht as [Hg _].
    by destruct (hex_group_head g Hg) as (c & t & -> & _). }
  destruct hd as [|g hd].
  - change (HasPrefix (hex_groups [] ++ "::" ++ hex_groups tl) "::") with (HasPrefix ("::" ++ hex_groups tl) "::").
    rewrite HasPrefix_app. change (drop 2 (hex_groups [] ++ "::" ++ hex_groups tl)) with (hex_groups tl).
    destruct Htl as [-> | [Hne Hs]]; [done|]. destruct (hex_groups tl) as [|c t] eqn:E; [done|]. rewrite <- E.
    rewrite parse_groups_end by (try done; cbn; lia). cbn [app].
    assert (length (group_bytes tl) <? 16 = true)%nat as -> by (rewrite group_bytes_length; apply Nat.ltb_lt; cbn in Hl; lia).
    cbn [take drop app length Nat.add]. by rewrite group_bytes_length.
  - assert (HasPrefix (hex_groups (g :: hd) ++ "::" ++ hex_groups tl) "::" = false) as ->.
    { rewrite hex_groups_cons. apply Forall_cons in Hh as [Hg _].
      destruct (hex_group_head g Hg) as (c & t & -> & Hc). cbn. rewrite bool_decide_eq_false_2; [done|].
      intros Heq. subst c. by vm_compute in Hc. }
    rewrite parse_groups_gap by (try done; cbn in *; lia). cbn [app]. set (hb := group_bytes (g :: hd)).
    assert (length hb = 2 * length (g :: hd))%nat as Hhb by apply group_bytes_length.
    destruct Htl as [-> | [Hne Hs]].
    + change (hex_groups []) with ([] : gostring). cbn match. rewrite (proj2 (Nat.ltb_lt _ _)) by lia.
      rewrite firstn_all, drop_all, Hhb. cbn [length]. by rewrite Nat.add_0_r.
    + destruct (hex_groups tl) as [|c t] eqn:E; [done|]. rewrite <- E.
      rewrite parse_groups_end by (try done; cbn [length] in *; lia).
      rewrite length_app, group_bytes_length, (proj2 (Nat.ltb_lt _ _)) by lia.
      rewrite take_app_length, drop_app_length, Hhb. do 3 f_equal. f_equal. lia.
Qed.

Lemma addr_String_v6 a : length a = 16%nat ->
  Forall (fun c => v6_char c = true) (addr_String a) /\ ":"%char ∈ addr_String a /\ parse_ipv6 (addr_String a) = Some a.
Proof.
  intros Hl. destruct (groups_of_spec a) as (Hb & Hg & HF); [exists 8%nat; lia|].
  assert (length (groups_of a) = 8%nat) as Hg8 by lia. clear Hg.
  unfold addr_String. rewrite (proj2 (Nat.eqb_neq _ _)) by lia. set (g := groups_of a) in *.
  pose proof (longest_run_spec g 0 (0, 1)%nat ltac:(cbn; lia)) as Hrun. cbv zeta in Hrun. rewrite drop_0 in Hrun.
  destruct (longest_run 0 (0, 1)%nat g) as [st n]. cbn [fst snd] in Hrun.
  destruct (Nat.ltb_spec 1 n) as [Hn|Hn].
  - specialize (Hrun Hn). pose proof (groups_at_run g st n Hrun) as Hsplit. destruct Hrun as [Hle _]. cbn [fst snd] in Hle.
    change (Join (map hex_group (take st g)) ":") with (hex_groups (take st g)).
    change (Join (map hex_group (drop (st + n) g)) ":") with (hex_groups (drop (st + n) g)).
    assert (Forall is_group (take st g)) as Hh by (by apply Forall_take).
    assert (Forall is_group (drop (st + n) g)) as Ht by (by apply Forall_drop).
    split; [|split].
    + apply Forall_app. split; [by apply v6_char_groups|]. apply Forall_app. split; [by repeat constructor|by apply v6_char_groups].
    + set_solver.
    + rewrite parse_ipv6_gap; [|done|done|rewrite length_take, length_drop; lia].
      assert (group_bytes g = group_bytes (take st g) ++ replicate (2 * n) (byte_of 0) ++ group_bytes (drop (st + n) g)) as Hbytes.
      { rewrite Hsplit at 1. by rewrite !group_bytes_app, group_bytes_zeros. }
      rewrite <- Hb, Hbytes. do 4 f_equal. rewrite length_take, length_drop. lia.
  - change (Join (map hex_group g) ":") with (hex_groups g). split; [by apply v6_char_groups|]. split.
    + destruct g as [|x [|y g]]; [done..|]. rewrite hex_groups_cons. set_solver.
    + rewrite parse_ipv6_full by done. by rewrite Hb.
Qed.

Lemma IndexAny_v6 s : Forall (fun c => v6_char c = true) s -> ":"%char ∈ s ->
  exists i, IndexAny s ".:%" = Some i /\ s !! i = Some ":"%char.
Proof.
  induction 1 as [|c s Hc HF IH]; [by intros ?%elem_of_nil|]. intros Hin. cbn [IndexAny].
  destruct (decide (c = ":"%char)) as [->|Hne].
  - rewrite bool_decide_eq_true_2 by set_solver. by exists O.
  - apply elem_of_cons in Hin as [?|Hin]; [done|]. destruct (IH Hin) as (i & -> & Hi).
    destruct (v6_char_not c Hc). rewrite bool_decide_eq_false_2 by set_solver. by exists (S i).
Qed.

Lemma ParseAddr_v6 a : length a = 16%nat -> ParseAddr (addr_String a) = Some (a, []).
Proof.
  intros Hl. destruct (addr_String_v6 a Hl) as (HF & Hc & Hp). unfold ParseAddr.
  destruct (IndexAny_v6 _ HF Hc) as (i & -> & ->). rewrite bool_decide_eq_false_2 by done. rewrite bool_decide_eq_true_2 by done.
  unfold Cut. assert (IndexByte (addr_String a) "%"%char = None) as ->.
  { apply IndexByte_None. intros Hin. rewrite Forall_forall in HF. by apply HF, v6_char_not in Hin as [? _]. }
  cbn. by rewrite Hp.
Qed.

(** ** IPv4 *)

Definition octet_ok (v : Z) : bool :=
  bool_decide (parse_dec_octet (FormatInt v) = Some v) && forallb ascii_digit (FormatInt v) &&
  negb (eqs (FormatInt v) []).

Lemma octets_ok v : 0 <= v < 256 -> octet_ok v = true.
Proof.
  intros Hv. assert (forallb octet_ok (map Z.of_nat (seq 0 256)) = true) as H by (by vm_compute).
  rewrite forallb_forall in H. apply H. rewrite in_map_iff. exists (Z.to_nat v). split; [lia|]. apply in_seq. lia.
Qed.

Lemma octet_spec c : parse_dec_octet (FormatInt (byte_val c)) = Some (byte_val c) /\
  Forall (fun c => ascii_digit c = true) (FormatInt (byte_val c)) /\ FormatInt (byte_val c) <> [].
Proof.
  pose proof (octets_ok (byte_val c) (byte_val_range c)) as H. unfold octet_ok in H.
  apply andb_true_iff in H as [[H1 H2]%andb_true_iff H3]. apply bool_decide_eq_true in H1. split; [done|]. split.
  - apply Forall_forall. intros x Hx. rewrite forallb_forall in H2. by apply H2, list_elem_of_In.
  - intros E. by rewrite E in H3.
Qed.

Lemma digits_no c s : Forall (fun c => ascii_digit c = true) s -> ascii_digit c = false -> c ∉ s.
Proof. intros HF Hc Hin. rewrite Forall_forall in HF. apply HF in Hin. congruence. Qed.

Lemma IndexAny_digits s r : Forall (fun c => ascii_digit c = true) s ->
  IndexAny (s ++ "."%char :: r) ".:%" = Some (length s) /\ (s ++ "."%char :: r) !! length s = Some "."%char.
Proof.
  intros HF. split; [|by rewrite lookup_app_r, Nat.sub_diag].
  induction HF as [|c s Hc HF IH]; cbn [app IndexAny length]; [by rewrite bool_decide_eq_true_2 by set_solver|].
  rewrite bool_decide_eq_false_2, IH; [done|].
  intros Hin. repeat (apply elem_of_cons in Hin as [->|Hin]; [done|]). by apply elem_of_nil in Hin.
Qed.

Lemma ParseAddr_v4 a : length a = 4%nat -> ParseAddr (addr_String a) = Some (a, []).
Proof.
  intros Hl. destruct a as [|a [|b [|c [|d [|]]]]]; try done.
  change (addr_String [a; b; c; d]) with (FormatInt (byte_val a) ++ "."%char :: (FormatInt (byte_val b) ++ "."%char ::
    (FormatInt (byte_val c) ++ "."%char :: FormatInt (byte_val d)))).
  destruct (octet_spec a) as (Pa & Fa & _), (octet_spec b) as (Pb & Fb & _), (octet_spec c) as (Pc & Fc & _), (octet_spec d) as (Pd & Fd & _).
  unfold ParseAddr. destruct (IndexAny_digits (FormatInt (byte_val a)) (FormatInt (byte_val b) ++ "."%char ::
    (FormatInt (byte_val c) ++ "."%char :: FormatInt (byte_val d))) Fa) as [-> ->].
  rewrite bool_decide_eq_true_2 by done. unfold parse_ipv4.
  rewrite !Split_app by (by apply digits_no). rewrite Split_notin by (by apply digits_no).
  rewrite Pa, Pb, Pc, Pd. cbn. by rewrite !byte_of_val.
Qed.

Lemma parse_ipv4_length s a : parse_ipv4 s = Some a -> length a = 4%nat.
Proof. unfold parse_ipv4. repeat case_match; by intros [= <-]. Qed.

(** ** Every parsed address has 4 or 16 bytes, and one canonical text *)

Lemma parse_ipv6_groups_length f acc ell s r :
  Nat.Even (length acc) -> (length acc <= 16)%nat -> parse_ipv6_groups f acc ell s = Some r -> (length r.1.1 <= 16)%nat.
Proof.
  revert acc ell s. induction f as [|f IH]; intros acc ell s He Hl; cbn [parse_ipv6_groups]; [by intros [= <-]|].
  destruct (Nat.leb_spec 16 (length acc)) as [|Hlt]; [by intros [= <-]|].
  destruct (span_hex s) as [d r0]. destruct (4 <? length d)%nat; [done|]. destruct (eqs d []); [done|].
  assert (forall z, Nat.Even (length (acc ++ be_fixed 2 z)) /\ (length (acc ++ be_fixed 2 z) <= 16)%nat) as Hn.
  { intros z. rewrite length_app, be_fixed_length. destruct He as [k Hk]. split; [exists (k + 1)%nat; lia|lia]. }
  destruct r0 as [|c r0]; [intros [= <-]; apply Hn|].
  case_bool_decide.
  - destruct (_ || _) eqn:Eb; [done|]. apply orb_false_iff in Eb as [_ Hb%Nat.ltb_ge].
    destruct (parse_ipv4 s) as [v4|] eqn:E4; [|done]. intros [= <-]. apply parse_ipv4_length in E4. cbn. rewrite length_app. lia.
  - destruct (negb _); [done|]. destruct r0 as [|c2 r2]; [done|]. case_bool_decide.
    + destruct ell; [done|]. destruct r2; [intros [= <-]; apply Hn|]. apply IH; apply Hn.
    + apply IH; apply Hn.
Qed.

Lemma parse_ipv6_length s a : parse_ipv6 s = Some a -> length a = 16%nat.
Proof.
  unfold parse_ipv6. destruct (ContainsByte s "%"%char); [done|].
  set (start := if HasPrefix s "::" then (Some 0%nat, drop 2 s) else (None, s)). destruct start as [ell t].
  assert (forall acc e r, (match ell, t with Some _, [] => Some ([], ell, []) | _, _ => parse_ipv6_groups 9 [] ell t end) = Some (acc, e, r) ->
    (length acc <= 16)%nat) as Hlen.
  { intros acc e r. assert (forall x, parse_ipv6_groups 9 [] ell t = Some x -> (length x.1.1 <= 16)%nat) as Hg.
    { intros x. apply parse_ipv6_groups_length; [by exists O|cbn; lia]. }
    destruct ell, t; try (intros H; by apply Hg in H). intros [= <- <- <-]. cbn. lia. }
  destruct (match ell, t with Some _, [] => Some ([], ell, []) | _, _ => parse_ipv6_groups 9 [] ell t end) as [[[acc e] [|]]|]; [|done..].
  specialize (Hlen acc e [] eq_refl). destruct (Nat.ltb_spec (length acc) 16) as [Hlt|Hge].
  - destruct e as [e|]; [|done]. intros [= <-]. rewrite !length_app, length_replicate, length_take, length_drop. lia.
  - destruct e; [done|]. intros [= <-]. lia.
Qed.

Lemma ParseAddr_length s a z : ParseAddr s = Some (a, z) -> length a = 4%nat \/ length a = 16%nat.
Proof.
  unfold ParseAddr. destruct (IndexAny s ".:%") as [i|]; [|done]. case_bool_decide.
  - destruct (parse_ipv4 s) eqn:E; [|done]. intros [= <- <-]. left. by apply parse_ipv4_length in E.
  - case_bool_decide; [|done]. destruct (Cut s "%"%char) as [[addr zone] found]. destruct (found && eqs zone []); [done|].
    destruct (parse_ipv6 addr) eqn:E; [|done]. intros [= <- <-]. right. by apply parse_ipv6_length in E.
Qed.

Lemma Unmap_cases a : length a = 4%nat \/ length a = 16%nat ->
  Unmap a = a \/ (length (Unmap a) = 4%nat /\ length a = 16%nat).
Proof.
  unfold Unmap, To4. intros [Hl|Hl]; rewrite Hl; [by left|]. cbn [Nat.eqb andb].
  destruct (eqs (take 12 a) v4InV6Prefix); cbn [from_option id]; [right|by left].
  unfold id. rewrite length_drop. lia.
Qed.

Lemma Unmap_length a : length a = 4%nat \/ length a = 16%nat -> length (Unmap a) = 4%nat \/ length (Unmap a) = 16%nat.
Proof. intros Hl. destruct (Unmap_cases a Hl) as [-> | [? _]]; auto. Qed.

Lemma Unmap_v4 a : length a = 4%nat -> Unmap a = a.
Proof. intros Hl. unfold Unmap, To4. by rewrite Hl. Qed.

Lemma Unmap_Unmap a : length a = 4%nat \/ length a = 16%nat -> Unmap (Unmap a) = Unmap a.
Proof. intros Hl. destruct (Unmap_cases a Hl) as [E|[Hu _]]; [by rewrite !E|by apply Unmap_v4]. Qed.

Lemma ParseAddr_String a : length a = 4%nat \/ length a = 16%nat -> ParseAddr (addr_String a) = Some (a, []).
Proof. intros [Hl|Hl]; [by apply ParseAddr_v4|by apply ParseAddr_v6]. Qed.

Lemma addr_String_printing a : length a = 4%nat \/ length a = 16%nat ->
  Forall (fun c => in_range 33 126 c = true) (addr_String a).
Proof.
  assert (forall c, ascii_digit c = true -> in_range 33 126 c = true) as Hd.
  { intros c. unfold ascii_digit. rewrite !in_range_spec. lia. }
  intros [Hl|Hl].
  - destruct a as [|a [|b [|c [|d [|]]]]]; try done.
    change (addr_String [a; b; c; d]) with (FormatInt (byte_val a) ++ "." ++ (FormatInt (byte_val b) ++ "." ++
      (FormatInt (byte_val c) ++ "." ++ FormatInt (byte_val d)))).
    assert (forall x, Forall (fun c => in_range 33 126 c = true) (FormatInt (byte_val x))) as Ho.
    { intros x. eapply Forall_impl; [apply octet_spec|done]. }
    repeat (apply Forall_app; split; [first [apply Ho | by repeat constructor]|]). apply Ho.
  - eapply Forall_impl; [by apply addr_String_v6|]. intros c Hc. unfold v6_char, is_hex, ascii_digit in Hc.
    apply orb_true_iff in Hc as [Hc|Hc].
    + apply orb_true_iff in Hc as [[Hc|Hc]%orb_true_iff|Hc]; apply in_range_spec in Hc; apply in_range_spec; lia.
    + apply bool_decide_eq_true in Hc as ->. done.
Qed.
