(* ===== verification/Redis.v ===== *)
(** * Redis: the connection wrapper and its instrumentation
    ([pkg/redis/redis.go], [pkg/redis/instrument.go])

    The go-redis client is a parameter: an interpreter of typed commands over a
    state. The wrapper turns each operation into one command, and the redis
    answer "no such key" into a zero value. *)
From S2P Require Import Prelude GoStr.

#[global] Open Scope Z_scope.
#[global] Open Scope go_scope.

(** ** Go values of any type, errors, results *)

Inductive any := ANil | AString (s : gostring) | AInt (z : Z) | AFloat (bits : Z) | ABool (b : bool) | AOther.

(** [Nil] is go-redis' sentinel for a missing key; any other error has a text. *)
Inductive rd_err := Nil | Failed (text : gostring).

#[export] Instance rd_err_eq_dec : EqDecision rd_err.
Proof. solve_decision. Defined.

(** A Go result: the value with its error, or a panic. *)
Inductive result A := Ret (val : A) (err : option rd_err) | Panics (msg : gostring).
Arguments Ret {A} val err.
Arguments Panics {A} msg.

Record GeoLocation := mkGeoLocation { geo_Name : gostring; geo_Longitude : Z; geo_Latitude : Z }.
Record ZRangeBy := mkZRangeBy { z_Min : gostring; z_Max : gostring; z_Offset : Z; z_Count : Z }.

(** The commands, indexed by what the client returns; durations in nanoseconds,
    floating point numbers by their bits. *)
Inductive cmd : Type -> Type :=
| PING : cmd gostring
| SET (key : gostring) (value : any) (expire : Z) : cmd gostring
| GET (key : gostring) : cmd gostring
| DEL (key : gostring) : cmd Z
| LLEN (key : gostring) : cmd Z
| LRANGE (key : gostring) (start stop : Z) : cmd (list gostring)
| LPOP (key : gostring) : cmd gostring
| SMEMBERS (key : gostring) : cmd (list gostring)
| LREM (key : gostring) (count : Z) (value : gostring) : cmd Z
| LTRIM (key : gostring) (start stop : Z) : cmd gostring
| HGET (key field : gostring) : cmd gostring
| HMGET (key : gostring) (fields : list gostring) : cmd (option (list any))
| HMSET (key : gostring) (fields : gmap gostring gostring) : cmd gostring
| HGETALL (key : gostring) : cmd (gmap gostring gostring)
| EXPIRE (key : gostring) (expiration : Z) : cmd bool
| HSET (key field value : gostring) : cmd bool
| HDEL (key field : gostring) : cmd Z
| HINCRBY (key field : gostring) (increment : Z) : cmd Z
| SISMEMBER (key member : gostring) : cmd bool
| SADD (key : gostring) (members : list any) : cmd Z
| SREM (key : gostring) (member : any) : cmd Z
| ZADD (key : gostring) (members : list (Z * any)) : cmd Z
| ZREM (key : gostring) (members : list any) : cmd Z
| ZREMRANGEBYSCORE (key min max : gostring) : cmd Z
| ZRANGEBYSCORE (key : gostring) (by_ : ZRangeBy) : cmd (list gostring)
| INCR (key : gostring) : cmd Z
| DECR (key : gostring) : cmd Z
| GEOADD (key : gostring) (location : GeoLocation) : cmd Z
| GEORADIUS (key : gostring) (longitude latitude radius : Z) (unit_ : gostring) : cmd (list GeoLocation)
| MSET (pairs : list gostring) : cmd gostring
| BLPOP (timeout : Z) (key : gostring) : cmd (list gostring)
| BRPOPLPUSH (source destination : gostring) (timeout : Z) : cmd gostring
| LPUSHALL (key : gostring) (values : list any) : cmd Z
| KEYS (pattern : gostring) : cmd (list gostring).

(** The client: what it answers to a command, and the state it leaves. *)
Class Client (S : Type) := client : forall A, cmd A -> S -> S * (A * option rd_err).
Arguments client {S _ A} c s.

(** ** The operations of [Conn] *)
Section Conn.
Context {S : Type} `{Client S}.

Definition op (A : Type) : Type := S -> S * result A.

(** The command's value and error as they are. *)
Definition Result {A} (c : cmd A) : op A := fun s => let '(s', (v, e)) := client c s in (s', Ret v e).

(** The command's error alone. *)
Definition ErrOf {A} (c : cmd A) : op unit := fun s => let '(s', (_, e)) := client c s in (s', Ret tt e).

(** A read: the missing key as a zero value, then value and error as they are. *)
Definition or_zero {A} (z : A) (c : cmd A) : op A := fun s =>
  let '(s', (v, e)) := client c s in
  if decide (e = Some Nil) then (s', Ret z None) else (s', Ret v e).

(** A read that also drops the value of a failed command. *)
Definition or_zero_strict {A B} (z : B) (f : A -> result B) (c : cmd A) : op B := fun s =>
  let '(s', (v, e)) := client c s in
  if decide (e = Some Nil) then (s', Ret z None)
  else match e with Some _ => (s', Ret z e) | None => (s', f v) end.

Definition Ping : op gostring := Result PING.
Definition Set_ (key : gostring) (value : any) : op unit := ErrOf (SET key value 0).
Definition SetAndExpire (key : gostring) (value : any) (expire : Z) : op unit := ErrOf (SET key value expire).
Definition GetString (key : gostring) : op gostring := or_zero_strict [] (fun v => Ret v None) (GET key).
Definition Del (key : gostring) : op unit := ErrOf (DEL key).
Definition Llen (key : gostring) : op Z := or_zero 0 (LLEN key).
Definition Lrange (key : gostring) (start stop : Z) : op (list gostring) := or_zero [] (LRANGE key start stop).
Definition Lpop (key : gostring) : op gostring := or_zero [] (LPOP key).
Definition SMembers (key : gostring) : op (list gostring) := or_zero_strict [] (fun v => Ret v None) (SMEMBERS key).
Definition Lrem (key : gostring) (count : Z) (value : gostring) : op Z := Result (LREM key count value).
Definition Ltrim (key : gostring) (start stop : Z) : op gostring := Result (LTRIM key start stop).
Definition Hget (key field : gostring) : op gostring := or_zero [] (HGET key field).

(** The values of an [HMGET], the missing ones empty; a value of another type panics. *)
Fixpoint result_strings (results : list any) : result (list gostring) :=
  match results with
  | [] => Ret [] None
  | ANil :: rs => match result_strings rs with Ret l e => Ret ([] :: l) e | Panics m => Panics m end
  | AString s :: rs => match result_strings rs with Ret l e => Ret (s :: l) e | Panics m => Panics m end
  | _ :: _ => Panics "interface conversion: interface {} is not string"
  end.

Definition Hmget (key : gostring) (field : list gostring) : op (list gostring) :=
  or_zero_strict [] (fun results => match results with Some rs => result_strings rs | None => Ret [] None end) (HMGET key field).

(** The map of alternating fields and values. *)
Fixpoint field_value_map (fieldValues : list gostring) (m : gmap gostring gostring) : gmap gostring gostring :=
  match fieldValues with
  | f :: v :: rest => field_value_map rest (<[f := v]> m)
  | _ => m
  end.

Definition Hmset (key : gostring) (fieldValues : list gostring) : op unit := fun s =>
  if (length fieldValues mod 2 =? 0)%nat then ErrOf (HMSET key (field_value_map fieldValues ∅)) s
  else (s, Ret tt (Some (Failed "redis hmset操作失败【fieldValues不能为单数！】"))).

Definition Hgetall (key : gostring) : op (gmap gostring gostring) := or_zero ∅ (HGETALL key).
Definition Expire (key : gostring) (expiration : Z) : op unit := ErrOf (EXPIRE key expiration).
Definition Hset (key field value : gostring) : op unit := ErrOf (HSET key field value).
Definition Hdel (key field : gostring) : op unit := ErrOf (HDEL key field).
Definition Hincrby (key field : gostring) (increment : Z) : op Z := Result (HINCRBY key field increment).

Definition Sismember (key member : gostring) : op Z := fun s =>
  let '(s', (r, e)) := client (SISMEMBER key member) s in
  match e with
  | Some _ => (s', Ret 0 e)
  | None => if r : bool then (s', Ret 1 None) else (s', Ret 0 e)
  end.

Definition SAdd (key : gostring) (members : list any) : op unit := ErrOf (SADD key members).
Definition SRem (key : gostring) (member : any) : op unit := ErrOf (SREM key member).

(** The scored members: a score that is no float64 and a last score without a
    member panic. *)
Fixpoint score_members (scoremember : list any) : result (list (Z * any)) :=
  match scoremember with
  | [] => Ret [] None
  | AFloat score :: member :: rest =>
      match score_members rest with Ret l e => Ret ((score, member) :: l) e | Panics m => Panics m end
  | [AFloat _] => Panics "index out of range"
  | _ => Panics "interface conversion: interface {} is not float64"
  end.

Definition ZAdd (key : gostring) (scoremember : list any) : op unit := fun s =>
  match score_members scoremember with
  | Ret members _ => ErrOf (ZADD key members) s
  | Panics m => (s, Panics m)
  end.

Definition ZRem (key : gostring) (members : list any) : op unit := ErrOf (ZREM key members).
Definition ZRemRangeByScore (key min max : gostring) : op unit := ErrOf (ZREMRANGEBYSCORE key min max).
Definition ZRangeByScore (key : gostring) (zrangeBy : ZRangeBy) : op (list gostring) := or_zero [] (ZRANGEBYSCORE key zrangeBy).
Definition Incr (key : gostring) : op Z := Result (INCR key).
Definition Decr (key : gostring) : op Z := Result (DECR key).
Definition SetExpire (key : gostring) (expire : Z) : op unit := ErrOf (EXPIRE key expire).

Definition GeoAdd (key : gostring) (longitude latitude : Z) (member : gostring) : op unit :=
  ErrOf (GEOADD key (mkGeoLocation member longitude latitude)).

(** The further parameters are not passed on. *)
Definition GeoRadius (key : gostring) (longitude latitude radius : Z) (unit_ : gostring) (params : list any) : op (list GeoLocation) :=
  Result (GEORADIUS key longitude latitude radius unit_).

Definition MSet (keyValues : list gostring) : op unit := ErrOf (MSET keyValues).

Definition BLPop (key : gostring) (timeout : Z) : op gostring := fun s =>
  let '(s', (results, e)) := client (BLPOP timeout key) s in
  match e with
  | Some _ => (s', Ret [] e)
  | None => match results with
            | _ :: r :: _ => (s', Ret r None)
            | _ => (s', Ret [] None)
            end
  end.

Definition BRPoplpush (source destination : gostring) (timeout : Z) : op gostring := Result (BRPOPLPUSH source destination timeout).
Definition LPUSH (key : gostring) (values : list any) : op Z := Result (LPUSHALL key values).
Definition GetKeys (key : gostring) : op (list gostring) := Result (KEYS key).

(** ** Reads *)

(** What a read promises: a missing key is [z] without an error, an error of
    the server is passed on, and an answer is passed on. *)
Definition missing_is_zero {A} (c : cmd A) (z : A) (o : op A) : Prop :=
  forall s s' v e, client c s = (s', (v, e)) ->
    match e with
    | Some Nil => o s = (s', Ret z None)
    | Some e' => exists v', o s = (s', Ret v' (Some e')) /\ (v' = v \/ v' = z)
    | None => o s = (s', Ret v None)
    end.

Lemma or_zero_spec {A} (z : A) (c : cmd A) : missing_is_zero c z (or_zero z c).
Proof. intros s s' v e He. unfold or_zero. rewrite He. destruct e as [[|t]|]; [done| |done]. exists v. by split; [|left]. Qed.

Lemma or_zero_strict_spec {A} (z : A) (c : cmd A) : missing_is_zero c z (or_zero_strict z (fun v => Ret v None) c).
Proof. intros s s' v e He. unfold or_zero_strict. rewrite He. destruct e as [[|t]|]; [done| |done]. exists z. by split; [|right]. Qed.

(** Reading a key or field that does not exist gives the zero value and no
    error, for every read of the wrapper; any other error reaches the caller, and
    an answer is returned unchanged. *)
Theorem reads_missing_is_zero key field start stop by_ :
  missing_is_zero (GET key) [] (GetString key) /\
  missing_is_zero (LLEN key) 0 (Llen key) /\
  missing_is_zero (LRANGE key start stop) [] (Lrange key start stop) /\
  missing_is_zero (LPOP key) [] (Lpop key) /\
  missing_is_zero (SMEMBERS key) [] (SMembers key) /\
  missing_is_zero (HGET key field) [] (Hget key field) /\
  missing_is_zero (HGETALL key) ∅ (Hgetall key) /\
  missing_is_zero (ZRANGEBYSCORE key by_) [] (ZRangeByScore key by_).
Proof. split_and!; try apply or_zero_spec; apply or_zero_strict_spec. Qed.

(** ** Hash writes *)

(** The last value given for a field. *)
Fixpoint last_value (f : gostring) (fieldValues : list gostring) : option gostring :=
  match fieldValues with
  | g :: v :: rest => match last_value f rest with Some w => Some w | None => if decide (g = f) then Some v else None end
  | _ => None
  end.

Lemma field_value_map_lookup f l m :
  field_value_map l m !! f = match last_value f l with Some v => Some v | None => m !! f end.
Proof.
  revert m. induction l as [l IH] using (induction_ltof1 _ (@length _)). unfold ltof in IH. intros m.
  destruct l as [|g [|v rest]]; [done..|]. cbn [field_value_map last_value].
  rewrite IH by (cbn; lia). destruct (last_value f rest); [done|].
  destruct (decide (g = f)) as [->|Hne]; [apply lookup_insert_eq|by apply lookup_insert_ne].
Qed.

(** [Hmset] sends one command with the last value of every field, and for an odd
    number of arguments fails without one. *)
Lemma Hmset_spec key l s :
  (Nat.Even (length l) -> exists m, Hmset key l s = ErrOf (HMSET key m) s /\ forall f, m !! f = last_value f l) /\
  (Nat.Odd (length l) -> exists t, Hmset key l s = (s, Ret tt (Some (Failed t)))).
Proof.
  unfold Hmset. split; intros Hl.
  - apply Nat.Even_EvenT, Nat.EvenT_Even in Hl. destruct Hl as [k Hk].
    rewrite Hk, (Nat.mul_comm 2), Nat.Div0.mod_mul. cbn.
    eexists. split; [done|]. intros f. rewrite field_value_map_lookup, lookup_empty. by case_match.
  - destruct Hl as [k Hk]. rewrite Hk, Nat.add_comm, (Nat.mul_comm 2), Nat.Div0.mod_add. cbn. eauto.
Qed.
End Conn.

(** ** Connecting *)

(** The options the wrapper sets or reads. *)
Record Options := mkOptions { o_Addr : gostring; o_Password : gostring; o_MaxRetries : Z; o_TLS : bool }.
Definition zero_options : Options := mkOptions [] [] 0 false.

Definition New_options (addr password : gostring) : Options := mkOptions addr password 3 false.

(** A copy of the caller's options, 3 retries where none are set. *)
Definition NewWithOptions_options (opts : option Options) : Options :=
  let local := default zero_options opts in
  if o_MaxRetries local =? 0 then mkOptions (o_Addr local) (o_Password local) 3 (o_TLS local) else local.

(** [Options] and [Close] are the client's. *)
Definition Conn_Options {Cl} (client_Options : Cl -> Options) (rc : Cl) : Options := client_Options rc.
Definition Conn_Close {Cl E} (client_Close : Cl -> option E) (rc : Cl) : option E := client_Close rc.

Record tls_Config (Pool : Type) := mkTLS { InsecureSkipVerify : bool; MinVersion : Z; RootCAs : option Pool }.
Arguments mkTLS {Pool}.

Definition VersionTLS12 : Z := 771.

Inductive tls_err := read_redis_CA_file (file : gostring) (e : gostring) | no_valid_PEM (file : gostring).

(** The certificate file is read by [ReadFile]; [AppendCertsFromPEM] adds its
    certificates to an empty pool, or finds none. *)
Definition BuildTLSConfig {Pool} (ReadFile : gostring -> gostring + gostring) (AppendCertsFromPEM : gostring -> option Pool)
    (insecureSkipVerify : bool) (caFile : gostring) : go tls_err (tls_Config Pool) :=
  if eqs caFile [] then Ok (mkTLS insecureSkipVerify VersionTLS12 None)
  else match ReadFile caFile with
       | inl e => Err (read_redis_CA_file caFile e)
       | inr caPEM => match AppendCertsFromPEM caPEM with
                      | None => Err (no_valid_PEM caFile)
                      | Some pool => Ok (mkTLS insecureSkipVerify VersionTLS12 (Some pool))
                      end
       end.

(** ** Instrumentation *)

Definition normalizeRedisErr (err : option rd_err) : option rd_err :=
  if decide (err = Some Nil) then None else err.

(** The error to report for a pipeline: the first real error of its commands. *)
Fixpoint pipelineErr (cmds : list (option rd_err)) (topErr : option rd_err) : option rd_err :=
  match cmds with
  | [] => normalizeRedisErr topErr
  | Some (Failed t) :: _ => Some (Failed t)
  | _ :: cmds' => pipelineErr cmds' topErr
  end.

(** A pipeline is reported as failed exactly when one of its commands, or the
    round trip, failed for another reason than a missing key. *)
Lemma pipelineErr_iff cmds topErr :
  pipelineErr cmds topErr = None <->
  Forall (fun e => e = None \/ e = Some Nil) cmds /\ (topErr = None \/ topErr = Some Nil).
Proof.
  induction cmds as [|[[|t]|] cmds IH]; cbn.
  - unfold normalizeRedisErr. destruct topErr as [[|t]|]; cbn; split; intros; naive_solver.
  - rewrite IH, Forall_cons. naive_solver.
  - rewrite Forall_cons. naive_solver.
  - rewrite IH, Forall_cons. naive_solver.
Qed.

(** The process-wide observer and the hooks: a client may be wrapped several
    times, each wrap adds a report per command. *)
Record instrumentation := mkInstr { observer_set : bool; instrumented : gset Z; hooks : gmap Z nat }.

Definition SetRedisObserver (o : bool) (i : instrumentation) : instrumentation :=
  mkInstr o (instrumented i) (hooks i).

Definition wrapClient (client : Z) (i : instrumentation) : instrumentation :=
  mkInstr (observer_set i) (instrumented i) (<[client := S (default O (hooks i !! client))]> (hooks i)).

(** [None] is the nil client. *)
Definition Instrument (client : option Z) (i : instrumentation) : instrumentation :=
  match client with
  | None => i
  | Some c =>
      if decide (c ∈ instrumented i) then i
      else wrapClient c (mkInstr (observer_set i) ({[c]} ∪ instrumented i) (hooks i))
  end.

(** How many reports one command of a client makes. *)
Definition reports (client : Z) (i : instrumentation) : nat :=
  if observer_set i then default O (hooks i !! client) else O.

(** Instrumenting a client twice reports its commands once. *)
Lemma Instrument_idempotent c i : Instrument c (Instrument c i) = Instrument c i.
Proof.
  destruct c as [c|]; [|done]. cbn. destruct (decide (c ∈ instrumented i)); [by rewrite decide_True|].
  cbn. rewrite decide_True by set_solver. done.
Qed.
