(* ===== verification/Cache.v ===== *)
(** * Cache: the cache interface and its implementations
    ([pkg/cache/cache.go], [common/cache.go])

    [Cache] is the interface, [CacheLaws] what its users may rely on at the
    instant of a call where no operation fails; [MemoryCache] keeps the laws, and
    so does [RedisCache] over a redis that stores what it is told. Time passes
    between the calls: redis then drops the values whose expiry has come, the
    memory cache does not. *)
From S2P Require Import Prelude GoStr Redis.

#[global] Open Scope Z_scope.
#[global] Open Scope go_scope.

(** ** The interface *)

(** Durations are nanoseconds; [None] is the nil error. *)
Class Cache (S : Type) := {
  cache_Set : gostring -> gostring -> S -> S * option rd_err;
  cache_Delete : gostring -> S -> S * option rd_err;
  cache_SetAndExpire : gostring -> gostring -> Z -> S -> S * option rd_err;
  cache_Get : gostring -> S -> S * (gostring * option rd_err);
}.

(** What a cache holds for a key, and how the operations change it when the
    state is [good]: none fails. An operation takes no time, so nothing expires
    under it; what a wait does is not part of the laws. *)
Class CacheLaws (S : Type) `{Cache S} := {
  holds : S -> gostring -> gostring;
  good : S -> Prop;
  law_Set k v s : good s -> let '(s', e) := cache_Set k v s in
    e = None /\ good s' /\ forall k', holds s' k' = if decide (k' = k) then v else holds s k';
  law_SetAndExpire k v d s : good s -> 0 <= d -> let '(s', e) := cache_SetAndExpire k v d s in
    e = None /\ good s' /\ forall k', holds s' k' = if decide (k' = k) then v else holds s k';
  law_Delete k s : good s -> let '(s', e) := cache_Delete k s in
    e = None /\ good s' /\ forall k', holds s' k' = if decide (k' = k) then [] else holds s k';
  law_Get k s : good s -> let '(s', (v, e)) := cache_Get k s in
    e = None /\ v = holds s k /\ good s' /\ forall k', holds s' k' = holds s k';
}.

(** ** [MemoryCache] *)

Record MemoryCache := mkMemoryCache { cacheMap : gmap gostring gostring }.

Definition NewMemoryCache : MemoryCache := mkMemoryCache ∅.

Definition Set_ (key value : gostring) (m : MemoryCache) : MemoryCache * option rd_err :=
  (mkMemoryCache (<[key := value]> (cacheMap m)), None).

(** The expiry is not used. *)
Definition SetAndExpire (key value : gostring) (expire : Z) (m : MemoryCache) : MemoryCache * option rd_err :=
  (mkMemoryCache (<[key := value]> (cacheMap m)), None).

Definition Get (key : gostring) (m : MemoryCache) : MemoryCache * (gostring * option rd_err) :=
  (m, (default [] (cacheMap m !! key), None)).

Definition Delete (key : gostring) (m : MemoryCache) : MemoryCache * option rd_err :=
  (mkMemoryCache (delete key (cacheMap m)), None).

#[export] Instance MemoryCache_Cache : Cache MemoryCache := {|
  cache_Set := Set_; cache_Delete := Delete; cache_SetAndExpire := SetAndExpire; cache_Get := Get |}.

#[export, program] Instance MemoryCache_laws : CacheLaws MemoryCache := {|
  holds m k := default [] (cacheMap m !! k);
  good _ := True;
|}.
Next Obligation.
  intros k v m _. cbn. split; [done|]. split; [done|]. intros k'. case_decide as Hk.
  - subst. by rewrite lookup_insert_eq.
  - by rewrite lookup_insert_ne by done.
Qed.
Next Obligation.
  intros k v d m _ _. cbn. split; [done|]. split; [done|]. intros k'. case_decide as Hk.
  - subst. by rewrite lookup_insert_eq.
  - by rewrite lookup_insert_ne by done.
Qed.
Next Obligation.
  intros k m _. cbn. split; [done|]. split; [done|]. intros k'. case_decide as Hk.
  - subst. by rewrite lookup_delete_eq.
  - by rewrite lookup_delete_ne by done.
Qed.
Next Obligation. intros k m _. done. Qed.

(** ** [RedisCache] *)

(** The cache holds a connection; its state is the state of the client. *)
Definition RedisCache (S : Type) : Type := S.

(** [None] is the nil connection. *)
Definition NewRedisCacheWithConn {S} (conn : option S) : go unit (RedisCache S) :=
  match conn with
  | None => Panicked "common.NewRedisCacheWithConn: nil *redis.Conn"
  | Some c => Ok c
  end.

Definition GetRedisConn {S} (r : RedisCache S) : S := r.

Section RedisCache.
Context {S : Type} `{Client S}.

(** The error of a connection operation; none of those used here panics. *)
Definition err_of {A} (r : S * result A) : S * option rd_err :=
  match r with
  | (s, Ret _ e) => (s, e)
  | (s, Panics m) => (s, Some (Failed m))
  end.

Definition RedisCache_Set (key value : gostring) (s : S) : S * option rd_err := err_of (Redis.Set_ key (AString value) s).
Definition RedisCache_Delete (key : gostring) (s : S) : S * option rd_err := err_of (Redis.Del key s).
Definition RedisCache_SetAndExpire (key value : gostring) (expire : Z) (s : S) : S * option rd_err :=
  err_of (Redis.SetAndExpire key (AString value) expire s).
Definition RedisCache_Get (key : gostring) (s : S) : S * (gostring * option rd_err) :=
  match Redis.GetString key s with
  | (s', Ret v e) => (s', (v, e))
  | (s', Panics m) => (s', ([], Some (Failed m)))
  end.

#[export] Instance RedisCache_Cache : Cache (RedisCache S) := {|
  cache_Set := RedisCache_Set; cache_Delete := RedisCache_Delete;
  cache_SetAndExpire := RedisCache_SetAndExpire; cache_Get := RedisCache_Get |}.

(** A value with its deadline, [None] for none, at the instant [now]: it is gone
    once the deadline has come. *)
Definition unexpired (now : Z) (e : option (gostring * option Z)) : option (gostring * option Z) :=
  match e with
  | Some (_, Some t) => if now <? t then e else None
  | _ => e
  end.

(** The deadline that an expiry of [d] gives at [now]: none for zero, and the
    exact one for whole milliseconds, the resolution of the server. *)
Definition deadline_of (now d : Z) (dl : option Z) : Prop :=
  match dl with
  | None => d = 0
  | Some t => 0 < d /\ now < t /\ (d mod 1000000 = 0 -> t = now + d)
  end.

(** What redis documents for SET, GET and DEL of strings and their expiry, on
    the states where the server answers: [live] are the values that are there,
    with their deadlines; a command is an instant, and [elapse] lets time pass. *)
Class StringStore := {
  server_time : S -> Z;
  live : S -> gostring -> option (gostring * option Z);
  answers : S -> Prop;
  elapse : Z -> S -> S;
  redis_SET k v d s : answers s -> 0 <= d -> let '(s', (_, e)) := client (SET k (AString v) d) s in
    e = None /\ answers s' /\ server_time s' = server_time s /\
    exists dl, deadline_of (server_time s) d dl /\ forall k', live s' k' = if decide (k' = k) then Some (v, dl) else live s k';
  redis_DEL k s : answers s -> let '(s', (_, e)) := client (DEL k) s in
    e = None /\ answers s' /\ server_time s' = server_time s /\
    forall k', live s' k' = if decide (k' = k) then None else live s k';
  redis_GET k s : answers s -> let '(s', (v, e)) := client (GET k) s in
    match live s k with Some (w, _) => v = w /\ e = None | None => e = Some Nil end /\
    answers s' /\ server_time s' = server_time s /\ forall k', live s' k' = live s k';
  redis_elapse d s : answers s -> 0 <= d ->
    answers (elapse d s) /\ server_time (elapse d s) = server_time s + d /\
    forall k, live (elapse d s) k = unexpired (server_time s + d) (live s k);
}.

(** The value that a reader sees. *)
Definition value_of (e : option (gostring * option Z)) : gostring := default [] (fst <$> e).

Section Laws.
Context `{StringStore}.

Lemma RedisCache_SetAndExpire_live k v d s : answers s -> 0 <= d -> let '(s', e) := RedisCache_SetAndExpire k v d s in
  e = None /\ answers s' /\ server_time s' = server_time s /\
  exists dl, deadline_of (server_time s) d dl /\ forall k', live s' k' = if decide (k' = k) then Some (v, dl) else live s k'.
Proof.
  intros Hs Hd. unfold RedisCache_SetAndExpire, Redis.SetAndExpire, ErrOf. pose proof (redis_SET k v d s Hs Hd) as HS.
  by destruct (client (SET k (AString v) d) s) as [s' [u e]].
Qed.

Lemma RedisCache_Set_live k v s : answers s -> let '(s', e) := RedisCache_Set k v s in
  e = None /\ answers s' /\ server_time s' = server_time s /\
  forall k', live s' k' = if decide (k' = k) then Some (v, None) else live s k'.
Proof.
  intros Hs. pose proof (RedisCache_SetAndExpire_live k v 0 s Hs ltac:(lia)) as HS.
  change (RedisCache_Set k v s) with (RedisCache_SetAndExpire k v 0 s).
  destruct (RedisCache_SetAndExpire k v 0 s) as [s' e]. destruct HS as (-> & Hs' & Ht & [t|] & Hdl & Hl); [|done].
  by destruct Hdl.
Qed.

Lemma RedisCache_Delete_live k s : answers s -> let '(s', e) := RedisCache_Delete k s in
  e = None /\ answers s' /\ server_time s' = server_time s /\
  forall k', live s' k' = if decide (k' = k) then None else live s k'.
Proof.
  intros Hs. unfold RedisCache_Delete, Redis.Del, ErrOf. pose proof (redis_DEL k s Hs) as HS.
  by destruct (client (DEL k) s) as [s' [u e]].
Qed.

Lemma RedisCache_Get_live k s : answers s -> let '(s', (v, e)) := RedisCache_Get k s in
  e = None /\ v = value_of (live s k) /\ answers s' /\ server_time s' = server_time s /\ forall k', live s' k' = live s k'.
Proof.
  intros Hs. unfold RedisCache_Get, Redis.GetString, or_zero_strict. pose proof (redis_GET k s Hs) as HS.
  destruct (client (GET k) s) as [s' [v e]]. destruct HS as (Hv & Hs').
  destruct (live s k) as [[w dl]|]; [destruct Hv as [-> ->]|subst e]; cbn; naive_solver.
Qed.
End Laws.

#[export, program] Instance RedisCache_laws `{StringStore} : CacheLaws (RedisCache S) := {|
  holds s k := value_of (live s k);
  good := answers;
|}.
Next Obligation.
  intros Hst k v s Hg. pose proof (RedisCache_Set_live k v s Hg) as HS. unfold RedisCache in *. cbn.
  destruct (RedisCache_Set k v s) as [s' e]. destruct HS as (-> & Hs' & _ & Hl). split_and!; [done|done|].
  intros k'. rewrite Hl. by case_decide.
Qed.
Next Obligation.
  intros Hst k v d s Hg Hd. pose proof (RedisCache_SetAndExpire_live k v d s Hg Hd) as HS. unfold RedisCache in *. cbn.
  destruct (RedisCache_SetAndExpire k v d s) as [s' e]. destruct HS as (-> & Hs' & _ & dl & _ & Hl). split_and!; [done|done|].
  intros k'. rewrite Hl. by case_decide.
Qed.
Next Obligation.
  intros Hst k s Hg. pose proof (RedisCache_Delete_live k s Hg) as HS. unfold RedisCache in *. cbn.
  destruct (RedisCache_Delete k s) as [s' e]. destruct HS as (-> & Hs' & _ & Hl). split_and!; [done|done|].
  intros k'. rewrite Hl. by case_decide.
Qed.
Next Obligation.
  intros Hst k s Hg. pose proof (RedisCache_Get_live k s Hg) as HS. unfold RedisCache in *. cbn.
  destruct (RedisCache_Get k s) as [s' [v e]]. destruct HS as (-> & -> & Hs' & _ & Hl). split_and!; [done|done|done|].
  intros k'. by rewrite Hl.
Qed.
End RedisCache.
Arguments StringStore S {_}.

(** ** The two implementations compared *)

Inductive cache_op := OSet (k v : gostring) | OSetAndExpire (k v : gostring) (d : Z) | ODelete (k : gostring) | OGet (k : gostring)
| OWait (d : Z).

(** The answers of a cache to a program; [wait] is what passing time does to its
    state. *)
Fixpoint run_cache {S} `{Cache S} (wait : Z -> S -> S) (ops : list cache_op) (s : S) : list (gostring * option rd_err) :=
  match ops with
  | [] => []
  | o :: ops' =>
      let '(s', r) := match o with
                      | OSet k v => let '(s', e) := cache_Set k v s in (s', ([], e))
                      | OSetAndExpire k v d => let '(s', e) := cache_SetAndExpire k v d s in (s', ([], e))
                      | ODelete k => let '(s', e) := cache_Delete k s in (s', ([], e))
                      | OGet k => cache_Get k s
                      | OWait d => (wait d s, ([], None))
                      end in
      r :: run_cache wait ops' s'
  end.

(** The memory cache has no clock. *)
Definition run_memory : list cache_op -> MemoryCache -> list (gostring * option rd_err) := run_cache (fun _ m => m).
Definition run_redis {S} `{StringStore S} : list cache_op -> RedisCache S -> list (gostring * option rd_err) := run_cache (S := RedisCache S) elapse.

(** The cache that the interface describes: a map of values with deadlines, read
    at a clock. *)
#[local] Notation entries := (gmap gostring (gostring * option Z)).

Definition entry_step (o : cache_op) (now : Z) (m : entries) : Z * entries :=
  match o with
  | OSet k v => (now, <[k := (v, None)]> m)
  | OSetAndExpire k v d => (now, <[k := (v, if d =? 0 then None else Some (now + d))]> m)
  | ODelete k => (now, delete k m)
  | OGet _ => (now, m)
  | OWait d => (now + d, m)
  end.

Definition entry_answer (o : cache_op) (now : Z) (m : entries) : gostring * option rd_err :=
  (match o with OGet k => value_of (unexpired now (m !! k)) | _ => [] end, None).

Fixpoint run_entries (ops : list cache_op) (now : Z) (m : entries) : list (gostring * option rd_err) :=
  match ops with
  | [] => []
  | o :: ops' => let '(now', m') := entry_step o now m in entry_answer o now m :: run_entries ops' now' m'
  end.

(** Expiries in whole milliseconds, and waits forward. *)
Definition timed_op (o : cache_op) : Prop :=
  match o with OSetAndExpire _ _ d => 0 <= d /\ d mod 1000000 = 0 | OWait d => 0 <= d | _ => True end.

(** No key is read after its expiry has come. *)
Fixpoint reads_in_time (ops : list cache_op) (now : Z) (m : entries) : bool :=
  match ops with
  | [] => true
  | o :: ops' =>
      match o with OGet k => bool_decide (unexpired now (m !! k) = m !! k) | _ => true end &&
      (let '(now', m') := entry_step o now m in reads_in_time ops' now' m')
  end.

Lemma unexpired_later now d e : 0 <= d -> unexpired (now + d) (unexpired now e) = unexpired (now + d) e.
Proof. intros Hd. destruct e as [[v [t|]]|]; try done. cbn. destruct (Z.ltb_spec now t); [done|]. cbn. destruct (Z.ltb_spec (now + d) t); [lia|done]. Qed.

(** Redis answers as the interface says. *)
Lemma run_redis_entries {S} `{StringStore S} ops (r : RedisCache S) m : Forall timed_op ops -> answers r ->
  (forall k, live r k = unexpired (server_time r) (m !! k)) -> run_redis ops r = run_entries ops (server_time r) m.
Proof.
  unfold run_redis, RedisCache in *. intros Hops. revert r m. induction Hops as [|o ops Ho _ IH]; intros r m Hr Hm; [done|]. destruct o as [k v|k v d|k|k|d]; cbn [run_cache run_entries entry_step cache_Set cache_SetAndExpire cache_Delete cache_Get RedisCache_Cache].
  - pose proof (RedisCache_Set_live k v r Hr) as HS. destruct (RedisCache_Set k v r) as [r' e]. destruct HS as (-> & Hr' & Ht & Hl). rewrite <- Ht in *.
    f_equal. apply IH; [done|]. intros k'. rewrite Hl. case_decide as E; [subst; by rewrite lookup_insert_eq|]. by rewrite lookup_insert_ne.
  - destruct Ho as [Hd Hms]. pose proof (RedisCache_SetAndExpire_live k v d r Hr Hd) as HS.
    destruct (RedisCache_SetAndExpire k v d r) as [r' e]. destruct HS as (-> & Hr' & Ht & dl & Hdl & Hl). rewrite <- Ht in *.
    f_equal. apply IH; [done|]. intros k'. rewrite Hl. case_decide as E; [subst; rewrite lookup_insert_eq|by rewrite lookup_insert_ne].
    destruct dl as [t|]; cbn in Hdl; [|by subst d]. destruct Hdl as (Hpos & Hlt & Hdt).
    destruct (Z.eqb_spec d 0); [lia|]. rewrite <- Hdt by done. cbn. by rewrite (proj2 (Z.ltb_lt _ _)).
  - pose proof (RedisCache_Delete_live k r Hr) as HS. destruct (RedisCache_Delete k r) as [r' e]. destruct HS as (-> & Hr' & Ht & Hl). rewrite <- Ht in *.
    f_equal. apply IH; [done|]. intros k'. rewrite Hl. case_decide as E; [subst; by rewrite lookup_delete_eq|]. by rewrite lookup_delete_ne.
  - pose proof (RedisCache_Get_live k r Hr) as HS. destruct (RedisCache_Get k r) as [r' [v e]]. destruct HS as (-> & -> & Hr' & Ht & Hl).
    rewrite Hm, <- Ht. f_equal. apply IH; [done|]. intros k'. by rewrite Hl, Ht.
  - destruct (redis_elapse d r Hr Ho) as (Hr' & <- & Hl). f_equal. apply IH; [done|]. intros k'.
    destruct (redis_elapse d r Hr Ho) as (_ & Ht & _). by rewrite Hl, Ht, Hm, unexpired_later.
Qed.

(** The memory cache answers so as long as no read comes too late. *)
Lemma run_memory_entries ops (mc : MemoryCache) now m : reads_in_time ops now m = true ->
  (forall k, default [] (cacheMap mc !! k) = value_of (m !! k)) -> run_memory ops mc = run_entries ops now m.
Proof.
  unfold run_memory. revert mc now m. induction ops as [|o ops IH]; intros mc now m Hin Hm; [done|].
  cbn [reads_in_time] in Hin. apply andb_true_iff in Hin as [Hread Hin].
  destruct o as [k v|k v d|k|k|d]; cbn in Hin |- *; f_equal; try (apply IH; [done|]; cbn; try done).
  - intros k'. destruct (decide (k' = k)) as [->|]; [by rewrite !lookup_insert_eq|by rewrite !lookup_insert_ne].
  - intros k'. destruct (decide (k' = k)) as [->|]; [by rewrite !lookup_insert_eq|by rewrite !lookup_insert_ne].
  - intros k'. destruct (decide (k' = k)) as [->|]; [by rewrite !lookup_delete_eq|by rewrite !lookup_delete_ne].
  - unfold entry_answer. apply bool_decide_eq_true in Hread. by rewrite Hread, Hm.
Qed.

(** C24 The redis cache answers every program of reads, writes, deletions and waits
    as the interface says: a value set with an expiry is there until its deadline
    and reads as missing from then on. The memory cache, started with the same
    values, gives the same answers to every program that reads no key after its
    expiry has come; and a value that is read too late tells the two apart: redis
    no longer has it, the memory cache still does. *)
Theorem caches_equivalent {S} `{StringStore S} (ops : list cache_op) (mc : MemoryCache) (r : RedisCache S) (m : entries)
  (Hops : Forall timed_op ops) (Hr : answers r)
  (Hm : forall k, live r k = unexpired (server_time r) (m !! k)) (Hmc : forall k, default [] (cacheMap mc !! k) = value_of (m !! k)) :
  run_redis ops r = run_entries ops (server_time r) m /\
  (reads_in_time ops (server_time r) m = true -> run_memory ops mc = run_redis ops r) /\
  (forall k v d late, 0 < d <= late -> d mod 1000000 = 0 ->
     run_redis [OSetAndExpire k v d; OWait late; OGet k] r = [([], None); ([], None); ([], None)] /\
     run_memory [OSetAndExpire k v d; OWait late; OGet k] mc = [([], None); ([], None); (v, None)]).
Proof.
  split_and!.
  - by apply run_redis_entries.
  - intros Hin. rewrite (run_redis_entries ops r m) by done. by apply run_memory_entries.
  - intros k v d late Hd Hms. split.
    + assert (Forall timed_op [OSetAndExpire k v d; OWait late; OGet k]) as Hlate
        by (repeat apply Forall_cons_2; try apply Forall_nil_2; cbn; done || lia).
      rewrite (run_redis_entries _ r m Hlate Hr Hm).
      cbn. unfold entry_answer. rewrite lookup_insert_eq. destruct (Z.eqb_spec d 0); [lia|]. cbn.
      by rewrite (proj2 (Z.ltb_ge _ _)) by lia.
    + unfold run_memory. cbn. by rewrite lookup_insert_eq.
Qed.

(** ** A redis of strings, for the examples *)

Record demo_redis := mkDemoRedis { dr_time : Z; dr_keys : entries }.

(** Only the string commands and EVAL-free reads are answered. *)
Definition demo_client : Client demo_redis := fun A c s =>
  match c in cmd A return demo_redis * (A * option rd_err) with
  | SET k (AString v) d =>
      (mkDemoRedis (dr_time s) (<[k := (v, if d <=? 0 then None else Some (dr_time s + d))]> (dr_keys s)), ("OK"%go, None))
  | SET _ _ _ => (s, ([], Some (Failed "unsupported")))
  | GET k => match unexpired (dr_time s) (dr_keys s !! k) with Some (v, _) => (s, (v, None)) | None => (s, ([], Some Nil)) end
  | DEL k => (mkDemoRedis (dr_time s) (delete k (dr_keys s)), (if unexpired (dr_time s) (dr_keys s !! k) then 1 else 0, None))
  | PING => (s, ("PONG"%go, None))
  | LTRIM _ _ _ | LPOP _ | HGET _ _ | HMSET _ _ | MSET _ | BRPOPLPUSH _ _ _ => (s, ([], Some (Failed "unsupported")))
  | LRANGE _ _ _ | SMEMBERS _ | ZRANGEBYSCORE _ _ | BLPOP _ _ | KEYS _ => (s, ([], Some (Failed "unsupported")))
  | GEORADIUS _ _ _ _ _ => (s, ([], Some (Failed "unsupported")))
  | LLEN _ | LREM _ _ _ | HDEL _ _ | HINCRBY _ _ _ | SADD _ _ | SREM _ _ | ZADD _ _ | ZREM _ _
  | ZREMRANGEBYSCORE _ _ _ | INCR _ | DECR _ | GEOADD _ _ | LPUSHALL _ _ => (s, (0, Some (Failed "unsupported")))
  | HMGET _ _ => (s, (None, Some (Failed "unsupported")))
  | HGETALL _ => (s, (∅, Some (Failed "unsupported")))
  | EXPIRE _ _ | HSET _ _ _ | SISMEMBER _ _ => (s, (false, Some (Failed "unsupported")))
  end.

#[export, program] Instance demo_store : @StringStore demo_redis demo_client := {|
  server_time := dr_time;
  live s k := unexpired (dr_time s) (dr_keys s !! k);
  answers _ := True;
  elapse d s := mkDemoRedis (dr_time s + d) (dr_keys s);
|}.
Next Obligation.
  intros k v d s _ Hd. cbn. split_and!; [done..|]. exists (if d <=? 0 then None else Some (dr_time s + d)).
  split; [destruct (Z.leb_spec d 0); cbn; lia|]. intros k'. case_decide as Hk.
  - subst. rewrite lookup_insert_eq. destruct (Z.leb_spec d 0); [done|]. cbn. by rewrite (proj2 (Z.ltb_lt _ _)) by lia.
  - by rewrite lookup_insert_ne.
Qed.
Next Obligation.
  intros k s _. cbn. split_and!; [done..|]. intros k'. case_decide as Hk.
  - subst. by rewrite lookup_delete_eq.
  - by rewrite lookup_delete_ne.
Qed.
Next Obligation. intros k s _. unfold client, demo_client. by destruct (unexpired _ _) as [[v dl]|]. Qed.
Next Obligation. intros d s _ Hd. cbn. split_and!; [done..|]. intros k. by rewrite unexpired_later. Qed.

#[local] Existing Instance demo_client.

(** One second is 10^9. A session of five seconds is read in time and renewed,
    and in the second program once too late. *)
Definition second_ns : Z := 1000000000.
Definition demo_program : list cache_op :=
  [OGet "a"; OSet "a" "1"; OSetAndExpire "b" "2" (5 * second_ns); OWait (4 * second_ns); OGet "b"; ODelete "a"; OGet "a";
   OSetAndExpire "b" "3" (5 * second_ns); OWait (4 * second_ns); OGet "b"].

Definition fresh_redis : RedisCache demo_redis := mkDemoRedis 0 ∅.

Lemma caches_equivalent_witness :
  map fst (run_memory demo_program NewMemoryCache) = [[]; []; []; []; "2"%go; []; []; []; []; "3"%go] /\
  reads_in_time demo_program 0 ∅ = true /\ reads_in_time (demo_program ++ [OWait second_ns; OGet "b"%go]) 0 ∅ = false /\
  run_memory demo_program NewMemoryCache = run_redis demo_program fresh_redis /\
  last (run_redis (demo_program ++ [OWait second_ns; OGet "b"%go]) fresh_redis) = Some ([], None) /\
  last (run_memory (demo_program ++ [OWait second_ns; OGet "b"%go]) NewMemoryCache) = Some ("3"%go, None).
Proof.
  split; [by vm_compute|]. split; [by vm_compute|]. split; [by vm_compute|]. split; [|split; by vm_compute].
  destruct (caches_equivalent (S := demo_redis) demo_program NewMemoryCache fresh_redis ∅) as (_ & Heq & _);
    [repeat apply Forall_cons_2; try apply Forall_nil_2; done|done|done|done|].
  apply Heq. vm_compute. reflexivity.
Defined.
