(* ===== verification/Http.v ===== *)
(** * Http: the web layer ([pkg/wkhttp/http.go], [error_renderer.go],
    [token_parser.go], [userinfo.go])

    The gin context is what the handlers read from it (the request, the keys set
    so far, the response headers) and the log of what they call on it; gin's own
    reaction to [Next], [Abort] and [JSON] is not modelled. A [WKHttp] holds the
    injected error renderer and token parser. *)
From S2P Require Import Prelude GoStr Json Redis Cache.

#[global] Open Scope Z_scope.
#[global] Open Scope go_scope.

(** ** [net/http.Header] *)

(** The characters of a header field name. *)
Definition token_char (c : ascii) : bool :=
  ascii_digit c || ascii_upper c || ascii_lower c || ContainsByte "!#$%&'*+-.^_`|~" c.

Fixpoint canonical_loop (upper : bool) (s : gostring) : gostring :=
  match s with
  | [] => []
  | c :: s' => (if upper then upper_byte c else lower_byte c) :: canonical_loop (bool_decide (c = "-"%char)) s'
  end.

(** [textproto.CanonicalMIMEHeaderKey]. *)
Definition CanonicalMIMEHeaderKey (s : gostring) : gostring :=
  if forallb token_char s then canonical_loop true s else s.

Abbreviation header := (gmap gostring (list gostring)) (only parsing).

Definition h_Values (h : header) (key : gostring) : list gostring := default [] (h !! CanonicalMIMEHeaderKey key).
Definition h_Get (h : header) (key : gostring) : gostring := match h_Values h key with v :: _ => v | [] => [] end.
Definition h_Set (key value : gostring) (h : header) : header := <[CanonicalMIMEHeaderKey key := [value]]> h.
Definition h_Add (key value : gostring) (h : header) : header :=
  <[CanonicalMIMEHeaderKey key := h_Values h key ++ [value]]> h.
Definition h_Del (key : gostring) (h : header) : header := delete (CanonicalMIMEHeaderKey key) h.

Lemma h_Values_Set k k' v h :
  h_Values (h_Set k v h) k' = if decide (CanonicalMIMEHeaderKey k' = CanonicalMIMEHeaderKey k) then [v] else h_Values h k'.
Proof. unfold h_Values, h_Set. case_decide as Hk; [by rewrite Hk, lookup_insert_eq|by rewrite lookup_insert_ne]. Qed.

Lemma h_Values_Add k k' v h :
  h_Values (h_Add k v h) k' = if decide (CanonicalMIMEHeaderKey k' = CanonicalMIMEHeaderKey k) then h_Values h k ++ [v] else h_Values h k'.
Proof. unfold h_Values at 1, h_Add. case_decide as Hk; [by rewrite Hk, lookup_insert_eq|by rewrite lookup_insert_ne]. Qed.

Lemma h_Values_Del k k' h :
  h_Values (h_Del k h) k' = if decide (CanonicalMIMEHeaderKey k' = CanonicalMIMEHeaderKey k) then [] else h_Values h k'.
Proof. unfold h_Values, h_Del. case_decide as Hk; [by rewrite Hk, lookup_delete_eq|by rewrite lookup_delete_ne]. Qed.

(** Two literal header names are compared by computation. *)
Ltac header_cases :=
  repeat first [rewrite h_Values_Set | rewrite h_Values_Add | rewrite h_Values_Del];
  repeat match goal with
  | |- context [decide (CanonicalMIMEHeaderKey ?a = CanonicalMIMEHeaderKey ?b)] =>
      let r := eval vm_compute in (bool_decide (CanonicalMIMEHeaderKey a = CanonicalMIMEHeaderKey b)) in
      match r with
      | true => rewrite (decide_True (P := CanonicalMIMEHeaderKey a = CanonicalMIMEHeaderKey b)) by (by vm_compute)
      | false => rewrite (decide_False (P := CanonicalMIMEHeaderKey a = CanonicalMIMEHeaderKey b)) by (by vm_compute)
      end
  end.

(** ** Users, errors *)

Record UserInfo := mkUserInfo { UID : gostring; Name : gostring; Role : gostring; Language : gostring }.
Definition zero_UserInfo : UserInfo := mkUserInfo [] [] [] [].

(** What this library keeps in a [context.Context]; [None] for a context is nil. *)
Record context := mkContext { ctx_user : option UserInfo }.

Definition WithUser (ctx : context) (info : UserInfo) : context := mkContext (Some info).

Definition UserFromCtx (ctx : option context) : UserInfo * bool :=
  match ctx with
  | None => (zero_UserInfo, false)
  | Some c => match ctx_user c with
              | None => (zero_UserInfo, false)
              | Some info => (info, true)
              end
  end.

(** The sentinels of the token parsers, and an error as [errors.Is] sees it:
    its text and the sentinels it wraps. *)
Inductive sentinel := ErrTokenMissing | ErrTokenNotFound | ErrTokenInvalid.
#[export] Instance sentinel_eq_dec : EqDecision sentinel.
Proof. solve_decision. Defined.

Record go_error := mkError { err_text : gostring; err_wraps : list sentinel }.

Definition errors_Is (e : go_error) (s : sentinel) : bool := bool_decide (s ∈ err_wraps e).

Definition sentinel_error (s : sentinel) : go_error :=
  mkError (match s with
           | ErrTokenMissing => "wkhttp: token missing"
           | ErrTokenNotFound => "wkhttp: token not found"
           | ErrTokenInvalid => "wkhttp: token invalid"
           end) [s].

Record ErrorSpec := mkErrorSpec {
  Code : gostring; DefaultMessage : gostring; TransportStatus : Z; SemanticStatus : Z;
  Params : gmap gostring json; Details : gmap gostring json; Internal : bool }.

Definition StatusOK : Z := 200.
Definition StatusBadRequest : Z := 400.
Definition StatusUnauthorized : Z := 401.
Definition StatusTooManyRequests : Z := 429.

(** ** The gin context *)

Record request := mkRequest {
  Method : gostring; URL_Path : gostring; RequestHeader : header; RemoteAddr : gostring;
  QueryParams : gmap gostring gostring; Context_ : context }.

Inductive gin_call := CJSON (status : Z) (obj : json) | CString (status : Z) (body : gostring) | CStatus (status : Z) | CAbort | CAbortWithStatus (status : Z) | CNext.

Record gin_ctx := mkGin { Request : request; Keys : gmap gostring any; WriterHeader : header; calls : list gin_call }.

Definition call (g : gin_call) (c : gin_ctx) : gin_ctx := mkGin (Request c) (Keys c) (WriterHeader c) (calls c ++ [g]).
Definition c_JSON (status : Z) (obj : json) : gin_ctx -> gin_ctx := call (CJSON status obj).
Definition c_String (status : Z) (body : gostring) : gin_ctx -> gin_ctx := call (CString status body).
Definition c_Status (status : Z) : gin_ctx -> gin_ctx := call (CStatus status).
Definition c_Abort : gin_ctx -> gin_ctx := call CAbort.
Definition c_Next : gin_ctx -> gin_ctx := call CNext.
Definition c_AbortWithStatus (status : Z) : gin_ctx -> gin_ctx := call (CAbortWithStatus status).

Definition c_Set (key : gostring) (value : any) (c : gin_ctx) : gin_ctx :=
  mkGin (Request c) (<[key := value]> (Keys c)) (WriterHeader c) (calls c).
Definition c_Get (c : gin_ctx) (key : gostring) : option any := Keys c !! key.

(** Changing the response headers and the request's context. *)
Definition with_header (f : header -> header) (c : gin_ctx) : gin_ctx :=
  mkGin (Request c) (Keys c) (f (WriterHeader c)) (calls c).
Definition with_context (ctx : context) (c : gin_ctx) : gin_ctx :=
  let r := Request c in
  mkGin (mkRequest (Method r) (URL_Path r) (RequestHeader r) (RemoteAddr r) (QueryParams r) ctx)
    (Keys c) (WriterHeader c) (calls c).

(** Whether gin stops before the next handler. *)
Definition is_abort (g : gin_call) : bool :=
  match g with CAbort => true | CAbortWithStatus _ => true | _ => false end.
Definition aborted (c : gin_ctx) : bool := existsb is_abort (calls c).

Definition c_GetHeader (c : gin_ctx) (key : gostring) : gostring := h_Get (RequestHeader (Request c)) key.
Definition c_Query (c : gin_ctx) (key : gostring) : gostring := default [] (QueryParams (Request c) !! key).

(** ** [WKHttp]

    Pointers that may be nil are options; a parser works on the state [S] of
    whatever it reads, such as a cache. *)

Definition ErrorRenderer : Type := gin_ctx -> ErrorSpec -> gin_ctx.
Definition TokenParser (S : Type) : Type := context -> gostring -> S -> S * (UserInfo * option go_error).

Record errorRendererBox := mkRendererBox { box_r : option ErrorRenderer }.
Record tokenParserBox (S : Type) := mkParserBox { box_p : TokenParser S }.
Arguments mkParserBox {S}.
Arguments box_p {S}.

Record WKHttp (S : Type) := mkWKHttp { errorRenderer : option errorRendererBox; tokenParser : option (tokenParserBox S) }.
Arguments mkWKHttp {S}.
Arguments errorRenderer {S}.
Arguments tokenParser {S}.

Section WKHttp.
Context {S : Type}.

Definition New : WKHttp S := mkWKHttp None None.

Definition SetErrorRenderer (r : option ErrorRenderer) (l : WKHttp S) : WKHttp S :=
  match r with
  | None => mkWKHttp None (tokenParser l)
  | Some r => mkWKHttp (Some (mkRendererBox (Some r))) (tokenParser l)
  end.

Definition SetTokenParser (p : option (TokenParser S)) (l : WKHttp S) : WKHttp S :=
  match p with
  | None => mkWKHttp (errorRenderer l) None
  | Some p => mkWKHttp (errorRenderer l) (Some (mkParserBox p))
  end.

Definition getTokenParser (l : WKHttp S) : option (TokenParser S) :=
  match tokenParser l with None => None | Some box => Some (box_p box) end.

(** A [Context]: the gin context and the server it belongs to, if any. *)
Record Context := mkCtx { gin : gin_ctx; wk : option (WKHttp S) }.

Definition on_gin (f : gin_ctx -> gin_ctx) (c : Context) : Context := mkCtx (f (gin c)) (wk c).

(** ** Rendering errors *)

(** The body [{msg, status}], keys in the order of the encoder. *)
Definition msg_status (msg : gostring) (status : Z) : json := JObj [("msg", JStr msg); ("status", JInt status)].

Definition defaultErrorRenderer : ErrorRenderer := fun c spec =>
  let status := if TransportStatus spec =? 0 then StatusBadRequest else TransportStatus spec in
  c_JSON status (msg_status (DefaultMessage spec) status) c.

(** [None] is the nil context. *)
Definition renderer (c : option Context) : ErrorRenderer :=
  match c with
  | None => defaultErrorRenderer
  | Some c =>
      match wk c with
      | None => defaultErrorRenderer
      | Some l =>
          match errorRenderer l with
          | None => defaultErrorRenderer
          | Some box => match box_r box with None => defaultErrorRenderer | Some r => r end
          end
      end
  end.

Definition RenderError (spec : ErrorSpec) (c : Context) : Context :=
  on_gin (fun g => renderer (Some c) g spec) c.

(** ** Responses and accessors *)

Definition ResponseError (err : gostring) (c : Context) : Context :=
  on_gin (c_JSON StatusBadRequest (msg_status err StatusBadRequest)) c.
(** An error that is not nil is logged before. *)
Definition ResponseErrorf (msg : gostring) (err : option gostring) (c : Context) : Context :=
  on_gin (c_JSON StatusBadRequest (msg_status msg StatusBadRequest)) c.
Definition ResponseErrorWithStatus (err : gostring) (status : Z) (c : Context) : Context :=
  on_gin (c_JSON status (msg_status err status)) c.
Definition ResponseOK (c : Context) : Context := on_gin (c_JSON StatusOK (JObj [("status"%go, JInt StatusOK)])) c.
Definition Response (data : json) (c : Context) : Context := on_gin (c_JSON StatusOK data) c.
Definition ResponseWithStatus (status : Z) (data : json) (c : Context) : Context := on_gin (c_JSON status data) c.

Definition GetPage (c : Context) : Z * Z :=
  let pageIndex := (ParseInt (c_Query (gin c) "page_index") 64).1 in
  let pageSize := (ParseInt (c_Query (gin c) "page_size") 64).1 in
  (if pageIndex <=? 0 then 1 else pageIndex, if pageSize <=? 0 then 15 else pageSize).

(** The string under a key, empty when there is none or it is of another type. *)
Definition key_string (c : gin_ctx) (key : gostring) : gostring :=
  match c_Get c key with
  | None => []
  | Some v => match v with AString s => s | _ => [] end
  end.

Definition Context_GetLoginUID (c : Context) : gostring := key_string (gin c) "uid".
Definition GetLoginName (c : Context) : gostring := key_string (gin c) "name".
Definition GetLoginRole (c : Context) : gostring := key_string (gin c) "role".
Definition GetAppID (c : Context) : gostring := c_GetHeader (gin c) "appid".

Definition Admin : gostring := "admin".
Definition SuperAdmin : gostring := "superAdmin".

(** The message of the error, [None] for nil. *)
Definition CheckLoginRole (c : Context) : option gostring :=
  let role := GetLoginRole c in
  if eqs role [] then Some "登录用户角色错误"
  else if negb (eqs role Admin) && negb (eqs role SuperAdmin) then Some "该用户无权执行此操作"
  else None.

Definition CheckLoginRoleIsSuperAdmin (c : Context) : option gostring :=
  let role := GetLoginRole c in
  if eqs role [] then Some "登录用户角色错误"
  else if negb (eqs role SuperAdmin) then Some "该用户无权执行此操作"
  else None.

(** ** CORS for every origin *)

Definition CORSMiddleware (c : Context) : Context :=
  let c := on_gin (with_header (fun h =>
    h_Set "Access-Control-Allow-Methods" "POST, OPTIONS, GET, PUT,DELETE,PATCH"
   (h_Set "Access-Control-Expose-Headers" "Content-Language, Vary"
   (h_Set "Access-Control-Allow-Headers" "Content-Type, Content-Length, Accept-Encoding, X-CSRF-Token, token, accept, origin, Cache-Control, X-Requested-With, appid, noncestr, sign, timestamp, X-Octo-Error-Envelope, X-Octo-Lang, Accept-Language"
   (h_Set "Access-Control-Allow-Credentials" "true"
   (h_Set "Access-Control-Allow-Origin" "*" h)))))) c in
  if eqs (Method (Request (gin c))) "OPTIONS" then on_gin (c_AbortWithStatus 204) c
  else on_gin c_Next c.

(** ** Authentication *)

Definition auth_spec (code msg : gostring) : ErrorSpec :=
  mkErrorSpec code msg StatusUnauthorized StatusUnauthorized ∅ ∅ false.

Definition token_missing : ErrorSpec := auth_spec "err.shared.auth.token_missing" "token不能为空，请先登录！".
Definition token_invalid : ErrorSpec := auth_spec "err.shared.auth.token_invalid" "token有误！".
Definition auth_required : ErrorSpec := auth_spec "err.shared.auth.required" "请先登录！".

Definition authErrorSpec (err : go_error) : ErrorSpec :=
  if errors_Is err ErrTokenMissing then token_missing
  else if errors_Is err ErrTokenInvalid then token_invalid
  else if errors_Is err ErrTokenNotFound then auth_required
  else auth_required.

Context `{Cache S}.

(** [legacyTokenParser]: the cached record of a token is [uid@name] or [uid@name@role]. *)
Definition legacyTokenParser (tokenPrefix : gostring) : TokenParser S := fun _ token s =>
  if eqs (TrimSpace token) [] then (s, (zero_UserInfo, Some (sentinel_error ErrTokenMissing)))
  else
    let '(s', (uidAndName, err)) := cache_Get (tokenPrefix ++ token) s in
    if bool_decide (err <> None) || eqs (TrimSpace uidAndName) [] then
      (s', (zero_UserInfo, Some (sentinel_error ErrTokenNotFound)))
    else
      match Split uidAndName "@"%char with
      | uid :: name :: rest =>
          (s', (mkUserInfo uid name (match rest with role :: _ => role | [] => [] end) [], None))
      | _ => (s', (zero_UserInfo, Some (sentinel_error ErrTokenInvalid)))
      end.

Definition AuthMiddleware (l : WKHttp S) (tokenPrefix : gostring) (c : Context) (s : S) : Context * S :=
  let legacy := legacyTokenParser tokenPrefix in
  let token := c_GetHeader (gin c) "token" in
  if eqs token [] then (on_gin c_Abort (RenderError token_missing c), s)
  else
    let parser := match getTokenParser l with None => legacy | Some p => p end in
    let '(s', (info, err)) := parser (Context_ (Request (gin c))) token s in
    match err with
    | Some err => (on_gin c_Abort (RenderError (authErrorSpec err) c), s')
    | None =>
        let c := on_gin (c_Set "uid" (AString (UID info))) c in
        let c := on_gin (c_Set "name" (AString (Name info))) c in
        let c := if negb (eqs (Role info) []) then on_gin (c_Set "role" (AString (Role info))) c else c in
        let c := on_gin (fun g => with_context (WithUser (Context_ (Request g)) info) g) c in
        (on_gin c_Next c, s')
    end.

(** The record of a token as it is in the cache, empty on an error. *)
Definition GetLoginUID (token tokenPrefix : gostring) (s : S) : gostring :=
  let '(_, (uid, err)) := cache_Get (tokenPrefix ++ token) s in
  match err with Some _ => [] | None => uid end.
End WKHttp.
Arguments WKHttp S : clear implicits.
Arguments Context S : clear implicits.

(** ** What the middleware decides *)

(** Without an injected renderer an error becomes one JSON answer. *)
Lemma RenderError_default {S} (spec : ErrorSpec) (c : Context S) :
  (forall l, wk c = Some l -> errorRenderer l = None) ->
  RenderError spec c = on_gin (fun g => defaultErrorRenderer g spec) c.
Proof.
  intros Hl. unfold RenderError, renderer. destruct (wk c) as [l|] eqn:E; [|done].
  by rewrite (Hl l eq_refl).
Qed.

(** The pieces of a cached record. *)
Lemma Split_two s c : c ∈ s <-> exists a b rest, Split s c = a :: b :: rest.
Proof.
  split.
  - intros (s1 & s2 & -> & Hn)%list_elem_of_split_l. rewrite Split_app by done.
    destruct (Split s2 c) as [|b rest] eqn:E; [by apply Split_not_nil in E|]. eauto.
  - intros (a & b & rest & Hs). destruct (decide (c ∈ s)) as [|Hn]; [done|]. by rewrite Split_notin in Hs.
Qed.

Lemma legacy_found {S} `{CacheLaws S} prefix ctx token (s : S) :
  good s -> TrimSpace token <> [] -> "@"%char ∈ holds s (prefix ++ token) ->
  exists s' uid name rest,
    Split (holds s (prefix ++ token)) "@"%char = uid :: name :: rest /\
    legacyTokenParser prefix ctx token s = (s', (mkUserInfo uid name (match rest with r :: _ => r | [] => [] end) [], None)).
Proof.
  intros Hg Ht Hat. unfold legacyTokenParser.
  destruct (eqs (TrimSpace token) []) eqn:E; [by apply eqs_spec in E|].
  pose proof (law_Get (prefix ++ token) s Hg) as Hl.
  destruct (cache_Get (prefix ++ token) s) as [s' [v e]]. destruct Hl as (-> & -> & _ & _).
  pose proof (TrimSpace_keeps _ "@"%char ltac:(apply (bool_decide_unpack _); by vm_compute) Hat) as Hk.
  destruct (eqs (TrimSpace (holds s (prefix ++ token))) []) eqn:E2.
  { apply eqs_spec in E2. rewrite E2 in Hk. by apply elem_of_nil in Hk. }
  apply Split_two in Hat as (uid & name & rest & ->). cbn. eauto 8.
Qed.

Lemma legacy_refused {S} `{CacheLaws S} prefix ctx token (s : S) :
  good s -> TrimSpace token = [] \/ "@"%char ∉ holds s (prefix ++ token) ->
  exists s' t, legacyTokenParser prefix ctx token s = (s', (zero_UserInfo, Some (sentinel_error t))).
Proof.
  intros Hg Hno. unfold legacyTokenParser.
  destruct (eqs (TrimSpace token) []) eqn:E; [eauto|].
  destruct Hno as [Ht|Hat]; [by rewrite Ht, eqs_refl in E|].
  pose proof (law_Get (prefix ++ token) s Hg) as Hl.
  destruct (cache_Get (prefix ++ token) s) as [s' [v e]]. destruct Hl as (-> & -> & _ & _). cbn.
  destruct (eqs (TrimSpace (holds s (prefix ++ token))) []); [eauto|].
  rewrite Split_notin by done. eauto.
Qed.

(** A refusal: one answer 401, then [Abort]; nothing else changes. *)
Definition refused {S} (c c' : Context S) : Prop :=
  exists msg, c' = on_gin (call CAbort) (on_gin (c_JSON StatusUnauthorized (msg_status msg StatusUnauthorized)) c).

Lemma refused_default {S} (spec : ErrorSpec) (c : Context S) :
  (forall l, wk c = Some l -> errorRenderer l = None) -> TransportStatus spec = StatusUnauthorized ->
  refused c (on_gin c_Abort (RenderError spec c)).
Proof. intros Hl Ht. rewrite RenderError_default by done. exists (DefaultMessage spec). unfold defaultErrorRenderer. by rewrite Ht. Qed.

Lemma authErrorSpec_401 e : TransportStatus (authErrorSpec e) = StatusUnauthorized.
Proof. unfold authErrorSpec. by repeat case_match. Qed.

(** An admission: the user is set for the handlers that follow, and so is the
    role unless it is empty. *)
Definition admitted {S} (info : UserInfo) (c c' : Context S) : Prop :=
  wk c' = wk c /\ calls (gin c') = calls (gin c) ++ [CNext] /\
  Context_GetLoginUID c' = UID info /\ GetLoginName c' = Name info /\
  GetLoginRole c' = (if eqs (Role info) [] then GetLoginRole c else Role info) /\
  UserFromCtx (Some (Context_ (Request (gin c')))) = (info, true).

Definition admitted_as {S} (uid name role : gostring) (c c' : Context S) : Prop :=
  admitted (mkUserInfo uid name role []) c c'.

(** What is told about the error of a parser. *)
Definition told (e : go_error) : gostring :=
  if errors_Is e ErrTokenMissing then "token不能为空，请先登录！"
  else if errors_Is e ErrTokenInvalid then "token有误！"
  else "请先登录！".

Definition answer_401 {S} (msg : gostring) (c : Context S) : Context S :=
  on_gin c_Abort (on_gin (c_JSON StatusUnauthorized (msg_status msg StatusUnauthorized)) c).

(** The middleware over any parser. *)
Definition parser_of {S} `{Cache S} (l : WKHttp S) (prefix : gostring) : TokenParser S :=
  default (legacyTokenParser prefix) (getTokenParser l).

Lemma AuthMiddleware_parser {S} `{Cache S} (l : WKHttp S) prefix (c : Context S) s :
  (forall l', wk c = Some l' -> errorRenderer l' = None) ->
  let token := c_GetHeader (gin c) "token" in
  let '(s', (info, err)) := parser_of l prefix (Context_ (Request (gin c))) token s in
  let r := AuthMiddleware l prefix c s in
  (token = [] -> r = (answer_401 "token不能为空，请先登录！" c, s)) /\
  (token <> [] -> r.2 = s' /\ match err with
    | None => admitted info c r.1
    | Some e => r.1 = answer_401 (told e) c
    end).
Proof.
  intros Hr token. unfold AuthMiddleware. fold token. destruct (parser_of _ _ _ _ _) as [s' [info err]] eqn:Ep.
  unfold parser_of in Ep. split.
  - intros ->. cbn [eqs]. by rewrite eqs_refl, RenderError_default.
  - intros Ht. destruct (eqs token []) eqn:E; [by apply eqs_spec in E|].
    assert (match getTokenParser l with None => legacyTokenParser prefix | Some p => p end (Context_ (Request (gin c))) token s
      = (s', (info, err))) as -> by (by destruct (getTokenParser l)).
    destruct err as [e|].
    + split; [done|]. cbn [fst]. rewrite RenderError_default by done. unfold answer_401, defaultErrorRenderer, authErrorSpec, told.
      by repeat case_match.
    + split; [done|]. cbn [fst]. unfold admitted, Context_GetLoginUID, GetLoginName, GetLoginRole, key_string, c_Get.
      destruct info as [uid name role lang]. cbn [Role UID Name].
      destruct (eqs role []); cbn; split_and!; try done;
        by repeat (rewrite lookup_insert_eq || rewrite lookup_insert_ne by done).
Qed.

Section Legacy.
Context {S : Type} `{CacheLaws S}.

(** The decision of the middleware over the legacy parser. *)
Lemma AuthMiddleware_decides (l : WKHttp S) prefix c s :
  good s -> getTokenParser l = None -> (forall l', wk c = Some l' -> errorRenderer l' = None) ->
  let token := c_GetHeader (gin c) "token" in
  let record := holds s (prefix ++ token) in
  (TrimSpace token <> [] /\ "@"%char ∈ record /\
   exists uid name rest, Split record "@"%char = uid :: name :: rest /\
     admitted_as uid name (match rest with r :: _ => r | [] => [] end) c (AuthMiddleware l prefix c s).1) \/
  ((TrimSpace token = [] \/ "@"%char ∉ record) /\ refused c (AuthMiddleware l prefix c s).1).
Proof.
  intros Hg Hp Hr token record. pose proof (AuthMiddleware_parser l prefix c s Hr) as Ha. cbv zeta in Ha. revert Ha.
  unfold parser_of. rewrite Hp. cbn [default from_option]. fold token. set (ctx := Context_ (Request (gin c))). unfold id.
  destruct (decide (TrimSpace token = [] \/ "@"%char ∉ record)) as [Hno|Hyes].
  - destruct (legacy_refused prefix ctx token s Hg Hno) as (s' & t & ->). intros [Hz Hnz]. right. split; [done|].
    destruct (decide (token = [])) as [E|E]; [rewrite (Hz E)|rewrite (proj2 (Hnz E))]; by eexists.
  - assert (TrimSpace token <> [] /\ "@"%char ∈ record) as [Ht Hat].
    { split; [tauto|]. destruct (decide ("@"%char ∈ record)); tauto. }
    destruct (legacy_found prefix ctx token s Hg Ht Hat) as (s' & uid & name & rest & Hs & ->).
    intros [_ Hnz]. left. split; [done|]. split; [done|]. exists uid, name, rest. split; [done|].
    apply Hnz. intros E. by rewrite E in Ht.
Qed.
End Legacy.

(** C3 With the built-in token parser a request passes the authentication
    exactly when its token is not blank and the cache holds a record with an at
    sign for it; the handlers after it then see the user, name and role of the
    record. Any other request is answered once with status 401 and aborted. *)
Theorem AuthMiddleware_spec {S} `{CacheLaws S} (l : WKHttp S) prefix c s
  (Hg : good s) (Hp : getTokenParser l = None) (Hr : forall l', wk c = Some l' -> errorRenderer l' = None) :
  let token := c_GetHeader (gin c) "token" in
  let record := holds s (prefix ++ token) in
  let c' := (AuthMiddleware l prefix c s).1 in
  (calls (gin c') = calls (gin c) ++ [CNext] <-> TrimSpace token <> [] /\ "@"%char ∈ record) /\
  (TrimSpace token <> [] /\ "@"%char ∈ record ->
   exists uid name rest, Split record "@"%char = uid :: name :: rest /\
     admitted_as uid name (match rest with r :: _ => r | [] => [] end) c c') /\
  (~ (TrimSpace token <> [] /\ "@"%char ∈ record) -> refused c c').
Proof.
  intros token record c'. subst c'.
  destruct (AuthMiddleware_decides l prefix c s Hg Hp Hr) as [(Ht & Hat & uid & name & rest & Hs & Ha)|[Hno Hc]].
  - split; [split; [done|intros _; apply Ha]|]. split; [intros _; eauto 6|]. intros Hn. by destruct Hn.
  - split; [split|split; [|done]].
    + intros Heq. exfalso. destruct Hc as [msg Hc]. rewrite Hc in Heq. cbn in Heq.
      rewrite <- app_assoc in Heq. by apply app_inv_head in Heq.
    + tauto.
    + tauto.
Qed.

(** C5 Whatever parser is injected, a request with an empty token is answered 401
    without asking it; otherwise the parser is asked once, its user is handed to
    the handlers when it reports no error, and any error of it ends in one answer
    401 that says no more than which of the three known errors it wraps: nothing
    of the text of a parser's error reaches the client. *)
Theorem AuthMiddleware_injected {S} `{Cache S} (p : TokenParser S) (l : WKHttp S) prefix (c : Context S) s
  (Hr : forall l', wk c = Some l' -> errorRenderer l' = None) :
  let token := c_GetHeader (gin c) "token" in
  let r := AuthMiddleware (SetTokenParser (Some p) l) prefix c s in
  let '(s', (info, err)) := p (Context_ (Request (gin c))) token s in
  (token = [] -> r = (answer_401 "token不能为空，请先登录！" c, s)) /\
  (token <> [] -> r.2 = s' /\
    (err = None -> admitted info c r.1) /\
    (forall e, err = Some e -> r.1 = answer_401 (told e) c /\
       forall e', err_wraps e' = err_wraps e -> told e' = told e)).
Proof.
  intros token r. pose proof (AuthMiddleware_parser (SetTokenParser (Some p) l) prefix c s Hr) as Ha. cbv zeta in Ha. revert Ha.
  unfold parser_of. cbn [SetTokenParser getTokenParser tokenParser box_p default from_option]. unfold id. fold token r.
  destruct (p _ token s) as [s' [info err]]. intros [H0 H1]. split; [done|]. intros Ht. destruct (H1 Ht) as [Hs He].
  split; [done|]. split; [by intros ->|]. intros e ->. split; [done|].
  intros e' Hw. unfold told, errors_Is. by rewrite Hw.
Qed.

(** Behind the middleware the role check passes exactly for the records whose
    third piece is an administrator role, where no role was set before. *)
Lemma AuthMiddleware_role {S} `{CacheLaws S} (l : WKHttp S) prefix c s uid name rest :
  good s -> getTokenParser l = None -> (forall l', wk c = Some l' -> errorRenderer l' = None) ->
  GetLoginRole c = [] -> TrimSpace (c_GetHeader (gin c) "token") <> [] ->
  Split (holds s (prefix ++ c_GetHeader (gin c) "token")) "@"%char = uid :: name :: rest ->
  CheckLoginRole (AuthMiddleware l prefix c s).1 = None <->
  exists r rest', rest = r :: rest' /\ (r = Admin \/ r = SuperAdmin).
Proof.
  intros Hg Hp Hr Hrole Ht Hs.
  destruct (AuthMiddleware_decides l prefix c s Hg Hp Hr) as [(_ & _ & u & n & rs & Hs' & Ha)|[[Hno|Hno] _]];
    [|done|by rewrite Split_notin in Hs].
  rewrite Hs in Hs'. injection Hs' as <- <- <-. destruct Ha as (_ & _ & _ & _ & Hr' & _).
  unfold CheckLoginRole. rewrite Hr', Hrole. cbn [Role]. clear. split.
  - destruct rest as [|r rest']; [done|]. intros Hc. exists r, rest'. split; [done|].
    destruct (eqs r []) eqn:E; [done|]. rewrite E in Hc.
    destruct (eqs r Admin) eqn:E1; [apply eqs_spec in E1; by left|].
    destruct (eqs r SuperAdmin) eqn:E2; [apply eqs_spec in E2; by right|]. done.
  - intros (r & rest' & -> & [-> | ->]); by vm_compute.
Qed.

(** ** Examples *)

Definition demo_request (token : gostring) : gin_ctx :=
  mkGin (mkRequest "GET" "/v1/user" (h_Set "token" token ∅) "10.0.0.9:4711" ∅ (mkContext None)) ∅ ∅ [].

Definition demo_ctx (token : gostring) : Context MemoryCache := mkCtx (demo_request token) (Some New).

Definition demo_tokens : MemoryCache :=
  mkMemoryCache {[ ("token:t1" : gostring) := ("u1@bob@admin" : gostring); ("token:t2" : gostring) := ("u2" : gostring) ]}.

Lemma AuthMiddleware_spec_witness :
  calls (gin (AuthMiddleware New "token:" (demo_ctx "t1") demo_tokens).1) = [CNext] /\
  refused (demo_ctx "t2") (AuthMiddleware New "token:" (demo_ctx "t2") demo_tokens).1.
Proof.
  split.
  - apply (@AuthMiddleware_spec MemoryCache _ MemoryCache_laws New "token:" (demo_ctx "t1") demo_tokens I eq_refl); [intros l' [= <-]; done|].
    split; [by vm_compute|]. apply (bool_decide_unpack _). by vm_compute.
  - apply (@AuthMiddleware_spec MemoryCache _ MemoryCache_laws New "token:" (demo_ctx "t2") demo_tokens I eq_refl); [intros l' [= <-]; done|].
    intros [_ Hat]. revert Hat. apply (bool_decide_unpack _). by vm_compute.
Defined.

(** A parser of its own that fails with a text of its own. *)
Definition failing_parser (e : go_error) : TokenParser MemoryCache := fun _ _ s => (s, (zero_UserInfo, Some e)).

Lemma AuthMiddleware_injected_witness :
  let e := mkError "dial tcp 10.0.0.5:5432: refused" [ErrTokenInvalid] in
  (AuthMiddleware (SetTokenParser (Some (failing_parser e)) New) "token:" (demo_ctx "t1") demo_tokens).1 =
    answer_401 "token有误！" (demo_ctx "t1").
Proof.
  intros e. pose proof (AuthMiddleware_injected (failing_parser e) New "token:" (demo_ctx "t1") demo_tokens ltac:(by intros l' [= <-])) as Ha.
  cbv zeta in Ha. destruct Ha as [_ Ha]. destruct (Ha ltac:(by vm_compute)) as (_ & _ & He). by apply (He e).
Defined.

(** A name with an at sign moves into the role: the record of a user without a
    role who is called [bob@superAdmin] passes the check for super administrators. *)
Definition record_of (uid name : gostring) : gostring := uid ++ "@" ++ name.

Example name_becomes_role :
  let cache := mkMemoryCache {[ ("token:t" : gostring) := record_of "u1" "bob@superAdmin" ]} in
  CheckLoginRoleIsSuperAdmin (AuthMiddleware New "token:" (demo_ctx "t") cache).1 = None.
Proof. by vm_compute. Qed.

(** [GetLoginUID] is the whole record of the token, not the user's identifier. *)
Example GetLoginUID_record : GetLoginUID "t1" "token:" demo_tokens = "u1@bob@admin".
Proof. by vm_compute. Qed.
