(* ===== verification/Cors.v ===== *)
(** * Cors: the origin allow list ([pkg/wkhttp/secure_cors.go]) *)
From S2P Require Import Prelude GoStr Json Redis Cache Http.

#[global] Open Scope Z_scope.
#[global] Open Scope go_scope.

Definition headerOrigin : gostring := "Origin".
Definition headerACAO : gostring := "Access-Control-Allow-Origin".
Definition headerACAC : gostring := "Access-Control-Allow-Credentials".
Definition headerVary : gostring := "Vary".

(** The pieces of the list that are kept, trimmed; a literal star is dropped with a warning. *)
Fixpoint kept_origins (parts : list gostring) : list gostring :=
  match parts with
  | [] => []
  | p :: parts' =>
      let s := TrimSpace p in
      if eqs s [] then kept_origins parts'
      else if eqs s "*" then kept_origins parts'
      else s :: kept_origins parts'
  end.

(** The empty slice and nil are the same list. *)
Definition ParseAllowedOrigins (raw : gostring) : list gostring :=
  if eqs raw [] then [] else kept_origins (Split raw ","%char).

Section Origins.
Context `{Unicode}.

Definition names_origin (v : gostring) : bool :=
  existsb (fun field => EqualFold (TrimSpace field) headerOrigin) (Split v ","%char).

Definition addVaryOrigin (h : header) : header :=
  if existsb names_origin (h_Values h headerVary) then h else h_Add headerVary headerOrigin h.

Definition splitScheme (s : gostring) : gostring * gostring :=
  match Index s "://" with
  | Some i => (take i s, drop (i + 3) s)
  | None => ([], s)
  end.

Definition matchWildcardOrigin (pattern origin : gostring) : bool :=
  let '(patScheme, patHost) := splitScheme pattern in
  let '(oriScheme, oriHost) := splitScheme origin in
  if negb (eqs patScheme []) && negb (EqualFold patScheme oriScheme) then false
  else if negb (HasPrefix patHost "*.") then false
  else
    let suffix := ToLower (drop 1 patHost) in
    let oriHostLower := ToLower oriHost in
    (length suffix <? length oriHostLower)%nat && HasSuffix oriHostLower suffix.

Fixpoint origin_in (origin : gostring) (allowed : list gostring) : bool :=
  match allowed with
  | [] => false
  | entry :: allowed' =>
      if eqs entry [] then origin_in origin allowed'
      else if EqualFold entry origin then true
      else if matchWildcardOrigin entry origin then true
      else origin_in origin allowed'
  end.

Definition IsOriginAllowed (origin : gostring) (allowed : list gostring) : bool :=
  if eqs origin [] then false else origin_in origin allowed.

Definition SecureCORSOverrideMiddleware (allowed : list gostring) (c : gin_ctx) : gin_ctx :=
  let origin := h_Get (RequestHeader (Request c)) headerOrigin in
  if eqs origin [] then c_Next (with_header (fun h => h_Del headerACAC (h_Del headerACAO h)) c)
  else
    let c := with_header addVaryOrigin c in
    let c := if IsOriginAllowed origin allowed
             then with_header (fun h => h_Set headerACAC "true" (h_Set headerACAO origin h)) c
             else with_header (fun h => h_Del headerACAC (h_Del headerACAO h)) c in
    c_Next c.

(** ** The allow list *)

Lemma kept_origins_spec parts o : o ∈ kept_origins parts <-> o <> [] /\ o <> "*" /\ exists p, p ∈ parts /\ o = TrimSpace p.
Proof.
  induction parts as [|p parts IH]; cbn.
  - split; [by intros ?%elem_of_nil|]. intros (_ & _ & p & Hp & _). by apply elem_of_nil in Hp.
  - destruct (eqs (TrimSpace p) []) eqn:E1; [|destruct (eqs (TrimSpace p) "*") eqn:E2].
    + apply eqs_spec in E1. rewrite IH. split; intros (Hn & Hs & q & Hq & Ho); (split; [done|split; [done|]]).
      * exists q. split; [by right|done].
      * apply elem_of_cons in Hq as [->|Hq]; [by rewrite E1 in Ho|eauto].
    + apply eqs_spec in E2. rewrite IH. split; intros (Hn & Hs & q & Hq & Ho); (split; [done|split; [done|]]).
      * exists q. split; [by right|done].
      * apply elem_of_cons in Hq as [->|Hq]; [by rewrite E2 in Ho|eauto].
    + rewrite elem_of_cons, IH. split.
      * intros [->|(Hn & Hs & q & Hq & Ho)].
        -- split; [intros Hx; by rewrite Hx in E1|split; [intros Hx; by rewrite Hx in E2|]]. exists p. split; [by left|done].
        -- split; [done|split; [done|]]. exists q. split; [by right|done].
      * intros (Hn & Hs & q & Hq & Ho). apply elem_of_cons in Hq as [->|Hq]; [by left|]. right. eauto 6.
Qed.

(** The parsed list has no empty entry and no literal star. *)
Lemma ParseAllowedOrigins_spec raw o :
  o ∈ ParseAllowedOrigins raw <-> o <> [] /\ o <> "*" /\ exists p, p ∈ Split raw ","%char /\ o = TrimSpace p.
Proof.
  unfold ParseAllowedOrigins. destruct (eqs raw []) eqn:E; [|apply kept_origins_spec].
  apply eqs_spec in E as ->. cbn. split; [by intros ?%elem_of_nil|].
  intros (Hn & _ & p & Hp & ->). apply list_elem_of_singleton in Hp as ->. by destruct Hn.
Qed.

(** A pattern with a scheme or without one, and a strict subdomain: something
    before the dot-led suffix of the pattern. *)
Definition wildcard_of (entry origin : gostring) : Prop :=
  exists domain sub, (splitScheme entry).2 = "*." ++ domain /\ sub <> [] /\
    ToLower (splitScheme origin).2 = sub ++ ToLower ("." ++ domain) /\
    ((splitScheme entry).1 = [] \/ EqualFold (splitScheme entry).1 (splitScheme origin).1 = true).

Lemma matchWildcardOrigin_spec entry origin : matchWildcardOrigin entry origin = true <-> wildcard_of entry origin.
Proof.
  unfold matchWildcardOrigin, wildcard_of.
  destruct (splitScheme entry) as [ps ph], (splitScheme origin) as [os oh]. cbn [fst snd].
  destruct (eqs ps []) eqn:Eps; cbn [negb andb].
  1: apply eqs_spec in Eps as ->.
  2: destruct (EqualFold ps os) eqn:Ef; cbn [negb]; [|split; [done|intros (d & sb & _ & _ & _ & [->|?]); done]].
  all: destruct (HasPrefix ph "*.") eqn:Eh; cbn [negb];
    [apply HasPrefix_spec in Eh as [d ->]
    |split; [done|]; intros (d & sb & -> & _); by rewrite HasPrefix_app in Eh].
  all: change (drop 1 ("*." ++ d)) with ("." ++ d); rewrite andb_true_iff, Nat.ltb_lt, HasSuffix_spec; split.
  1,3: intros [Hlen [r Hr]]; exists d, r; split_and!; [done| |done|by (left + right)];
    intros ->; rewrite Hr in Hlen; cbn in Hlen; lia.
  all: intros (d' & sb & Hd & Hne & Ho & _); apply app_inv_head in Hd as <-; rewrite Ho; split; [|eauto];
    rewrite length_app; destruct sb; [done|cbn; lia].
Qed.

Lemma IsOriginAllowed_iff origin allowed :
  IsOriginAllowed origin allowed = true <->
  origin <> [] /\ exists entry, entry ∈ allowed /\ entry <> [] /\ (EqualFold entry origin = true \/ wildcard_of entry origin).
Proof.
  unfold IsOriginAllowed. destruct (eqs origin []) eqn:E.
  { apply eqs_spec in E as ->. split; [done|by intros [? _]]. }
  assert (origin <> []) as Ho by (intros ->; done).
  enough (origin_in origin allowed = true <-> exists entry, entry ∈ allowed /\ entry <> [] /\
    (EqualFold entry origin = true \/ wildcard_of entry origin)) as -> by tauto.
  induction allowed as [|e allowed IH]; cbn.
  { split; [done|]. intros (e & He & _). by apply elem_of_nil in He. }
  assert (forall P : gostring -> Prop, (exists x, x ∈ e :: allowed /\ P x) <-> P e \/ exists x, x ∈ allowed /\ P x) as Hcons.
  { intros P. setoid_rewrite elem_of_cons. naive_solver. }
  rewrite Hcons, <- IH, <- matchWildcardOrigin_spec.
  destruct (eqs e []) eqn:Ee; [apply eqs_spec in Ee as ->; naive_solver|].
  assert (e <> []) by (intros ->; done).
  destruct (EqualFold e origin), (matchWildcardOrigin e origin); naive_solver.
Qed.

(** ** The headers of the answer *)

(** The answer depends on the request's origin. *)
Definition varies_on_origin (h : header) : bool := existsb names_origin (h_Values h headerVary).

Lemma addVaryOrigin_spec h :
  varies_on_origin (addVaryOrigin h) = true /\ addVaryOrigin (addVaryOrigin h) = addVaryOrigin h /\
  forall k, CanonicalMIMEHeaderKey k <> headerVary -> h_Values (addVaryOrigin h) k = h_Values h k.
Proof.
  assert (EqualFold headerOrigin headerOrigin = true) as Hf by (unfold EqualFold; by apply bool_decide_eq_true).
  assert (varies_on_origin (addVaryOrigin h) = true) as Hv.
  { unfold varies_on_origin, addVaryOrigin. destruct (existsb names_origin (h_Values h headerVary)) eqn:E; [done|].
    header_cases. rewrite existsb_app, E. cbn [existsb orb]. unfold names_origin at 1.
    change (Split headerOrigin ","%char) with [headerOrigin]. cbn [existsb].
    change (TrimSpace headerOrigin) with headerOrigin. by rewrite Hf. }
  split; [done|]. split.
  { unfold varies_on_origin in Hv. unfold addVaryOrigin at 1. by rewrite Hv. }
  intros k Hk. unfold addVaryOrigin. case_match; [done|].
  rewrite h_Values_Add, decide_False; [done|]. intros Hc. by rewrite Hc in Hk.
Qed.

(** The two CORS headers of the answer. *)
Lemma secure_answer allowed (c : gin_ctx) :
  let origin := h_Get (RequestHeader (Request c)) headerOrigin in
  let h' := WriterHeader (SecureCORSOverrideMiddleware allowed c) in
  h_Values h' headerACAO = (if IsOriginAllowed origin allowed then [origin] else []) /\
  h_Values h' headerACAC = (if IsOriginAllowed origin allowed then ["true"%go] else []).
Proof.
  intros origin h'. subst h'. unfold SecureCORSOverrideMiddleware. fold origin.
  destruct (eqs origin []) eqn:E.
  - apply eqs_spec in E. rewrite E. cbn. split; by header_cases.
  - destruct (IsOriginAllowed origin allowed); cbn; split; by header_cases.
Qed.
End Origins.

(** C14 After the middleware the CORS headers of the answer, whatever was written
    before, name the request's origin with credentials when the origin is on the
    allow list (an entry equal to it, or a wildcard of which it is a strict
    subdomain), and are gone otherwise; the answer then varies on the origin. *)
Theorem SecureCORS_spec `{Unicode} allowed (c : gin_ctx) :
  let origin := h_Get (RequestHeader (Request c)) headerOrigin in
  let c' := SecureCORSOverrideMiddleware allowed c in
  let allowed_origin := origin <> [] /\ exists entry, entry ∈ allowed /\ entry <> [] /\
                          (EqualFold entry origin = true \/ wildcard_of entry origin) in
  calls c' = calls c ++ [CNext] /\
  (allowed_origin -> h_Values (WriterHeader c') headerACAO = [origin] /\ h_Values (WriterHeader c') headerACAC = ["true"%go]) /\
  (~ allowed_origin -> h_Values (WriterHeader c') headerACAO = [] /\ h_Values (WriterHeader c') headerACAC = []) /\
  (origin <> [] -> varies_on_origin (WriterHeader c') = true).
Proof.
  intros origin c' ao. subst c'. destruct (secure_answer allowed c) as [Ho Hc]. fold origin in Ho, Hc. rewrite Ho, Hc.
  assert (IsOriginAllowed origin allowed = true <-> ao) as Hao by apply IsOriginAllowed_iff.
  split; [unfold SecureCORSOverrideMiddleware; fold origin; by repeat case_match|].
  split; [by intros ->%Hao|]. split; [intros Hn; destruct (IsOriginAllowed origin allowed); [by destruct Hn; apply Hao|done]|].
  intros Hne. unfold SecureCORSOverrideMiddleware. fold origin. destruct (eqs origin []) eqn:E; [by apply eqs_spec in E|].
  pose proof (addVaryOrigin_spec (WriterHeader c)) as (Hv & _).
  destruct (IsOriginAllowed origin allowed); cbn; unfold varies_on_origin; by header_cases.
Qed.

(** ** Examples *)

Definition cors_request (origin : gostring) : Context MemoryCache :=
  mkCtx (mkGin (mkRequest "GET" "/v1/x" (h_Set headerOrigin origin ∅) [] ∅ (mkContext None)) ∅ ∅ []) None.

(** Behind the middleware that allows every origin the star is gone. *)
Definition cors_answer (origin : gostring) : list gostring * list gostring :=
  let c := SecureCORSOverrideMiddleware (ParseAllowedOrigins " https://*.example.com, *,http://a.org") (gin (CORSMiddleware (cors_request origin))) in
  (h_Values (WriterHeader c) headerACAO, h_Values (WriterHeader c) headerACAC).

Example cors_examples :
  cors_answer "https://App.Example.com" = (["https://App.Example.com"%go], ["true"%go]) /\
  cors_answer "HTTP://A.ORG" = (["HTTP://A.ORG"%go], ["true"%go]) /\
  forallb (fun o => bool_decide (cors_answer o = ([], [])))
    ["https://example.com"%go; "http://app.example.com"; "https://evilexample.com"; "https://example.com.evil.org"; "*"; "null"; []] = true.
Proof. by vm_compute. Qed.
