(* ===== verification/TokenBucket.v ===== *)
(** * TokenBucket: the Lua script of [pkg/wkhttp/ratelimit.go]

    The script is a function on the state of one bucket; its numbers are
    rationals here, so the rounding of doubles is not modelled. *)
From S2P Require Import Prelude.
From Stdlib Require Import QArith Qminmax Qround Lqa.

#[global] Open Scope Z_scope.

(** ** The script *)

(** A bucket: the tokens and the time they were counted at. *)
Record bucket := mkBucket { tokens : Q; ts : Q }.

(** What the script writes back, with the time to live in seconds, and what it
    returns: allowed, remaining, retry-after. *)
Record script_result := mkScript { written : option (bucket * Z); allowed : Z; remaining : Z; retry_after : Z }.

Definition ttl_of (rate : Q) (burst : Z) : Z :=
  let fill_time := (inject_Z burst / rate)%Q in
  Z.max 1 (Qceiling (fill_time * 2)).

(** The tokens of a bucket at a time, capped at the burst. *)
Definition filled_at (state : option bucket) (rate : Q) (burst : Z) (now : Q) : Q :=
  let tks := match state with Some b => tokens b | None => inject_Z burst end in
  let t := match state with Some b => ts b | None => now end in
  let delta := Qmax 0 (now - t) in
  Qmin (inject_Z burst) (tks + delta * rate).

Definition tokenBucketScript (state : option bucket) (rate : Q) (burst : Z) (now : Q) : script_result :=
  if Qle_bool rate 0 then mkScript None 0 0 1
  else
    let ttl := ttl_of rate burst in
    let filled := filled_at state rate burst now in
    if Qle_bool 1 filled then
      let filled := (filled - 1)%Q in
      mkScript (Some (mkBucket filled now, ttl)) 1 (Qfloor filled) 0
    else
      let retry := Z.max 1 (Qceiling ((1 - filled) / rate)) in
      let need_write := match state with None => true | Some _ => false end in
      mkScript (if need_write then Some (mkBucket filled now, ttl) else None) 0 (Qfloor filled) retry.

(** The bucket after a run of the script. *)
Definition bucket_after (state : option bucket) (r : script_result) : option bucket :=
  match written r with Some (b, _) => Some b | None => state end.

(** ** The bucket holds its rate *)

Lemma filled_at_bounds st rate b now :
  (0 <= inject_Z b)%Q -> (0 < rate)%Q -> match st with Some k => (0 <= tokens k)%Q | None => True end ->
  (0 <= filled_at st rate b now <= inject_Z b)%Q.
Proof.
  intros Hb Hr Hst. unfold filled_at. set (tk := match st with Some k => tokens k | None => inject_Z b end).
  set (t := match st with Some k => ts k | None => now end).
  assert (0 <= tk)%Q by (subst tk; by destruct st).
  assert (0 <= Qmax 0 (now - t) * rate)%Q.
  { apply Qmult_le_0_compat; [apply Q.le_max_l|lra]. }
  split; [apply Q.min_glb; lra|apply Q.le_min_l].
Qed.

(** Time adds at most [rate] tokens per second. *)
Lemma filled_at_grows st rate b now now' :
  (0 < rate)%Q -> (now <= now')%Q ->
  (filled_at st rate b now' <= filled_at st rate b now + rate * (now' - now))%Q.
Proof.
  intros Hr Hn. unfold filled_at.
  set (tk := match st with Some k => tokens k | None => inject_Z b end).
  set (t := match st with Some k => ts k | None => now end).
  set (t' := match st with Some k => ts k | None => now' end).
  assert (Qmax 0 (now' - t') <= Qmax 0 (now - t) + (now' - now))%Q as Hd.
  { pose proof (Q.le_max_l 0 (now - t)). pose proof (Q.le_max_r 0 (now - t)).
    apply Q.max_lub; [lra|]. subst t t'. destruct st; lra. }
  apply (Qmult_le_compat_r _ _ rate) in Hd; [|lra].
  pose proof (Q.le_min_l (inject_Z b) (tk + Qmax 0 (now' - t') * rate)) as H1.
  pose proof (Q.le_min_r (inject_Z b) (tk + Qmax 0 (now' - t') * rate)) as H2.
  assert (0 <= (now' - now) * rate)%Q by (apply Qmult_le_0_compat; lra).
  destruct (Q.min_spec (inject_Z b) (tk + Qmax 0 (now - t) * rate)) as [[_ ->]|[_ ->]]; lra.
Qed.

(** A run of the script takes the token it allows out of the bucket. *)
Lemma script_takes st rate b now :
  (0 < rate)%Q -> (filled_at (bucket_after st (tokenBucketScript st rate b now)) rate b now + inject_Z (allowed (tokenBucketScript st rate b now))
    == filled_at st rate b now)%Q.
Proof.
  intros Hr. unfold tokenBucketScript.
  destruct (Qle_bool rate 0) eqn:E0; [apply Qle_bool_iff in E0; lra|].
  assert (Qmax 0 (now - now) * rate == 0)%Q as H0.
  { assert (now - now == 0)%Q as -> by ring. by rewrite Q.max_id, Qmult_0_l. }
  assert (forall x, (filled_at (Some (mkBucket x now)) rate b now == Qmin (inject_Z b) x)%Q) as Hnow.
  { intros x. unfold filled_at. cbn [tokens ts]. by rewrite H0, Qplus_0_r. }
  pose proof (Q.le_min_l (inject_Z b) (match st with Some k => tokens k | None => inject_Z b end +
    Qmax 0 (now - match st with Some k => ts k | None => now end) * rate)) as Hb.
  fold (filled_at st rate b now) in Hb.
  destruct (Qle_bool 1 (filled_at st rate b now)); unfold bucket_after; cbn [written allowed].
  - rewrite Hnow, Q.min_r by lra. change (inject_Z 1) with 1%Q. lra.
  - change (inject_Z 0) with 0%Q. destruct st as [k|]; cbn [written]; [lra|]. rewrite Hnow, Q.min_r by done. lra.
Qed.

(** The runs of the script for one bucket at the given times. *)
Fixpoint run_bucket (st : option bucket) (rate : Q) (b : Z) (times : list Q) : option bucket * list Z :=
  match times with
  | [] => (st, [])
  | now :: times' =>
      let r := tokenBucketScript st rate b now in
      let '(st', out) := run_bucket (bucket_after st r) rate b times' in
      (st', allowed r :: out)
  end.

Definition wf_bucket (st : option bucket) : Prop :=
  match st with Some k => (0 <= tokens k)%Q | None => True end.

Lemma wf_bucket_after st rate b now :
  (0 < rate)%Q -> 0 <= b -> wf_bucket st -> wf_bucket (bucket_after st (tokenBucketScript st rate b now)).
Proof.
  intros Hr Hb Hst. unfold tokenBucketScript.
  pose proof (filled_at_bounds st rate b now ltac:(by change 0%Q with (inject_Z 0); rewrite <- Zle_Qle) Hr Hst) as Hf.
  destruct (Qle_bool rate 0); [done|].
  destruct (Qle_bool 1 (filled_at st rate b now)) eqn:E; unfold bucket_after; cbn [written].
  - apply Qle_bool_iff in E. cbn. lra.
  - destruct st; [done|]. cbn. lra.
Qed.

(** The times of a run, from a first to a last one. *)
Inductive times_between : Q -> list Q -> Q -> Prop :=
| times_nil t0 t1 : (t0 <= t1)%Q -> times_between t0 [] t1
| times_cons t0 t ts t1 : (t0 <= t)%Q -> times_between t ts t1 -> times_between t0 (t :: ts) t1.

Lemma times_between_le t0 times t1 : times_between t0 times t1 -> (t0 <= t1)%Q.
Proof. induction 1; lra. Qed.

Lemma times_between_earlier t0 t0' times t1 : (t0' <= t0)%Q -> times_between t0 times t1 -> times_between t0' times t1.
Proof. intros H0 Ht. destruct Ht; constructor; try done; lra. Qed.

Lemma times_between_sublist t0 times t1 asked :
  times_between t0 times t1 -> asked `sublist_of` times -> times_between t0 asked t1.
Proof.
  intros Ht Hsub. revert t0 Ht. induction Hsub as [|t l1 l2 Hsub IH|t l1 l2 Hsub IH]; intros t0 Ht; [done| |]; inversion Ht; subst.
  - constructor; auto.
  - eapply times_between_earlier; [done|]. auto.
Qed.

Lemma run_bucket_bound st rate b t0 times t1 :
  (0 < rate)%Q -> 0 <= b -> wf_bucket st -> times_between t0 times t1 ->
  (inject_Z (fold_right Z.add 0%Z (run_bucket st rate b times).2) <= filled_at st rate b t0 + rate * (t1 - t0))%Q.
Proof.
  intros Hr Hb Hst Ht. revert st Hst.
  assert (0 <= inject_Z b)%Q as HbQ by (change 0%Q with (inject_Z 0); by rewrite <- Zle_Qle).
  induction Ht as [t0 t1 H01|t0 t ts t1 H0 Ht IH]; intros st Hst.
  - cbn [run_bucket snd fold_right]. pose proof (filled_at_bounds st rate b t0 HbQ Hr Hst).
    assert (0 <= rate * (t1 - t0))%Q by (apply Qmult_le_0_compat; lra). change (inject_Z 0) with 0%Q. lra.
  - cbn [run_bucket]. pose proof (script_takes st rate b t Hr) as Hs.
    specialize (IH (bucket_after st (tokenBucketScript st rate b t)) (wf_bucket_after st rate b t Hr Hb Hst)).
    pose proof (filled_at_grows st rate b t0 t Hr H0) as Hg.
    destruct (run_bucket (bucket_after st (tokenBucketScript st rate b t)) rate b ts) as [st' out].
    cbn [snd fold_right] in *. rewrite inject_Z_plus.
    assert (rate * (t1 - t0) == rate * (t1 - t) + rate * (t - t0))%Q by ring. lra.
Qed.

(** Between two points in time a bucket lets at most [burst] plus [rate] times
    the seconds between them through, whatever requests come when, as long as
    the clock does not run backwards. *)
Theorem bucket_rate_bound st rate b t0 times t1
  (Hr : (0 < rate)%Q) (Hb : 0 <= b) (Hst : wf_bucket st) (Ht : times_between t0 times t1) :
  (inject_Z (fold_right Z.add 0%Z (run_bucket st rate b times).2) <= inject_Z b + rate * (t1 - t0))%Q.
Proof.
  pose proof (run_bucket_bound st rate b t0 times t1 Hr Hb Hst Ht).
  pose proof (Q.le_min_l (inject_Z b) (match st with Some k => tokens k | None => inject_Z b end +
    Qmax 0 (t0 - match st with Some k => ts k | None => t0 end) * rate)) as Hf.
  fold (filled_at st rate b t0) in Hf. lra.
Qed.

Lemma bucket_rate_bound_witness :
  (run_bucket None (1 # 2) 2 [0; 0; 0; 1; 2; 3])%Q.2 = [1; 1; 0; 0; 1; 0] /\
  (inject_Z 3 <= inject_Z 2 + (1 # 2) * (3 - 0))%Q.
Proof.
  split; [by vm_compute|].
  apply (bucket_rate_bound None (1 # 2) 2 0 [0; 0; 0; 1; 2; 3]%Q 3); [done|done|done|].
  repeat (constructor; [done|]). by constructor.
Defined.

(** ** Expiry and retry *)

(** Once the time to live is over, a kept bucket is full. *)
Lemma expired_full k rate b now :
  (0 < rate)%Q -> 0 <= b -> (0 <= tokens k)%Q -> (ts k + inject_Z (ttl_of rate b) <= now)%Q ->
  (filled_at (Some k) rate b now == filled_at None rate b now)%Q.
Proof.
  intros Hr Hb Hk Hexp.
  assert (0 <= inject_Z b)%Q by (change 0%Q with (inject_Z 0); by rewrite <- Zle_Qle).
  assert (inject_Z b <= (now - ts k) * rate)%Q as Hd.
  { pose proof (Qle_ceiling (inject_Z b / rate * 2)) as Hc.
    assert (inject_Z (Qceiling (inject_Z b / rate * 2)) <= inject_Z (ttl_of rate b))%Q as Ht
      by (rewrite <- Zle_Qle; unfold ttl_of; lia).
    assert (inject_Z b / rate * 2 <= now - ts k)%Q as H2 by lra.
    apply (Qmult_le_compat_r _ _ rate) in H2; [|lra].
    assert (inject_Z b / rate * 2 * rate == inject_Z b * 2)%Q as E by (field; lra). lra. }
  unfold filled_at. rewrite Q.min_l, Q.min_l; [done| |].
  - assert (now - now == 0)%Q as -> by ring. rewrite Q.max_id. lra.
  - pose proof (Q.le_max_r 0 (now - ts k)) as Hm. apply (Qmult_le_compat_r _ _ rate) in Hm; lra.
Qed.

(** What the caller learns from a run of the script. *)
Definition verdict (r : script_result) : Z * Z * Z := (allowed r, remaining r, retry_after r).

Lemma retry_level (rate l l' : Q) : (l == l')%Q -> Z.max 1 (Qceiling ((1 - l) / rate)) = Z.max 1 (Qceiling ((1 - l') / rate)).
Proof. intros Hl. f_equal. apply Qceiling_comp. by rewrite Hl. Qed.

(** The verdict depends on the level of the bucket only. *)
Lemma verdict_level st st' rate b now :
  (filled_at st rate b now == filled_at st' rate b now)%Q ->
  verdict (tokenBucketScript st rate b now) = verdict (tokenBucketScript st' rate b now).
Proof.
  intros Hf. unfold verdict, tokenBucketScript. destruct (Qle_bool rate 0); [done|].
  assert (Qle_bool 1 (filled_at st rate b now) = Qle_bool 1 (filled_at st' rate b now)) as -> by (by rewrite Hf).
  destruct (Qle_bool 1 (filled_at st' rate b now)); cbn [allowed remaining retry_after].
  - by rewrite Hf.
  - by rewrite (Qfloor_comp _ _ Hf), (retry_level rate _ _ Hf).
Qed.

(** Letting a bucket's key expire loses nothing: once the time to live that
    was set is over, the script decides on the missing key as on the kept one. *)
Theorem expiry_equivalent k rate b now
  (Hr : (0 < rate)%Q) (Hb : 0 <= b) (Hk : (0 <= tokens k)%Q) (Hexp : (ts k + inject_Z (ttl_of rate b) <= now)%Q) :
  verdict (tokenBucketScript (Some k) rate b now) = verdict (tokenBucketScript None rate b now).
Proof. by apply verdict_level, expired_full. Qed.

(** ** Refinement of the bucket that forgets nothing

    The reference: a bucket that is never dropped and records its level at every
    request, refused ones included. *)
Record level_bucket := mkLevel { lb_level : Q; lb_last : Q }.

Definition level_step (s : level_bucket) (rate : Q) (burst : Z) (now : Q) : level_bucket * (Z * Z * Z) :=
  let l := Qmin (inject_Z burst) (lb_level s + (now - lb_last s) * rate)%Q in
  if Qle_bool 1 l then (mkLevel (l - 1) now, (1, Qfloor (l - 1), 0))
  else (mkLevel l now, (0, Qfloor l, Z.max 1 (Qceiling ((1 - l) / rate)))).

Fixpoint level_run (s : level_bucket) (rate : Q) (burst : Z) (times : list Q) : list (Z * Z * Z) :=
  match times with
  | [] => []
  | now :: times' => let '(s', v) := level_step s rate burst now in v :: level_run s' rate burst times'
  end.

(** The script over a redis that may have dropped the key before a request. *)
Definition redis_step (st : option bucket) (rate : Q) (burst : Z) (rq : Q * bool) : option bucket * (Z * Z * Z) :=
  let st := if rq.2 then None else st in
  let r := tokenBucketScript st rate burst rq.1 in
  (bucket_after st r, verdict r).

Fixpoint redis_run (st : option bucket) (rate : Q) (burst : Z) (rqs : list (Q * bool)) : list (Z * Z * Z) :=
  match rqs with
  | [] => []
  | rq :: rqs' => let '(st', v) := redis_step st rate burst rq in v :: redis_run st' rate burst rqs'
  end.

(** Requests in the order of time; redis drops a key at any moment after its
    time to live, never before. *)
Inductive redis_keeps (rate : Q) (burst : Z) : option bucket -> Q -> list (Q * bool) -> Prop :=
| keeps_nil st t : redis_keeps rate burst st t []
| keeps_cons st t now dropped rqs :
    (t <= now)%Q ->
    (dropped = true -> match st with Some k => (ts k + inject_Z (ttl_of rate burst) <= now)%Q | None => True end) ->
    redis_keeps rate burst (redis_step st rate burst (now, dropped)).1 now rqs ->
    redis_keeps rate burst st t ((now, dropped) :: rqs).

Section refinement.
Context (rate : Q) (burst : Z).
Hypotheses (Hrate : (0 < rate)%Q) (Hburst : 0 <= burst).

(** The simulation: at every later time both buckets hold the same level. *)
Definition same_level (s : level_bucket) (st : option bucket) (t : Q) : Prop :=
  wf_bucket st /\ match st with Some k => (ts k <= t)%Q | None => True end /\
  forall now, (t <= now)%Q -> (filled_at st rate burst now == Qmin (inject_Z burst) (lb_level s + (now - lb_last s) * rate))%Q.

Lemma filled_after_write x t now :
  (t <= now)%Q -> (filled_at (Some (mkBucket x t)) rate burst now == Qmin (inject_Z burst) (x + (now - t) * rate))%Q.
Proof. intros Ht. unfold filled_at. cbn [tokens ts]. rewrite (Q.max_r 0 (now - t)) by lra. done. Qed.

(** What a bucket would hold later does not depend on recording it now. *)
Lemma filled_at_recorded k t now :
  (ts k <= t)%Q -> (t <= now)%Q ->
  (filled_at (Some k) rate burst now == Qmin (inject_Z burst) (filled_at (Some k) rate burst t + (now - t) * rate))%Q.
Proof.
  intros Hk Ht. destruct k as [x u]. cbn [ts] in Hk. rewrite !filled_after_write by lra.
  assert (0 <= (now - t) * rate)%Q by (apply Qmult_le_0_compat; lra).
  assert ((now - u) * rate == (t - u) * rate + (now - t) * rate)%Q as -> by ring.
  destruct (Q.min_spec (inject_Z burst) (x + (t - u) * rate)) as [[? ->]|[? ->]].
  - rewrite !Q.min_l by lra. done.
  - by rewrite Qplus_assoc.
Qed.

Lemma same_level_dropped s st t now (dropped : bool) :
  same_level s st t -> (t <= now)%Q ->
  (dropped = true -> match st with Some k => (ts k + inject_Z (ttl_of rate burst) <= now)%Q | None => True end) ->
  same_level s (if dropped then None else st) now.
Proof.
  intros (Hwf & Hts & Hl) Ht Hd. destruct dropped.
  - split; [done|]. split; [done|]. intros later Hlater. rewrite <- Hl by lra. destruct st as [k|]; [|done].
    symmetry. apply expired_full; [done|done|done|]. specialize (Hd eq_refl). cbn in Hd. lra.
  - split; [done|]. split; [destruct st; [lra|done]|]. intros later Hlater. apply Hl. lra.
Qed.

Lemma same_level_step s st now :
  same_level s st now ->
  verdict (tokenBucketScript st rate burst now) = (level_step s rate burst now).2 /\
  same_level (level_step s rate burst now).1 (bucket_after st (tokenBucketScript st rate burst now)) now.
Proof.
  intros (Hwf & Hts & Hl). pose proof (Hl now (Qle_refl _)) as Hn.
  pose proof (wf_bucket_after st rate burst now Hrate Hburst Hwf) as Hwf'. revert Hwf'.
  unfold level_step, tokenBucketScript. set (l := Qmin _ _) in *.
  destruct (Qle_bool rate 0) eqn:E0; [apply Qle_bool_iff in E0; lra|].
  assert (Qle_bool 1 (filled_at st rate burst now) = Qle_bool 1 l) as -> by (by rewrite Hn).
  destruct (Qle_bool 1 l); unfold verdict, bucket_after; cbn [written allowed remaining retry_after fst snd]; intros Hwf'.
  - split; [by rewrite Hn|]. split; [done|]. cbn [ts]. split; [lra|]. intros later Hlater. cbn [lb_level lb_last].
    rewrite filled_after_write by done. by rewrite Hn.
  - split; [by rewrite (Qfloor_comp _ _ Hn), (retry_level rate _ _ Hn)|]. destruct st as [k|]; cbn [written] in *.
    + split; [done|]. split; [done|]. intros later Hlater. cbn [lb_level lb_last]. by rewrite (filled_at_recorded k now later), Hn.
    + split; [done|]. cbn [ts]. split; [lra|]. intros later Hlater. cbn [lb_level lb_last].
      rewrite filled_after_write by done. by rewrite Hn.
Qed.

Lemma redis_run_level s st t rqs :
  same_level s st t -> redis_keeps rate burst st t rqs ->
  redis_run st rate burst rqs = level_run s rate burst (map fst rqs).
Proof.
  intros Hs Hk. revert s Hs. induction Hk as [|st t now dropped rqs Ht Hd Hk IH]; intros s Hs; [done|].
  pose proof (same_level_dropped s st t now dropped Hs Ht Hd) as Hs'.
  destruct (same_level_step s _ now Hs') as [Hv Hn].
  unfold redis_step in *. cbn [redis_run level_run map fst snd] in *. unfold redis_step. cbn [fst snd].
  rewrite Hv. destruct (level_step s rate burst now) as [s' v]. cbn [fst snd] in *. by rewrite (IH s' Hn).
Qed.
End refinement.

(** C23 The script refines a token bucket that forgets nothing: although it
    writes nothing back when it refuses, and although redis drops its key at any
    moment after the time to live, it gives every request, in the order of time,
    the verdict (allowed, remaining, retry-after) of a bucket that starts full, is
    never dropped and records its level at every request. *)
Theorem tokenBucketScript_refines rate burst t0 rqs
  (Hrate : (0 < rate)%Q) (Hburst : 0 <= burst) (Hkeeps : redis_keeps rate burst None t0 rqs) :
  redis_run None rate burst rqs = level_run (mkLevel (inject_Z burst) t0) rate burst (map fst rqs).
Proof.
  apply (redis_run_level rate burst Hrate Hburst _ _ t0); [|done].
  split; [done|]. split; [done|]. intros now Hnow. cbn [lb_level lb_last].
  assert (0 <= (now - t0) * rate)%Q by (apply Qmult_le_0_compat; lra).
  unfold filled_at. assert (now - now == 0)%Q as -> by ring. rewrite Q.max_id, !Q.min_l by lra. done.
Qed.

(** Two requests at once, one too many, then one after redis dropped the key. *)
Lemma tokenBucketScript_refines_witness :
  let rqs := [(0, false); (0, false); (0, false); (1, false); (8, true); (8, false)]%Q in
  level_run (mkLevel 2 0) (1 # 2) 2 (map fst rqs) = [(1, 1, 0); (1, 0, 0); (0, 0, 2); (0, 0, 1); (1, 1, 0); (1, 0, 0)] /\
  redis_run None (1 # 2) 2 rqs = level_run (mkLevel 2 0) (1 # 2) 2 (map fst rqs).
Proof.
  split; [by vm_compute|]. apply (tokenBucketScript_refines (1 # 2) 2 0); [done|done|].
  do 6 (constructor; [by vm_compute|intros ?; vm_compute; first [done|congruence]|]). constructor.
Defined.

(** A client that was refused and waits as long as it was told is let through,
    if nobody else uses its bucket meanwhile. *)
Lemma retry_after_suffices st rate b now later :
  (0 < rate)%Q -> 1 <= b ->
  let r := tokenBucketScript st rate b now in
  allowed r = 0 -> match st with Some k => (ts k <= now)%Q | None => True end ->
  (now + inject_Z (retry_after r) <= later)%Q ->
  1 <= retry_after r /\ allowed (tokenBucketScript (bucket_after st r) rate b later) = 1.
Proof.
  intros Hr Hb. cbv zeta.
  assert (Qle_bool rate 0 = false) as E0.
  { destruct (Qle_bool rate 0) eqn:E0; [apply Qle_bool_iff in E0; lra|done]. }
  assert (forall st' t, tokenBucketScript st' rate b t =
    if Qle_bool 1 (filled_at st' rate b t) then
      mkScript (Some (mkBucket (filled_at st' rate b t - 1) t, ttl_of rate b)) 1 (Qfloor (filled_at st' rate b t - 1)) 0
    else mkScript (if match st' with None => true | Some _ => false end then Some (mkBucket (filled_at st' rate b t) t, ttl_of rate b) else None) 0
      (Qfloor (filled_at st' rate b t)) (Z.max 1 (Qceiling ((1 - filled_at st' rate b t) / rate)))) as Hscript.
  { intros st' t. unfold tokenBucketScript. by rewrite E0. }
  rewrite !(Hscript st now).
  destruct (Qle_bool 1 (filled_at st rate b now)) eqn:E; [done|]. cbn [allowed retry_after]. intros _ Hts Hl.
  split; [lia|].
  assert (filled_at st rate b now < 1)%Q as Hlt.
  { apply Qnot_le_lt. intros Hle. apply Qle_bool_iff in Hle. by rewrite Hle in E. }
  assert (1 <= inject_Z b)%Q as HbQ by (change 1%Q with (inject_Z 1); by rewrite <- Zle_Qle).
  destruct st as [k|].
  2:{ exfalso. unfold filled_at in Hlt. assert (now - now == 0)%Q as E1 by ring. rewrite E1, Q.max_id in Hlt.
      rewrite Q.min_l in Hlt by lra. lra. }
  unfold bucket_after. cbn [written]. rewrite (Hscript (Some k) later).
  enough (1 <= filled_at (Some k) rate b later)%Q as Hen by (apply Qle_bool_iff in Hen; by rewrite Hen).
  pose proof (Qle_ceiling ((1 - filled_at (Some k) rate b now) / rate)) as Hc.
  assert (inject_Z (Qceiling ((1 - filled_at (Some k) rate b now) / rate)) <=
          inject_Z (Z.max 1 (Qceiling ((1 - filled_at (Some k) rate b now) / rate))))%Q as Hm by (rewrite <- Zle_Qle; lia).
  assert ((1 - filled_at (Some k) rate b now) / rate <= later - now)%Q as Hw by lra.
  apply (Qmult_le_compat_r _ _ rate) in Hw; [|lra].
  assert ((1 - filled_at (Some k) rate b now) / rate * rate == 1 - filled_at (Some k) rate b now)%Q as Ef by (field; lra).
  rewrite Ef in Hw. clear Ef Hc Hm Hl.
  assert (0 <= later - now)%Q as Hpos.
  { apply Qnot_lt_le. intros Hn. assert (0 <= (now - later) * rate)%Q by (apply Qmult_le_0_compat; lra). lra. }
  unfold filled_at in *. cbn [tokens ts] in *.
  rewrite (Q.max_r 0 (now - ts k)) in Hlt, Hw by lra. rewrite (Q.max_r 0 (later - ts k)) by lra.
  apply Q.min_glb; [done|].
  destruct (Q.min_spec (inject_Z b) (tokens k + (now - ts k) * rate)) as [[? F]|[? F]]; rewrite F in Hlt, Hw; [lra|].
  assert ((later - ts k) * rate == (now - ts k) * rate + (later - now) * rate)%Q by ring. lra.
Qed.

(** Two servers whose clocks differ by a second share a bucket of two tokens a
    second: while they take turns, every request of the same instant is let
    through, since an allowed request of the slower clock sets the time back. *)
Example skewed_clocks :
  (run_bucket None 2 2 [10; 9; 10; 9; 10; 9; 10; 9; 10])%Q.2 = [1; 1; 1; 1; 1; 1; 1; 1; 1].
Proof. by vm_compute. Qed.

Lemma script_allowed_01 st q b now : allowed (tokenBucketScript st q b now) = 0 \/ allowed (tokenBucketScript st q b now) = 1.
Proof. unfold tokenBucketScript. repeat case_match; cbn; auto. Qed.
