(* ===== verification/ClientIp.v ===== *)
(** * ClientIp: the address a request is counted for
    ([pkg/wkhttp/ratelimit.go], [ClientIP])

    The trusted proxy appends the peer to [X-Forwarded-For]; the address is the
    canonical text of what it appended, or of what comes next. *)
From S2P Require Import Prelude GoStr GoUrl NetIp Redis Cache Http.

#[global] Open Scope Z_scope.
#[global] Open Scope go_scope.

(** ** Client addresses *)

Definition canonicalClientIP (value : gostring) : gostring :=
  match ParseAddr (TrimSpace value) with
  | None => []
  | Some (addr, zone) => if negb (eqs zone []) then [] else addr_String (Unmap addr)
  end.

(** The rightmost element of the last field line of [X-Forwarded-For]; then the
    only [X-Real-Ip]; then the peer. *)
Definition ClientIP (r : request) : gostring :=
  let remote :=
    match SplitHostPort (TrimSpace (RemoteAddr r)) with
    | Some (ip, _) => canonicalClientIP ip
    | None => []
    end in
  match last (h_Values (RequestHeader r) "X-Forwarded-For") with
  | Some last =>
      let last := match LastIndexByte last ","%char with Some i => drop (i + 1) last | None => last end in
      let candidate := TrimSpace last in
      if eqs candidate [] then [] else canonicalClientIP candidate
  | None =>
      match h_Values (RequestHeader r) "X-Real-Ip" with
      | [] => remote
      | [v] => let candidate := TrimSpace v in
               if negb (eqs candidate []) then canonicalClientIP candidate else remote
      | _ => []
      end
  end.

(** ** Addresses are canonical *)

Lemma canonicalClientIP_spec v :
  canonicalClientIP v = [] \/
  exists a, (exists b, ParseAddr (TrimSpace v) = Some (b, []) /\ a = Unmap b) /\
    canonicalClientIP v = addr_String a /\ Unmap a = a /\ ParseAddr (addr_String a) = Some (a, []) /\
    canonicalClientIP (addr_String a) = addr_String a.
Proof.
  unfold canonicalClientIP at 1 2. destruct (ParseAddr (TrimSpace v)) as [[b z]|] eqn:E; [|by left].
  pose proof (ParseAddr_length _ _ _ E) as Hb. destruct (eqs z []) eqn:Ez; cbn [negb]; [|by left].
  apply eqs_spec in Ez as ->. right. exists (Unmap b). pose proof (Unmap_length b Hb) as Hl.
  split; [by exists b|]. split; [done|]. split; [by apply Unmap_Unmap|]. split; [by apply ParseAddr_String|].
  unfold canonicalClientIP. rewrite TrimSpace_printing by (by apply addr_String_printing).
  rewrite ParseAddr_String by done. cbn [negb eqs]. by rewrite Unmap_Unmap.
Qed.

(** What a client address may be: nothing, or the one text of an address. *)
Definition canonical_text (ip : gostring) : Prop :=
  ip = [] \/ exists a, ParseAddr ip = Some (a, []) /\ ip = addr_String a /\ Unmap a = a.

Lemma canonicalClientIP_text v : canonical_text (canonicalClientIP v).
Proof. destruct (canonicalClientIP_spec v) as [-> | (a & _ & -> & Hu & Hp & _)]; [by left|right; eauto]. Qed.

(** Two values are one client exactly when they are spellings of one address. *)
Lemma canonicalClientIP_same v v' : canonicalClientIP v <> [] ->
  canonicalClientIP v' = canonicalClientIP v <->
  exists b b', ParseAddr (TrimSpace v) = Some (b, []) /\ ParseAddr (TrimSpace v') = Some (b', []) /\ Unmap b' = Unmap b.
Proof.
  intros Hne. destruct (canonicalClientIP_spec v) as [|(a & (b & Hb & Ha) & Hv & _ & Hp & _)]; [done|].
  split.
  - intros E. destruct (canonicalClientIP_spec v') as [|(a' & (b' & Hb' & Ha') & Hv' & _ & Hp' & _)]; [congruence|].
    exists b, b'. split; [done|]. split; [done|]. subst a a'. rewrite Hv, Hv' in E. rewrite E in Hp'. congruence.
  - intros (b1 & b2 & H1 & H2 & Hu). rewrite Hb in H1. injection H1 as <-. rewrite Hv. subst a.
    unfold canonicalClientIP. rewrite H2. cbn. by rewrite Hu.
Qed.

(** C40 Every client address is empty or the canonical text of an address, so that
    two spellings of an address share a bucket and two addresses never do. Behind
    the trusted proxy, which adds the peer as the last element of
    [X-Forwarded-For], nothing the client puts before it has an influence. *)
Theorem ClientIP_spec (r : request) :
  canonical_text (ClientIP r) /\
  (forall v v', canonicalClientIP v <> [] ->
     canonicalClientIP v' = canonicalClientIP v <->
     exists b b', ParseAddr (TrimSpace v) = Some (b, []) /\ ParseAddr (TrimSpace v') = Some (b', []) /\ Unmap b' = Unmap b) /\
  (forall l x y, h_Values (RequestHeader r) "X-Forwarded-For" = l ++ [x ++ ","%char :: y] -> ","%char ∉ y ->
     ClientIP r = canonicalClientIP (TrimSpace y)) /\
  (forall l y, h_Values (RequestHeader r) "X-Forwarded-For" = l ++ [y] -> ","%char ∉ y ->
     ClientIP r = canonicalClientIP (TrimSpace y)).
Proof.
  assert (forall y, (if eqs (TrimSpace y) [] then [] else canonicalClientIP (TrimSpace y)) = canonicalClientIP (TrimSpace y)) as Hblank.
  { intros y. destruct (eqs (TrimSpace y) []) eqn:E; [|done]. apply eqs_spec in E. by rewrite E. }
  split; [|split; [apply canonicalClientIP_same|split]].
  - unfold ClientIP. cbv zeta.
    assert (canonical_text match SplitHostPort (TrimSpace (RemoteAddr r)) with Some (ip, _) => canonicalClientIP ip | None => [] end) as Hrem.
    { destruct (SplitHostPort (TrimSpace (RemoteAddr r))) as [[ip port]|]; [apply canonicalClientIP_text|by left]. }
    destruct (last (h_Values (RequestHeader r) "X-Forwarded-For")).
    + rewrite Hblank. apply canonicalClientIP_text.
    + destruct (h_Values (RequestHeader r) "X-Real-Ip") as [|v [|]]; [done| |by left].
      destruct (negb _); [apply canonicalClientIP_text|done].
  - intros l x y Hv Hy. unfold ClientIP. cbv zeta. rewrite Hv, last_snoc, LastIndexByte_app by done.
    replace (drop (length x + 1) (x ++ ","%char :: y)) with y; [apply Hblank|].
    rewrite drop_app_ge by lia. by replace (length x + 1 - length x)%nat with 1%nat by lia.
  - intros l y Hv Hy. unfold ClientIP. cbv zeta. rewrite Hv, last_snoc.
    assert (LastIndexByte y ","%char = None) as ->; [|apply Hblank].
    unfold LastIndexByte. rewrite fmap_None. apply IndexByte_None. by rewrite list_elem_of_In, <- in_rev, <- list_elem_of_In.
Qed.

Example client_addresses :
  map canonicalClientIP ["2001:DB8:0:0:0:0:0:1"; "2001:db8::1"; "::ffff:203.0.113.7"; " 203.0.113.7 "; "fe80::1%eth0"; "1.2.3"; "0:0:1::"; "::"; "203.0.113.07"]%list =
  ["2001:db8::1"%go; "2001:db8::1"; "203.0.113.7"; "203.0.113.7"; []; []; "0:0:1::"; "::"; []].
Proof. by vm_compute. Qed.
