(* ===== verification/RateLimit.v ===== *)
(** * RateLimit: the limiter and its middlewares
    ([pkg/wkhttp/ratelimit.go], [pkg/wkhttp/ratelimit_helper.go])

    Redis, which runs the script of TokenBucket, is a parameter. *)
From S2P Require Import Prelude GoStr GoUrl Json Redis Cache Http TokenBucket ClientIp.
From Stdlib Require Import QArith Qminmax Qround Lqa.

#[global] Open Scope Z_scope.
#[global] Open Scope go_scope.

Definition unknownIPKey : gostring := "__unknown_ip__".

(** ** The limiter *)

(** A float64: finite, infinite or not a number. *)
Inductive float := Fin (q : Q) | PInf | NInf | NaN.

(** [x <= 0]. *)
Definition float_le0 (x : float) : bool :=
  match x with Fin q => Qle_bool q 0 | NInf => true | PInf | NaN => false end.

Record keyedLimiter := mkLimiter { keyPrefix : gostring; rps : float; burst : Z; lastDegradeWarn : Z }.

Definition degradeWarnInterval : Z := 30.

(** The messages name the value that was given. *)
Definition newKeyedLimiter (FormatFloat : float -> gostring) (keyPrefix : gostring) (rps : float) (burst : Z) : go unit keyedLimiter :=
  if float_le0 rps then Panicked ("wkhttp.newKeyedLimiter: rps must be > 0 (got " ++ FormatFloat rps ++ ")")
  else if burst <=? 0 then Panicked ("wkhttp.newKeyedLimiter: burst must be > 0 (got " ++ FormatInt burst ++ ")")
  else Ok (mkLimiter keyPrefix rps burst 0).

(** The throttle of the warnings, between the load of the last warning's time
    and the compare-and-swap; [true] when the warning is written. *)
Definition logDegrade_due (now prev : Z) : bool := negb (now - prev <? degradeWarnInterval).
Definition logDegrade_swap (now prev last : Z) : Z * bool :=
  if last =? prev then (now, true) else (last, false).

(** A throttle no other goroutine interferes with. *)
Definition logDegrade (now : Z) (k : keyedLimiter) : keyedLimiter * bool :=
  let prev := lastDegradeWarn k in
  if now - prev <? degradeWarnInterval then (k, false)
  else let '(last, logged) := logDegrade_swap now prev (lastDegradeWarn k) in
       (mkLimiter (keyPrefix k) (rps k) (burst k) last, logged).

(** What redis replies to a script: a list of values, or another shape. *)
Inductive reply := RArray (l : list any) | ROther.

(** Running the script on a bucket's key at a time, on the state of the server. *)
Class ScriptRunner (S : Type) := run_script : gostring -> float -> Z -> Q -> S -> S * (gostring + reply).

Definition as_int64 (v : any) : Z := match v with AInt z => z | _ => 0 end.

(** [d_warning] is the message that is handed to [logDegrade]. *)
Record decision := mkDecision { d_allowed : bool; d_remaining : Z; d_retryAfter : Z; d_degraded : bool; d_warning : option gostring }.

Section Allow.
Context {S : Type} `{ScriptRunner S}.

(** The decision for a key at a time, the clock in seconds. *)
Definition allow (k : keyedLimiter) (key : gostring) (now : Q) (s : S) : S * decision :=
  let '(s', res) := run_script (keyPrefix k ++ key) (rps k) (burst k) now s in
  match res with
  | inl _ => (s', mkDecision true (burst k) 0 true (Some "redis eval failed, falling open"))
  | inr (RArray [a; b; c]) =>
      let rem := as_int64 b in
      let rem := if rem <? 0 then 0 else rem in
      let rem := if burst k <? rem then burst k else rem in
      (s', mkDecision (as_int64 a =? 1) rem (as_int64 c) false None)
  | inr _ => (s', mkDecision true (burst k) 0 true (Some "unexpected redis script return shape"))
  end.
End Allow.

Definition setRateLimitHeaders (scope : gostring) (burst remaining : Z) (allowed : bool) (retryAfter : Z) (h : header) : header :=
  let h := h_Set "X-RateLimit-Limit" (FormatInt burst) h in
  let h := h_Set "X-RateLimit-Remaining" (FormatInt remaining) h in
  let h := h_Set "X-RateLimit-Scope" scope h in
  if negb allowed then h_Set "Retry-After" (FormatInt retryAfter) h else h.

(** ** The middlewares *)

Definition rateLimitErrorSpec (retryAfter : Z) : ErrorSpec :=
  mkErrorSpec "err.shared.rate.limited" "请求过于频繁，请稍后再试" StatusTooManyRequests StatusTooManyRequests
    ∅ {[ "retry_after"%go := JInt retryAfter ]} false.

Section Middlewares.
Context {S : Type} `{ScriptRunner S} {W : Type}.

(** The tail the middlewares share: decide, write the headers, answer or go on. *)
Definition limited (kl : keyedLimiter) (scope key : gostring) (now : Q) (c : Context W) (s : S) : Context W * S :=
  let '(s', d) := allow kl key now s in
  let c := on_gin (with_header (setRateLimitHeaders scope (burst kl) (d_remaining d) (d_allowed d) (d_retryAfter d))) c in
  if negb (d_allowed d) then (on_gin c_Abort (RenderError (rateLimitErrorSpec (d_retryAfter d)) c), s')
  else (on_gin c_Next c, s').

(** The log line about a missing address, written once per middleware, is left out. *)
Definition client_key (c : Context W) : gostring :=
  let ip := ClientIP (Request (gin c)) in
  if eqs ip [] then unknownIPKey else ip.

Definition RateLimitMiddleware (kl : keyedLimiter) (excludePaths : list gostring) (now : Q) (c : Context W) (s : S) : Context W * S :=
  if existsb (eqs (URL_Path (Request (gin c)))) excludePaths then (on_gin c_Next c, s)
  else limited kl "ip" (client_key c) now c s.

Definition StrictIPRateLimitMiddleware (tag : gostring) (kl : keyedLimiter) (now : Q) (c : Context W) (s : S) : Context W * S :=
  limited kl ("strict:" ++ tag) (client_key c) now c s.

Definition UIDRateLimitMiddleware (kl : keyedLimiter) (now : Q) (c : Context W) (s : S) : Context W * S :=
  match c_Get (gin c) "uid" with
  | None => (on_gin c_Next c, s)
  | Some uidAny =>
      match uidAny with
      | AString uid => if eqs uid [] then (on_gin c_Next c, s) else limited kl "uid" uid now c s
      | _ => (on_gin c_Next c, s)
      end
  end.
End Middlewares.

(** The limiter each middleware builds when it is set up. *)
Definition RateLimit_limiter FormatFloat rps burst := newKeyedLimiter FormatFloat "ratelimit:ip:" rps burst.
Definition StrictIPRateLimit_limiter FormatFloat tag rps burst := newKeyedLimiter FormatFloat ("ratelimit:strict:" ++ tag ++ ":") rps burst.
Definition UIDRateLimit_limiter FormatFloat rps burst := newKeyedLimiter FormatFloat "ratelimit:uid:" rps burst.

(** ** Limits from the environment *)
Section Env.
Context (Getenv : gostring -> gostring) (ParseFloat : gostring -> float * bool).

(** [ParseFloat]'s flag is set on an error. *)
Definition ParseRPSFromEnv (key : gostring) (def : float) : float :=
  let v := Getenv key in
  if eqs v [] then def
  else let '(n, err) := ParseFloat v in
       if err || float_le0 n then def else n.

Definition ParseBurstFromEnv (key : gostring) (def : Z) : Z :=
  let v := Getenv key in
  if eqs v [] then def
  else let '(n, err) := Atoi v in
       if bool_decide (err <> None) || (n <=? 0) then def else n.
End Env.

(** ** The middleware enforces the bound *)

(** What the limiter relies on: the server runs the script on the bucket of the
    key, and touches no other bucket, on the states where it answers. *)
Class BucketStore (S : Type) `{ScriptRunner S} := {
  bucket_of : S -> gostring -> option bucket;
  serves : S -> Prop;
  runs_script k q b now s : serves s ->
    let r := tokenBucketScript (bucket_of s k) q b now in
    let '(s', res) := run_script k (Fin q) b now s in
    res = inr (RArray [AInt (allowed r); AInt (remaining r); AInt (retry_after r)]) /\
    serves s' /\ bucket_of s' k = bucket_after (bucket_of s k) r /\
    forall k', k' <> k -> bucket_of s' k' = bucket_of s k';
}.

(** A request that no handler has stopped yet, whose errors are rendered by the
    built-in renderer. *)
Definition plain_request {W} (c : Context W) : Prop :=
  (forall l, wk c = Some l -> errorRenderer l = None) /\ aborted (gin c) = false.

(** The headers the limiter writes. *)
Definition limit_headers : list gostring :=
  map CanonicalMIMEHeaderKey ["X-RateLimit-Limit"; "X-RateLimit-Remaining"; "X-RateLimit-Scope"; "Retry-After"]%go.

Section Enforced.
Context {S : Type} `{BucketStore S} {W : Type}.

Lemma allow_spec kl q key now s :
  rps kl = Fin q -> serves s ->
  let r := tokenBucketScript (bucket_of s (keyPrefix kl ++ key)) q (burst kl) now in
  let '(s', d) := allow kl key now s in
  d_allowed d = (allowed r =? 1) /\ d_retryAfter d = retry_after r /\ d_degraded d = false /\ serves s' /\
  bucket_of s' (keyPrefix kl ++ key) = bucket_after (bucket_of s (keyPrefix kl ++ key)) r /\
  forall k', k' <> key -> bucket_of s' (keyPrefix kl ++ k') = bucket_of s (keyPrefix kl ++ k').
Proof.
  intros Hq Hs. cbv zeta. unfold allow. rewrite Hq.
  pose proof (runs_script (keyPrefix kl ++ key) q (burst kl) now s Hs) as Hr. cbv zeta in Hr.
  destruct (run_script (keyPrefix kl ++ key) (Fin q) (burst kl) now s) as [s' res].
  destruct Hr as (-> & Hs' & Hb & Hother). split_and!; [done..|]. intros k' Hk. apply Hother.
  by intros ?%app_inv_head.
Qed.

(** Whatever the server answers: a reply that is not three values fails open, with
    a full bucket and a warning; any other is obeyed, and the remaining tokens are
    between nothing and the burst. *)
Lemma allow_fails_open (kl : keyedLimiter) key now s :
  0 <= burst kl ->
  let d := (allow kl key now s).2 in
  match (run_script (keyPrefix kl ++ key) (rps kl) (burst kl) now s).2 with
  | inr (RArray [a; b; c]) => d_allowed d = (as_int64 a =? 1) /\ d_degraded d = false /\ d_warning d = None /\ d_retryAfter d = as_int64 c
  | _ => d_allowed d = true /\ d_remaining d = burst kl /\ d_retryAfter d = 0 /\ d_degraded d = true /\ is_Some (d_warning d)
  end /\
  0 <= d_remaining d <= burst kl.
Proof.
  intros Hb. assert (forall z, 0 <= (if burst kl <? (if z <? 0 then 0 else z) then burst kl else if z <? 0 then 0 else z) <= burst kl) as Hrem.
  { intros z. destruct (Z.ltb_spec z 0); match goal with |- context [?x <? ?y] => destruct (Z.ltb_spec x y) end; lia. }
  unfold allow. destruct (run_script _ _ _ _ _) as [s' [e|[[|a [|b [|c [|x l]]]]|]]]; cbn; (split; [by split_and!|]); first [apply Hrem|lia].
Qed.

(** A request that goes on to the handlers. *)
Definition passes (c' : Context W) : bool := negb (aborted (gin c')).

(** The middlewares' tail: a request passes exactly when the script allows it;
    otherwise it is answered once with 429 and the waiting time, and aborted. *)
Lemma limited_spec kl q scope key now (c : Context W) s :
  rps kl = Fin q -> serves s -> plain_request c ->
  let r := tokenBucketScript (bucket_of s (keyPrefix kl ++ key)) q (burst kl) now in
  let '(c', s') := limited kl scope key now c s in
  passes c' = (allowed r =? 1) /\
  (allowed r <> 1 -> exists msg, calls (gin c') = calls (gin c) ++ [CJSON StatusTooManyRequests (msg_status msg StatusTooManyRequests)] ++ [CAbort] /\
    h_Values (WriterHeader (gin c')) "Retry-After" = [FormatInt (retry_after r)]) /\
  serves s' /\ bucket_of s' (keyPrefix kl ++ key) = bucket_after (bucket_of s (keyPrefix kl ++ key)) r /\
  forall k', k' <> key -> bucket_of s' (keyPrefix kl ++ k') = bucket_of s (keyPrefix kl ++ k').
Proof.
  intros Hq Hs [Hl Ha0]. cbv zeta. unfold limited. pose proof (allow_spec kl q key now s Hq Hs) as Ha. cbv zeta in Ha.
  destruct (allow kl key now s) as [s' [al rem ra deg warn]]. cbn [d_allowed d_retryAfter d_degraded d_remaining] in *.
  destruct Ha as (-> & -> & _ & Hs' & Hb). destruct (Z.eqb_spec (allowed (tokenBucketScript (bucket_of s (keyPrefix kl ++ key)) q (burst kl) now)) 1) as [E|E].
  - cbn [negb]. split; [|done]. unfold passes, aborted in *. cbn. by rewrite existsb_app, Ha0.
  - cbn [negb]. rewrite RenderError_default by done. unfold defaultErrorRenderer, passes, aborted. cbn. split; [by rewrite !existsb_app, orb_true_r|].
    split; [|done]. intros _. eexists. rewrite <- app_assoc. split; [done|]. unfold setRateLimitHeaders. cbn [negb]. by header_cases.
Qed.

(** What the tail leaves alone: the request, the server, the keys, the headers
    that are not its own, and every bucket that is not of its limiter. *)
Lemma limited_frame kl q scope key now (c : Context W) s :
  rps kl = Fin q -> serves s -> plain_request c ->
  let '(c', s') := limited kl scope key now c s in
  wk c' = wk c /\ Request (gin c') = Request (gin c) /\ Keys (gin c') = Keys (gin c) /\
  (forall k, CanonicalMIMEHeaderKey k ∉ limit_headers -> h_Values (WriterHeader (gin c')) k = h_Values (WriterHeader (gin c)) k) /\
  forall k', (forall k, k' <> keyPrefix kl ++ k) -> bucket_of s' k' = bucket_of s k'.
Proof.
  intros Hq Hs [Hl _]. unfold limited, allow. rewrite Hq.
  pose proof (runs_script (keyPrefix kl ++ key) q (burst kl) now s Hs) as Hr. cbv zeta in Hr.
  destruct (run_script (keyPrefix kl ++ key) (Fin q) (burst kl) now s) as [s' res]. destruct Hr as (-> & _ & _ & Hother).
  cbn [d_allowed d_remaining d_retryAfter].
  assert (forall k' : gostring, (forall k, k' <> keyPrefix kl ++ k) -> bucket_of s' k' = bucket_of s k') as Hb.
  { intros k' Hk. apply Hother, Hk. }
  set (rem := if burst kl <? _ then _ else _). set (ok := as_int64 _ =? 1). set (ra := as_int64 (AInt (retry_after _))).
  assert (forall k, CanonicalMIMEHeaderKey k ∉ limit_headers ->
    h_Values (setRateLimitHeaders scope (burst kl) rem ok ra (WriterHeader (gin c))) k = h_Values (WriterHeader (gin c)) k) as Hh.
  { intros k Hk. unfold setRateLimitHeaders. destruct ok; cbn [negb]; rewrite !h_Values_Set, !decide_False; try done;
      intros E; destruct Hk; rewrite E; apply (bool_decide_unpack _); vm_compute; reflexivity. }
  destruct ok; cbn [negb].
  - cbn. by split_and!.
  - rewrite RenderError_default by done. unfold defaultErrorRenderer. cbn. by split_and!.
Qed.

End Enforced.

(** ** Runs of requests

    A handler meets requests, each at its time, and lets each pass or not;
    [keyof] is the client a request is counted for, if it is limited at all. *)
Section Runs.
Context {S R : Type}.
Context (h : Q -> R -> S -> bool * S) (keyof : R -> option gostring).

(** Which of the requests pass. *)
Fixpoint run_requests (reqs : list (Q * R)) (s : S) : list bool :=
  match reqs with
  | [] => []
  | (now, c) :: reqs' => let '(p, s') := h now c s in p :: run_requests reqs' s'
  end.

Fixpoint count_passed (l : list bool) : Z :=
  match l with [] => 0 | p :: l => (if p then 1 else 0) + count_passed l end.

(** The times of a client's requests, and how many of them pass. *)
Definition times_of (client : gostring) (reqs : list (Q * R)) : list Q :=
  flat_map (fun r => if bool_decide (keyof r.2 = Some client) then [r.1] else []) reqs.

Definition passed_of (client : gostring) (reqs : list (Q * R)) (s : S) : Z :=
  count_passed (zip_with (fun r p => bool_decide (keyof r.2 = Some client) && p) reqs (run_requests reqs s)).

(** The handler lets a client's request pass only if the script on the client's
    bucket allows it; it stops a request without asking the script, or runs it;
    and it touches no other bucket. [view] are the buckets of a state. *)
Definition meters (view : S -> gostring -> option bucket) (q : Q) (b : Z) (inv : S -> Prop) (ok : R -> Prop) : Prop :=
  forall now c s, inv s -> ok c ->
    let '(p, s') := h now c s in
    inv s' /\ (forall k, keyof c <> Some k -> view s' k = view s k) /\
    forall k, keyof c = Some k ->
      let r := tokenBucketScript (view s k) q b now in
      p = false /\ view s' k = view s k \/ (p = true -> allowed r = 1) /\ view s' k = bucket_after (view s k) r.

Lemma metered_script view q b inv ok client reqs s :
  meters view q b inv ok -> inv s -> Forall (fun r => ok r.2) reqs ->
  exists asked, asked `sublist_of` times_of client reqs /\
    passed_of client reqs s <= fold_right Z.add 0 (run_bucket (view s client) q b asked).2.
Proof.
  intros Hm Hs Hr. revert s Hs. induction Hr as [|[now c] reqs Hc Hr IH]; intros s Hs; [by exists []|].
  unfold passed_of, times_of in *. cbn [run_requests flat_map fst snd]. specialize (Hm now c s Hs Hc).
  destruct (h now c s) as [p s']. destruct Hm as (Hs' & Hother & Hkey). destruct (IH s' Hs') as (asked & Hsub & Hle).
  cbn [zip_with count_passed fst snd]. destruct (bool_decide (keyof c = Some client)) eqn:E; cbn [andb app].
  - apply bool_decide_eq_true in E. destruct (Hkey client E) as [[-> Hv]|[Hp Hv]].
    + exists asked. rewrite <- Hv. split; [by apply sublist_cons|]. lia.
    + exists (now :: asked). split; [by apply sublist_skip|]. cbn [run_bucket]. set (st := bucket_after _ _) in *. rewrite Hv in Hle.
      destruct (run_bucket st q b asked) as [st' out]. cbn [snd fold_right] in *.
      destruct (script_allowed_01 (view s client) q b now); destruct p; try (specialize (Hp eq_refl)); lia.
  - apply bool_decide_eq_false in E. rewrite (Hother client E) in Hle. exists asked. split; [done|]. lia.
Qed.

Lemma metered_bound view q b inv ok client reqs s t0 t1 :
  meters view q b inv ok -> inv s -> Forall (fun r => ok r.2) reqs ->
  (0 < q)%Q -> 0 <= b -> wf_bucket (view s client) -> times_between t0 (times_of client reqs) t1 ->
  (inject_Z (passed_of client reqs s) <= inject_Z b + q * (t1 - t0))%Q.
Proof.
  intros Hm Hs Hr Hq Hb Hw Ht. destruct (metered_script view q b inv ok client reqs s Hm Hs Hr) as (asked & Hsub & Hle).
  pose proof (bucket_rate_bound (view s client) q b t0 asked t1 Hq Hb Hw (times_between_sublist _ _ _ _ Ht Hsub)) as Hbound.
  rewrite Zle_Qle in Hle. lra.
Qed.
End Runs.

(** A middleware as such a handler. *)
Definition deciding {S W} (h : Q -> Context W -> S -> Context W * S) (now : Q) (c : Context W) (s : S) : bool * S :=
  let '(c', s') := h now c s in (passes c', s').

(** The limiter a middleware is built with is in order. *)
Lemma newKeyedLimiter_Ok FormatFloat prefix q b kl : newKeyedLimiter FormatFloat prefix (Fin q) b = Ok kl ->
  kl = mkLimiter prefix (Fin q) b 0 /\ (0 < q)%Q /\ 0 < b.
Proof.
  unfold newKeyedLimiter. cbn [float_le0]. destruct (Qle_bool q 0) eqn:Eq; [done|].
  destruct (Z.leb_spec b 0) as [|Hb]; [done|]. intros [= <-]. split; [done|]. split; [|done].
  apply Qnot_le_lt. intros Hle%Qle_bool_iff. by rewrite Hle in Eq.
Qed.

Section Middlewares_meter.
Context {S : Type} `{BucketStore S} {W : Type}.

(** The client of a request to the global middleware, on a path that is limited. *)
Definition ip_key (excludePaths : list gostring) (c : Context W) : option gostring :=
  if existsb (eqs (URL_Path (Request (gin c)))) excludePaths then None else Some (client_key c).

(** The user of a request to the middleware by user. *)
Definition uid_key (c : Context W) : option gostring :=
  match c_Get (gin c) "uid" with
  | Some (AString uid) => if eqs uid [] then None else Some uid
  | _ => None
  end.

Definition buckets (kl : keyedLimiter) (s : S) (k : gostring) : option bucket := bucket_of s (keyPrefix kl ++ k).

(** A middleware that passes requests without a key on and limits the others. *)
Lemma limited_meters kl q scope (keyof : Context W -> option gostring) (h : Q -> Context W -> S -> Context W * S) :
  rps kl = Fin q ->
  (forall now c s, h now c s = match keyof c with Some k => limited kl scope k now c s | None => (on_gin c_Next c, s) end) ->
  meters (deciding h) keyof (buckets kl) q (burst kl) serves plain_request.
Proof.
  intros Hq Hh now c s Hs Hc. unfold deciding. rewrite Hh. destruct (keyof c) as [key|]; [|done].
  pose proof (limited_spec kl q scope key now c s Hq Hs Hc) as Hl. cbv zeta in Hl.
  destruct (limited kl scope key now c s) as [c' s']. destruct Hl as (Hp & _ & Hs' & Hb & Hother).
  split; [done|]. unfold buckets. split.
  - intros k Hk. apply Hother. congruence.
  - intros k [= <-]. right. split; [|done]. rewrite Hp. apply Z.eqb_eq.
Qed.

Lemma UIDRateLimitMiddleware_key kl now (c : Context W) s :
  UIDRateLimitMiddleware kl now c s =
  match uid_key c with Some k => limited kl "uid" k now c s | None => (on_gin c_Next c, s) end.
Proof. unfold UIDRateLimitMiddleware, uid_key. by repeat case_match. Qed.

Lemma RateLimitMiddleware_key kl excl now (c : Context W) s :
  RateLimitMiddleware kl excl now c s =
  match ip_key excl c with Some k => limited kl "ip" k now c s | None => (on_gin c_Next c, s) end.
Proof. unfold RateLimitMiddleware, ip_key. by case_match. Qed.

Lemma limited_meters_frame kl q scope (keyof : Context W -> option gostring) (h : Q -> Context W -> S -> Context W * S) now c s :
  rps kl = Fin q ->
  (forall now c s, h now c s = match keyof c with Some k => limited kl scope k now c s | None => (on_gin c_Next c, s) end) ->
  serves s -> plain_request c ->
  let '(c', s') := h now c s in
  wk c' = wk c /\ Request (gin c') = Request (gin c) /\ Keys (gin c') = Keys (gin c) /\
  (forall k, CanonicalMIMEHeaderKey k ∉ limit_headers -> h_Values (WriterHeader (gin c')) k = h_Values (WriterHeader (gin c)) k) /\
  forall k', (forall k, k' <> keyPrefix kl ++ k) -> bucket_of s' k' = bucket_of s k'.
Proof. intros Hq Hh Hs Hc. rewrite Hh. destruct (keyof c) as [key|]; [by apply limited_frame with q|]. cbn. by split_and!. Qed.
End Middlewares_meter.

(** C2 The global limiter holds its promise per client: of the requests of one
    client address to paths that are limited, at most [burst] plus [rate] times
    the elapsed seconds pass, whatever requests of other clients come between
    them, over any servers that share the redis and a clock. *)
Theorem RateLimitMiddleware_bound {S} `{BucketStore S} {W} FormatFloat kl q b excl client (reqs : list (Q * Context W)) s t0 t1
  (Hkl : RateLimit_limiter FormatFloat (Fin q) b = Ok kl) (Hs : serves s)
  (Hst : wf_bucket (bucket_of s ("ratelimit:ip:" ++ client)))
  (Hreqs : Forall (fun r => plain_request r.2) reqs)
  (Ht : times_between t0 (times_of (ip_key excl) client reqs) t1) :
  (inject_Z (passed_of (deciding (RateLimitMiddleware kl excl)) (ip_key excl) client reqs s) <= inject_Z b + q * (t1 - t0))%Q.
Proof.
  apply newKeyedLimiter_Ok in Hkl as (-> & Hq & Hb).
  set (kl := mkLimiter "ratelimit:ip:" (Fin q) b 0).
  apply (metered_bound (deciding (RateLimitMiddleware kl excl)) (ip_key excl) (buckets kl) q b serves plain_request); [|done..|lia|done|done].
  apply (limited_meters kl q "ip"); [done|]. apply RateLimitMiddleware_key.
Qed.

(** ** A server for the examples *)

Definition demo_buckets := gmap gostring bucket.

#[export] Instance demo_runner : ScriptRunner demo_buckets := fun k rate b now s =>
  match rate with
  | Fin q => let r := tokenBucketScript (s !! k) q b now in
             (match written r with Some (bk, _) => <[k := bk]> s | None => s end,
              inr (RArray [AInt (allowed r); AInt (remaining r); AInt (retry_after r)]))
  | _ => (s, inl "ERR value is not an integer or out of range"%go)
  end.

#[export, program] Instance demo_bucket_store : BucketStore demo_buckets := {|
  bucket_of s k := s !! k;
  serves _ := True;
|}.
Next Obligation.
  cbv zeta. unfold run_script, demo_runner, bucket_after. split; [done|]. split; [done|].
  destruct (written (tokenBucketScript (s !! k) q b now)) as [[bk t]|].
  - split; [apply lookup_insert_eq|]. intros k' Hk. by apply lookup_insert_ne.
  - done.
Qed.

Definition limit_request (xff : gostring) : Context unit :=
  mkCtx (mkGin (mkRequest "GET" "/v1/x" (h_Set "X-Forwarded-For" xff ∅) [] ∅ (mkContext None)) ∅ ∅ []) None.

Definition demo_limiter : keyedLimiter := mkLimiter "ratelimit:ip:" (Fin (1 # 2)) 2 0.

Definition demo_requests : list (Q * Context unit) :=
  map (fun t => (t, limit_request "8.8.8.8, 203.0.113.7")) [0; 0; 0; 1; 2; 3]%Q ++ [(5%Q, limit_request "198.51.100.1")].

Lemma RateLimitMiddleware_bound_witness :
  let run := passed_of (S := demo_buckets) (deciding (RateLimitMiddleware demo_limiter ["/health"%go])) (ip_key ["/health"%go]) "203.0.113.7" demo_requests ∅ in
  run = 3 /\ (inject_Z run <= inject_Z 2 + (1 # 2) * (3 - 0))%Q.
Proof.
  intros run. subst run. split; [by vm_compute|].
  apply (@RateLimitMiddleware_bound demo_buckets demo_runner demo_bucket_store unit (fun _ => []) demo_limiter (1 # 2) 2 ["/health"%go] "203.0.113.7").
  - done.
  - exact I.
  - exact I.
  - unfold demo_requests. repeat (constructor; [done|]). constructor.
  - replace (times_of _ _ _) with [0; 0; 0; 1; 2; 3]%Q by by vm_compute. repeat (constructor; [done|]). by constructor.
Defined.

(** A rate that is not a number is accepted, and then the script fails on every
    request and everything passes. *)
Example rate_not_a_number :
  (exists kl, RateLimit_limiter (fun _ => []) NaN 2 = Ok kl /\
    run_requests (S := demo_buckets) (deciding (RateLimitMiddleware kl [])) demo_requests ∅ = repeat true 7) /\
  ParseRPSFromEnv (fun _ => "NaN") (fun _ => (NaN, false)) "RPS" (Fin 1) = NaN.
Proof. split; [eexists; split; [done|by vm_compute]|done]. Qed.

(** ** The throttle of the warnings under concurrency

    Goroutines that see a failure load the time of the last warning and, when a
    warning is due by their clock, try to swap it later, in any order. *)
Record throttle := mkThrottle { last_warn : Z; pending : list (Z * Z); warnings : list Z }.

Definition throttle_init (t : throttle) : Prop := t = mkThrottle 0 [] [].

Inductive throttle_step : throttle -> throttle -> Prop :=
| throttle_early t now : logDegrade_due now (last_warn t) = false -> throttle_step t t
| throttle_load t now : logDegrade_due now (last_warn t) = true ->
    throttle_step t (mkThrottle (last_warn t) ((now, last_warn t) :: pending t) (warnings t))
| throttle_swap t p1 now prev p2 : pending t = p1 ++ (now, prev) :: p2 ->
    throttle_step t
      (let '(last, logged) := logDegrade_swap now prev (last_warn t) in
       mkThrottle last (p1 ++ p2) (if logged then now :: warnings t else warnings t)).

Definition spaced (newer older : Z) : Prop := older + degradeWarnInterval <= newer.

Definition throttle_inv (t : throttle) : Prop :=
  head (warnings t ++ [0]) = Some (last_warn t) /\ Sorted spaced (warnings t ++ [0]) /\
  Forall (fun p => spaced p.1 p.2) (pending t).

Lemma throttle_inv_step t t' : throttle_inv t -> throttle_step t t' -> throttle_inv t'.
Proof.
  intros (Hh & Hs & Hp) Hstep. destruct Hstep as [t now Hd|t now Hd|t p1 now prev p2 Hpend]; [done| |].
  - split; [done|]. split; [done|]. cbn. constructor; [|done]. unfold logDegrade_due, spaced in *. cbn.
    apply negb_true_iff, Z.ltb_ge in Hd. lia.
  - rewrite Hpend in Hp. apply Forall_app in Hp as [Hp1 [Hnp Hp2]%Forall_cons].
    unfold logDegrade_swap. destruct (Z.eqb_spec (last_warn t) prev) as [E|E].
    + split; [done|]. split; [|by apply Forall_app]. cbn. constructor; [done|].
      destruct (warnings t ++ [0]) as [|w ws]; [done|]. injection Hh as ->. constructor. by rewrite E.
    + split; [done|]. split; [done|]. by apply Forall_app.
Qed.

(** C39 However the failures of concurrent requests interleave, and whatever their
    clocks say, two warnings are at least the interval apart. *)
Theorem logDegrade_throttled t (Ht : reachable throttle_init throttle_step t) :
  Sorted spaced (warnings t).
Proof.
  assert (throttle_inv t) as (_ & Hs & _).
  { revert t Ht. apply reachable_invariant; [|apply throttle_inv_step]. intros t ->. repeat constructor. }
  revert Hs. generalize (warnings t). induction l as [|w ws IH]; cbn; intros Hs; [done|].
  apply Sorted_inv in Hs as [Hs Hh]. constructor; [by apply IH|]. destruct ws; [done|]. by inversion Hh; constructor.
Qed.

Definition throttle_demo : throttle := mkThrottle 100 [] [100].

Lemma throttle_demo_reachable : reachable throttle_init throttle_step throttle_demo.
Proof.
  change throttle_demo with (let '(last, logged) := logDegrade_swap 110 0 100 in mkThrottle last [] (if logged then [110; 100] else [100])).
  apply (reach_step _ _ (mkThrottle 100 [(110, 0)] [100])); [|by apply (throttle_swap (mkThrottle 100 [(110, 0)] [100]) [] 110 0 [])].
  apply (reach_step _ _ (mkThrottle 0 [(110, 0); (100, 0)] [])).
  2:{ apply (throttle_swap (mkThrottle 0 [(110, 0); (100, 0)] []) [(110, 0)] 100 0 []). done. }
  apply (reach_step _ _ (mkThrottle 0 [(100, 0)] [])); [|by apply (throttle_load (mkThrottle 0 [(100, 0)] []) 110)].
  apply (reach_step _ _ (mkThrottle 0 [] [])); [by apply reach_init|by apply (throttle_load (mkThrottle 0 [] []) 100)].
Qed.

Lemma logDegrade_throttled_witness : reachable throttle_init throttle_step throttle_demo /\ Sorted spaced (warnings throttle_demo).
Proof. split; [apply throttle_demo_reachable|apply logDegrade_throttled, throttle_demo_reachable]. Defined.
