(* ===== verification/Config.v ===== *)
(** * Config: the configuration ([config/config.go])

    Defaults, environment and configuration file, the paths derived from the
    configuration, and the channels of customer service. The viper object and the
    environment are parameters; a section of the file is a record, a group of
    assignments of [ConfigureWithViper] the function of that record. *)
From S2P Require Import Prelude GoStr Crypto Util.

#[global] Open Scope Z_scope.
#[global] Open Scope go_scope.

(** ** Constants *)

Definition DebugMode : gostring := "debug".
Definition ReleaseMode : gostring := "release".
Definition BenchMode : gostring := "bench".

Definition FileServiceAliyunOSS : gostring := "aliyunOSS".
Definition FileServiceSeaweedFS : gostring := "seaweedFS".
Definition FileServiceMinio : gostring := "minio".
Definition FileServiceQiniu : gostring := "qiniu".
Definition FileServiceTencentCOS : gostring := "tencentCOS".

Definition SMSProviderAliyun : gostring := "aliyun".
Definition SMSProviderUnisms : gostring := "unisms".
Definition SMSProviderSmsbao : gostring := "smsbao".

(** Durations in nanoseconds. *)
Definition Millisecond : Z := 1000000.
Definition Second : Z := 1000 * Millisecond.
Definition Minute : Z := 60 * Second.
Definition Hour : Z := 60 * Minute.

(** ** The configuration *)

Record TablePartitionConfig := mkTablePartitionConfig {
  TablePartitionConfig_MessageTableCount : Z; TablePartitionConfig_MessageUserEditTableCount : Z;
  TablePartitionConfig_ChannelOffsetTableCount : Z }.
Record External := mkExternal {
  External_IP : gostring; External_BaseURL : gostring; External_H5BaseURL : gostring; External_APIBaseURL : gostring;
  External_WebLoginURL : gostring }.
Record Logger := mkLogger {
  Logger_Dir : gostring; Logger_Level : Z; Logger_LineNum : bool }.
Record DB := mkDB {
  DB_MySQLAddr : gostring; DB_MySQLMaxOpenConns : Z; DB_MySQLMaxIdleConns : Z; DB_MySQLConnMaxLifetime : Z;
  DB_Migration : bool; DB_RedisAddr : gostring; DB_RedisPass : gostring; DB_RedisTLS : bool;
  DB_RedisTLSInsecureSkipVerify : bool; DB_RedisTLSCAFile : gostring; DB_AsynctaskRedisAddr : gostring }.
Record Cluster := mkCluster {
  Cluster_NodeID : Z }.
Record Cache := mkCache {
  Cache_TokenCachePrefix : gostring; Cache_LoginDeviceCachePrefix : gostring; Cache_LoginDeviceCacheExpire : Z;
  Cache_UIDTokenCachePrefix : gostring; Cache_FriendApplyTokenCachePrefix : gostring; Cache_FriendApplyExpire : Z;
  Cache_TokenExpire : Z; Cache_NameCacheExpire : Z }.
Record Account := mkAccount {
  Account_SystemUID : gostring; Account_FileHelperUID : gostring; Account_SystemGroupID : gostring;
  Account_SystemGroupName : gostring; Account_AdminUID : gostring }.
Record WuKongIM := mkWuKongIM {
  WuKongIM_APIURL : gostring; WuKongIM_ManagerToken : gostring }.
Record Avatar := mkAvatar {
  Avatar_Default : gostring; Avatar_DefaultCount : Z; Avatar_Partition : Z; Avatar_DefaultBaseURL : gostring }.
Record ShortNo := mkShortNo {
  ShortNo_NumOn : bool; ShortNo_NumLen : Z; ShortNo_EditOff : bool }.
Record Robot := mkRobot {
  Robot_MessageExpire : Z; Robot_InlineQueryTimeout : Z; Robot_EventPoolSize : Z }.
Record Gitee := mkGitee {
  Gitee_OAuthURL : gostring; Gitee_ClientID : gostring; Gitee_ClientSecret : gostring }.
Record Github := mkGithub {
  Github_OAuthURL : gostring; Github_ClientID : gostring; Github_ClientSecret : gostring }.
Record OWT := mkOWT {
  OWT_URL : gostring; OWT_ServiceID : gostring; OWT_ServiceKey : gostring; OWT_RoomMaxCount : Z }.
Record Livekit := mkLivekit {
  Livekit_Off : bool; Livekit_URL : gostring; Livekit_APIKey : gostring; Livekit_APISecret : gostring;
  Livekit_InviteTimeoutSeconds : Z; Livekit_RoomMaxCount : Z }.
Record Register := mkRegister {
  Register_Off : bool; Register_OnlyChina : bool; Register_StickerAddOff : bool; Register_UsernameOn : bool;
  Register_EmailOn : bool }.
Record Organization := mkOrganization {
  Organization_ImportOn : bool }.
Record Friend := mkFriend {
  Friend_AddedTipsText : gostring }.
Record ZincSearch := mkZincSearch {
  ZincSearch_SearchOn : bool; ZincSearch_APIURL : gostring; ZincSearch_ZincUsername : gostring;
  ZincSearch_ZincPassword : gostring; ZincSearch_SyncIntervalSecond : Z; ZincSearch_SyncCount : Z }.
Record Search := mkSearch {
  Search_ReadBackend : gostring }.
Record ESIndex := mkESIndex {
  ESIndex_On : bool; ESIndex_Addrs : list gostring; ESIndex_Username : gostring; ESIndex_Password : gostring;
  ESIndex_Index : gostring }.
Record Group := mkGroup {
  Group_SameDayCreateMaxCount : Z; Group_CreateGroupVerifyFriendOn : bool }.
Record Message := mkMessage {
  Message_SendMessageOn : bool; Message_SyncReadedCountIntervalSecond : Z }.
Record Wechat := mkWechat {
  Wechat_AppID : gostring; Wechat_AppSecret : gostring }.
Record Tracing := mkTracing {
  Tracing_On : bool; Tracing_Addr : gostring }.
Record Support := mkSupport {
  Support_Email : gostring; Support_EmailSmtp : gostring; Support_EmailPwd : gostring }.
Record AliyunSMSConfig := mkAliyunSMSConfig {
  AliyunSMSConfig_AccessKeyID : gostring; AliyunSMSConfig_AccessSecret : gostring;
  AliyunSMSConfig_TemplateCode : gostring; AliyunSMSConfig_SignName : gostring }.
Record OSSConfig := mkOSSConfig {
  OSSConfig_Endpoint : gostring; OSSConfig_BucketName : gostring; OSSConfig_BucketURL : gostring;
  OSSConfig_AccessKeyID : gostring; OSSConfig_AccessKeySecret : gostring }.
Record MinioConfig := mkMinioConfig {
  MinioConfig_URL : gostring; MinioConfig_UploadURL : gostring; MinioConfig_DownloadURL : gostring;
  MinioConfig_AccessKeyID : gostring; MinioConfig_SecretAccessKey : gostring }.
Record SeaweedConfig := mkSeaweedConfig {
  SeaweedConfig_URL : gostring }.
Record QiniuConfig := mkQiniuConfig {
  QiniuConfig_URL : gostring; QiniuConfig_BucketName : gostring; QiniuConfig_AccessKey : gostring;
  QiniuConfig_SecretKey : gostring }.
Record S3Config := mkS3Config {
  S3Config_Endpoint : gostring; S3Config_Region : gostring; S3Config_Bucket : gostring;
  S3Config_AccessKeyID : gostring; S3Config_SecretAccessKey : gostring; S3Config_SessionToken : gostring;
  S3Config_DownloadURL : gostring; S3Config_Prefix : gostring; S3Config_UsePathStyle : bool }.
Record COSConfig := mkCOSConfig {
  COSConfig_SecretID : gostring; COSConfig_SecretKey : gostring; COSConfig_Bucket : gostring;
  COSConfig_Region : gostring; COSConfig_BucketURL : gostring; COSConfig_Prefix : gostring }.
Record UnismsConfig := mkUnismsConfig {
  UnismsConfig_Signature : gostring; UnismsConfig_AccessKeyID : gostring; UnismsConfig_AccessKeySecret : gostring;
  UnismsConfig_TemplateId : gostring }.
Record SmsbaoConfig := mkSmsbaoConfig {
  SmsbaoConfig_Account : gostring; SmsbaoConfig_APIKey : gostring; SmsbaoConfig_Template : gostring }.
Record AliyunInternationalSMSConfig := mkAliyunInternationalSMSConfig {
  AliyunInternationalSMSConfig_AccessKeyID : gostring; AliyunInternationalSMSConfig_AccessSecret : gostring;
  AliyunInternationalSMSConfig_SignName : gostring }.
Record APNSPush := mkAPNSPush {
  APNSPush_Dev : bool; APNSPush_Topic : gostring; APNSPush_Password : gostring; APNSPush_Cert : gostring }.
Record HMSPush := mkHMSPush {
  HMSPush_PackageName : gostring; HMSPush_AppID : gostring; HMSPush_AppSecret : gostring }.
Record MIPush := mkMIPush {
  MIPush_PackageName : gostring; MIPush_AppID : gostring; MIPush_AppSecret : gostring; MIPush_ChannelID : gostring }.
Record OPPOPush := mkOPPOPush {
  OPPOPush_PackageName : gostring; OPPOPush_AppID : gostring; OPPOPush_AppKey : gostring;
  OPPOPush_AppSecret : gostring; OPPOPush_MasterSecret : gostring }.
Record VIVOPush := mkVIVOPush {
  VIVOPush_PackageName : gostring; VIVOPush_AppID : gostring; VIVOPush_AppKey : gostring;
  VIVOPush_AppSecret : gostring }.
Record FIREBASEPush := mkFIREBASEPush {
  FIREBASEPush_PackageName : gostring; FIREBASEPush_JsonPath : gostring; FIREBASEPush_ProjectId : gostring }.
Record Push := mkPush {
  Push_ContentDetailOn : bool; Push_PushPoolSize : Z; Push_APNS : APNSPush; Push_MI : MIPush; Push_HMS : HMSPush;
  Push_VIVO : VIVOPush; Push_OPPO : OPPOPush; Push_FIREBASE : FIREBASEPush }.
Record Config := mkConfig {
  cfg_Mode : gostring; cfg_AppID : gostring; cfg_AppName : gostring; cfg_Version : gostring; cfg_RootDir : gostring;
  cfg_Addr : gostring; cfg_GRPCAddr : gostring; cfg_SSLAddr : gostring; cfg_MessageSaveAcrossDevice : bool;
  cfg_WelcomeMessage : gostring; cfg_PhoneSearchOff : bool; cfg_OnlineStatusOn : bool;
  cfg_GroupUpgradeWhenMemberCount : Z; cfg_EventPoolSize : Z; cfg_AdminPwd : gostring; cfg_External : External;
  cfg_Logger : Logger; cfg_DB : DB; cfg_Cluster : Cluster; cfg_Cache : Cache; cfg_Account : Account;
  cfg_FileService : gostring; cfg_OSS : OSSConfig; cfg_Minio : MinioConfig; cfg_Seaweed : SeaweedConfig;
  cfg_Qiniu : QiniuConfig; cfg_COS : COSConfig; cfg_S3 : S3Config; cfg_SMSCode : gostring;
  cfg_SMSProvider : gostring; cfg_UniSMS : UnismsConfig; cfg_AliyunSMS : AliyunSMSConfig;
  cfg_AliyunInternationalSMS : AliyunInternationalSMSConfig; cfg_Smsbao : SmsbaoConfig; cfg_WuKongIM : WuKongIM;
  cfg_Avatar : Avatar; cfg_ShortNo : ShortNo; cfg_Robot : Robot; cfg_Gitee : Gitee; cfg_Github : Github;
  cfg_OWT : OWT; cfg_Livekit : Livekit; cfg_Register : Register; cfg_Organization : Organization;
  cfg_Friend : Friend; cfg_ZincSearch : ZincSearch; cfg_Search : Search; cfg_ESIndex : ESIndex; cfg_Group : Group;
  cfg_Push : Push; cfg_Message : Message; cfg_Wechat : Wechat; cfg_Tracing : Tracing; cfg_Support : Support;
  cfg_Test : bool; cfg_QRCodeInfoURL : gostring; cfg_VisitorUIDPrefix : gostring; cfg_TimingWheelTick : Z;
  cfg_TimingWheelSize : Z; cfg_ElasticsearchURL : gostring; cfg_TablePartitionConfig : TablePartitionConfig;
  cfg_AppRSAPrivateKey : gostring; cfg_AppRSAPubKey : gostring }.

Definition newTablePartitionConfig : TablePartitionConfig := mkTablePartitionConfig 5 3 3.

Definition zero_Logger : Logger := mkLogger [] 0 false.
Definition zero_OSSConfig : OSSConfig := mkOSSConfig [] [] [] [] [].
Definition zero_MinioConfig : MinioConfig := mkMinioConfig [] [] [] [] [].
Definition zero_SeaweedConfig : SeaweedConfig := mkSeaweedConfig [].
Definition zero_QiniuConfig : QiniuConfig := mkQiniuConfig [] [] [] [].
Definition zero_COSConfig : COSConfig := mkCOSConfig [] [] [] [] [] [].
Definition zero_S3Config : S3Config := mkS3Config [] [] [] [] [] [] [] [] false.
Definition zero_UnismsConfig : UnismsConfig := mkUnismsConfig [] [] [] [].
Definition zero_AliyunSMSConfig : AliyunSMSConfig := mkAliyunSMSConfig [] [] [] [].
Definition zero_AliyunInternationalSMSConfig : AliyunInternationalSMSConfig := mkAliyunInternationalSMSConfig [] [] [].
Definition zero_SmsbaoConfig : SmsbaoConfig := mkSmsbaoConfig [] [] [].
Definition zero_Register : Register := mkRegister false false false false false.
Definition zero_Organization : Organization := mkOrganization false.
Definition zero_ZincSearch : ZincSearch := mkZincSearch false [] [] [] 0 0.
Definition zero_MIPush : MIPush := mkMIPush [] [] [] [].
Definition zero_HMSPush : HMSPush := mkHMSPush [] [] [].
Definition zero_VIVOPush : VIVOPush := mkVIVOPush [] [] [] [].
Definition zero_OPPOPush : OPPOPush := mkOPPOPush [] [] [] [] [].
Definition zero_FIREBASEPush : FIREBASEPush := mkFIREBASEPush [] [] [].
Definition zero_Message : Message := mkMessage false 0.
Definition zero_Wechat : Wechat := mkWechat [] [].
Definition zero_Tracing : Tracing := mkTracing false [].

(** The groups of [New] that are not zero, from its second half. *)
Definition New_Gitee : Gitee := mkGitee "https://gitee.com/oauth/authorize" [] [].
Definition New_Github : Github := mkGithub "https://github.com/login/oauth/authorize" [] [].
Definition New_OWT : OWT := mkOWT [] [] [] 9.
Definition New_Livekit : Livekit := mkLivekit false [] [] [] 60 9.
Definition New_Friend : Friend := mkFriend "我们已经是好友了，可以愉快的聊天了！".
Definition New_Group : Group := mkGroup 10 true.
Definition New_Push : Push := mkPush true 100 (mkAPNSPush true "com.xinbida.tangsengdaodao" "123456" []) zero_MIPush zero_HMSPush zero_VIVOPush zero_OPPOPush zero_FIREBASEPush.
Definition New_Support : Support := mkSupport [] "smtp.exmail.qq.com:25" [].
Definition New_Search : Search := mkSearch "zinc".
Definition New_ESIndex : ESIndex := mkESIndex false [] [] [] "octo-message".

(** ** The environment *)
Section Environment.
Context (Getenv : gostring -> gostring).

Definition GetEnv (key defaultValue : gostring) : gostring :=
  let v := Getenv key in
  if eqs (TrimSpace v) [] then defaultValue else v.

Definition GetEnvBool (key : gostring) (defaultValue : bool) : bool :=
  let v := Getenv key in
  if eqs (TrimSpace v) [] then defaultValue
  else if eqs v "true" then true else false.

Definition GetEnvInt64 (key : gostring) (defaultValue : Z) : Z :=
  let v := Getenv key in
  if eqs (TrimSpace v) [] then defaultValue
  else match ParseInt v 64 with
       | (_, Some _) => defaultValue
       | (i, None) => i
       end.

Definition GetEnvInt (key : gostring) (defaultValue : Z) : Z :=
  let v := Getenv key in
  if eqs (TrimSpace v) [] then defaultValue
  else match ParseInt v 64 with
       | (_, Some _) => defaultValue
       | (i, None) => int64 i
       end.

(** [strconv.ParseFloat] on the bits of a float64, with a flag for its error. *)
Definition GetEnvFloat64 (ParseFloat : gostring -> Z * bool) (key : gostring) (defaultValue : Z) : Z :=
  let v := Getenv key in
  if eqs (TrimSpace v) [] then defaultValue
  else let '(i, err) := ParseFloat v in if err then defaultValue else i.

(** The variable after the override. *)
Definition StringEnv (v key : gostring) : gostring :=
  let vv := Getenv key in
  if negb (eqs vv []) then vv else v.

Definition BoolEnv (b : bool) (key : gostring) : bool :=
  let value := Getenv key in
  if negb (eqs (TrimSpace value) []) then (if eqs value "true" then true else false) else b.

Definition New : Config :=
  mkConfig ReleaseMode "tangsengdaodao" "唐僧叨叨" [] "tsdddata" ":8090" "0.0.0.0:6979" [] true "欢迎使用{{appName}}" false
    true 1000 100 [] (mkExternal [] [] [] [] []) zero_Logger
    (mkDB "root:demo@tcp(127.0.0.1:3306)/test?charset=utf8mb4&parseTime=true" 100 10 (Second * 60 * 60 * 4) true "127.0.0.1:6379" [] false false [] [])
    (mkCluster 1)
    (mkCache "token:" "login_device:" (Minute * 5) "uidtoken:" "friend_token:" (Hour * 24 * 15) (Hour * 24 * 30) (Hour * 24 * 7))
    (mkAccount "u_10000" "fileHelper" "g_10000" "意见反馈群" "admin") FileServiceMinio zero_OSSConfig zero_MinioConfig
    zero_SeaweedConfig zero_QiniuConfig zero_COSConfig zero_S3Config [] SMSProviderAliyun zero_UnismsConfig
    zero_AliyunSMSConfig zero_AliyunInternationalSMSConfig zero_SmsbaoConfig (mkWuKongIM "http://127.0.0.1:5001" [])
    (mkAvatar [] 900 100 []) (mkShortNo false 7 false) (mkRobot (Hour * 24 * 7) (Second * 10) 100)
    New_Gitee New_Github
    New_OWT New_Livekit zero_Register zero_Organization
    New_Friend zero_ZincSearch New_Search New_ESIndex
    New_Group
    New_Push
    zero_Message zero_Wechat zero_Tracing New_Support (GetEnvBool "Test" false)
    "v1/qrcode/:code" "_vt_" (Millisecond * 10) 100 "http://elasticsearch:9200" newTablePartitionConfig [] [].
End Environment.

(** The first intranet address of the interfaces, empty when there is none. *)
Definition getIntranetIP (ifaces : option (list iface)) : go unit gostring :=
  match GetIntranetIP ifaces with
  | (_, Some err) => Panicked err
  | (ip :: _, None) => Ok ip
  | ([], None) => Ok []
  end.

(** ** Reading the configuration file *)

Class Viper := {
  vp_GetString : gostring -> gostring;
  vp_GetStringSlice : gostring -> list gostring;
  vp_value : Type;
  vp_Get : gostring -> option vp_value;   (** [None] is nil *)
  cast_ToBool : vp_value -> bool;
  vp_GetBool : gostring -> bool;
  vp_GetInt : gostring -> Z;
  vp_GetInt64 : gostring -> Z;
  vp_GetDuration : gostring -> Z;
}.

(** [strings.ReplaceAll] of a non-empty substring; every step passes at least a byte. *)
Fixpoint replace_all (fuel : nat) (s old new : gostring) : gostring :=
  match fuel with
  | O => s
  | S f => if HasPrefix s old then new ++ replace_all f (drop (length old) s) old new
           else match s with [] => [] | c :: s' => c :: replace_all f s' old new end
  end.
Definition ReplaceAll (s old new : gostring) : gostring := replace_all (S (length s)) s old new.

Section File.
Context `{Viper} (Getenv : gostring -> gostring).

Definition getString (key defaultValue : gostring) : gostring :=
  let v := vp_GetString key in
  if eqs v [] then defaultValue else v.

Definition getStringSlice (key : gostring) (defaultValue : list gostring) : list gostring :=
  let raw := TrimSpace (vp_GetString key) in
  let out := if negb (eqs raw []) && ContainsByte raw ","%char
             then filter (fun p => p <> []) (map TrimSpace (Split raw ","%char)) else [] in
  match out with
  | _ :: _ => out
  | [] => let v := vp_GetStringSlice key in
          match v with [] => defaultValue | _ => v end
  end.

Definition getBool (key : gostring) (defaultValue : bool) : bool :=
  match vp_Get key with None => defaultValue | Some objV => cast_ToBool objV end.

Definition getInt (key : gostring) (defaultValue : Z) : Z :=
  let v := vp_GetInt key in if v =? 0 then defaultValue else v.

Definition getInt64 (key : gostring) (defaultValue : Z) : Z :=
  let v := vp_GetInt64 key in if v =? 0 then defaultValue else v.

Definition getDuration (key : gostring) (defaultValue : Z) : Z :=
  let v := vp_GetDuration key in if v =? 0 then defaultValue else v.

(** A value that falls back when it is blank. *)
Definition blank (s : gostring) : bool := eqs (TrimSpace s) [].

Definition DebugLevel : Z := -1.
Definition InfoLevel : Z := 0.

(** A level of zap is an int8. *)
Definition configureLog (mode rootDir : gostring) : Logger :=
  let logLevel := vp_GetInt "logger.level" in
  let logLevel := if logLevel =? 0 then (if eqs mode DebugMode then DebugLevel else InfoLevel) else int64 (logLevel - 2) in
  let dir := vp_GetString "logger.dir" in
  let dir := if blank dir then "logs"%go else dir in
  let dir := if negb (HasPrefix (TrimSpace dir) "/") then path_Join rootDir dir else dir in
  mkLogger dir (swrap 8 logLevel) (vp_GetBool "logger.lineNum").

Definition configure_External (intranetIP : gostring) (v : External) : External :=
  let ip := getString "external.ip" (External_IP v) in
  let ip := if blank ip then intranetIP else ip in
  let webLogin := getString "external.webLoginURL" (External_WebLoginURL v) in
  let base := getString "external.baseURL" (External_BaseURL v) in
  let webLogin := if blank webLogin then "http://" ++ ip ++ ":82" else webLogin in
  let base := if blank base then "http://" ++ ip ++ ":8090" else base in
  let h5 := if blank (External_H5BaseURL v) then base ++ "/web" else External_H5BaseURL v in
  let api := if blank (External_APIBaseURL v) then base ++ "/v1" else External_APIBaseURL v in
  mkExternal ip base h5 api webLogin.

Definition configure_Minio (fileService externalIP : gostring) (v : MinioConfig) : MinioConfig :=
  let url := getString "minio.url" (MinioConfig_URL v) in
  let url := if eqs fileService FileServiceMinio && blank url then "http://" ++ externalIP ++ ":9000" else url in
  let upload := getString "minio.uploadURL" (MinioConfig_UploadURL v) in
  let upload := if blank upload then url else upload in
  let download := getString "minio.downloadURL" (MinioConfig_DownloadURL v) in
  let download := if blank download then url else download in
  mkMinioConfig url upload download (getString "minio.accessKeyID" (MinioConfig_AccessKeyID v))
    (getString "minio.secretAccessKey" (MinioConfig_SecretAccessKey v)).

Definition COS_from_file (v : COSConfig) : COSConfig :=
  mkCOSConfig (getString "cos.secretID" (COSConfig_SecretID v)) (getString "cos.secretKey" (COSConfig_SecretKey v))
    (getString "cos.bucket" (COSConfig_Bucket v)) (getString "cos.region" (COSConfig_Region v))
    (getString "cos.bucketURL" (COSConfig_BucketURL v)) (getString "cos.prefix" (COSConfig_Prefix v)).

(** The environment wins over the file. *)
Definition configure_COS (v : COSConfig) : COSConfig :=
  let v := COS_from_file v in
  mkCOSConfig (StringEnv Getenv (COSConfig_SecretID v) "TS_COS_SECRET_ID")
    (StringEnv Getenv (COSConfig_SecretKey v) "TS_COS_SECRET_KEY")
    (COSConfig_Bucket v) (COSConfig_Region v) (COSConfig_BucketURL v) (COSConfig_Prefix v).

Definition S3_from_file (v : S3Config) : S3Config :=
  mkS3Config (getString "s3.endpoint" (S3Config_Endpoint v)) (getString "s3.region" (S3Config_Region v))
    (getString "s3.bucket" (S3Config_Bucket v)) (getString "s3.accessKeyID" (S3Config_AccessKeyID v))
    (getString "s3.secretAccessKey" (S3Config_SecretAccessKey v))
    (getString "s3.sessionToken" (S3Config_SessionToken v)) (getString "s3.downloadURL" (S3Config_DownloadURL v))
    (getString "s3.prefix" (S3Config_Prefix v)) (getBool "s3.usePathStyle" (S3Config_UsePathStyle v)).

(** The file, then the variables of AWS, then those of the project. *)
Definition configure_S3 (v : S3Config) : S3Config :=
  let v := S3_from_file v in
  let accessKeyID := StringEnv Getenv (S3Config_AccessKeyID v) "AWS_ACCESS_KEY_ID" in
  let secretAccessKey := StringEnv Getenv (S3Config_SecretAccessKey v) "AWS_SECRET_ACCESS_KEY" in
  let sessionToken := StringEnv Getenv (S3Config_SessionToken v) "AWS_SESSION_TOKEN" in
  mkS3Config (S3Config_Endpoint v) (S3Config_Region v) (S3Config_Bucket v)
    (StringEnv Getenv accessKeyID "TS_S3_ACCESS_KEY_ID")
    (StringEnv Getenv secretAccessKey "TS_S3_SECRET_ACCESS_KEY")
    (StringEnv Getenv sessionToken "TS_S3_SESSION_TOKEN")
    (S3Config_DownloadURL v) (S3Config_Prefix v) (S3Config_UsePathStyle v).

Definition configure_DB (v : DB) : DB :=
  mkDB (getString "db.mysqlAddr" (DB_MySQLAddr v)) (getInt "db.mysqlMaxOpenConns" (DB_MySQLMaxOpenConns v))
    (getInt "db.mysqlMaxIdleConns" (DB_MySQLMaxIdleConns v))
    (getDuration "db.mysqlConnMaxLifetime" (DB_MySQLConnMaxLifetime v)) (getBool "db.migration" (DB_Migration v))
    (getString "db.redisAddr" (DB_RedisAddr v)) (getString "db.redisPass" (DB_RedisPass v))
    (getBool "db.redisTLS" (DB_RedisTLS v))
    (getBool "db.redisTLSInsecureSkipVerify" (DB_RedisTLSInsecureSkipVerify v))
    (getString "db.redisTLSCAFile" (DB_RedisTLSCAFile v))
    (getString "db.asynctaskRedisAddr" (DB_AsynctaskRedisAddr v)).

Definition configure_Cluster (v : Cluster) : Cluster :=
  mkCluster (getInt "cluster.nodeID" (Cluster_NodeID v)).

Definition configure_Cache (v : Cache) : Cache :=
  mkCache (getString "cache.tokenCachePrefix" (Cache_TokenCachePrefix v))
    (getString "cache.loginDeviceCachePrefix" (Cache_LoginDeviceCachePrefix v))
    (getDuration "cache.loginDeviceCacheExpire" (Cache_LoginDeviceCacheExpire v))
    (getString "cache.uidTokenCachePrefix" (Cache_UIDTokenCachePrefix v))
    (getString "cache.friendApplyTokenCachePrefix" (Cache_FriendApplyTokenCachePrefix v))
    (getDuration "cache.friendApplyExpire" (Cache_FriendApplyExpire v))
    (getDuration "cache.tokenExpire" (Cache_TokenExpire v))
    (getDuration "cache.nameCacheExpire" (Cache_NameCacheExpire v)).

Definition configure_Account (v : Account) : Account :=
  mkAccount (getString "account.systemUID" (Account_SystemUID v))
    (getString "account.fileHelperUID" (Account_FileHelperUID v))
    (getString "account.systemGroupID" (Account_SystemGroupID v))
    (getString "account.systemGroupName" (Account_SystemGroupName v))
    (getString "account.adminUID" (Account_AdminUID v)).

Definition configure_OSS (v : OSSConfig) : OSSConfig :=
  mkOSSConfig (getString "oss.endpoint" (OSSConfig_Endpoint v))
    (getString "oss.bucketName" (OSSConfig_BucketName v)) (getString "oss.bucketURL" (OSSConfig_BucketURL v))
    (getString "oss.accessKeyID" (OSSConfig_AccessKeyID v))
    (getString "oss.accessKeySecret" (OSSConfig_AccessKeySecret v)).

Definition configure_Seaweed (v : SeaweedConfig) : SeaweedConfig :=
  mkSeaweedConfig (getString "seaweed.url" (SeaweedConfig_URL v)).

Definition configure_Qiniu (v : QiniuConfig) : QiniuConfig :=
  mkQiniuConfig (getString "qiniu.url" (QiniuConfig_URL v))
    (getString "qiniu.bucketName" (QiniuConfig_BucketName v))
    (getString "qiniu.accessKey" (QiniuConfig_AccessKey v)) (getString "qiniu.secretKey" (QiniuConfig_SecretKey v)).

Definition configure_UniSMS (v : UnismsConfig) : UnismsConfig :=
  mkUnismsConfig (getString "uniSMS.signature" (UnismsConfig_Signature v))
    (getString "uniSMS.accessKeyID" (UnismsConfig_AccessKeyID v))
    (getString "uniSMS.accessKeySecret" (UnismsConfig_AccessKeySecret v))
    (getString "uniSMS.templateId" (UnismsConfig_TemplateId v)).

Definition configure_AliyunSMS (v : AliyunSMSConfig) : AliyunSMSConfig :=
  mkAliyunSMSConfig (getString "aliyunSMS.accessKeyID" (AliyunSMSConfig_AccessKeyID v))
    (getString "aliyunSMS.accessSecret" (AliyunSMSConfig_AccessSecret v))
    (getString "aliyunSMS.templateCode" (AliyunSMSConfig_TemplateCode v))
    (getString "aliyunSMS.signName" (AliyunSMSConfig_SignName v)).

Definition configure_AliyunInternationalSMS (v : AliyunInternationalSMSConfig) : AliyunInternationalSMSConfig :=
  mkAliyunInternationalSMSConfig
    (getString "aliyunInternationalSMS.accessKeyID" (AliyunInternationalSMSConfig_AccessKeyID v))
    (getString "aliyunInternationalSMS.accessSecret" (AliyunInternationalSMSConfig_AccessSecret v))
    (getString "aliyunInternationalSMS.signName" (AliyunInternationalSMSConfig_SignName v)).

Definition configure_Smsbao (v : SmsbaoConfig) : SmsbaoConfig :=
  mkSmsbaoConfig (getString "smsbao.account" (SmsbaoConfig_Account v))
    (getString "smsbao.apiKey" (SmsbaoConfig_APIKey v)) (getString "smsbao.template" (SmsbaoConfig_Template v)).

Definition configure_WuKongIM (v : WuKongIM) : WuKongIM :=
  mkWuKongIM (getString "wukongIM.apiURL" (WuKongIM_APIURL v))
    (getString "wukongIM.managerToken" (WuKongIM_ManagerToken v)).

Definition configure_Avatar (v : Avatar) : Avatar :=
  mkAvatar (getString "avatar.default" (Avatar_Default v)) (getInt "avatar.defaultCount" (Avatar_DefaultCount v))
    (getInt "avatar.partition" (Avatar_Partition v)) (getString "avatar.defaultBaseURL" (Avatar_DefaultBaseURL v)).

Definition configure_ShortNo (v : ShortNo) : ShortNo :=
  mkShortNo (getBool "shortNo.numOn" (ShortNo_NumOn v)) (getInt "shortNo.numLen" (ShortNo_NumLen v))
    (getBool "shortNo.editOff" (ShortNo_EditOff v)).

Definition configure_Robot (v : Robot) : Robot :=
  mkRobot (getDuration "robot.messageExpire" (Robot_MessageExpire v))
    (getDuration "robot.inlineQueryTimeout" (Robot_InlineQueryTimeout v))
    (getInt64 "robot.eventPoolSize" (Robot_EventPoolSize v)).

Definition configure_Gitee (v : Gitee) : Gitee :=
  mkGitee (getString "gitee.oauthURL" (Gitee_OAuthURL v)) (getString "gitee.clientID" (Gitee_ClientID v))
    (getString "gitee.clientSecret" (Gitee_ClientSecret v)).

Definition configure_Github (v : Github) : Github :=
  mkGithub (getString "github.oauthURL" (Github_OAuthURL v)) (getString "github.clientID" (Github_ClientID v))
    (getString "github.clientSecret" (Github_ClientSecret v)).

Definition configure_OWT (v : OWT) : OWT :=
  mkOWT (getString "owt.url" (OWT_URL v)) (getString "owt.serviceID" (OWT_ServiceID v))
    (getString "owt.serviceKey" (OWT_ServiceKey v)) (getInt "owt.roomMaxCount" (OWT_RoomMaxCount v)).

Definition configure_Livekit (v : Livekit) : Livekit :=
  mkLivekit (getBool "livekit.off" (Livekit_Off v)) (getString "livekit.url" (Livekit_URL v))
    (getString "livekit.apiKey" (Livekit_APIKey v)) (getString "livekit.apiSecret" (Livekit_APISecret v))
    (getInt "livekit.inviteTimeoutSeconds" (Livekit_InviteTimeoutSeconds v))
    (getInt "livekit.roomMaxCount" (Livekit_RoomMaxCount v)).

Definition configure_Register (v : Register) : Register :=
  mkRegister (getBool "register.off" (Register_Off v)) (getBool "register.onlyChina" (Register_OnlyChina v))
    (getBool "register.stickerAddOff" (Register_StickerAddOff v))
    (getBool "register.usernameOn" (Register_UsernameOn v)) (getBool "register.emailOn" (Register_EmailOn v)).

Definition configure_Organization (v : Organization) : Organization :=
  mkOrganization (getBool "organization.importOn" (Organization_ImportOn v)).

Definition configure_Friend (v : Friend) : Friend :=
  mkFriend (getString "friend.addedTipsText" (Friend_AddedTipsText v)).

Definition configure_ZincSearch (v : ZincSearch) : ZincSearch :=
  mkZincSearch (getBool "zincSearch.searchOn" (ZincSearch_SearchOn v))
    (getString "zincSearch.apiURL" (ZincSearch_APIURL v))
    (getString "zincSearch.username" (ZincSearch_ZincUsername v))
    (getString "zincSearch.password" (ZincSearch_ZincPassword v))
    (getInt "zincSearch.syncIntervalSecond" (ZincSearch_SyncIntervalSecond v))
    (getInt "zincSearch.syncCount" (ZincSearch_SyncCount v)).

Definition configure_Search (v : Search) : Search :=
  mkSearch (getString "search.readBackend" (Search_ReadBackend v)).

Definition configure_ESIndex (v : ESIndex) : ESIndex :=
  mkESIndex (getBool "esIndex.on" (ESIndex_On v)) (getStringSlice "esIndex.addrs" (ESIndex_Addrs v))
    (getString "esIndex.username" (ESIndex_Username v)) (getString "esIndex.password" (ESIndex_Password v))
    (getString "esIndex.index" (ESIndex_Index v)).

Definition configure_Group (v : Group) : Group :=
  mkGroup (getInt "group.sameDayCreateMaxCount" (Group_SameDayCreateMaxCount v))
    (getBool "group.createGroupVerifyFriendOn" (Group_CreateGroupVerifyFriendOn v)).

Definition configure_Push (v : Push) : Push :=
  mkPush (getBool "push.contentDetailOn" (Push_ContentDetailOn v))
    (getInt64 "push.pushPoolSize" (Push_PushPoolSize v))
    (mkAPNSPush
       (getBool "push.apns.dev" (APNSPush_Dev (Push_APNS v)))
       (getString "push.apns.topic" (APNSPush_Topic (Push_APNS v)))
       (getString "push.apns.password" (APNSPush_Password (Push_APNS v)))
       (getString "push.apns.cert" (APNSPush_Cert (Push_APNS v))))
    (mkMIPush
       (getString "push.mi.packageName" (MIPush_PackageName (Push_MI v)))
       (getString "push.mi.appID" (MIPush_AppID (Push_MI v)))
       (getString "push.mi.appSecret" (MIPush_AppSecret (Push_MI v)))
       (getString "push.mi.channelID" (MIPush_ChannelID (Push_MI v))))
    (mkHMSPush
       (getString "push.hms.packageName" (HMSPush_PackageName (Push_HMS v)))
       (getString "push.hms.appID" (HMSPush_AppID (Push_HMS v)))
       (getString "push.hms.appSecret" (HMSPush_AppSecret (Push_HMS v))))
    (mkVIVOPush
       (getString "push.vivo.packageName" (VIVOPush_PackageName (Push_VIVO v)))
       (getString "push.vivo.appID" (VIVOPush_AppID (Push_VIVO v)))
       (getString "push.vivo.appKey" (VIVOPush_AppKey (Push_VIVO v)))
       (getString "push.vivo.appSecret" (VIVOPush_AppSecret (Push_VIVO v))))
    (mkOPPOPush
       (getString "push.oppo.packageName" (OPPOPush_PackageName (Push_OPPO v)))
       (getString "push.oppo.appID" (OPPOPush_AppID (Push_OPPO v)))
       (getString "push.oppo.appKey" (OPPOPush_AppKey (Push_OPPO v)))
       (getString "push.oppo.appSecret" (OPPOPush_AppSecret (Push_OPPO v)))
       (getString "push.oppo.masterSecret" (OPPOPush_MasterSecret (Push_OPPO v))))
    (mkFIREBASEPush
       (getString "push.firebase.packageName" (FIREBASEPush_PackageName (Push_FIREBASE v)))
       (getString "push.firebase.jsonPath" (FIREBASEPush_JsonPath (Push_FIREBASE v)))
       (getString "push.firebase.projectId" (FIREBASEPush_ProjectId (Push_FIREBASE v)))).

Definition configure_Message (v : Message) : Message :=
  mkMessage (getBool "message.sendMessageOn" (Message_SendMessageOn v))
    (getInt "message.syncReadedCountIntervalSecond" (Message_SyncReadedCountIntervalSecond v)).

Definition configure_Wechat (v : Wechat) : Wechat :=
  mkWechat (getString "wechat.appID" (Wechat_AppID v)) (getString "wechat.appSecret" (Wechat_AppSecret v)).

Definition configure_Tracing (v : Tracing) : Tracing :=
  mkTracing (getBool "tracing.on" (Tracing_On v)) (getString "tracing.addr" (Tracing_Addr v)).

Definition configure_Support (v : Support) : Support :=
  mkSupport (getString "support.email" (Support_Email v)) (getString "support.emailSmtp" (Support_EmailSmtp v))
    (getString "support.emailPwd" (Support_EmailPwd v)).

Definition welcome_placeholder : gostring := "{{appName}}".

Definition configure (intranetIP : gostring) (c : Config) : Config :=
  let mode := getString "mode" DebugMode in
  let appName := getString "appName" (cfg_AppName c) in
  let rootDir := getString "rootDir" (cfg_RootDir c) in
  let welcome := getString "welcomeMessage" (cfg_WelcomeMessage c) in
  let welcome := if negb (blank welcome) then ReplaceAll welcome welcome_placeholder appName else welcome in
  let fileService := getString "fileService" (cfg_FileService c) in
  let external := configure_External intranetIP (cfg_External c) in
  mkConfig mode (getString "appID" (cfg_AppID c)) appName
    (getString "version" (cfg_Version c)) rootDir (getString "addr" (cfg_Addr c))
    (getString "grpcAddr" (cfg_GRPCAddr c)) (getString "sslAddr" (cfg_SSLAddr c))
    (getBool "messageSaveAcrossDevice" (cfg_MessageSaveAcrossDevice c)) welcome
    (getBool "phoneSearchOff" (cfg_PhoneSearchOff c)) (getBool "onlineStatusOn" (cfg_OnlineStatusOn c))
    (getInt "groupUpgradeWhenMemberCount" (cfg_GroupUpgradeWhenMemberCount c))
    (getInt64 "eventPoolSize" (cfg_EventPoolSize c)) (getString "adminPwd" (cfg_AdminPwd c))
    external (configureLog mode rootDir) (configure_DB (cfg_DB c))
    (configure_Cluster (cfg_Cluster c)) (configure_Cache (cfg_Cache c)) (configure_Account (cfg_Account c))
    fileService (configure_OSS (cfg_OSS c)) (configure_Minio fileService (External_IP external) (cfg_Minio c))
    (configure_Seaweed (cfg_Seaweed c)) (configure_Qiniu (cfg_Qiniu c)) (configure_COS (cfg_COS c))
    (configure_S3 (cfg_S3 c)) (getString "smsCode" (cfg_SMSCode c)) (getString "smsProvider" (cfg_SMSProvider c))
    (configure_UniSMS (cfg_UniSMS c)) (configure_AliyunSMS (cfg_AliyunSMS c))
    (configure_AliyunInternationalSMS (cfg_AliyunInternationalSMS c)) (configure_Smsbao (cfg_Smsbao c))
    (configure_WuKongIM (cfg_WuKongIM c)) (configure_Avatar (cfg_Avatar c)) (configure_ShortNo (cfg_ShortNo c))
    (configure_Robot (cfg_Robot c)) (configure_Gitee (cfg_Gitee c)) (configure_Github (cfg_Github c))
    (configure_OWT (cfg_OWT c)) (configure_Livekit (cfg_Livekit c)) (configure_Register (cfg_Register c))
    (configure_Organization (cfg_Organization c)) (configure_Friend (cfg_Friend c))
    (configure_ZincSearch (cfg_ZincSearch c)) (configure_Search (cfg_Search c)) (configure_ESIndex (cfg_ESIndex c))
    (configure_Group (cfg_Group c)) (configure_Push (cfg_Push c)) (configure_Message (cfg_Message c))
    (configure_Wechat (cfg_Wechat c)) (configure_Tracing (cfg_Tracing c)) (configure_Support (cfg_Support c))
    (cfg_Test c) (cfg_QRCodeInfoURL c) (cfg_VisitorUIDPrefix c) (cfg_TimingWheelTick c) (cfg_TimingWheelSize c)
    (cfg_ElasticsearchURL c) (cfg_TablePartitionConfig c) (cfg_AppRSAPrivateKey c) (cfg_AppRSAPubKey c).

(** [ConfigureWithViper] panics where the interfaces cannot be read. *)
Definition ConfigureWithViper (ifaces : option (list iface)) (c : Config) : go unit Config :=
  let! intranetIP := getIntranetIP ifaces in Ok (configure intranetIP c).
End File.

(** ** Paths and channels *)

Definition GetAvatarPath (uid : gostring) : gostring := "users/" ++ uid ++ "/avatar".

Definition avatarVersion (version : list Z) : Z :=
  match version with v :: _ => v | [] => 0 end.

(** The partition of an identifier; a partition count of zero panics. *)
Definition avatarID (c : Config) (no : gostring) : go unit Z :=
  let n := uint32 (Avatar_Partition (cfg_Avatar c)) in
  if n =? 0 then Panicked "runtime error: integer divide by zero" else Ok (HashCrc32 no mod n).

Definition GetGroupAvatarFilePath (c : Config) (groupNo : gostring) (version : list Z) : go unit gostring :=
  let! avatarID := avatarID c groupNo in
  let v := avatarVersion version in
  if 0 <? v then Ok ("group/" ++ FormatInt avatarID ++ "/" ++ groupNo ++ "/" ++ FormatInt v ++ ".png")
  else Ok ("group/" ++ FormatInt avatarID ++ "/" ++ groupNo ++ ".png").

Definition GetCommunityAvatarFilePath (c : Config) (communityNo : gostring) (version : list Z) : go unit gostring :=
  let! avatarID := avatarID c communityNo in
  let v := avatarVersion version in
  if 0 <? v then Ok ("community/" ++ FormatInt avatarID ++ "/" ++ communityNo ++ "/" ++ FormatInt v ++ ".png")
  else Ok ("community/" ++ FormatInt avatarID ++ "/" ++ communityNo ++ ".png").

Definition GetCommunityCoverFilePath (c : Config) (communityNo : gostring) (version : list Z) : go unit gostring :=
  let! avatarID := avatarID c communityNo in
  let v := avatarVersion version in
  if 0 <? v then Ok ("community/" ++ FormatInt avatarID ++ "/" ++ communityNo ++ "/cover/" ++ FormatInt v ++ ".png")
  else Ok ("community/" ++ FormatInt avatarID ++ "/" ++ communityNo ++ "_cover.png").

Definition GetOrganizationLogoFilePath (orgId : gostring) : gostring := "organization/logo/" ++ orgId ++ ".png".

Definition IsVisitorChannel (uid : gostring) : bool := HasSuffix uid "@ht".

Definition GetCustomerServiceChannelID (channelID : gostring) : gostring * bool :=
  if negb (ContainsByte channelID "|"%char) then ([], false)
  else match Split channelID "|"%char with
       | _ :: id :: _ => (id, true)
       | _ => ([], true)
       end.

Definition GetCustomerServiceVisitorUID (channelID : gostring) : gostring * bool :=
  if negb (ContainsByte channelID "|"%char) then ([], false)
  else match Split channelID "|"%char with
       | vid :: _ => (vid, true)
       | _ => ([], true)
       end.

Definition ComposeCustomerServiceChannelID (vid channelID : gostring) : gostring := vid ++ "|" ++ channelID.

Definition IsVisitor (c : Config) (uid : gostring) : bool := HasPrefix uid (cfg_VisitorUIDPrefix c).

(** ** Reading again changes nothing *)
Section Again.
Context `{Viper} (Getenv : gostring -> gostring).

Lemma getString_again k d : getString k (getString k d) = getString k d.
Proof. unfold getString. by case_match. Qed.
Lemma getStringSlice_again k d : getStringSlice k (getStringSlice k d) = getStringSlice k d.
Proof. unfold getStringSlice. cbv zeta. by repeat case_match. Qed.
Lemma getBool_again k d : getBool k (getBool k d) = getBool k d.
Proof. unfold getBool. by case_match. Qed.
Lemma getInt_again k d : getInt k (getInt k d) = getInt k d.
Proof. unfold getInt. by case_match. Qed.
Lemma getInt64_again k d : getInt64 k (getInt64 k d) = getInt64 k d.
Proof. unfold getInt64. by case_match. Qed.
Lemma getDuration_again k d : getDuration k (getDuration k d) = getDuration k d.
Proof. unfold getDuration. by case_match. Qed.

Hint Rewrite getString_again getStringSlice_again getBool_again getInt_again getInt64_again getDuration_again : config.

(** An override from the environment, over a value of the file. *)
Lemma StringEnv_again k e d :
  StringEnv Getenv (getString k (StringEnv Getenv (getString k d) e)) e = StringEnv Getenv (getString k d) e.
Proof. unfold StringEnv. case_match; [done|by rewrite getString_again]. Qed.

Lemma StringEnv2_again k e1 e2 d :
  StringEnv Getenv (StringEnv Getenv (getString k (StringEnv Getenv (StringEnv Getenv (getString k d) e1) e2)) e1) e2 =
  StringEnv Getenv (StringEnv Getenv (getString k d) e1) e2.
Proof. unfold StringEnv. case_match; [done|]. case_match; [done|by rewrite getString_again]. Qed.

Lemma not_blank_tail s t c : c ∈ t -> Forall (fun e => c ∉ e) space_encodings -> blank (s ++ t) = false.
Proof.
  intros Hc He. unfold blank. destruct (eqs (TrimSpace (s ++ t)) []) eqn:E; [|done]. apply eqs_spec in E.
  assert (c ∈ TrimSpace (s ++ t)) as Hin by (apply TrimSpace_keeps; [done|set_solver]). rewrite E in Hin. by apply elem_of_nil in Hin.
Qed.

(** A value of the file with a fallback for blank ones. *)
Lemma fallback_again k d f :
  let v := if blank (getString k d) then f else getString k d in
  (if blank (getString k v) then f else getString k v) = v.
Proof.
  cbv zeta. unfold getString. destruct (eqs (vp_GetString k) []) eqn:E; [|done].
  destruct (blank d) eqn:B; [by destruct (blank f)|by rewrite B].
Qed.

Lemma configure_External_again ip v : configure_External ip (configure_External ip v) = configure_External ip v.
Proof.
  unfold configure_External. cbv zeta.
  cbn [External_IP External_BaseURL External_H5BaseURL External_APIBaseURL External_WebLoginURL].
  rewrite (fallback_again "external.ip" (External_IP v) ip).
  set (ip' := if blank (getString "external.ip" (External_IP v)) then ip else getString "external.ip" (External_IP v)).
  rewrite (fallback_again "external.baseURL" (External_BaseURL v)), (fallback_again "external.webLoginURL" (External_WebLoginURL v)).
  assert (forall d t, t = "/web"%go \/ t = "/v1"%go ->
    (if blank (if blank d then External_BaseURL (configure_External ip v) ++ t else d)
     then External_BaseURL (configure_External ip v) ++ t
     else if blank d then External_BaseURL (configure_External ip v) ++ t else d) =
    (if blank d then External_BaseURL (configure_External ip v) ++ t else d)) as Hd.
  { intros d t Ht. destruct (blank d) eqn:B; [|by rewrite B].
    rewrite (not_blank_tail _ _ "/"%char); [done| |apply (bool_decide_unpack _); by vm_compute].
    destruct Ht as [-> | ->]; set_solver. }
  f_equal; apply Hd; auto.
Qed.

Lemma configure_Minio_again fs ip v : configure_Minio fs ip (configure_Minio fs ip v) = configure_Minio fs ip v.
Proof.
  unfold configure_Minio. cbv zeta.
  cbn [MinioConfig_URL MinioConfig_UploadURL MinioConfig_DownloadURL MinioConfig_AccessKeyID MinioConfig_SecretAccessKey].
  autorewrite with config.
  assert ((let url := getString "minio.url" (if eqs fs FileServiceMinio && blank (getString "minio.url" (MinioConfig_URL v))
             then "http://" ++ ip ++ ":9000" else getString "minio.url" (MinioConfig_URL v)) in
           if eqs fs FileServiceMinio && blank url then "http://" ++ ip ++ ":9000" else url) =
          (if eqs fs FileServiceMinio && blank (getString "minio.url" (MinioConfig_URL v))
             then "http://" ++ ip ++ ":9000" else getString "minio.url" (MinioConfig_URL v))) as Hurl.
  { cbv zeta. destruct (eqs fs FileServiceMinio); cbn [andb]; [apply fallback_again|apply getString_again]. }
  cbv zeta in Hurl. rewrite Hurl. f_equal; apply fallback_again.
Qed.

Lemma configure_COS_again v : configure_COS Getenv (configure_COS Getenv v) = configure_COS Getenv v.
Proof. unfold configure_COS, COS_from_file. cbn. rewrite !StringEnv_again. by autorewrite with config. Qed.

Lemma configure_S3_again v : configure_S3 Getenv (configure_S3 Getenv v) = configure_S3 Getenv v.
Proof. unfold configure_S3, S3_from_file. cbn. rewrite !StringEnv2_again. by autorewrite with config. Qed.

Lemma welcome_again k d app :
  let w0 := getString k d in
  let w := if negb (blank w0) then ReplaceAll w0 welcome_placeholder app else w0 in
  ReplaceAll w welcome_placeholder app = w ->
  (if negb (blank (getString k w)) then ReplaceAll (getString k w) welcome_placeholder app else getString k w) = w.
Proof.
  cbv zeta. unfold getString. destruct (eqs (vp_GetString k) []); [|done]. intros Hw.
  set (w := if negb (blank d) then ReplaceAll d welcome_placeholder app else d) in *.
  by destruct (negb (blank w)).
Qed.

(** The welcome text once the name of the application is filled in. *)
Definition welcome_settled (c : Config) : Prop :=
  ReplaceAll (cfg_WelcomeMessage c) welcome_placeholder (cfg_AppName c) = cfg_WelcomeMessage c.

Lemma configure_again ip c :
  welcome_settled (configure Getenv ip c) ->
  configure Getenv ip (configure Getenv ip c) = configure Getenv ip c.
Proof.
  unfold welcome_settled. intros Hw.
  unfold configure in Hw |- *. cbv zeta in *.
  cbn [cfg_Mode cfg_AppID cfg_AppName cfg_Version cfg_RootDir cfg_Addr cfg_GRPCAddr cfg_SSLAddr cfg_MessageSaveAcrossDevice cfg_WelcomeMessage cfg_PhoneSearchOff cfg_OnlineStatusOn cfg_GroupUpgradeWhenMemberCount cfg_EventPoolSize cfg_AdminPwd cfg_External cfg_Logger cfg_DB cfg_Cluster cfg_Cache cfg_Account cfg_FileService cfg_OSS cfg_Minio cfg_Seaweed cfg_Qiniu cfg_COS cfg_S3 cfg_SMSCode cfg_SMSProvider cfg_UniSMS cfg_AliyunSMS cfg_AliyunInternationalSMS cfg_Smsbao cfg_WuKongIM cfg_Avatar cfg_ShortNo cfg_Robot cfg_Gitee cfg_Github cfg_OWT cfg_Livekit cfg_Register cfg_Organization cfg_Friend cfg_ZincSearch cfg_Search cfg_ESIndex cfg_Group cfg_Push cfg_Message cfg_Wechat cfg_Tracing cfg_Support cfg_Test cfg_QRCodeInfoURL cfg_VisitorUIDPrefix cfg_TimingWheelTick cfg_TimingWheelSize cfg_ElasticsearchURL cfg_TablePartitionConfig cfg_AppRSAPrivateKey cfg_AppRSAPubKey].
  cbn [cfg_WelcomeMessage cfg_AppName] in Hw.
  rewrite configure_External_again, configure_COS_again, configure_S3_again, !getString_again.
  rewrite configure_Minio_again, (welcome_again _ _ _ Hw).
  unfold configure_DB, configure_Cluster, configure_Cache, configure_Account, configure_OSS, configure_Seaweed, configure_Qiniu, configure_UniSMS, configure_AliyunSMS, configure_AliyunInternationalSMS, configure_Smsbao, configure_WuKongIM, configure_Avatar, configure_ShortNo, configure_Robot, configure_Gitee, configure_Github, configure_OWT, configure_Livekit, configure_Register, configure_Organization, configure_Friend, configure_ZincSearch, configure_Search, configure_ESIndex, configure_Group, configure_Push, configure_Message, configure_Wechat, configure_Tracing, configure_Support.
  cbn. f_equal; first [done | by autorewrite with config | f_equal; by autorewrite with config].
Qed.
End Again.

(** C38 Reading the configuration again, from the same file, environment and
    network, changes nothing: the fallbacks derived in the first pass are kept. *)
Theorem ConfigureWithViper_again `{Viper} Getenv ifaces c c1
  (Hc : ConfigureWithViper Getenv ifaces c = Ok c1) (Hw : welcome_settled c1) :
  ConfigureWithViper Getenv ifaces c1 = Ok c1.
Proof.
  unfold ConfigureWithViper in *. destruct (getIntranetIP ifaces) as [ip| |]; [|done..].
  injection Hc as <-. cbn. f_equal. by apply configure_again.
Qed.

(** The credentials of the object stores: the first of the sources that is set. *)
Fixpoint first_set (sources : list gostring) (default : gostring) : gostring :=
  match sources with
  | [] => default
  | s :: rest => if eqs s [] then first_set rest default else s
  end.

Lemma credentials_precedence `{Viper} Getenv (s : S3Config) (k : COSConfig) :
  S3Config_AccessKeyID (configure_S3 Getenv s) =
    first_set [Getenv "TS_S3_ACCESS_KEY_ID"; Getenv "AWS_ACCESS_KEY_ID"; vp_GetString "s3.accessKeyID"] (S3Config_AccessKeyID s) /\
  S3Config_SecretAccessKey (configure_S3 Getenv s) =
    first_set [Getenv "TS_S3_SECRET_ACCESS_KEY"; Getenv "AWS_SECRET_ACCESS_KEY"; vp_GetString "s3.secretAccessKey"] (S3Config_SecretAccessKey s) /\
  S3Config_SessionToken (configure_S3 Getenv s) =
    first_set [Getenv "TS_S3_SESSION_TOKEN"; Getenv "AWS_SESSION_TOKEN"; vp_GetString "s3.sessionToken"] (S3Config_SessionToken s) /\
  COSConfig_SecretID (configure_COS Getenv k) = first_set [Getenv "TS_COS_SECRET_ID"; vp_GetString "cos.secretID"] (COSConfig_SecretID k) /\
  COSConfig_SecretKey (configure_COS Getenv k) = first_set [Getenv "TS_COS_SECRET_KEY"; vp_GetString "cos.secretKey"] (COSConfig_SecretKey k).
Proof.
  unfold configure_S3, configure_COS, S3_from_file, COS_from_file, StringEnv, getString. cbn.
  split_and!; repeat (case_match; cbn in *; try done).
Qed.

(** ** Object keys of avatars *)

Inductive avatar_kind := GroupAvatar | CommunityAvatar | CommunityCover.

Definition avatar_path (c : Config) (k : avatar_kind) : gostring -> list Z -> go unit gostring :=
  match k with
  | GroupAvatar => GetGroupAvatarFilePath c
  | CommunityAvatar => GetCommunityAvatarFilePath c
  | CommunityCover => GetCommunityCoverFilePath c
  end.

(** The elements of a path. *)
Definition avatar_pieces (k : avatar_kind) (id : Z) (no : gostring) (v : Z) : list gostring :=
  match k with
  | GroupAvatar => if 0 <? v then ["group"%go; FormatInt id; no; FormatInt v ++ ".png"] else ["group"%go; FormatInt id; no ++ ".png"]
  | CommunityAvatar => if 0 <? v then ["community"%go; FormatInt id; no; FormatInt v ++ ".png"] else ["community"%go; FormatInt id; no ++ ".png"]
  | CommunityCover => if 0 <? v then ["community"%go; FormatInt id; no; "cover"%go; FormatInt v ++ ".png"]
                      else ["community"%go; FormatInt id; no ++ "_cover.png"]
  end.

Lemma avatarID_range c no id : avatarID c no = Ok id -> 0 <= id < uint32 (Avatar_Partition (cfg_Avatar c)).
Proof.
  unfold avatarID. destruct (Z.eqb_spec (uint32 (Avatar_Partition (cfg_Avatar c))) 0) as [|Hn]; [done|]. intros [= <-].
  pose proof (uwrap_range 32 (Avatar_Partition (cfg_Avatar c)) ltac:(lia)). apply Z.mod_pos_bound. lia.
Qed.

Lemma avatar_path_pieces c k no vs p : avatar_path c k no vs = Ok p ->
  exists id, avatarID c no = Ok id /\ p = Join (avatar_pieces k id no (avatarVersion vs)) "/".
Proof.
  destruct k; cbn [avatar_path]; unfold GetGroupAvatarFilePath, GetCommunityAvatarFilePath, GetCommunityCoverFilePath;
    destruct (avatarID c no) as [id| |]; try done; cbn [go_bind avatar_pieces]; destruct (0 <? avatarVersion vs);
    intros [= <-]; exists id; (split; [done|]); cbn; by rewrite ?app_nil_r, <- ?app_assoc.
Qed.

Lemma Split_Join pieces sep : pieces <> [] -> Forall (fun p => sep ∉ p) pieces -> Split (Join pieces [sep]) sep = pieces.
Proof.
  intros Hne HF. induction HF as [|p pieces Hp HF IH]; [done|]. destruct pieces as [|q pieces]; [by apply Split_notin|].
  change (Join (p :: q :: pieces) [sep]) with (p ++ sep :: Join (q :: pieces) [sep]). by rewrite Split_app, IH.
Qed.

Lemma FormatInt_no_slash z : "/"%char ∉ FormatInt z.
Proof.
  unfold FormatInt. assert (forall n, 0 <= n -> "/"%char ∉ FormatUint n) as Hu.
  { intros n Hn Hin. pose proof (FormatUint_digits n Hn) as HF. apply all_digits_Forall in HF.
    rewrite Forall_forall in HF. apply HF in Hin. done. }
  case_match; [|apply Hu; lia]. intros Hin. apply elem_of_cons in Hin as [|Hin]; [done|]. apply (Hu (- z)); [lia|done].
Qed.

Lemma FormatInt_inj a b : FormatInt a = FormatInt b -> a = b.
Proof. intros E. pose proof (SetString10_FormatInt a) as Ha. rewrite E, SetString10_FormatInt in Ha. congruence. Qed.

(** Identifiers the keys are built from: no slash, and no ending of another key. *)
Definition plain_id (no : gostring) : Prop := "/"%char ∉ no /\ HasSuffix no "_cover" = false.

Lemma avatar_pieces_no_slash k id no v : "/"%char ∉ no -> Forall (fun p => "/"%char ∉ p) (avatar_pieces k id no v).
Proof.
  intros Hn. pose proof (FormatInt_no_slash id). pose proof (FormatInt_no_slash v).
  destruct k; cbn; destruct (0 <? v); repeat constructor; try done; rewrite ?not_elem_of_app; try split; try done;
    apply (bool_decide_unpack _); by vm_compute.
Qed.

Lemma png_inj a b : a ++ ".png" = b ++ ".png" -> a = b.
Proof. by intros E%app_inv_tail. Qed.

Lemma avatar_pieces_inj k id no v k' id' no' v' :
  plain_id no -> plain_id no' -> avatar_pieces k id no v = avatar_pieces k' id' no' v' ->
  k = k' /\ no = no' /\ Z.max 0 v = Z.max 0 v'.
Proof.
  intros [_ Hs] [_ Hs'] E.
  assert (forall a b, a ++ ".png" = b ++ "_cover.png" -> HasSuffix a "_cover" = false -> False) as Hcover.
  { intros a b Hab Ha. change "_cover.png"%go with ("_cover" ++ ".png")%go in Hab. rewrite app_assoc in Hab.
    apply png_inj in Hab as ->. assert (HasSuffix (b ++ "_cover") "_cover" = true) by (apply HasSuffix_spec; eauto). congruence. }
  destruct k, k'; cbn in E; destruct (Z.ltb_spec 0 v), (Z.ltb_spec 0 v'); try done;
    injection E; intros; subst; split_and!; try done; try lia;
    repeat match goal with
    | H : FormatInt _ ++ _ = FormatInt _ ++ _ |- _ => apply png_inj, FormatInt_inj in H
    | H : _ ++ ".png" = _ ++ ".png" |- _ => apply png_inj in H
    | H : _ ++ "_cover.png" = _ ++ "_cover.png" |- _ => apply app_inv_tail in H
    end; try done; try lia; exfalso; eauto.
Qed.

(** The object keys of avatars and covers tell everything apart: two uploads
    have the same key only if they are of the same kind, for the same group or
    community, and of the same version (or both without one). *)
Theorem avatar_paths_distinct c k no vs k' no' vs' p
  (Hno : plain_id no) (Hno' : plain_id no')
  (Hp : avatar_path c k no vs = Ok p) (Hp' : avatar_path c k' no' vs' = Ok p) :
  k = k' /\ no = no' /\ Z.max 0 (avatarVersion vs) = Z.max 0 (avatarVersion vs').
Proof.
  apply avatar_path_pieces in Hp as (id & _ & ->), Hp' as (id' & _ & E).
  apply (avatar_pieces_inj k id no _ k' id'); [done..|].
  assert (forall k id v, avatar_pieces k id no v <> [] /\ avatar_pieces k id no' v <> []) as Hne.
  { intros [] i v; cbn; by destruct (0 <? v). }
  rewrite <- (Split_Join (avatar_pieces k id no (avatarVersion vs)) "/"%char),
          <- (Split_Join (avatar_pieces k' id' no' (avatarVersion vs')) "/"%char), E; try done.
  all: first [apply Hne | apply avatar_pieces_no_slash, Hno | apply avatar_pieces_no_slash, Hno'].
Qed.

(** The channel of a visitor is taken apart into what it was composed of. *)
Lemma customer_service_roundtrip vid channelID : "|"%char ∉ vid -> "|"%char ∉ channelID ->
  GetCustomerServiceVisitorUID (ComposeCustomerServiceChannelID vid channelID) = (vid, true) /\
  GetCustomerServiceChannelID (ComposeCustomerServiceChannelID vid channelID) = (channelID, true).
Proof.
  intros Hv Hc. unfold GetCustomerServiceVisitorUID, GetCustomerServiceChannelID, ComposeCustomerServiceChannelID.
  assert (ContainsByte (vid ++ "|" ++ channelID) "|"%char = true) as -> by (apply bool_decide_eq_true; set_solver).
  change ("|" ++ channelID) with ("|"%char :: channelID). cbn [negb]. by rewrite Split_app, Split_notin.
Qed.

(** ** Examples *)

Definition empty_viper : Viper := {|
  vp_GetString _ := []; vp_GetStringSlice _ := []; vp_value := unit; vp_Get _ := None; cast_ToBool _ := false;
  vp_GetBool _ := false; vp_GetInt _ := 0; vp_GetInt64 _ := 0; vp_GetDuration _ := 0 |}.

Definition no_env : gostring -> gostring := fun _ => [].

Definition demo_ifaces : option (list iface) :=
  Some [mkIface true false "eth0" (Some [Some (map byte_of [192; 168; 1; 7])])].

Definition default_config : Config := @configure empty_viper no_env "192.168.1.7" (New no_env).

Lemma ConfigureWithViper_again_witness :
  (cfg_Mode default_config = DebugMode /\ External_H5BaseURL (cfg_External default_config) = "http://192.168.1.7:8090/web" /\
   Logger_Dir (cfg_Logger default_config) = "tsdddata/logs" /\ cfg_WelcomeMessage default_config = "欢迎使用唐僧叨叨") /\
  @ConfigureWithViper empty_viper no_env demo_ifaces default_config = Ok default_config.
Proof.
  split; [by vm_compute|].
  apply (@ConfigureWithViper_again empty_viper no_env demo_ifaces (New no_env)); by vm_compute.
Defined.

Lemma avatar_paths_distinct_witness :
  GetCommunityCoverFilePath default_config "c1" [7] = Ok "community/57/c1/cover/7.png"%go /\
  CommunityCover = CommunityCover /\ ("c1" : gostring) = "c1" /\ Z.max 0 (avatarVersion [7]) = Z.max 0 (avatarVersion [7; 8]).
Proof.
  split; [by vm_compute|].
  apply (avatar_paths_distinct default_config CommunityCover "c1" [7] CommunityCover "c1" [7; 8] "community/57/c1/cover/7.png");
    [split; [apply (bool_decide_unpack _)|]..| |]; by vm_compute.
Defined.

(** A cover without a version and the avatar of a community of that longer name
    share a key. *)
Example cover_shares_key :
  GetCommunityCoverFilePath default_config "c162" [] = GetCommunityAvatarFilePath default_config "c162_cover" [].
Proof. by vm_compute. Qed.

(** The address of the asynchronous tasks stays empty when it is not configured. *)
Example asynctask_address_empty : DB_AsynctaskRedisAddr (cfg_DB default_config) = [].
Proof. by vm_compute. Qed.
