(* ===== verification/Log.v ===== *)
(** * Log: the package loggers ([pkg/log/logger.go], [pkg/log/options.go])

    Four loggers are published as one set through an atomic pointer, by
    [Configure] or lazily by the first message. Files are named by their path;
    zap's cores are known by their level and sinks. The second half is the
    interleaving of goroutines that log and that configure. *)
From S2P Require Import Prelude GoStr Dates.

#[global] Open Scope Z_scope.
#[global] Open Scope go_scope.

(** ** Options and loggers *)

(** The levels of zap. *)
Definition zap_Debug : Z := -1.
Definition zap_Info : Z := 0.
Definition zap_Warn : Z := 1.
Definition zap_Error : Z := 2.

Record Options := mkOptions { Level : Z; LogDir : gostring; LineNum : bool }.

Definition NewOptions : Options := mkOptions zap_Info [] false.

(** A core writes to standard output and to a rotated file; its level is the
    shared atomic one ([None]) or fixed. *)
Record zap_core := mkCore { file : option gostring; min_level : option Z }.
Record zap_Logger := mkLogger { core : zap_core; add_caller : bool }.

Record loggerSet := mkSet { infoLogger : zap_Logger; errorLogger : zap_Logger; warnLogger : zap_Logger; testLogger : zap_Logger }.

(** How the cores write a record: the names of its members, the text of its time
    and the number a duration becomes, in milliseconds. *)
Record EncoderConfig := mkEncoder {
  TimeKey : gostring; LevelKey : gostring; NameKey : gostring; CallerKey : gostring; MessageKey : gostring; StacktraceKey : gostring;
  EncodeTime : Time -> gostring; EncodeDuration : Z -> Z }.

Definition newEncoderConfig : EncoderConfig :=
  mkEncoder "time" "level" "logger" "linenum" "msg" "stacktrace" (Format timeFormart) (fun d => Z.quot d 1000000).

(** The set [configureLocked] builds. *)
Definition build_set (opts : Options) : loggerSet :=
  let logger f l := mkLogger (mkCore f l) (LineNum opts) in
  mkSet (logger (Some (path_Join (LogDir opts) "info.log")) None)
        (logger (Some (path_Join (LogDir opts) "error.log")) (Some zap_Error))
        (logger (Some (path_Join (LogDir opts) "warn.log")) (Some zap_Warn))
        (logger None None).

(** ** Messages *)

(** A core takes a message of its level or above. *)
Definition enabled (atom : Z) (c : zap_core) (level : Z) : bool := default atom (min_level c) <=? level.

(** The sinks a logger writes a message to: [None] is standard output. *)
Definition write (atom : Z) (l : zap_Logger) (level : Z) : list (option gostring) :=
  if enabled atom (core l) level then None :: match file (core l) with Some f => [Some f] | None => [] end else [].

Definition Info (atom : Z) (s : loggerSet) := write atom (infoLogger s) zap_Info.
Definition Debug (atom : Z) (s : loggerSet) := write atom (infoLogger s) zap_Debug.
Definition Error (atom : Z) (s : loggerSet) := write atom (errorLogger s) zap_Error.
Definition Warn (atom : Z) (s : loggerSet) := write atom (warnLogger s) zap_Warn.

(** A [TLog] is its prefix. *)
Record TLog := mkTLog { prefix : gostring }.
Definition NewTLog (prefix : gostring) : TLog := mkTLog prefix.

(** The text a [TLog] passes on. *)
Definition TLog_text (t : TLog) (msg : gostring) : gostring := "【" ++ prefix t ++ "】" ++ msg.

(** Warnings and errors are written whatever the level; each kind has a file of
    its own, and information and debug messages share one. *)
Lemma messages_written o atom :
  Error atom (build_set o) = [None; Some (path_Join (LogDir o) "error.log")] /\
  Warn atom (build_set o) = [None; Some (path_Join (LogDir o) "warn.log")] /\
  Info atom (build_set o) = (if atom <=? zap_Info then [None; Some (path_Join (LogDir o) "info.log")] else []) /\
  Debug atom (build_set o) = (if atom <=? zap_Debug then [None; Some (path_Join (LogDir o) "info.log")] else []).
Proof. split_and!; done. Qed.

(** ** Configuring and logging at the same time

    A goroutine that logs loads the pointer; when nothing is published it takes
    the mutex, looks again, and configures the defaults. *)
Inductive lpc :=
| LIdle
| CurWait                       (** [current]: before [configMu.Lock] *)
| CurLocked                     (** ... in the section, before the second look *)
| CfgWait (o : Options)         (** [Configure]: before [configMu.Lock] *)
| Building (lazily : bool) (o : Options)   (** [configureLocked], before [atom.SetLevel] *)
| Storing (lazily : bool) (o : Options)    (** ... before [loggers.Store] *)
| Leaving (ret : option loggerSet)         (** before the deferred [Unlock] *)
| Got (set : loggerSet).        (** [current] has returned *)

(** [stores] lists the options published so far, the last ones first, with
    whether they were the defaults of a lazy initialisation. *)
Record logsys := mkLog { configMu : option nat; loggers : option loggerSet; atom : Z; lthreads : list lpc; stores : list (bool * Options) }.

Definition goto (s : logsys) (i : nat) (p : lpc) : logsys :=
  mkLog (configMu s) (loggers s) (atom s) (<[i := p]> (lthreads s)) (stores s).
Definition with_mu (s : logsys) (m : option nat) : logsys := mkLog m (loggers s) (atom s) (lthreads s) (stores s).

(** [atom.SetLevel] and [loggers.Store]. *)
Definition SetLevel (s : logsys) (o : Options) : logsys :=
  mkLog (configMu s) (loggers s) (Level o) (lthreads s) (stores s).
Definition Store (s : logsys) (lazily : bool) (o : Options) : logsys :=
  mkLog (configMu s) (Some (build_set o)) (atom s) (lthreads s) ((lazily, o) :: stores s).

Inductive lstep : logsys -> logsys -> Prop :=
| lstep_fast s i set : lthreads s !! i = Some LIdle -> loggers s = Some set -> lstep s (goto s i (Got set))
| lstep_slow s i : lthreads s !! i = Some LIdle -> loggers s = None -> lstep s (goto s i CurWait)
| lstep_lock_current s i :
    lthreads s !! i = Some CurWait -> configMu s = None -> lstep s (goto (with_mu s (Some i)) i CurLocked)
| lstep_again s i set :
    lthreads s !! i = Some CurLocked -> loggers s = Some set -> lstep s (goto s i (Leaving (Some set)))
| lstep_lazy s i :
    lthreads s !! i = Some CurLocked -> loggers s = None -> lstep s (goto s i (Building true NewOptions))
| lstep_configure s i o : lthreads s !! i = Some LIdle -> lstep s (goto s i (CfgWait o))
| lstep_lock_configure s i o :
    lthreads s !! i = Some (CfgWait o) -> configMu s = None -> lstep s (goto (with_mu s (Some i)) i (Building false o))
| lstep_level s i b o :
    lthreads s !! i = Some (Building b o) -> lstep s (goto (SetLevel s o) i (Storing b o))
| lstep_store s i (b : bool) o :
    lthreads s !! i = Some (Storing b o) ->
    lstep s (goto (Store s b o) i (Leaving (if b then Some (build_set o) else None)))
| lstep_unlock s i ret :
    lthreads s !! i = Some (Leaving ret) ->
    lstep s (goto (with_mu s None) i (match ret with Some set => Got set | None => LIdle end))
| lstep_return s i set : lthreads s !! i = Some (Got set) -> lstep s (goto s i LIdle).

Definition linit (s : logsys) : Prop :=
  configMu s = None /\ loggers s = None /\ stores s = [] /\ Forall (fun p => p = LIdle) (lthreads s).

(** ** The invariant *)

Definition in_section (p : lpc) : bool :=
  match p with CurLocked | Building _ _ | Storing _ _ | Leaving _ => true | _ => false end.

(** A set that a thread holds on to. *)
Definition held_set (p : lpc) : option loggerSet :=
  match p with Got set | Leaving (Some set) => Some set | _ => None end.

Record linv (s : logsys) : Prop := mkLinv {
  linv_mu i p : lthreads s !! i = Some p -> in_section p = true -> configMu s = Some i;
  linv_owner i : configMu s = Some i -> exists p, lthreads s !! i = Some p /\ in_section p = true;
  linv_loggers : loggers s = option_map (fun e => build_set e.2) (head (stores s));
  linv_lazy i o : lthreads s !! i = Some (Building true o) \/ lthreads s !! i = Some (Storing true o) ->
    stores s = [] /\ o = NewOptions;
  linv_stores newer o older : stores s = newer ++ (true, o) :: older -> older = [] /\ o = NewOptions;
  linv_storing i b o : lthreads s !! i = Some (Storing b o) -> atom s = Level o;
  linv_atom b o older : stores s = (b, o) :: older ->
    (forall i b' o', lthreads s !! i <> Some (Storing b' o')) -> atom s = Level o;
  linv_got i p set : lthreads s !! i = Some p -> held_set p = Some set -> exists b o, (b, o) ∈ stores s /\ set = build_set o
}.

Lemma goto_lookup s i p j q : lthreads (goto s i p) !! j = Some q ->
  (i = j /\ q = p) \/ (i <> j /\ lthreads s !! j = Some q).
Proof. cbn. intros [(-> & -> & _)|[? ?]]%list_lookup_insert_Some; auto. Qed.

Lemma goto_lookup_eq s i p q : lthreads s !! i = Some q -> lthreads (goto s i p) !! i = Some p.
Proof. intros H. cbn. apply list_lookup_insert_eq. by apply lookup_lt_Some in H. Qed.

(** Nobody else is in the section. *)
Lemma linv_alone s i j p q : linv s -> lthreads s !! i = Some p -> lthreads s !! j = Some q ->
  in_section p = true -> in_section q = true -> i = j.
Proof. intros HI Hi Hj Hp Hq. pose proof (linv_mu s HI i p Hi Hp). pose proof (linv_mu s HI j q Hj Hq). congruence. Qed.

Lemma loggers_stores s : linv s -> loggers s = None <-> stores s = [].
Proof. intros HI. rewrite (linv_loggers s HI). by destruct (stores s). Qed.

Lemma linv_init s : linit s -> linv s.
Proof.
  intros (Hm & Hl & Hs & Ht).
  assert (forall i p, lthreads s !! i = Some p -> p = LIdle) as Hidle by (intros i p Hp; by apply (Forall_lookup_of _ _ _ _ Ht) in Hp).
  split; rewrite ?Hm, ?Hl, ?Hs; try done.
  - intros i p Hp. by rewrite (Hidle i p Hp).
  - intros i o [H|H]; by apply Hidle in H.
  - intros newer o older H. by destruct newer.
  - intros i b o H. by apply Hidle in H.
  - intros i p set Hp. by rewrite (Hidle i p Hp).
Qed.

(** Steps that change one program counter, outside or inside the section, and
    neither the pointer nor the level. *)
Lemma linv_move s i p q : linv s -> lthreads s !! i = Some p -> in_section q = in_section p ->
  (forall b o, p <> Storing b o) -> (forall b o, q <> Storing b o) ->
  (forall o, q = Building true o -> stores s = [] /\ o = NewOptions) ->
  (forall set, held_set q = Some set -> exists b o, (b, o) ∈ stores s /\ set = build_set o) ->
  linv (goto s i q).
Proof.
  intros HI Hi Hsec Hp Hq Hlazy Hheld.
  assert (i < length (lthreads s))%nat as Hlt by (by apply lookup_lt_Some in Hi).
  split; cbn [configMu loggers atom stores goto].
  - intros j r [[<- ->]|[Hne Hj]]%goto_lookup Hr; [|by apply (linv_mu s HI _ _ Hj)].
    apply (linv_mu s HI _ _ Hi). congruence.
  - intros j Hj. destruct (linv_owner s HI j Hj) as (r & Hr & Hin). destruct (decide (i = j)) as [<-|Hne].
    + exists q. split; [by apply (goto_lookup_eq s i q p)|]. congruence.
    + exists r. split; [|done]. cbn. by rewrite list_lookup_insert_ne.
  - apply (linv_loggers s HI).
  - intros j o [H|H]; apply goto_lookup in H as [[<- H]|[_ H]]; eauto using linv_lazy.
    by destruct (Hq true o).
  - apply (linv_stores s HI).
  - intros j b o [[<- H]|[_ H]]%goto_lookup; [by destruct (Hq b o)|by apply (linv_storing s HI _ _ _ H)].
  - intros b o older Hs Hno. apply (linv_atom s HI b o older Hs). intros j b' o' Hj. apply (Hno j b' o').
    cbn. rewrite list_lookup_insert_ne; [done|]. intros ->. rewrite Hi in Hj. by apply (Hp b' o'); injection Hj.
  - intros j r set [[<- ->]|[_ Hj]]%goto_lookup Hr; [by apply Hheld|by apply (linv_got s HI _ _ _ Hj)].
Qed.

(** Taking the mutex. *)
Lemma linv_lock s i p q : linv s -> lthreads s !! i = Some p -> configMu s = None ->
  in_section q = true -> (forall b o, q <> Storing b o) -> (forall o, q <> Building true o) ->
  held_set q = None -> linv (goto (with_mu s (Some i)) i q).
Proof.
  intros HI Hi Hm Hq Hst Hb Hheld.
  assert (forall j r, lthreads s !! j = Some r -> in_section r = false) as Hfree.
  { intros j r Hj. destruct (in_section r) eqn:E; [|done]. pose proof (linv_mu s HI _ _ Hj E). congruence. }
  split; cbn [configMu loggers atom stores goto with_mu].
  - intros j r [[<- ->]|[Hne Hj]]%goto_lookup Hr; [done|]. cbn in Hj. apply Hfree in Hj. congruence.
  - intros j [= <-]. exists q. split; [|done]. by apply (goto_lookup_eq _ i q p).
  - apply (linv_loggers s HI).
  - intros j o [H|H]; apply goto_lookup in H as [[<- H]|[_ H]]; try (by apply Hfree in H).
    + by destruct (Hb o).
    + by destruct (Hst true o).
  - apply (linv_stores s HI).
  - intros j b o [[<- H]|[_ H]]%goto_lookup; [by destruct (Hst b o)|by apply Hfree in H].
  - intros b o older Hs _. apply (linv_atom s HI b o older Hs). intros j b' o' Hj. by apply Hfree in Hj.
  - intros j r set [[<- ->]|[_ Hj]]%goto_lookup Hr; [congruence|by apply (linv_got s HI _ _ _ Hj)].
Qed.

(** Giving the mutex back. *)
Lemma linv_unlock s i ret : linv s -> lthreads s !! i = Some (Leaving ret) ->
  linv (goto (with_mu s None) i (match ret with Some set => Got set | None => LIdle end)).
Proof.
  intros HI Hi. set (q := match ret with Some set => Got set | None => LIdle end).
  assert (forall j r, lthreads (goto (with_mu s None) i q) !! j = Some r -> in_section r = false) as Hfree.
  { intros j r [[<- ->]|[Hne Hj]]%goto_lookup; [by unfold q; destruct ret|].
    destruct (in_section r) eqn:E; [|done]. by destruct (Hne (linv_alone s i j _ _ HI Hi Hj eq_refl E)). }
  split; cbn [configMu loggers atom stores goto with_mu].
  - intros j r Hj E. by rewrite (Hfree j r Hj) in E.
  - done.
  - apply (linv_loggers s HI).
  - intros j o [H|H]; by apply Hfree in H.
  - apply (linv_stores s HI).
  - intros j b o H. by apply Hfree in H.
  - intros b o older Hs _. apply (linv_atom s HI b o older Hs). intros j b' o' Hj.
    pose proof (linv_alone s i j _ _ HI Hi Hj eq_refl eq_refl) as <-. rewrite Hi in Hj. done.
  - intros j r set [[<- ->]|[_ Hj]]%goto_lookup Hr; [|by apply (linv_got s HI _ _ _ Hj)].
    apply (linv_got s HI _ _ _ Hi). by unfold q in Hr; destruct ret.
Qed.

Lemma linv_level s i b o : linv s -> lthreads s !! i = Some (Building b o) ->
  linv (goto (SetLevel s o) i (Storing b o)).
Proof.
  intros HI Hi. split; cbn [configMu loggers atom stores goto SetLevel].
  - intros j r [[<- ->]|[_ Hj]]%goto_lookup Hr; [by apply (linv_mu s HI _ _ Hi)|by apply (linv_mu s HI _ _ Hj)].
  - intros j Hj. pose proof (linv_mu s HI _ _ Hi eq_refl). assert (j = i) as -> by congruence.
    exists (Storing b o). split; [|done]. by apply (goto_lookup_eq _ i _ (Building b o)).
  - apply (linv_loggers s HI).
  - intros j o' [H|H]; apply goto_lookup in H as [[<- H]|[_ H]]; try done; [by eauto using linv_lazy| |by eauto using linv_lazy].
    injection H as <- <-. eauto using linv_lazy.
  - apply (linv_stores s HI).
  - intros j b' o' [[<- [= <- <-]]|[Hne Hj]]%goto_lookup; [done|].
    by destruct (Hne (linv_alone s i j _ _ HI Hi Hj eq_refl eq_refl)).
  - intros b' o' older _ Hno. destruct (Hno i b o). by apply (goto_lookup_eq _ i _ (Building b o)).
  - intros j r set [[<- ->]|[_ Hj]]%goto_lookup Hr; [done|by apply (linv_got s HI _ _ _ Hj)].
Qed.

Lemma linv_store s i (b : bool) o : linv s -> lthreads s !! i = Some (Storing b o) ->
  linv (goto (Store s b o) i (Leaving (if b then Some (build_set o) else None))).
Proof.
  intros HI Hi.
  assert (forall j r, lthreads (goto (Store s b o) i (Leaving (if b then Some (build_set o) else None))) !! j = Some r ->
            in_section r = true -> i = j /\ r = Leaving (if b then Some (build_set o) else None)) as Honly.
  { intros j r [[<- ->]|[Hne Hj]]%goto_lookup Hr; [done|]. by destruct (Hne (linv_alone s i j _ _ HI Hi Hj eq_refl Hr)). }
  split; cbn [configMu loggers atom stores goto Store].
  - intros j r Hj Hr. destruct (Honly j r Hj Hr) as [<- _]. by apply (linv_mu s HI _ _ Hi).
  - intros j Hj. pose proof (linv_mu s HI _ _ Hi eq_refl). assert (j = i) as -> by congruence.
    eexists. split; [by apply (goto_lookup_eq _ i _ (Storing b o))|done].
  - done.
  - intros j o' [H|H]; by destruct (Honly _ _ H eq_refl) as [_ ?].
  - intros newer o' older Hs. destruct newer as [|e newer].
    + injection Hs as -> -> <-. eapply linv_lazy; [done|]. by right.
    + injection Hs as _ Hs. by apply (linv_stores s HI newer).
  - intros j b' o' H. by destruct (Honly _ _ H eq_refl) as [_ ?].
  - intros b' o' older [= <- <- _] _. by apply (linv_storing s HI _ _ _ Hi).
  - intros j r set Hj Hr. apply goto_lookup in Hj as [[<- ->]|[_ Hj]].
    + destruct b; [|done]. injection Hr as <-. exists true, o. split; [apply list_elem_of_here|done].
    + destruct (linv_got s HI _ _ _ Hj Hr) as (b' & o' & Hin & ->). exists b', o'. split; [by apply list_elem_of_further|done].
Qed.

Lemma linv_published s set : linv s -> loggers s = Some set -> exists b o, (b, o) ∈ stores s /\ set = build_set o.
Proof.
  intros HI. rewrite (linv_loggers s HI). destruct (stores s) as [|[b o] rest]; [done|]. intros [= <-].
  exists b, o. split; [apply list_elem_of_here|done].
Qed.

Lemma linv_step s s' : linv s -> lstep s s' -> linv s'.
Proof.
  intros HI Hs. destruct Hs as [s i set Hi Hl|s i Hi Hl|s i Hi Hm|s i set Hi Hl|s i Hi Hl|s i o Hi|s i o Hi Hm|s i b o Hi|s i b o Hi|s i ret Hi|s i set Hi].
  all: try (apply (linv_move s i _ _ HI Hi); try done).
  - intros set' [= <-]. by apply linv_published.
  - by apply (linv_lock s i CurWait).
  - intros set' [= <-]. by apply linv_published.
  - intros o [= <-]. split; [by apply loggers_stores|done].
  - by apply (linv_lock s i (CfgWait o)).
  - by apply linv_level.
  - by apply linv_store.
  - by apply linv_unlock.
Qed.

Lemma reachable_linv s : reachable linit lstep s -> linv s.
Proof. apply reachable_invariant; [apply linv_init|apply linv_step]. Qed.

(** C20 However goroutines that log and goroutines that configure interleave: the
    default configuration is only ever published first, so it never replaces one
    that was asked for; while nobody is configuring, the level is the level of
    the published options; what a message is written with was published; and
    the owner of the mutex can always go on. *)
Theorem Log_published s (Hs : reachable linit lstep s) :
  loggers s = option_map (fun e => build_set e.2) (head (stores s)) /\
  (forall newer o older, stores s = newer ++ (true, o) :: older -> older = [] /\ o = NewOptions) /\
  (forall b o older, stores s = (b, o) :: older -> configMu s = None -> atom s = Level o) /\
  (forall i set, lthreads s !! i = Some (Got set) -> exists b o, (b, o) ∈ stores s /\ set = build_set o) /\
  (forall i, configMu s = Some i -> exists s', lstep s s' /\ lthreads s' !! i <> lthreads s !! i).
Proof.
  pose proof (reachable_linv s Hs) as HI. split; [apply (linv_loggers s HI)|]. split; [apply (linv_stores s HI)|].
  split; [|split].
  - intros b o older Hst Hm. apply (linv_atom s HI b o older Hst). intros i b' o' Hi.
    pose proof (linv_mu s HI _ _ Hi eq_refl). congruence.
  - intros i set Hi. by apply (linv_got s HI _ _ _ Hi).
  - intros i Hm. destruct (linv_owner s HI i Hm) as (p & Hi & Hp). rewrite Hi.
    assert (forall s0 q, lthreads s0 = lthreads s -> lstep s (goto s0 i q) -> q <> p ->
      exists s', lstep s s' /\ lthreads s' !! i <> Some p) as Hgo.
    { intros s0 q H0 Hstep Hne. exists (goto s0 i q). split; [done|]. rewrite (goto_lookup_eq s0 i q p) by congruence. congruence. }
    destruct p; try done.
    + destruct (loggers s) as [set|] eqn:E; [by apply (Hgo s (Leaving (Some set))); [|apply lstep_again|]|].
      by apply (Hgo s (Building true NewOptions)); [|apply lstep_lazy|].
    + by apply (Hgo (SetLevel s o) (Storing lazily o)); [|apply lstep_level|].
    + by apply (Hgo (Store s lazily o) (Leaving (if lazily then Some (build_set o) else None))); [|apply lstep_store|].
    + apply (Hgo (with_mu s None) (match ret with Some set => Got set | None => LIdle end)); [done|by apply lstep_unlock|].
      by destruct ret.
Qed.

(** A message and a configuration race: the message loses and finds the configured set. *)
Definition demo_opts : Options := mkOptions zap_Debug "/logs" true.
Definition race0 : logsys := mkLog None None 0 [LIdle; LIdle] [].
Definition race_end : logsys := mkLog (Some O) (Some (build_set demo_opts)) zap_Debug [Leaving (Some (build_set demo_opts)); LIdle] [(false, demo_opts)].

Ltac and_then H c :=
  let H' := fresh in
  eassert (reachable linit lstep _) as H' by (eapply reach_step; [exact H|eapply c; reflexivity]);
  clear H; rename H' into H.

Lemma race_reachable : reachable linit lstep race_end.
Proof.
  pose proof (reach_init linit lstep race0 ltac:(split_and!; [done..|]; repeat constructor)) as H.
  and_then H (lstep_slow race0 0). and_then H (fun s => lstep_configure s 1 demo_opts).
  and_then H (fun s => lstep_lock_configure s 1 demo_opts). and_then H (fun s => lstep_level s 1 false demo_opts).
  and_then H (fun s => lstep_store s 1 false demo_opts). and_then H (fun s => lstep_unlock s 1 None).
  and_then H (fun s => lstep_lock_current s 0). and_then H (fun s => lstep_again s 0 (build_set demo_opts)). exact H.
Qed.

Lemma Log_published_witness : loggers race_end = Some (build_set demo_opts) /\
  exists s', lstep race_end s' /\ lthreads s' !! 0%nat <> lthreads race_end !! 0%nat.
Proof.
  split; [exact (proj1 (Log_published race_end race_reachable))|].
  apply (Log_published race_end race_reachable). reflexivity.
Defined.
