(* ===== verification/Db.v ===== *)
(** * Db: migrations and the instrumented driver ([pkg/db/mysql.go],
    [pkg/db/instrument.go])

    The migration library and the file system are interfaces. A search that
    does not return is [None] for every fuel. *)
From S2P Require Import Prelude GoStr.

#[global] Open Scope Z_scope.
#[global] Open Scope go_scope.

(** ** The interfaces *)

(** A file, when it is read, gives its contents or an error. *)
Abbreviation reader := (gostring + gostring)%type (only parsing).

(** The library parses a migration and orders two of them. *)
Class Migrate (M : Type) := {
  ParseMigration : gostring -> reader -> gostring + M;
  Less : M -> M -> bool
}.

Record entry := mkEntry { e_Name : gostring; e_IsDir : bool }.

(** [http.Dir]: a directory, given by its path, lists its entries and opens them. *)
Class FileSystem := {
  Readdir : gostring -> gostring + list entry;
  OpenIn : gostring -> gostring -> gostring + reader
}.

Inductive mig_err := FsError (e : gostring) | WhileOpening (name e : gostring) | WhileParsing (name e : gostring).

Section Migrations.
Context {M : Type} `{Migrate M}.

(** [sort.Sort] by [Less]; the order of migrations neither of which is less is
    not specified there, the model has one of them. *)
Definition by_id (a b : M) : Prop := Less b a = false.
#[export] Instance by_id_dec a b : Decision (by_id a b).
Proof. unfold by_id. apply _. Defined.
Definition sort_migrations (ms : list M) : list M := merge_sort by_id ms.

Lemma sort_migrations_perm ms : sort_migrations ms ≡ₚ ms.
Proof. apply merge_sort_Permutation. Qed.

(** When [Less] is a strict weak order the result is in order. *)
Lemma sort_migrations_sorted ms : Transitive by_id -> (forall a b, Less a b = true -> Less b a = false) ->
  StronglySorted by_id (sort_migrations ms).
Proof.
  intros Ht Ha. apply StronglySorted_merge_sort; [done|]. intros a b. unfold by_id.
  destruct (Less b a) eqn:E; [right; by apply Ha|by left].
Qed.

(** Opening and parsing one file. *)
Definition load_migration `{FileSystem} (dir name : gostring) : go mig_err M :=
  match OpenIn dir name with
  | inl e => Err (WhileOpening name e)
  | inr r => match ParseMigration name r with inl e => Err (WhileParsing name e) | inr m => Ok m end
  end.

Section Search.
Context `{FileSystem}.

(** The loop over the entries of a directory; [rec] searches a directory inside it. *)
Fixpoint scan (rec : gostring -> list M -> option (go mig_err (list M))) (fDir dir : gostring) (files : list entry)
    (migrations : list M) : option (go mig_err (list M)) :=
  match files with
  | [] => Some (Ok migrations)
  | info :: rest =>
      if HasSuffix (e_Name info) ".sql" then
        match load_migration dir (e_Name info) with
        | Ok m => scan rec fDir dir rest (migrations ++ [m])
        | Err e => Some (Err e)
        | Panicked msg => Some (Panicked msg)
        end
      else if e_IsDir info then
        match rec (fDir ++ "/" ++ e_Name info) migrations with
        | Some (Ok migrations) => scan rec fDir dir rest migrations
        | other => other
        end
      else scan rec fDir dir rest migrations
  end.

(** The directory of a nested search is joined to [f.Dir], the root of the search. *)
Fixpoint findMigrations (fuel : nat) (fDir dir : gostring) (migrations : list M) : option (go mig_err (list M)) :=
  match fuel with
  | O => None
  | S fuel =>
      match Readdir dir with
      | inl e => Some (Err (FsError e))
      | inr files => scan (findMigrations fuel fDir) fDir dir files migrations
      end
  end.

Definition FindMigrations (fuel : nat) (fDir : gostring) : option (go mig_err (list M)) :=
  match findMigrations fuel fDir fDir [] with
  | Some (Ok migrations) => Some (Ok (sort_migrations migrations))
  | other => other
  end.

(** [migrate.Exec] is given the migrations, or the error of the source. *)
Definition Migration {W E} (Exec : go mig_err (list M) -> W -> W * option E) (fuel : nat) (sqlDir : gostring) (w : W)
  : option (W * option E) :=
  match FindMigrations fuel sqlDir with Some r => Some (Exec r w) | None => None end.

(** ** The files of a tree of one level *)

Definition is_sql (e : entry) : bool := HasSuffix (e_Name e) ".sql".
Definition is_subdir (e : entry) : bool := negb (is_sql e) && e_IsDir e.
Definition sql_in (dir : gostring) (files : list entry) : list (gostring * gostring) :=
  flat_map (fun e => if is_sql e then [(dir, e_Name e)] else []) files.

(** The files in the order they are met. *)
Definition visited (fDir : gostring) (files : list entry) : list (gostring * gostring) :=
  flat_map (fun e => if is_sql e then [(fDir, e_Name e)]
                     else if e_IsDir e then
                       match Readdir (fDir ++ "/" ++ e_Name e) with
                       | inr sub => sql_in (fDir ++ "/" ++ e_Name e) sub
                       | inl _ => []
                       end
                     else []) files.

(** Files loaded one after the other, up to the first that fails. *)
Fixpoint load_all (l : list (gostring * gostring)) : go mig_err (list M) :=
  match l with
  | [] => Ok []
  | (dir, name) :: l => let! m := load_migration dir name in let! ms := load_all l in Ok (m :: ms)
  end.

Lemma load_all_app l1 l2 : load_all (l1 ++ l2) = let! a := load_all l1 in let! b := load_all l2 in Ok (a ++ b).
Proof.
  induction l1 as [|[dir name] l1 IH]; cbn; [by destruct (load_all l2)|]. rewrite IH.
  destruct (load_migration dir name); [|done..]. cbn. destruct (load_all l1); [|done..]. cbn. by destruct (load_all l2).
Qed.

Lemma load_all_no_panic l msg : load_all l <> Panicked msg.
Proof.
  revert msg. induction l as [|[dir name] l IH]; intros msg; cbn; [done|]. unfold load_migration.
  destruct (OpenIn dir name); [done|]. destruct (ParseMigration name _); [done|]. cbn.
  destruct (load_all l) eqn:E; [done..|]. by destruct (IH msg0).
Qed.

(** Adding what a search finds to what was found before. *)
Definition after (ms : list M) (r : go mig_err (list M)) : option (go mig_err (list M)) :=
  Some (let! found := r in Ok (ms ++ found)).

Lemma scan_flat rec fDir dir files ms : Forall (fun e => is_subdir e = false) files ->
  scan rec fDir dir files ms = after ms (load_all (sql_in dir files)).
Proof.
  intros Hf. revert ms. induction Hf as [|e files He _ IH]; intros ms; [by unfold after; cbn; rewrite app_nil_r|].
  cbn [scan]. unfold sql_in. cbn [flat_map]. fold (sql_in dir files) (is_sql e). unfold is_subdir in He.
  destruct (is_sql e); cbn in He; [|rewrite He; apply IH].
  cbn. destruct (load_migration dir (e_Name e)) as [m| |]; [|done..]. cbn. rewrite IH.
  unfold after. destruct (load_all _); cbn; [|done..]. by rewrite <- app_assoc.
Qed.

Lemma scan_one_level rec fDir files ms :
  (forall e, e ∈ files -> is_subdir e = true -> exists sub, Readdir (fDir ++ "/" ++ e_Name e) = inr sub /\
     forall ms, rec (fDir ++ "/" ++ e_Name e) ms = after ms (load_all (sql_in (fDir ++ "/" ++ e_Name e) sub))) ->
  scan rec fDir fDir files ms = after ms (load_all (visited fDir files)).
Proof.
  revert ms. induction files as [|e files IH]; intros ms Hrec; [by unfold after; cbn; rewrite app_nil_r|].
  cbn [scan]. unfold visited. cbn [flat_map]. fold (visited fDir files). fold (is_sql e).
  assert (forall ms, scan rec fDir fDir files ms = after ms (load_all (visited fDir files))) as IH'.
  { intros ms'. apply IH. intros e' He'. apply Hrec. by apply list_elem_of_further. }
  destruct (is_sql e) eqn:Esql; [|destruct (e_IsDir e) eqn:Edir].
  - cbn. destruct (load_migration fDir (e_Name e)) as [m| |]; [|done..]. cbn. rewrite IH'.
    unfold after. destruct (load_all _); cbn; [|done..]. by rewrite <- app_assoc.
  - destruct (Hrec e) as (sub & -> & Hsub); [apply list_elem_of_here|by unfold is_subdir; rewrite Esql|].
    rewrite Hsub, load_all_app. unfold after. destruct (load_all (sql_in _ _)) as [a| |]; [|done..]. cbn. rewrite IH'.
    unfold after. destruct (load_all (visited fDir files)); cbn; [|done..]. by rewrite <- app_assoc.
  - cbn [app]. apply IH'.
Qed.

(** A directory inside a directory of the same name: the search never returns. *)
Lemma findMigrations_loops fDir a sub files fuel dir ms : HasSuffix a ".sql" = false ->
  Readdir (fDir ++ "/" ++ a) = inr (mkEntry a true :: sub) -> Readdir dir = inr (mkEntry a true :: files) ->
  findMigrations fuel fDir dir ms = None.
Proof.
  intros Ha Hsub. revert dir files ms. induction fuel as [|fuel IH]; intros dir files ms Hd; [done|].
  cbn [findMigrations]. rewrite Hd. cbn [scan e_Name e_IsDir]. rewrite Ha. by rewrite (IH _ sub).
Qed.
End Search.
End Migrations.

(** C21 For a directory whose sub-directories hold no directories the search
    returns: every migration file of the directory and of its sub-directories is
    opened and parsed, in order of their identifiers, or the first failure is
    reported. *)
Theorem FindMigrations_one_level {M} `{Migrate M, FileSystem} fDir files fuel
  (HR : Readdir fDir = inr files)
  (Hsub : forall e, e ∈ files -> is_subdir e = true ->
     exists sub, Readdir (fDir ++ "/" ++ e_Name e) = inr sub /\ Forall (fun e => is_subdir e = false) sub)
  (Hfuel : (2 <= fuel)%nat) :
  exists r, FindMigrations fuel fDir = Some r /\
    match load_all (visited fDir files) with
    | Ok found => exists ms, r = Ok ms /\ ms ≡ₚ found /\
        (Transitive (by_id (M := M)) -> (forall a b : M, Less a b = true -> Less b a = false) -> StronglySorted by_id ms)
    | Err e => r = Err e
    | Panicked _ => False
    end.
Proof.
  destruct fuel as [|[|fuel]]; [lia..|]. unfold FindMigrations. cbn [findMigrations]. rewrite HR, scan_one_level.
  - unfold after. destruct (load_all (visited fDir files)) as [found|e|msg] eqn:E; cbn.
    + eexists. split; [done|]. eexists. split; [done|]. split; [apply sort_migrations_perm|]. apply sort_migrations_sorted.
    + by eexists.
    + by destruct (load_all_no_panic (visited fDir files) msg).
  - intros e He Hd. destruct (Hsub e He Hd) as (sub & Hr & Hflat). exists sub. split; [done|].
    intros ms. rewrite Hr. by apply scan_flat.
Qed.

(** ** A small tree *)

(** Directories with their entries; files are read by their full path. *)
Definition tree : Type := list (gostring * list entry).

Definition tree_fs (t : tree) : FileSystem := {|
  Readdir d := match find (fun p => eqs (fst p) d) t with Some (_, es) => inr es | None => inl "no such directory"%go end;
  OpenIn d n := inr (inr (d ++ "/" ++ n))
|}.

(** Migrations known by their name. *)
Definition named : Migrate gostring := {|
  ParseMigration id r := match r with inl e => inl e | inr _ => inr id end;
  Less a b := negb (bool_decide (str_le b a))
|}.

Definition demo_tree : tree := [
  ("db"%go, [mkEntry "2.sql" false; mkEntry "old" true; mkEntry "readme" false]);
  ("db/old"%go, [mkEntry "1.sql" false])].

Lemma FindMigrations_one_level_witness :
  @FindMigrations _ named (tree_fs demo_tree) 2 "db" = Some (Ok [("1.sql" : gostring); ("2.sql" : gostring)]) /\
  exists r, @FindMigrations _ named (tree_fs demo_tree) 2 "db" = Some r.
Proof.
  split; [by vm_compute|].
  destruct (@FindMigrations_one_level _ named (tree_fs demo_tree) "db" _ 2 eq_refl) as (r & Hr & _); [|lia|eauto].
  intros e He Hd. rewrite !elem_of_cons in He. destruct He as [->|[->|[->|He]]]; [done| |done|by apply elem_of_nil in He].
  exists [mkEntry "1.sql" false]. split; [done|]. by constructor.
Defined.

(** Directories two levels deep are looked for below the root: one that is only
    there is an error, and one with the name of its parent is searched for ever. *)
Example nested_directories :
  @FindMigrations _ named (tree_fs [("db"%go, [mkEntry "a" true]); ("db/a"%go, [mkEntry "b" true]); ("db/a/b"%go, [mkEntry "1.sql" false])]) 9 "db" =
    Some (Err (FsError "no such directory")) /\
  forall fuel, @FindMigrations _ named (tree_fs [("db"%go, [mkEntry "a" true]); ("db/a"%go, [mkEntry "a" true]); ("db/a/a"%go, [])]) fuel "db" = None.
Proof.
  split; [by vm_compute|]. intros fuel. unfold FindMigrations.
  by rewrite (findMigrations_loops "db" "a" [] [] fuel "db" []).
Qed.

(** ** The instrumented driver *)

Section Instrument.
Context {S Err Args Result Rows Stmt TxOpts Tx Value : Type} `{EqDecision Err} (ErrSkip : Err).

(** A connection of [database/sql/driver] over a server state: three methods it
    must have, and the optional interfaces. *)
Record Conn := mkConn {
  Prepare : gostring -> S -> S * (Err + Stmt);
  Close : S -> S * option Err;
  Begin : S -> S * (Err + Tx);
  ExecContext : option (gostring -> Args -> S -> S * (Result * option Err));
  QueryContext : option (gostring -> Args -> S -> S * (Rows * option Err));
  PrepareContext : option (gostring -> S -> S * (Err + Stmt));
  BeginTx : option (TxOpts -> S -> S * (Err + Tx));
  PingContext : option (S -> S * option Err);
  CheckNamedValue : option (Value -> S -> S * (Value * option Err));
  ResetSession : option (S -> S * option Err);
  IsValid : option (S -> bool)
}.

(** What was reported, the last report first; [dbObserver] tells whether an
    observer is set. A report changes nothing else: a panic of the observer is recovered. *)
Record observed := mkObserved { server : S; dbObserver : bool; reports : list (gostring * option Err) }.

Definition SetDBObserver (o : bool) (w : observed) : observed := mkObserved (server w) o (reports w).

Definition reportDB (op : gostring) (err : option Err) (w : observed) : observed :=
  if dbObserver w then mkObserved (server w) (dbObserver w) ((op, err) :: reports w) else w.

(** Calls of the driver leave the reports alone. *)
Definition lift {A} (f : S -> S * A) (w : observed) : observed * A :=
  let '(s, a) := f (server w) in (mkObserved s (dbObserver w) (reports w), a).

(** [instrumentedConnector.Connect]. *)
Definition Connect {C} (connect : S -> S * (Err + C)) (w : observed) : observed * (Err + C) :=
  let '(w, r) := lift connect w in
  (reportDB "connect" (match r with inl e => Some e | inr _ => None end) w, r).

(** A timed call; [driver.ErrSkip] asks for the prepared path and is not counted. *)
Definition timed {A} (zero : A) (f : option (gostring -> Args -> S -> S * (A * option Err))) (query : gostring) (args : Args)
    (w : observed) : observed * (A * option Err) :=
  match f with
  | None => (w, (zero, Some ErrSkip))
  | Some f =>
      let '(w, (res, err)) := lift (f query args) w in
      (if decide (err = Some ErrSkip) then w else reportDB "query" err w, (res, err))
  end.

Definition instr_ExecContext (nil : Result) (c : Conn) := timed nil (ExecContext c).
Definition instr_QueryContext (nil : Rows) (c : Conn) := timed nil (QueryContext c).

Definition instr_PrepareContext (c : Conn) (query : gostring) : observed -> observed * (Err + Stmt) :=
  lift (match PrepareContext c with Some f => f query | None => Prepare c query end).
Definition instr_BeginTx (c : Conn) (opts : TxOpts) : observed -> observed * (Err + Tx) :=
  lift (match BeginTx c with Some f => f opts | None => Begin c end).
Definition instr_Ping (c : Conn) : observed -> observed * option Err :=
  lift (match PingContext c with Some f => f | None => fun s => (s, None) end).
Definition instr_CheckNamedValue (c : Conn) (nv : Value) : observed -> observed * (Value * option Err) :=
  lift (match CheckNamedValue c with Some f => f nv | None => fun s => (s, (nv, Some ErrSkip)) end).
Definition instr_ResetSession (c : Conn) : observed -> observed * option Err :=
  lift (match ResetSession c with Some f => f | None => fun s => (s, None) end).
Definition instr_IsValid (c : Conn) (w : observed) : bool :=
  match IsValid c with Some f => f (server w) | None => true end.

(** The instrumentation observes: a statement answers what the driver answers
    and leaves the server as the driver does; it is reported once, with its
    error, when an observer is set and the driver did not ask to be skipped. *)
Lemma timed_transparent {A} (zero : A) f query args w :
  let '(w', r) := timed zero (Some f) query args w in
  f query args (server w) = (server w', r) /\ dbObserver w' = dbObserver w /\
  reports w' = (if dbObserver w && bool_decide (r.2 <> Some ErrSkip) then [("query"%go, r.2)] else []) ++ reports w.
Proof.
  unfold timed, lift, reportDB. destruct (f query args (server w)) as [s [res err]]. cbn.
  destruct (decide (err = Some ErrSkip)) as [->|Hne].
  - cbn. rewrite bool_decide_eq_false_2 by auto. by rewrite andb_false_r.
  - rewrite bool_decide_eq_true_2 by done. rewrite andb_true_r. cbn. by destruct (dbObserver w).
Qed.
End Instrument.
