(* ===== verification/Modules.v ===== *)
(** * Modules: registration and life cycle of modules ([pkg/register/register.go],
    [module/module.go])

    A module is known by its hooks, which act on a world [W] that stands for
    routes, tasks, database and whatever else they touch. *)
From S2P Require Import Prelude GoStr Db.

#[global] Open Scope Z_scope.
#[global] Open Scope go_scope.

(** ** Sources of data *)

(** [IMDatasourceType]: a set of bits of a Go int. *)
Definition IMDatasourceTypeNone : Z := 0.
Definition IMDatasourceTypeSubscribers : Z := 1.
Definition IMDatasourceTypeChannelInfo : Z := Z.shiftl 1 1.
Definition IMDatasourceTypeBlacklist : Z := Z.shiftl 1 2.
Definition IMDatasourceTypeWhitelist : Z := Z.shiftl 1 3.
Definition IMDatasourceTypeSystemUIDs : Z := Z.shiftl 1 4.

Definition Has (i d : Z) : bool := Z.land i d =? d.

(** [Has] asks for every bit of its argument; nothing is asked by [None]. *)
Lemma Has_iff i d : Has i d = true <-> forall n, 0 <= n -> Z.testbit d n = true -> Z.testbit i n = true.
Proof.
  unfold Has. rewrite Z.eqb_eq. split.
  - intros E n Hn Hd. rewrite <- E, Z.land_spec in Hd. by apply andb_true_iff in Hd as [? _].
  - intros Hall. apply Z.bits_inj'. intros n Hn. rewrite Z.land_spec.
    destruct (Z.testbit d n) eqn:Hd; [by rewrite (Hall n Hn Hd)|by rewrite andb_false_r].
Qed.

(** ** Embedded migrations *)

(** An opened entry of an embedded file system: a file can be read and sought, a
    directory cannot. *)
Inductive embedded := EFile (contents : gostring) | EDir.

Record SQLFS := mkSQLFS { ReadDir : gostring -> gostring + list entry; Open : gostring -> gostring + embedded }.

Section Lifecycle.
Context {W E Svc C M : Type} `{Migrate M}.

(** The loop over the entries: one that is no migration is passed over. *)
Fixpoint findMigrations_loop (fs : SQLFS) (files : list entry) (migrations : list M) : go mig_err (list M) :=
  match files with
  | [] => Ok migrations
  | info :: rest =>
      let name := e_Name info in
      if HasSuffix name ".sql" then
        match Open fs (path_Join "sql" name) with
        | inl e => Err (WhileOpening name e)
        | inr EDir => Panicked "interface conversion"
        | inr (EFile contents) =>
            match ParseMigration name (inr contents) with
            | inl e => Err (WhileParsing name e)
            | inr m => findMigrations_loop fs rest (migrations ++ [m])
            end
        end
      else findMigrations_loop fs rest migrations
  end.

Definition findMigrations (fs : SQLFS) (migrations : list M) : go mig_err (list M) :=
  match ReadDir fs "sql" with
  | inl e => Err (FsError e)
  | inr files => findMigrations_loop fs files migrations
  end.

Fixpoint findMigrations_all (sqlfss : list SQLFS) (migrations : list M) : go mig_err (list M) :=
  match sqlfss with
  | [] => Ok migrations
  | fs :: rest => let! migrations := findMigrations fs migrations in findMigrations_all rest migrations
  end.

Definition FindMigrations (sqlfss : list SQLFS) : go mig_err (list M) :=
  match sqlfss with
  | [] => Ok []
  | _ => let! migrations := findMigrations_all sqlfss [] in Ok (sort_migrations migrations)
  end.

(** ** Modules *)

Record Module_ := mkModule {
  Name : gostring;
  SetupAPI : option (W -> W * option (W -> W));    (** the router it makes, by its [Route] *)
  SetupTask : option (W -> W * option (W -> W));   (** ... by its [RegisterTasks] *)
  SQLDir : option SQLFS;
  Swagger : gostring;
  Service : option Svc;
  Start_ : option (W -> W * option E);
  Stop_ : option (W -> W * option E)
}.

Definition zero_Module : Module_ := mkModule [] None None None [] None None None.

Definition ModuleFnc : Type := C -> W -> W * Module_.

(** The package variables: the constructors, the [sync.Once], the modules. *)
Record registry := mkRegistry { modules : list ModuleFnc; once_done : bool; moduleList : list Module_ }.

Definition empty_registry : registry := mkRegistry [] false [].

Definition AddModule (f : ModuleFnc) (r : registry) : registry :=
  mkRegistry (modules r ++ [f]) (once_done r) (moduleList r).

(** The constructors, in order, on one context. *)
Fixpoint build (fs : list ModuleFnc) (ctx : C) (w : W) : W * list Module_ :=
  match fs with
  | [] => (w, [])
  | f :: fs => let '(w, m) := f ctx w in let '(w, ms) := build fs ctx w in (w, m :: ms)
  end.

Definition GetModules (ctx : C) (r : registry) (w : W) : registry * W * list Module_ :=
  if once_done r then (r, w, moduleList r)
  else
    let '(w, ms) := build (modules r) ctx w in
    let l := moduleList r ++ ms in
    (mkRegistry (modules r) true l, w, l).

Definition GetModuleByName (name : gostring) (r : registry) : Module_ :=
  match find (fun m => eqs (Name m) name) (moduleList r) with Some m => m | None => zero_Module end.

Definition GetService (name : gostring) (r : registry) : option Svc :=
  match find (fun m => eqs (Name m) name) (moduleList r) with Some m => Service m | None => None end.

(** ** Set-up, start and stop *)

(** [migrate.Exec] on the database of the context. *)
Context (Exec : mig_err + list M -> W -> W * option E).

Definition executeSQL (sqlfss : list SQLFS) (w : W) : W * go E unit :=
  let exec source :=
    let '(w, err) := Exec source w in (w, match err with Some e => Err e | None => Ok tt end) in
  match FindMigrations sqlfss with
  | Panicked msg => (w, Panicked msg)
  | Err e => exec (inl e)
  | Ok migrations => exec (inr migrations)
  end.

(** A router that is made is registered. *)
Definition install (hook : option (W -> W * option (W -> W))) (w : W) : W :=
  match hook with
  | None => w
  | Some f => match f w with (w, Some register) => register w | (w, None) => w end
  end.

Definition setup_module (setupTask : bool) (w : W) (m : Module_) : W :=
  let w := install (SetupAPI m) w in
  if setupTask then install (SetupTask m) w else w.

Definition Setup (ctx : C) (setupTask : bool) (r : registry) (w : W) : registry * W * go E unit :=
  let '(r, w, ms) := GetModules ctx r w in
  match executeSQL (omap SQLDir ms) w with
  | (w, Ok _) => (r, fold_left (setup_module setupTask) ms w, Ok tt)
  | (w, failed) => (r, w, failed)
  end.

(** The hooks in order, up to the first error. *)
Fixpoint run_hooks (hooks : list (option (W -> W * option E))) (w : W) : W * option E :=
  match hooks with
  | [] => (w, None)
  | None :: rest => run_hooks rest w
  | Some h :: rest => match h w with (w, Some e) => (w, Some e) | (w, None) => run_hooks rest w end
  end.

Definition Start (ctx : C) (r : registry) (w : W) : registry * (W * option E) :=
  let '(r, w, ms) := GetModules ctx r w in (r, run_hooks (map Start_ ms) w).

Definition Stop (ctx : C) (r : registry) (w : W) : registry * (W * option E) :=
  let '(r, w, ms) := GetModules ctx r w in (r, run_hooks (map Stop_ ms) w).

(** ** What the hooks do *)

(** All hooks of a list ran, each without an error. *)
Inductive all_ran : list (option (W -> W * option E)) -> W -> W -> Prop :=
| all_ran_nil w : all_ran [] w w
| all_ran_none hs w w' : all_ran hs w w' -> all_ran (None :: hs) w w'
| all_ran_some h hs w w1 w' : h w = (w1, None) -> all_ran hs w1 w' -> all_ran (Some h :: hs) w w'.

(** The first hook that fails ends the run: those after it are not called. *)
Lemma run_hooks_spec hs w w' : 
  (run_hooks hs w = (w', None) <-> all_ran hs w w') /\
  (forall e, run_hooks hs w = (w', Some e) <->
     exists before h rest w1, hs = before ++ Some h :: rest /\ all_ran before w w1 /\ h w1 = (w', Some e)).
Proof.
  revert w. induction hs as [|[h|] hs IH]; intros w; cbn.
  - split; [split; [intros [= <-]; constructor|by inversion 1]|]. intros e. split; [done|].
    intros (before & h & rest & w1 & E' & _). by destruct before.
  - destruct (h w) as [w1 [e1|]] eqn:Eh.
    + split; [split; [done|inversion 1; congruence]|]. intros e. split.
      * intros [= <- <-]. exists [], h, hs, w. split_and!; [done|constructor|done].
      * intros (before & h' & rest & w2 & E' & Hran & Hh).
        destruct before as [|b before]; simplify_eq/=; inversion Hran; simplify_eq; congruence.
    + destruct (IH w1) as [IHo IHe]. split.
      * rewrite IHo. split; [by apply all_ran_some|]. inversion 1; congruence.
      * intros e. rewrite IHe. split; intros (before & h' & rest & w2 & E' & Hran & Hh).
        -- exists (Some h :: before), h', rest, w2. rewrite E'. split_and!; [done|by apply all_ran_some with w1|done].
        -- destruct before as [|b before]; simplify_eq/=; inversion Hran; simplify_eq; [congruence|].
           exists before, h', rest, w2. split_and!; done || congruence.
  - destruct (IH w) as [IHo IHe]. split.
    + rewrite IHo. split; [by apply all_ran_none|by inversion 1].
    + intros e. rewrite IHe. split; intros (before & h' & rest & w2 & E' & Hran & Hh).
      * exists (None :: before), h', rest, w2. rewrite E'. split_and!; [done|by apply all_ran_none|done].
      * destruct before as [|b before]; simplify_eq/=. inversion Hran; simplify_eq.
        exists before, h', rest, w2. split_and!; done.
Qed.

(** ** The modules are built once *)

Inductive reg_op := OAdd (f : ModuleFnc) | OGet (ctx : C).

Fixpoint run_ops (ops : list reg_op) (r : registry) (w : W) : registry * W :=
  match ops with
  | [] => (r, w)
  | OAdd f :: ops => run_ops ops (AddModule f r) w
  | OGet ctx :: ops => let '(r, w, _) := GetModules ctx r w in run_ops ops r w
  end.

Lemma run_ops_add fs ops r w : run_ops (map OAdd fs ++ ops) r w = run_ops ops (fold_left (fun r f => AddModule f r) fs r) w.
Proof. revert r. induction fs as [|f fs IH]; intros r; [done|apply IH]. Qed.

Lemma fold_AddModule fs r : fold_left (fun r f => AddModule f r) fs r = mkRegistry (modules r ++ fs) (once_done r) (moduleList r).
Proof.
  revert r. induction fs as [|f fs IH]; intros [l o ms]; cbn; [by rewrite app_nil_r|]. rewrite IH. cbn. by rewrite <- app_assoc.
Qed.

Lemma GetModules_done ctx r w : once_done r = true -> GetModules ctx r w = (r, w, moduleList r).
Proof. unfold GetModules. by intros ->. Qed.

Lemma run_ops_done ops r w : once_done r = true ->
  once_done (run_ops ops r w).1 = true /\ moduleList (run_ops ops r w).1 = moduleList r /\ (run_ops ops r w).2 = w.
Proof.
  revert r. induction ops as [|[f|ctx] ops IH]; intros r Hr; [done|by apply (IH (AddModule f r))|].
  cbn. rewrite GetModules_done by done. by apply IH.
Qed.

Lemma GetModules_first fs ctx w :
  GetModules ctx (fold_left (fun r f => AddModule f r) fs empty_registry) w =
  (mkRegistry fs true (build fs ctx w).2, (build fs ctx w).1, (build fs ctx w).2).
Proof. rewrite fold_AddModule. unfold GetModules. cbn. by destruct (build fs ctx w). Qed.
End Lifecycle.

(** The constructors run once, in order of registration, on the context of the
    first caller; a module registered later is never built, and whoever asks
    afterwards gets the same modules and changes nothing. *)
Lemma modules_built_once {W E Svc C : Type} (fs : list (@ModuleFnc W E Svc C)) ctx ops w :
  let '(r, w') := run_ops (map OAdd fs ++ OGet ctx :: ops) empty_registry w in
  w' = (build fs ctx w).1 /\ moduleList r = (build fs ctx w).2 /\
  forall ctx', GetModules ctx' r w' = (r, w', (build fs ctx w).2).
Proof.
  rewrite run_ops_add. cbn [run_ops]. rewrite GetModules_first.
  set (r0 := mkRegistry fs true (build fs ctx w).2).
  pose proof (run_ops_done ops r0 (build fs ctx w).1 eq_refl) as (Hd & Hl & Hw).
  destruct (run_ops ops r0 _) as [r w']. cbn in *. subst w'. split_and!; [done..|].
  intros ctx'. rewrite GetModules_done by done. by rewrite Hl.
Qed.

(** C22 Starting a server with registered modules: the modules are built once;
    set-up succeeds exactly when all their migrations were found and executed,
    and then every module's routes (and tasks, where wanted) are in place, in
    order; when it fails no module was set up. Starting then runs the start
    hooks of the same modules in order, and either all ran without an error or
    the error is that of the first that failed, with none after it started. *)
Theorem module_startup {W E Svc C M : Type} `{Migrate M} (Exec : mig_err + list M -> W -> W * option E)
  (fs : list (@ModuleFnc W E Svc C)) ctx setupTask w
  (HExec : forall e w, (Exec (inl e) w).2 <> None) :
  let '(w1, ms) := build fs ctx w in
  let '(r, w2, res) := Setup Exec ctx setupTask (fold_left (fun r f => AddModule f r) fs empty_registry) w in
  moduleList r = ms /\
  (res = Ok tt <-> exists migrations, FindMigrations (omap SQLDir ms) = Ok migrations /\ (Exec (inr migrations) w1).2 = None) /\
  (forall migrations, FindMigrations (omap SQLDir ms) = Ok migrations ->
     let w0 := (Exec (inr migrations) w1).1 in
     w2 = match res with Ok _ => fold_left (setup_module setupTask) ms w0 | _ => w0 end) /\
  exists w3 err, Start ctx r w2 = (r, (w3, err)) /\
    (err = None -> all_ran (map Start_ ms) w2 w3) /\
    (forall e, err = Some e -> exists before h rest wb, map Start_ ms = before ++ Some h :: rest /\
       all_ran before w2 wb /\ h wb = (w3, Some e)).
Proof.
  unfold Setup. rewrite GetModules_first. destruct (build fs ctx w) as [w1 ms]. cbn [fst snd].
  assert (forall r w2, moduleList r = ms -> once_done r = true -> exists w3 err, Start ctx r w2 = (r, (w3, err)) /\
    (err = None -> all_ran (map Start_ ms) w2 w3) /\
    (forall e, err = Some e -> exists before h rest wb, map Start_ ms = before ++ Some h :: rest /\
       all_ran before w2 wb /\ h wb = (w3, Some e))) as Hstart.
  { intros r w2 Hl Hd. unfold Start. rewrite GetModules_done, Hl by done.
    destruct (run_hooks (map Start_ ms) w2) as [w3 err] eqn:Er. exists w3, err. split; [done|].
    destruct (run_hooks_spec (map Start_ ms) w2 w3) as [Hok Herr]. split; [intros ->; by apply Hok|].
    intros e ->. by apply Herr. }
  unfold executeSQL. destruct (FindMigrations (omap SQLDir ms)) as [migrations|e|msg].
  - destruct (Exec (inr migrations) w1) as [w' [e|]] eqn:Ee; (split; [done|]; split; [|split; [|by apply Hstart]]).
    + split; [done|]. intros (? & [= <-] & H'). by rewrite Ee in H'.
    + intros ? [= <-]. by rewrite Ee.
    + split; [|done]. intros _. exists migrations. by rewrite Ee.
    + intros ? [= <-]. by rewrite Ee.
  - specialize (HExec e w1). destruct (Exec (inl e) w1) as [w' [e'|]]; [|done].
    split; [done|]. split; [|split; [done|by apply Hstart]]. split; [done|by intros (? & ? & _)].
  - split; [done|]. split; [|split; [done|by apply Hstart]]. split; [done|by intros (? & ? & _)].
Qed.

(** ** A small server *)

(** The world is the list of what happened. *)
Definition note (what : gostring) (w : list gostring) : list gostring := w ++ [what].

Definition demo_fs (name : gostring) : SQLFS :=
  mkSQLFS (fun d => if eqs d "sql" then inr [mkEntry name false; mkEntry "readme" false] else inl ("no directory" : gostring))
          (fun p => inr (EFile p)).

Definition demo_module (name sql : gostring) (start_err : option gostring) : @ModuleFnc (list gostring) gostring unit unit :=
  fun _ w => (note ("new " ++ name) w,
    mkModule name (Some (fun w => (w, Some (note ("route " ++ name))))) None (Some (demo_fs sql)) [] None
      (Some (fun w => (note ("start " ++ name) w, start_err))) None).

Definition demo_exec (source : mig_err + list gostring) (w : list gostring) : list gostring * option gostring :=
  match source with
  | inl _ => (w, Some ("no migrations" : gostring))
  | inr ms => (w ++ map (fun m => "apply " ++ m) ms, None)
  end.

Definition demo_modules := [demo_module "user" "2.sql" (Some ("port in use" : gostring)); demo_module "group" "1.sql" None].

Definition demo_registry := fold_left (fun r f => AddModule f r) demo_modules empty_registry.

(** The first module fails to start, the second is never started. *)
Example demo_startup :
  let '(r, w, res) := @Setup _ _ _ _ _ named demo_exec tt false demo_registry [] in
  let '(_, (w', err)) := Start tt r w in
  res = Ok tt /\ err = Some ("port in use" : gostring) /\
  w' = ["new user"; "new group"; "apply 1.sql"; "apply 2.sql"; "route user"; "route group"; "start user"].
Proof. vm_compute. done. Qed.

Lemma module_startup_witness :
  (forall e w, (demo_exec (inl e) w).2 <> None) /\
  let '(r, w, res) := @Setup _ _ _ _ _ named demo_exec tt false demo_registry [] in res = Ok tt.
Proof.
  split; [done|].
  pose proof (@module_startup _ _ _ _ _ named demo_exec demo_modules tt false [] ltac:(done)) as H.
  fold demo_registry in H. destruct (build demo_modules tt []) as [w1 ms] eqn:Eb.
  destruct (Setup demo_exec tt false demo_registry []) as [[r w2] res]. destruct H as (_ & Hres & _).
  apply Hres. exists ["1.sql"%go; "2.sql"%go]. vm_compute in Eb. injection Eb as <- <-. vm_compute. done.
Defined.
