(* ===== verification/AppContext.v ===== *)
(** * AppContext: the application context ([config/context.go])

    The connections made once, the values shared by name, and the listeners.
    Opening a database and dialling redis are arguments; a listener is known by a
    number and acts through [handler]. *)
From S2P Require Import Prelude GoStr Redis Cache.

#[global] Open Scope Z_scope.
#[global] Open Scope go_scope.

(** ** Connections *)

(** The part of the configuration that names the servers. *)
Record DB_config := mkDBConfig {
  MySQLAddr : gostring; MySQLMaxOpenConns : Z; MySQLMaxIdleConns : Z; MySQLConnMaxLifetime : Z;
  RedisAddr : gostring; RedisPass : gostring; RedisTLS : bool; RedisTLSInsecureSkipVerify : bool; RedisTLSCAFile : gostring
}.

Section Connections.
Context {Session Client Pool Value : Type}.
Context (NewMySQL_db : gostring -> Z -> Z -> Z -> go unit Session).
Context (NewClient : Options -> option (tls_Config Pool) -> Client).
Context (ReadFile : gostring -> gostring + gostring) (AppendCertsFromPEM : gostring -> option Pool).

(** The flags are the [sync.Once]s; a pointer that was never set is [None]. *)
Record context := mkContext {
  cfg : DB_config;
  mysqlOnce : bool; mySQLSession : option Session;
  redisOnce : bool; redisCache : option (RedisCache Client);
  memoryOnce : bool; memoryCache : option MemoryCache;
  valueMap : gmap gostring Value
}.

Definition zero_context (c : DB_config) : context := mkContext c false None false None false None ∅.

(** Opening panics on an address that cannot be parsed; [Do] counts as done then. *)
Definition NewMySQL (c : context) : context * go unit (option Session) :=
  if mysqlOnce c then (c, Ok (mySQLSession c))
  else
    let with_session s := mkContext (cfg c) true s (redisOnce c) (redisCache c) (memoryOnce c) (memoryCache c) (valueMap c) in
    match NewMySQL_db (MySQLAddr (cfg c)) (MySQLMaxOpenConns (cfg c)) (MySQLMaxIdleConns (cfg c)) (MySQLConnMaxLifetime (cfg c)) with
    | Ok s => (with_session (Some s), Ok (Some s))
    | Err e => (with_session (mySQLSession c), Err e)
    | Panicked msg => (with_session (mySQLSession c), Panicked msg)
    end.

Definition DB : context -> context * go unit (option Session) := NewMySQL.

(** The body of the [Do] of [NewRedisCache]. *)
Definition dial (c : DB_config) : go tls_err (RedisCache Client) :=
  let opts tls := NewWithOptions_options (Some (mkOptions (RedisAddr c) (RedisPass c) 0 tls)) in
  if RedisTLS c then
    let! tlsCfg := BuildTLSConfig ReadFile AppendCertsFromPEM (RedisTLSInsecureSkipVerify c) (RedisTLSCAFile c) in
    Ok (NewClient (opts true) (Some tlsCfg))
  else Ok (NewClient (opts false) None).

Definition NewRedisCache (c : context) : context * go unit (option (RedisCache Client)) :=
  if redisOnce c then (c, Ok (redisCache c))
  else
    let with_cache r := mkContext (cfg c) (mysqlOnce c) (mySQLSession c) true r (memoryOnce c) (memoryCache c) (valueMap c) in
    match dial (cfg c) with
    | Ok conn => (with_cache (Some conn), Ok (Some conn))
    | Err _ => (with_cache (redisCache c), Panicked "octo-lib: build redis TLS config")
    | Panicked msg => (with_cache (redisCache c), Panicked msg)
    end.

Definition Cache_ : context -> context * go unit (option (RedisCache Client)) := NewRedisCache.

Definition NewMemoryCache_once (c : context) : context * option MemoryCache :=
  if memoryOnce c then (c, memoryCache c)
  else (mkContext (cfg c) (mysqlOnce c) (mySQLSession c) (redisOnce c) (redisCache c) true (Some NewMemoryCache) (valueMap c),
        Some NewMemoryCache).

(** The method of a nil cache reads through the nil pointer. *)
Definition GetRedisConn_ctx (c : context) : context * go unit Client :=
  let '(c, r) := NewRedisCache c in
  (c, let! r := r in match r with Some r => Ok (GetRedisConn r) | None => Panicked "nil pointer dereference" end).

Definition SetValue (value : Value) (key : gostring) (c : context) : context :=
  mkContext (cfg c) (mysqlOnce c) (mySQLSession c) (redisOnce c) (redisCache c) (memoryOnce c) (memoryCache c) (<[key := value]> (valueMap c)).

Definition Value_ (key : gostring) (c : context) : option Value := valueMap c !! key.

(** Connections are made once: whatever is asked in between, a session, a cache
    or a redis connection is the one of the first call. *)
Inductive ctx_call := AskMySQL | AskRedis | AskMemory | Put (k : gostring) (v : Value).

Definition ctx_step (c : context) (k : ctx_call) : context :=
  match k with
  | AskMySQL => (NewMySQL c).1
  | AskRedis => (NewRedisCache c).1
  | AskMemory => (NewMemoryCache_once c).1
  | Put k v => SetValue v k c
  end.

Definition kept (c c' : context) : Prop :=
  cfg c' = cfg c /\
  (mysqlOnce c = true -> mysqlOnce c' = true /\ mySQLSession c' = mySQLSession c) /\
  (redisOnce c = true -> redisOnce c' = true /\ redisCache c' = redisCache c) /\
  (memoryOnce c = true -> memoryOnce c' = true /\ memoryCache c' = memoryCache c).

Lemma ctx_step_kept c k : kept c (ctx_step c k).
Proof.
  unfold kept. destruct k; cbn.
  - unfold NewMySQL. destruct (mysqlOnce c) eqn:E; cbn; [by rewrite E|]. by destruct (NewMySQL_db _ _ _ _).
  - unfold NewRedisCache. destruct (redisOnce c) eqn:E; cbn; [by rewrite E|]. by destruct (dial (cfg c)).
  - unfold NewMemoryCache_once. by destruct (memoryOnce c) eqn:E; cbn; rewrite ?E.
  - done.
Qed.

Lemma ctx_run_kept ks c : kept c (fold_left ctx_step ks c).
Proof.
  revert c. induction ks as [|k ks IH]; intros c; [by split_and!|]. cbn.
  destruct (ctx_step_kept c k) as (H1 & H2 & H3 & H4), (IH (ctx_step c k)) as (J1 & J2 & J3 & J4).
  split; [congruence|]. split_and!; intros Ho.
  - destruct (H2 Ho) as [Ho' <-]. by apply J2.
  - destruct (H3 Ho) as [Ho' <-]. by apply J3.
  - destruct (H4 Ho) as [Ho' <-]. by apply J4.
Qed.

(** The redis cache, for every history: the first request dials and either
    panics, or gives the connection that every later request gives. After a
    panic later requests return a nil cache, and its connection panics. *)
Lemma NewRedisCache_once c ks (Hc : redisOnce c = false) (Hn : redisCache c = None) :
  let '(c1, r1) := NewRedisCache c in
  let later := NewRedisCache (fold_left ctx_step ks c1) in
  match dial (cfg c) with
  | Ok conn => r1 = Ok (Some conn) /\ later.2 = Ok (Some conn)
  | _ => (exists msg, r1 = Panicked msg) /\ later.2 = Ok None /\ (GetRedisConn_ctx later.1).2 = Panicked "nil pointer dereference"
  end.
Proof.
  assert (forall r c1, redisOnce c1 = true -> redisCache c1 = r ->
    NewRedisCache (fold_left ctx_step ks c1) = (fold_left ctx_step ks c1, Ok r)) as Hlater.
  { intros r c1 Ho Hr. destruct (ctx_run_kept ks c1) as (_ & _ & H & _). destruct (H Ho) as [Ho' Hr'].
    unfold NewRedisCache. by rewrite Ho', Hr', Hr. }
  unfold NewRedisCache at 1. rewrite Hc. destruct (dial (cfg c)) as [conn|e|msg].
  - by rewrite (Hlater (Some conn)).
  - rewrite (Hlater None) by done. split; [eauto|]. split; [done|]. unfold GetRedisConn_ctx. cbn [fst].
    by rewrite (Hlater None).
  - rewrite (Hlater None) by done. split; [eauto|]. split; [done|]. unfold GetRedisConn_ctx. cbn [fst].
    by rewrite (Hlater None).
Qed.

(** The last value stored under a name is the one that is read. *)
Lemma Value_SetValue k k' v c : Value_ k (SetValue v k' c) = if decide (k = k') then Some v else Value_ k c.
Proof. unfold Value_, SetValue. cbn. destruct (decide (k = k')) as [->|]; [by rewrite lookup_insert_eq|by rewrite lookup_insert_ne]. Qed.
End Connections.

(** ** Listeners

    The lists are package variables under a read-write lock; [readers] counts the
    read locks that are held. A writer waits while there are readers, which is
    [None] when the goroutine that would have to leave is the writer itself. *)
Section Listeners.
Context {Message W : Type}.

Record hub := mkHub {
  onlinStatusListeners : list nat;
  eventListeners : gmap gostring (list nat);
  messagesListeners : list nat;
  readers : nat;
  outside : W
}.

Definition AddOnlineStatusListener (l : nat) (h : hub) : hub :=
  mkHub (onlinStatusListeners h ++ [l]) (eventListeners h) (messagesListeners h) (readers h) (outside h).
Definition GetAllOnlineStatusListeners (h : hub) : list nat := onlinStatusListeners h.

Definition AddEventListener (event : gostring) (l : nat) (h : hub) : hub :=
  mkHub (onlinStatusListeners h) (<[event := default [] (eventListeners h !! event) ++ [l]]> (eventListeners h))
    (messagesListeners h) (readers h) (outside h).
Definition GetEventListeners (event : gostring) (h : hub) : list nat := default [] (eventListeners h !! event).

Definition AddMessagesListener (l : nat) (h : hub) : option hub :=
  if (readers h =? 0)%nat
  then Some (mkHub (onlinStatusListeners h) (eventListeners h) (messagesListeners h ++ [l]) (readers h) (outside h))
  else None.

Definition set_readers (n : nat) (h : hub) : hub :=
  mkHub (onlinStatusListeners h) (eventListeners h) (messagesListeners h) n (outside h).

(** What a listener does with the messages, which may be to register others. *)
Context (handler : nat -> list Message -> hub -> option hub).

Fixpoint call_listeners (listeners : list nat) (messages : list Message) (h : hub) : option hub :=
  match listeners with
  | [] => Some h
  | l :: rest => match handler l messages h with Some h => call_listeners rest messages h | None => None end
  end.

(** The list is copied under the read lock, which is given back before the calls. *)
Definition NotifyMessagesListeners (messages : list Message) (h : hub) : option hub :=
  let h := set_readers (S (readers h)) h in
  let listeners := messagesListeners h in
  let h := set_readers (pred (readers h)) h in
  call_listeners listeners messages h.

(** Registered listeners are found, in order, under their event. *)
Lemma GetEventListeners_Add event event' l h :
  GetEventListeners event (AddEventListener event' l h) =
  GetEventListeners event h ++ (if decide (event = event') then [l] else []).
Proof.
  unfold GetEventListeners, AddEventListener. cbn. destruct (decide (event = event')) as [->|].
  - by rewrite lookup_insert_eq.
  - by rewrite lookup_insert_ne, app_nil_r.
Qed.
End Listeners.

(** A listener that notes its call outside, and registers the listeners [adds]. *)
Fixpoint add_all {W} (adds : list nat) (h : @hub W) : option hub :=
  match adds with
  | [] => Some h
  | l :: adds => match AddMessagesListener l h with Some h => add_all adds h | None => None end
  end.

Definition noting {Message} (adds : nat -> list nat) (l : nat) (_ : list Message) (h : @hub (list nat)) : option hub :=
  add_all (adds l) (mkHub (onlinStatusListeners h) (eventListeners h) (messagesListeners h) (readers h) (outside h ++ [l])).

Lemma add_all_free {W} adds (h : @hub W) : readers h = O ->
  add_all adds h = Some (mkHub (onlinStatusListeners h) (eventListeners h) (messagesListeners h ++ adds) O (outside h)).
Proof.
  revert h. induction adds as [|l adds IH]; intros [o e m r w] Hr; cbn in *; subst; [by rewrite app_nil_r|].
  unfold AddMessagesListener. cbn. rewrite IH by done. cbn. by rewrite <- app_assoc.
Qed.

(** Every listener registered when messages arrive is called once, in order,
    whatever the listeners register meanwhile; that takes effect for the next
    messages, and registering from a listener never waits for the notification. *)
Lemma NotifyMessagesListeners_snapshot {Message} adds (messages : list Message) h : readers h = O ->
  NotifyMessagesListeners (noting adds) messages h =
  Some (mkHub (onlinStatusListeners h) (eventListeners h)
         (messagesListeners h ++ flat_map adds (messagesListeners h)) O (outside h ++ messagesListeners h)).
Proof.
  intros Hr. unfold NotifyMessagesListeners. destruct h as [o e m r w]. cbn in *. subst r. change (pred 1) with O.
  assert (forall ls m w, call_listeners (noting adds) ls messages (mkHub o e m O w) =
    Some (mkHub o e (m ++ flat_map adds ls) O (w ++ ls))) as Hc; [|unfold set_readers; cbn; apply Hc].
  intros ls. induction ls as [|l ls IH]; intros m' w'; cbn; [by rewrite !app_nil_r|].
  unfold noting at 1. cbn. rewrite add_all_free by done. cbn. rewrite IH. by rewrite <- !app_assoc.
Qed.
