(* ===== verification/Model.v ===== *)
(** * Model: data handed between services ([model/channel.go], [model/respond.go],
    the sources of data of [pkg/register], the requests of [config/msg.go] and
    [config/msg_group.go] that this library only declares)

    The structs, and the JSON form of a channel's details. *)
From S2P Require Import Prelude GoStr Json Visibility ImApi GroupMsg Modules.

#[global] Open Scope Z_scope.
#[global] Open Scope go_scope.

Record channel_ref := mkChannelRef { ref_ChannelID : gostring; ref_ChannelType : Z }.

Record ChannelResp := mkChannelResp {
  ch_Channel : channel_ref; ch_ParentChannel : option channel_ref;
  ch_Username : gostring; ch_Name : gostring; ch_Logo : gostring; ch_Remark : gostring; ch_Status : Z; ch_Online : Z;
  ch_LastOffline : Z; ch_DeviceFlag : Z; ch_Receipt : Z; ch_Robot : Z; ch_Category : gostring; ch_Stick : Z; ch_Mute
  : Z; ch_ShowNick : Z; ch_Follow : Z; ch_BeDeleted : Z; ch_BeBlacklist : Z; ch_Notice : gostring; ch_Save : Z;
  ch_Forbidden : Z; ch_Invite : Z; ch_Flame : Z; ch_FlameSecond : Z; ch_Extra : option (gmap gostring json) }.

Definition channel_ref_json (r : channel_ref) : json :=
  JObj [("channel_id" : gostring, JStr (ref_ChannelID r)); ("channel_type" : gostring, JInt (ref_ChannelType r))].

(** In the order of the fields; a parent that is absent and an empty user name are
    left out. *)
Definition ChannelResp_json (c : ChannelResp) : json :=
  JObj ([("channel" : gostring, channel_ref_json (ch_Channel c))] ++
    omitempty (match ch_ParentChannel c with None => true | Some _ => false end) "parent_channel"
      (match ch_ParentChannel c with None => JNull | Some r => channel_ref_json r end) ++
    omitempty (eqs (ch_Username c) []) "username" (JStr (ch_Username c)) ++
    [("name" : gostring, JStr (ch_Name c)); ("logo" : gostring, JStr (ch_Logo c)); ("remark" : gostring, JStr
     (ch_Remark c)); ("status" : gostring, JInt (ch_Status c)); ("online" : gostring, JInt (ch_Online c));
     ("last_offline" : gostring, JInt (ch_LastOffline c)); ("device_flag" : gostring, JInt (ch_DeviceFlag c));
     ("receipt" : gostring, JInt (ch_Receipt c)); ("robot" : gostring, JInt (ch_Robot c)); ("category" : gostring,
     JStr (ch_Category c)); ("stick" : gostring, JInt (ch_Stick c)); ("mute" : gostring, JInt (ch_Mute c));
     ("show_nick" : gostring, JInt (ch_ShowNick c)); ("follow" : gostring, JInt (ch_Follow c)); ("be_deleted" :
     gostring, JInt (ch_BeDeleted c)); ("be_blacklist" : gostring, JInt (ch_BeBlacklist c)); ("notice" : gostring,
     JStr (ch_Notice c)); ("save" : gostring, JInt (ch_Save c)); ("forbidden" : gostring, JInt (ch_Forbidden c));
     ("invite" : gostring, JInt (ch_Invite c)); ("flame" : gostring, JInt (ch_Flame c)); ("flame_second" : gostring,
     JInt (ch_FlameSecond c));
     ("extra" : gostring, match ch_Extra c with None => JNull | Some m => obj_of_map m end)]).

(** The keys of the object are pairwise different, so it reads back as a map that
    holds every field. *)
Definition object_keys (v : json) : list gostring := match v with JObj kvs => map fst kvs | _ => [] end.

Lemma ChannelResp_keys c : NoDup (object_keys (ChannelResp_json c)).
Proof.
  unfold ChannelResp_json, omitempty, object_keys.
  destruct (ch_ParentChannel c), (eqs (ch_Username c) []); cbn [map app fst]; apply (bool_decide_unpack _); vm_compute; reflexivity.
Qed.

Lemma ChannelResp_parent c : "parent_channel"%go ∈ object_keys (ChannelResp_json c) <-> ch_ParentChannel c <> None.
Proof.
  unfold ChannelResp_json, omitempty, object_keys.
  destruct (ch_ParentChannel c), (eqs (ch_Username c) []); cbn [map app fst]; (split; [|try done]);
    first [done | intros _; apply (bool_decide_unpack _); vm_compute; reflexivity | intros Hin; revert Hin; apply (bool_decide_unpack _); vm_compute; reflexivity].
Qed.

(** ** Answers of the sources of data *)

Record Invite := mkInvite { inv_InviteCode : gostring; inv_Vercode : gostring; inv_Uid : gostring }.
Record FriendResp := mkFriend { fr_Remark : gostring; fr_ToUID : gostring; fr_IsDeleted : Z; fr_IsAlone : Z; fr_ShortNo : gostring }.
Record GroupMemberResp := mkGroupMember {
  gm_GroupNo : gostring; gm_UID : gostring; gm_Name : gostring; gm_Remark : gostring; gm_InviteUID : gostring;
  gm_IsDeleted : Z; gm_Role : Z; gm_Status : Z; gm_CreatedAt : gostring; gm_ForbiddenExpirTime : Z }.
Record DeviceResp := mkDevice { dv_ID : Z; dv_DeviceID : gostring; dv_DeviceName : gostring; dv_UID : gostring; dv_DeviceModel : gostring }.
Record BaseUserVO := mkBaseUser { bu_UID : gostring; bu_Name : gostring }.
Record CallingChannelResp := mkCallingChannel {
  cc_ChannelID : gostring; cc_ChannelType : Z; cc_RoomName : gostring; cc_Participants : list BaseUserVO }.

(** ** Sources of data ([register.go])

    A function of a source may be absent (nil), and fails with an error [E]. *)
Section Sources.
Context {E : Type}.

Record IMDatasource := mkIMDatasource {
  HasData : option (gostring -> Z -> Z);
  Subscribers : option (gostring -> Z -> E + list gostring);
  ChannelInfo : option (gostring -> Z -> E + gmap gostring json);
  Blacklist : option (gostring -> Z -> E + list gostring);
  Whitelist : option (gostring -> Z -> E + list gostring);
  SystemUIDs : option (E + list gostring) }.

Record BussDataSource := mkBussDataSource {
  ChannelGet : option (gostring -> Z -> gostring -> E + option ChannelResp);
  IsShowShortNo : option (gostring -> gostring -> gostring -> E + (bool * gostring));
  GetInviteCode : option (gostring -> E + option Invite);
  GetFriends : option (gostring -> E + list FriendResp);
  GetGroupMember : option (gostring -> gostring -> E + option GroupMemberResp);
  GetDevice : option (list Z -> E + list DeviceResp);
  GetCallingChannel : option (gostring -> list gostring -> E + list CallingChannelResp) }.
End Sources.

(** ** Requests and answers of [config/] for the servers on top

    Nothing in this library fills them in; the structs and what they are in JSON.
    A pointer in a list may be nil. *)

Definition pointer_json {A} (f : A -> json) (p : option A) : json := match p with Some a => f a | None => JNull end.

Record MessageDeleteReq := mkMessageDeleteReq { md_UID : gostring; md_ChannelID : gostring; md_ChannelType : Z; md_MessageIDs : slice Z }.
Definition MessageDeleteReq_json (r : MessageDeleteReq) : json :=
  JObj [("uid"%go, JStr (md_UID r)); ("channel_id"%go, JStr (md_ChannelID r)); ("channel_type"%go, JInt (md_ChannelType r));
            ("message_ids"%go, slice_json JInt (md_MessageIDs r))].

Record CMDGroupAvatarUpdateReq := mkCMDGroupAvatarUpdateReq { ga_GroupNo : gostring; ga_Members : slice gostring }.
Definition CMDGroupAvatarUpdateReq_json (r : CMDGroupAvatarUpdateReq) : json :=
  JObj [("group_no"%go, JStr (ga_GroupNo r)); ("members"%go, slice_json JStr (ga_Members r))].

Record CMDResp := mkCMDResp { cr_CMD : gostring; cr_Param : json }.
Definition CMDResp_json (r : CMDResp) : json := JObj [("cmd"%go, JStr (cr_CMD r)); ("param"%go, cr_Param r)].

Record SyncUserConversationRespWrap := mkSyncUserConversationRespWrap {
  sw_Conversations : slice (option SyncUserConversationResp); sw_CMDVersion : Z; sw_CMDs : slice (option CMDResp) }.

Record UserResp := mkUserResp { ur_UID : gostring; ur_Name : gostring }.
Definition UserResp_json (r : UserResp) : json := JObj [("uid"%go, JStr (ur_UID r)); ("name"%go, JStr (ur_Name r))].

Record ReactionResp := mkReactionResp { rr_Seq : gostring; rr_Users : slice UserResp; rr_Emoji : gostring; rr_Count : Z }.
Definition ReactionResp_json (r : ReactionResp) : json :=
  JObj [("seq"%go, JStr (rr_Seq r)); ("users"%go, slice_json UserResp_json (rr_Users r)); ("emoji"%go, JStr (rr_Emoji r)); ("count"%go, JInt (rr_Count r))].

Record UpdateSearchMessageReq := mkUpdateSearchMessageReq { us_ChannelID : gostring; us_MessageIDs : slice gostring }.
Definition UpdateSearchMessageReq_json (r : UpdateSearchMessageReq) : json :=
  JObj [("channel_id"%go, JStr (us_ChannelID r)); ("message_ids"%go, slice_json JStr (us_MessageIDs r))].

Record MsgGroupDisband := mkMsgGroupDisband { gd_GroupNo : gostring; gd_Operator : gostring; gd_OperatorName : gostring }.
Definition MsgGroupDisband_json (r : MsgGroupDisband) : json :=
  JObj [("group_no"%go, JStr (gd_GroupNo r)); ("operator"%go, JStr (gd_Operator r)); ("operator_name"%go, JStr (gd_OperatorName r))].

(** An employee of an organisation or department; [Action] is add or delete. *)
Record OrgOrDeptEmployeeVO := mkOrgOrDeptEmployeeVO {
  oe_Operator : gostring; oe_OperatorName : gostring; oe_EmployeeUid : gostring; oe_EmployeeName : gostring; oe_GroupNo : gostring; oe_Action : gostring }.
Definition OrgOrDeptEmployeeVO_json (r : OrgOrDeptEmployeeVO) : json :=
  JObj [("operator"%go, JStr (oe_Operator r)); ("operator_name"%go, JStr (oe_OperatorName r)); ("employee_uid"%go, JStr (oe_EmployeeUid r));
            ("employee_name"%go, JStr (oe_EmployeeName r)); ("group_no"%go, JStr (oe_GroupNo r)); ("action"%go, JStr (oe_Action r))].

Record MsgOrgOrDeptCreateReq := mkMsgOrgOrDeptCreateReq {
  oc_GroupNo : gostring; oc_GroupCategory : gostring; oc_Name : gostring; oc_Operator : gostring; oc_OperatorName : gostring;
  oc_Members : slice (option OrgOrDeptEmployeeVO) }.
Definition MsgOrgOrDeptCreateReq_json (r : MsgOrgOrDeptCreateReq) : json :=
  JObj [("group_no"%go, JStr (oc_GroupNo r)); ("group_category"%go, JStr (oc_GroupCategory r)); ("name"%go, JStr (oc_Name r));
            ("operator"%go, JStr (oc_Operator r)); ("operator_name"%go, JStr (oc_OperatorName r));
            ("members"%go, slice_json (pointer_json OrgOrDeptEmployeeVO_json) (oc_Members r))].

Record MsgOrgOrDeptEmployeeUpdateReq := mkMsgOrgOrDeptEmployeeUpdateReq { ou_Members : slice (option OrgOrDeptEmployeeVO) }.
Definition MsgOrgOrDeptEmployeeUpdateReq_json (r : MsgOrgOrDeptEmployeeUpdateReq) : json :=
  JObj [("members"%go, slice_json (pointer_json OrgOrDeptEmployeeVO_json) (ou_Members r))].

Record MsgOrgOrDeptEmployeeAddReq := mkMsgOrgOrDeptEmployeeAddReq { oa_GroupNo : gostring; oa_Name : gostring; oa_Members : slice (option UserBaseVo) }.
Definition MsgOrgOrDeptEmployeeAddReq_json (r : MsgOrgOrDeptEmployeeAddReq) : json :=
  JObj [("group_no"%go, JStr (oa_GroupNo r)); ("name"%go, JStr (oa_Name r)); ("members"%go, slice_json member_json (oa_Members r))].

Record OrgEmployeeExitReq := mkOrgEmployeeExitReq { ox_Operator : gostring; ox_GroupNos : slice gostring }.
Definition OrgEmployeeExitReq_json (r : OrgEmployeeExitReq) : json :=
  JObj [("operator"%go, JStr (ox_Operator r)); ("group_nos"%go, slice_json JStr (ox_GroupNos r))].
