(* ===== verification/ContextPool.v ===== *)
(** * ContextPool: the pooled contexts of [pkg/wkhttp/http.go]

    The wrapper of a handler takes a [*Context] from a [sync.Pool], points it to
    the request and the server, runs the handler, and puts it back. The objects
    are shared by all goroutines, so they live in a heap here, and every write to
    one is a step; any number of goroutines serve requests meanwhile, and a
    handler that calls [Next] has the handlers after it run on objects of their
    own before it returns. *)
From S2P Require Import Prelude.

#[global] Open Scope Z_scope.

Section ContextPool.
(** [G] are gin's contexts, one per request that is served; [L] the servers. *)
Context {G L : Type}.

(** ** Objects *)

(** [Context] with its two pointers, nil or not. *)
Record pooled := mkPooled { p_Context : option G; p_wk : option L }.

Definition allocateContext : pooled := mkPooled None None.
Definition reset (c : pooled) : pooled := mkPooled None None.
Definition set_Context (g : G) (c : pooled) : pooled := mkPooled (Some g) (p_wk c).
Definition set_wk (l : L) (c : pooled) : pooled := mkPooled (p_Context c) (Some l).

(** How far the wrapper has got with an object. *)
Inductive phase := Taken | WasReset | HasContext | Running.

Definition frame : Type := nat * phase.

(** A goroutine serves a request; its stack holds the wrappers that have not
    returned, the innermost first. *)
Record thread := mkThread { serving : G; stack : list frame }.

(** [free] are the objects in the pool. *)
Record pool_sys := mkPool { heap : gmap nat pooled; free : list nat; threads : list thread }.

Definition goes (i : nat) (g : G) (st : list frame) (s : pool_sys) : pool_sys :=
  mkPool (heap s) (free s) (<[i := mkThread g st]> (threads s)).

Definition write (h : nat) (f : pooled -> pooled) (s : pool_sys) : pool_sys := mkPool (alter f h (heap s)) (free s) (threads s).

(** ** [WKHttpHandler]

    A wrapper starts when its goroutine has none, or the innermost one is in its
    handler, which is then in a call of [Next]. *)
Definition may_start (st : list frame) : bool :=
  match st with [] => true | (_, Running) :: _ => true | _ => false end.

(** [Get] gives an object of the pool, or a new one; [Put] adds one; the runtime
    may drop objects from a pool at any time. *)
Definition Get_pooled (h : nat) (rest : list nat) (s : pool_sys) : pool_sys := mkPool (heap s) rest (threads s).
Definition Get_new (h : nat) (s : pool_sys) : pool_sys := mkPool (<[h := allocateContext]> (heap s)) (free s) (threads s).
Definition Put (h : nat) (s : pool_sys) : pool_sys := mkPool (heap s) (h :: free s) (threads s).

Variable l : L.

Inductive pool_step : pool_sys -> pool_sys -> Prop :=
| ps_serve s i g g' : threads s !! i = Some (mkThread g []) -> pool_step s (goes i g' [] s)
| ps_get s i g st h before after :
    threads s !! i = Some (mkThread g st) -> may_start st = true -> free s = before ++ h :: after ->
    pool_step s (goes i g ((h, Taken) :: st) (Get_pooled h (before ++ after) s))
| ps_new s i g st h :
    threads s !! i = Some (mkThread g st) -> may_start st = true -> heap s !! h = None ->
    pool_step s (goes i g ((h, Taken) :: st) (Get_new h s))
| ps_reset s i g st h :
    threads s !! i = Some (mkThread g ((h, Taken) :: st)) -> pool_step s (goes i g ((h, WasReset) :: st) (write h reset s))
| ps_context s i g st h :
    threads s !! i = Some (mkThread g ((h, WasReset) :: st)) -> pool_step s (goes i g ((h, HasContext) :: st) (write h (set_Context g) s))
| ps_wk s i g st h :
    threads s !! i = Some (mkThread g ((h, HasContext) :: st)) -> pool_step s (goes i g ((h, Running) :: st) (write h (set_wk l) s))
| ps_put s i g st h :   (** the deferred call, after a return or a panic *)
    threads s !! i = Some (mkThread g ((h, Running) :: st)) -> pool_step s (goes i g st (Put h s))
| ps_drop s h before after : free s = before ++ h :: after -> pool_step s (mkPool (heap s) (before ++ after) (threads s)).

Definition pool_init (s : pool_sys) : Prop := heap s = ∅ /\ free s = [] /\ Forall (fun t => stack t = []) (threads s).

(** ** Every object has one owner *)

(** The frames of all goroutines, each with the request it is for. *)
Definition frames_of (t : thread) : list (G * frame) := map (pair (serving t)) (stack t).
Definition all_frames (ts : list thread) : list (G * frame) := flat_map frames_of ts.
Definition obj (f : G * frame) : nat := f.2.1.

(** What the object of a frame holds by then. *)
Definition frame_ok (hp : gmap nat pooled) (f : G * frame) : Prop :=
  let '(g, (h, p)) := f in
  match p with
  | Taken => is_Some (hp !! h)
  | WasReset => hp !! h = Some (mkPooled None None)
  | HasContext => hp !! h = Some (mkPooled (Some g) None)
  | Running => hp !! h = Some (mkPooled (Some g) (Some l))
  end.

Definition owned (hp : gmap nat pooled) (fr : list nat) (fs : list (G * frame)) : Prop :=
  NoDup (fr ++ map obj fs) /\ Forall (fun h => is_Some (hp !! h)) fr /\ Forall (frame_ok hp) fs.

Definition pool_inv (s : pool_sys) : Prop := owned (heap s) (free s) (all_frames (threads s)).

#[export] Instance owned_proper : Proper (eq ==> Permutation ==> Permutation ==> iff) owned.
Proof.
  intros hp ? <- fr fr' Hfr fs fs' Hfs. unfold owned.
  assert (fr ++ map obj fs ≡ₚ fr' ++ map obj fs') as -> by (by apply Permutation_app; [|apply Permutation_map]). by rewrite Hfr, Hfs.
Qed.

(** The frames of one goroutine and those of the others. *)
Lemma frames_split ts i t : ts !! i = Some t ->
  exists rest, all_frames ts ≡ₚ frames_of t ++ rest /\ forall t', all_frames (<[i := t']> ts) ≡ₚ frames_of t' ++ rest.
Proof.
  intros Hi. exists (all_frames (take i ts) ++ all_frames (drop (S i) ts)). unfold all_frames.
  assert (i < length ts)%nat as Hl by (by eapply lookup_lt_Some). split.
  - rewrite <- (take_drop_middle ts i t Hi) at 1. rewrite flat_map_app. cbn [flat_map]. by rewrite !app_assoc, (Permutation_app_comm (frames_of t)).
  - intros t'. rewrite insert_take_drop by done. rewrite flat_map_app. cbn [flat_map]. by rewrite !app_assoc, (Permutation_app_comm (frames_of t')).
Qed.

(** A write to the object of one frame leaves the other frames alone. *)
Lemma frame_ok_write f h hp fs : h ∉ map obj fs -> Forall (frame_ok hp) fs -> Forall (frame_ok (alter f h hp)) fs.
Proof.
  rewrite !Forall_forall. intros Hh Hok [g [h' p]] Hin. specialize (Hok _ Hin). cbn in *.
  assert (h' <> h) as Hne by (intros ->; apply Hh; by apply (list_elem_of_fmap_2' obj _ _ h) in Hin).
  destruct p; by rewrite lookup_alter_ne.
Qed.

(** ** What the steps do to the owners *)

Lemma owned_advance f hp fr g h p p' fs :
  owned hp fr ((g, (h, p)) :: fs) -> frame_ok (alter f h hp) (g, (h, p')) -> owned (alter f h hp) fr ((g, (h, p')) :: fs).
Proof.
  intros (Hnd & Hfr & Hfs) Hok. apply Forall_cons in Hfs as [_ Hfs]. split; [done|]. split.
  - apply (Forall_impl _ _ _ Hfr). intros h' [c Hc]. destruct (decide (h' = h)) as [->|Hn].
    + rewrite lookup_alter_eq, Hc. by eexists.
    + by rewrite lookup_alter_ne, Hc by done.
  - apply Forall_cons. split; [done|]. apply frame_ok_write; [|done].
    apply NoDup_app in Hnd as (_ & _ & Hnd). cbn in Hnd. by apply NoDup_cons in Hnd as [? _].
Qed.

Lemma owned_take hp fr g h fs : owned hp (h :: fr) fs -> owned hp fr ((g, (h, Taken)) :: fs).
Proof.
  intros (Hnd & Hfr & Hfs). apply Forall_cons in Hfr as [Hh Hfr]. split; [|split; [done|by apply Forall_cons]].
  cbn [map]. by rewrite <- Permutation_middle.
Qed.

Lemma owned_put hp fr g h p fs : owned hp fr ((g, (h, p)) :: fs) -> owned hp (h :: fr) fs.
Proof.
  intros (Hnd & Hfr & Hfs). apply Forall_cons in Hfs as [Hh Hfs]. split; [|split; [|done]].
  - cbn [map] in Hnd. by rewrite <- Permutation_middle in Hnd.
  - apply Forall_cons. split; [|done]. cbn in Hh. destruct p; [done|by eexists..].
Qed.

Lemma owned_new hp fr g h fs : hp !! h = None -> owned hp fr fs -> owned (<[h := allocateContext]> hp) fr ((g, (h, Taken)) :: fs).
Proof.
  intros Hh (Hnd & Hfr & Hfs). 
  assert (forall h', is_Some (hp !! h') -> h' <> h) as Hne by (intros h' [? ?] ->; congruence).
  assert (Forall (fun h' => is_Some (hp !! h')) (map obj fs)) as Hobj.
  { apply Forall_map. apply (Forall_impl _ _ _ Hfs). intros [g' [h' p]] Hok. cbn in *. destruct p; [done|by eexists..]. }
  assert (h ∉ fr ++ map obj fs) as Hnew.
  { intros Hin. assert (Forall (fun h' => is_Some (hp !! h')) (fr ++ map obj fs)) as Hall by (by apply Forall_app).
    rewrite Forall_forall in Hall. by eapply Hne; [apply Hall|]. }
  split; [|split].
  - cbn [map]. rewrite <- Permutation_middle. by apply NoDup_cons.
  - apply (Forall_impl _ _ _ Hfr). intros h' Hs. by rewrite lookup_insert_ne by (intros ->; by eapply Hne).
  - apply Forall_cons. split; [cbn; rewrite lookup_insert_eq; by eexists|]. rewrite Forall_forall in Hfs |- *.
    intros [g' [h' p]] Hin. specialize (Hfs _ Hin). cbn in *.
    assert (h <> h') as Hn by (intros <-; apply Hnew, elem_of_app; right; by apply (list_elem_of_fmap_2' obj _ _ h) in Hin).
    destruct p; by rewrite lookup_insert_ne.
Qed.

Lemma owned_drop hp fr h fs : owned hp (h :: fr) fs -> owned hp fr fs.
Proof. intros (Hnd & Hfr & Hfs). apply Forall_cons in Hfr as [_ Hfr]. by apply NoDup_cons in Hnd as [_ Hnd]. Qed.

(** A step of one goroutine is a step of the owners of its frames. *)
Lemma pool_inv_thread s i g st hp fr g' st' :
  threads s !! i = Some (mkThread g st) -> pool_inv s ->
  (forall rest, owned (heap s) (free s) (map (pair g) st ++ rest) -> owned hp fr (map (pair g') st' ++ rest)) ->
  pool_inv (mkPool hp fr (<[i := mkThread g' st']> (threads s))).
Proof.
  intros Hi Hinv Hstep. unfold pool_inv in *. cbn [heap free threads].
  destruct (frames_split _ _ _ Hi) as (rest & Hall & Hnew). rewrite Hall in Hinv. rewrite Hnew. by apply Hstep.
Qed.

Lemma pool_inv_step s s' : pool_inv s -> pool_step s s' -> pool_inv s'.
Proof.
  intros Hinv Hs. destruct Hs as [s i g g' Hi|s i g st h bf af Hi _ Hf|s i g st h Hi _ Hh|s i g st h Hi|s i g st h Hi|s i g st h Hi|s i g st h Hi|s h bf af Hf];
    try (apply (pool_inv_thread _ _ _ _ _ _ _ _ Hi Hinv); intros rest Ho; cbn [map app Get_pooled Get_new write Put heap free] in * ).
  - done.
  - apply owned_take. by rewrite Hf, <- Permutation_middle in Ho.
  - by apply owned_new.
  - apply (owned_advance _ _ _ _ _ _ _ _ Ho). destruct Ho as (_ & _ & [[c Hc] _]%Forall_cons). cbn. by rewrite lookup_alter_eq, Hc.
  - apply (owned_advance _ _ _ _ _ _ _ _ Ho). destruct Ho as (_ & _ & [Hc _]%Forall_cons). cbn in *. by rewrite lookup_alter_eq, Hc.
  - apply (owned_advance _ _ _ _ _ _ _ _ Ho). destruct Ho as (_ & _ & [Hc _]%Forall_cons). cbn in *. by rewrite lookup_alter_eq, Hc.
  - by apply owned_put in Ho.
  - unfold pool_inv in *. cbn [heap free threads]. rewrite Hf, <- Permutation_middle in Hinv. by apply owned_drop in Hinv.
Qed.

Lemma pool_inv_init s : pool_init s -> pool_inv s.
Proof.
  intros (_ & Hf & Ht). unfold pool_inv. rewrite Hf. assert (all_frames (threads s) = []) as ->.
  { unfold all_frames. induction Ht as [|t ts Ht _ IH]; [done|]. cbn. unfold frames_of at 1. by rewrite Ht, IH. }
  split; [constructor|]. by split.
Qed.

Lemma reachable_pool_inv s : reachable pool_init pool_step s -> pool_inv s.
Proof. apply reachable_invariant; [apply pool_inv_init|apply pool_inv_step]. Qed.

(** Two goroutines have no object in common. *)
Lemma frame_owner ts i j t t' h p p' :
  NoDup (map obj (all_frames ts)) -> ts !! i = Some t -> ts !! j = Some t' -> (h, p) ∈ stack t -> (h, p') ∈ stack t' -> i = j.
Proof.
  assert (forall t p, (h, p) ∈ stack t -> h ∈ map obj (frames_of t)) as Hin.
  { intros u q Hq. unfold frames_of. rewrite map_map. by apply (list_elem_of_fmap_2' (fun f => obj (serving u, f)) _ _ h) in Hq. }
  assert (forall ts j t' p', ts !! j = Some t' -> (h, p') ∈ stack t' -> h ∈ map obj (all_frames ts)) as Hall.
  { intros us k u q Hu Hq. destruct (frames_split us k u Hu) as (rest & -> & _). rewrite map_app. apply elem_of_app. left. by eapply Hin. }
  revert i j. induction ts as [|u ts IH]; intros i j Hnd Hi Hj Ht Ht'; [done|].
  unfold all_frames in Hnd. cbn [flat_map] in Hnd. fold (all_frames ts) in Hnd. rewrite map_app in Hnd.
  apply NoDup_app in Hnd as (_ & Hsep & Hnd). destruct i as [|i], j as [|j]; cbn in Hi, Hj; simplify_eq; [done|..].
  - exfalso. apply (Hsep h); [by eapply Hin|by eapply Hall].
  - exfalso. apply (Hsep h); [by eapply Hin|by eapply Hall].
  - f_equal. by apply IH.
Qed.
End ContextPool.
Arguments pool_sys : clear implicits.
Arguments thread : clear implicits.

(** C16 However the goroutines of a server interleave, and whatever handlers run
    on each with others nested in their calls of [Next]: from the moment a
    handler starts until it returns or panics, the context it was given is that
    of its own request and of its server, is not in the pool, and is held by no
    other handler, of its own goroutine or of another. *)
Theorem WKHttpHandler_contexts {G L} (l : L) (s : pool_sys G L) (Hs : reachable pool_init (pool_step l) s) i t h :
  threads s !! i = Some t -> (h, Running) ∈ stack t ->
  heap s !! h = Some (mkPooled (Some (serving t)) (Some l)) /\
  h ∉ free s /\ NoDup (map fst (stack t)) /\
  forall j t' p, threads s !! j = Some t' -> (h, p) ∈ stack t' -> j = i.
Proof.
  intros Hi Hh. destruct (reachable_pool_inv l s Hs) as (Hnd & _ & Hok).
  destruct (frames_split _ _ _ Hi) as (rest & Hall & _). pose proof Hnd as Hnd'. rewrite Hall in Hnd, Hok.
  assert ((serving t, (h, Running)) ∈ frames_of t) as Hin by (by apply (list_elem_of_fmap_2' (pair (serving t)) _ (h, Running))).
  split; [|split; [|split]].
  - apply Forall_app in Hok as [Hok _]. rewrite Forall_forall in Hok. by apply (Hok _ Hin).
  - apply NoDup_app in Hnd as (_ & Hsep & _). intros Hf. apply (Hsep h Hf). rewrite map_app. apply elem_of_app. left.
    by apply (list_elem_of_fmap_2' obj _ _ h) in Hin.
  - apply NoDup_app in Hnd as (_ & _ & Hnd). rewrite map_app in Hnd. apply NoDup_app in Hnd as (Hnd & _ & _).
    unfold frames_of in Hnd. by rewrite map_map in Hnd.
  - intros j t' p Hj Hp. apply NoDup_app in Hnd' as (_ & _ & Hnd'). symmetry. by eapply frame_owner.
Qed.

(** ** Two requests at once

    Goroutine 0 serves request 10 with two nested handlers; the inner one
    returns, and goroutine 1 gets its context for request 20. *)
Definition pool_demo0 : pool_sys nat bool := mkPool ∅ [] [mkThread 10%nat []; mkThread 20%nat []].

(** The three writes of a wrapper, after it has taken an object. *)
Definition tie (i : nat) (g : nat) (h : nat) (st : list frame) (s : pool_sys nat bool) : pool_sys nat bool :=
  let s := goes i g ((h, WasReset) :: st) (write h reset s) in
  let s := goes i g ((h, HasContext) :: st) (write h (set_Context g) s) in
  goes i g ((h, Running) :: st) (write h (set_wk true) s).

Lemma tie_steps i g h st s : threads s !! i = Some (mkThread g ((h, Taken) :: st)) ->
  reachable pool_init (pool_step true) s -> reachable pool_init (pool_step true) (tie i g h st s).
Proof.
  intros Hi Hs. assert (i < length (threads s))%nat as Hl by (by eapply lookup_lt_Some). unfold tie.
  eapply reach_step; [eapply reach_step; [eapply reach_step; [exact Hs|by eapply ps_reset]|]|].
  - eapply ps_context. cbn. by apply list_lookup_insert_eq.
  - eapply ps_wk. cbn. apply list_lookup_insert_eq. by rewrite length_insert.
Qed.

Definition pool_demo1 := tie 0%nat 10%nat 0%nat [] (goes 0%nat 10%nat [(0%nat, Taken)] (Get_new 0%nat pool_demo0)).
Definition pool_demo2 := tie 0%nat 10%nat 1%nat [(0%nat, Running)] (goes 0%nat 10%nat [(1%nat, Taken); (0%nat, Running)] (Get_new 1%nat pool_demo1)).
Definition pool_demo3 := goes 0%nat 10%nat [(0%nat, Running)] (Put 1%nat pool_demo2).
Definition pool_demo4 := tie 1%nat 20%nat 1%nat [] (goes 1%nat 20%nat [(1%nat, Taken)] (Get_pooled 1%nat [] pool_demo3)).

Lemma pool_demo3_reachable : reachable pool_init (pool_step true) pool_demo3.
Proof.
  assert (reachable pool_init (pool_step true) pool_demo1) as H1.
  { apply tie_steps; [by vm_compute|]. apply (reach_step _ _ pool_demo0); [apply reach_init; split; [done|]; split; [done|]; by repeat constructor|].
    apply ps_new; [by vm_compute|done|by vm_compute]. }
  assert (reachable pool_init (pool_step true) pool_demo2) as H2.
  { apply tie_steps; [by vm_compute|]. eapply reach_step; [exact H1|]. apply ps_new; [by vm_compute|done|by vm_compute]. }
  eapply reach_step; [exact H2|]. apply ps_put. by vm_compute.
Qed.

Lemma pool_demo4_reachable : reachable pool_init (pool_step true) pool_demo4.
Proof.
  apply tie_steps; [by vm_compute|]. eapply reach_step; [apply pool_demo3_reachable|].
  apply (ps_get _ _ _ _ _ _ [] []); [by vm_compute|done|by vm_compute].
Qed.

Lemma WKHttpHandler_contexts_witness :
  heap pool_demo4 !! 0%nat = Some (mkPooled (Some 10%nat) (Some true)) /\ heap pool_demo4 !! 1%nat = Some (mkPooled (Some 20%nat) (Some true)).
Proof.
  split.
  - apply (WKHttpHandler_contexts true pool_demo4 pool_demo4_reachable 0 (mkThread 10%nat [(0%nat, Running)])); [by vm_compute|]. by apply list_elem_of_here.
  - apply (WKHttpHandler_contexts true pool_demo4 pool_demo4_reachable 1 (mkThread 20%nat [(1%nat, Running)])); [by vm_compute|]. by apply list_elem_of_here.
Defined.

(** Nothing clears a context when it is put back: in the pool it keeps request 10
    and the server alive. And what holds during a handler ends with it: a
    goroutine that the inner handler has left behind with its context finds
    request 20 in it. *)
Lemma returned_context_reused :
  reachable pool_init (pool_step true) pool_demo3 /\ free pool_demo3 = [1%nat] /\ heap pool_demo3 !! 1%nat = Some (mkPooled (Some 10%nat) (Some true)) /\
  rtc (pool_step true) pool_demo3 pool_demo4 /\ heap pool_demo4 !! 1%nat = Some (mkPooled (Some 20%nat) (Some true)).
Proof.
  split; [apply pool_demo3_reachable|]. split; [by vm_compute|]. split; [by vm_compute|]. split; [|by vm_compute].
  eapply rtc_l; [apply (ps_get _ _ 1 20%nat [] 1%nat [] []); [by vm_compute|done|by vm_compute]|].
  eapply rtc_l; [apply (ps_reset _ _ 1%nat 20%nat [] 1%nat); by vm_compute|]. eapply rtc_l; [apply (ps_context _ _ 1%nat 20%nat [] 1%nat); by vm_compute|]. apply rtc_once. apply (ps_wk _ _ 1%nat 20%nat [] 1%nat). by vm_compute.
Qed.
