(* ===== verification/Routes.v ===== *)
(** * Routes: registration of handlers over gin ([pkg/wkhttp/http.go])

    gin's engine is the class [Engine]: what it answers to the registration calls
    of this package, with the laws its documentation states. A handler of gin
    gets the rest of its chain, which is what [c.Next] runs. *)
From S2P Require Import Prelude GoStr Redis Cache Http.

#[global] Open Scope Z_scope.
#[global] Open Scope go_scope.

(** ** Handlers

    [C] is the state the token parsers read (see Http), [W] the one the handlers
    act on. A handler finds the server's renderer and parser when it runs, not
    when it is registered, so it is a function of the server. *)
Section Handlers.
Context {C W : Type}.

Definition gin_chain : Type := gin_ctx -> W -> gin_ctx * W.
Definition gin_handler : Type := WKHttp C -> gin_chain -> gin_chain.
Definition HandlerFunc : Type := WKHttp C -> Context C -> W -> Context C * W.

(** A handler whose only use of [Next] is its last action. gin goes on to the
    next handler whether or not [Next] was called, and stops only on [Abort]. *)
Definition in_turn (h : gin_chain) (next : gin_chain) : gin_chain := fun c w =>
  let '(c', w') := h c w in if aborted c' then (c', w') else next c' w'.

(** The pooled context is reset, tied to the request and the server, and given
    back after the handler. ContextPool has the shared objects; its theorem is why
    a handler can have a context of its own here. *)
Definition WKHttpHandler (handlerFunc : HandlerFunc) : gin_handler := fun l =>
  in_turn (fun c w => let '(hc, w') := handlerFunc l (mkCtx c (Some l)) w in (gin hc, w')).

Definition handlersToGinHandleFuncs (handlers : list HandlerFunc) : list gin_handler := map WKHttpHandler handlers.

(** gin runs the handlers of a route in order. *)
Definition run_chain (l : WKHttp C) (hs : list gin_handler) : gin_chain :=
  foldr (fun h next => h l next) (fun c w => (c, w)) hs.

Lemma run_chain_cons l h hs : run_chain l (h :: hs) = h l (run_chain l hs).
Proof. done. Qed.

(** ** The engine *)

(** Registration: [Use] adds to a group's handlers, [Group] makes a group that
    starts with its parent's, [Handle] ties a method and a pattern to the group's
    handlers of that moment followed by the given ones. *)
Class Engine (E : Type) := {
  group : Type;
  group_dec :: EqDecision group;
  root : group;
  group_path : E -> group -> gostring;
  group_handlers : E -> group -> list gin_handler;
  route : E -> gostring -> gostring -> option (list gin_handler);
  join_paths : gostring -> gostring -> gostring;
  eng_Use : group -> list gin_handler -> E -> E;
  eng_Group : group -> gostring -> list gin_handler -> E -> E * group;
  eng_Handle : group -> gostring -> gostring -> list gin_handler -> E -> E;
  eng_Static : gostring -> gostring -> E -> E;
}.

(** The methods that [Any] registers. *)
Definition any_methods : list gostring :=
  ["GET"; "POST"; "PUT"; "PATCH"; "HEAD"; "OPTIONS"; "DELETE"; "CONNECT"; "TRACE"]%go.

(** [known] are the groups made so far. Registering a pattern twice panics in
    gin, and the laws say nothing about it. *)
Class EngineLaws (E : Type) `{Engine E} := {
  known : E -> group -> Prop;
  known_root e : known e root;
  Use_self g hs e : known e g -> group_handlers (eng_Use g hs e) g = group_handlers e g ++ hs;
  Use_other g hs e g' : g' <> g -> group_handlers (eng_Use g hs e) g' = group_handlers e g';
  Use_known g hs e g' : known (eng_Use g hs e) g' <-> known e g';
  Use_path g hs e g' : group_path (eng_Use g hs e) g' = group_path e g';
  Use_route g hs e m p : route (eng_Use g hs e) m p = route e m p;
  Group_spec g rel hs e : known e g ->
    let '(e', g') := eng_Group g rel hs e in
    ~ known e g' /\ group_handlers e' g' = group_handlers e g ++ hs /\ group_path e' g' = join_paths (group_path e g) rel /\
    (forall g'', known e' g'' <-> known e g'' \/ g'' = g') /\
    (forall g'', g'' <> g' -> group_handlers e' g'' = group_handlers e g'' /\ group_path e' g'' = group_path e g'') /\
    (forall m p, route e' m p = route e m p);
  Handle_self m g rel hs e : known e g -> route e m (join_paths (group_path e g) rel) = None ->
    route (eng_Handle g m rel hs e) m (join_paths (group_path e g) rel) = Some (group_handlers e g ++ hs);
  Handle_other m g rel hs e m' p : (m', p) <> (m, join_paths (group_path e g) rel) ->
    route (eng_Handle g m rel hs e) m' p = route e m' p;
  Handle_group m g rel hs e g' : group_handlers (eng_Handle g m rel hs e) g' = group_handlers e g' /\
    group_path (eng_Handle g m rel hs e) g' = group_path e g' /\ (known (eng_Handle g m rel hs e) g' <-> known e g');
  Static_group rel dir e g' : group_handlers (eng_Static rel dir e) g' = group_handlers e g' /\
    group_path (eng_Static rel dir e) g' = group_path e g' /\ (known (eng_Static rel dir e) g' <-> known e g');
  Static_route rel dir e m p hs : route e m p = Some hs -> route (eng_Static rel dir e) m p = Some hs;
  Static_new rel dir e m p hs : route (eng_Static rel dir e) m p = Some hs ->
    route e m p = Some hs \/ exists files, hs = group_handlers e root ++ [files];
}.

(** ** [WKHttp] and its groups *)
Section Registration.
Context {E : Type} `{Engine E}.

(** gin's [Recovery] is installed first. *)
Definition New_engine (recovery : gin_handler) (e : E) : E := eng_Use root [recovery] e.

Definition POST (p : gostring) (hs : list HandlerFunc) (e : E) : E := eng_Handle root "POST" p (handlersToGinHandleFuncs hs) e.
Definition GET (p : gostring) (hs : list HandlerFunc) (e : E) : E := eng_Handle root "GET" p (handlersToGinHandleFuncs hs) e.
Definition Any (p : gostring) (hs : list HandlerFunc) (e : E) : E :=
  fold_left (fun e m => eng_Handle root m p (handlersToGinHandleFuncs hs) e) any_methods e.
Definition Static (p dir : gostring) (e : E) : E := eng_Static p dir e.
Definition UseGin (hs : list gin_handler) (e : E) : E := eng_Use root hs e.
Definition Use (hs : list HandlerFunc) (e : E) : E := eng_Use root (handlersToGinHandleFuncs hs) e.

(** A [RouterGroup] carries the server whose wrapper it uses. *)
Record RouterGroup := mkRouterGroup { rg_group : group; L : WKHttp C }.
Definition newRouterGroup (g : group) (l : WKHttp C) : RouterGroup := mkRouterGroup g l.
Definition Group (l : WKHttp C) (p : gostring) (hs : list HandlerFunc) (e : E) : E * RouterGroup :=
  let '(e', g) := eng_Group root p (handlersToGinHandleFuncs hs) e in (e', newRouterGroup g l).

Definition Group_POST (r : RouterGroup) (p : gostring) (hs : list HandlerFunc) (e : E) : E := eng_Handle (rg_group r) "POST" p (handlersToGinHandleFuncs hs) e.
Definition Group_GET (r : RouterGroup) (p : gostring) (hs : list HandlerFunc) (e : E) : E := eng_Handle (rg_group r) "GET" p (handlersToGinHandleFuncs hs) e.
Definition Group_DELETE (r : RouterGroup) (p : gostring) (hs : list HandlerFunc) (e : E) : E := eng_Handle (rg_group r) "DELETE" p (handlersToGinHandleFuncs hs) e.
Definition Group_PUT (r : RouterGroup) (p : gostring) (hs : list HandlerFunc) (e : E) : E := eng_Handle (rg_group r) "PUT" p (handlersToGinHandleFuncs hs) e.

(** A request for a registered pattern; [None] when there is none. *)
Definition serve (e : E) (l : WKHttp C) (m p : gostring) (c : gin_ctx) (w : W) : option (gin_ctx * W) :=
  match route e m p with Some hs => Some (run_chain l hs c w) | None => None end.
End Registration.
End Handlers.
Arguments gin_chain W : clear implicits.
Arguments gin_handler C W : clear implicits.
Arguments HandlerFunc C W : clear implicits.
Arguments Engine C W E : clear implicits.
Arguments EngineLaws C W E {_}.
Arguments RouterGroup {C W E _}.

(** ** What every route starts with *)
Section Guarded.
Context {C W E : Type} `{EngineLaws C W E}.

(** The registration calls of the package, one after another, none of which
    registers a pattern twice. *)
Inductive registers : E -> E -> Prop :=
| reg_UseGin hs e : registers e (UseGin hs e)
| reg_Group_Use g hs e : known e g -> registers e (eng_Use g hs e)
| reg_Handle g m p hs e : known e g -> route e m (join_paths (group_path e g) p) = None ->
    registers e (eng_Handle g m p (handlersToGinHandleFuncs hs) e)
| reg_Group g p hs e : known e g -> registers e (eng_Group g p hs e).1
| reg_Static p dir e : registers e (Static p dir e).

(** Every group and every route starts with [base]. *)
Definition guarded (base : list (gin_handler C W)) (e : E) : Prop :=
  (forall g, known e g -> base `prefix_of` group_handlers e g) /\
  (forall m p hs, route e m p = Some hs -> base `prefix_of` hs).

Lemma guarded_step base e e' : guarded base e -> registers e e' -> guarded base e'.
Proof.
  intros [Hg Hr] Hs. destruct Hs as [hs e|g hs e Hk|g m p hs e Hk Hnew|g p hs e Hk|p dir e].
  - split; [|intros m p hs'; setoid_rewrite Use_route; apply Hr]. intros g. setoid_rewrite Use_known. intros Hk.
    destruct (decide (g = root)) as [->|Hn].
    + setoid_rewrite Use_self; [|done]. by apply prefix_app_r, Hg.
    + setoid_rewrite Use_other; [|done]. by apply Hg.
  - split; [|intros m p hs'; rewrite Use_route; apply Hr]. intros g' Hk'. apply Use_known in Hk'.
    destruct (decide (g' = g)) as [->|Hn].
    + rewrite Use_self by done. by apply prefix_app_r, Hg.
    + rewrite Use_other by done. by apply Hg.
  - split.
    + intros g' Hk'. destruct (Handle_group m g p (handlersToGinHandleFuncs hs) e g') as (-> & _ & Hk2). by apply Hg, Hk2.
    + intros m' p' hs' Hr'. destruct (decide ((m', p') = (m, join_paths (group_path e g) p))) as [[= -> ->]|Hn].
      * rewrite Handle_self in Hr' by done. injection Hr' as <-. by apply prefix_app_r, Hg.
      * rewrite Handle_other in Hr' by done. by apply (Hr m' p').
  - pose proof (Group_spec g p hs e Hk) as Hs. destruct (eng_Group g p hs e) as [e' g'].
    destruct Hs as (_ & Hh & _ & Hkn & Hoth & Hrt). cbn. split.
    + intros g'' Hk'. destruct (decide (g'' = g')) as [->|Hn].
      * rewrite Hh. by apply prefix_app_r, Hg.
      * destruct (Hoth g'' Hn) as [-> _]. apply Hg. apply Hkn in Hk'. by destruct Hk'.
    + intros m' p' hs'. rewrite Hrt. apply Hr.
  - split.
    + intros g' Hk'. destruct (Static_group p dir e g') as (Hh & _ & Hk2). unfold Static. rewrite Hh. by apply Hg, Hk2.
    + intros m' p' hs' Hr'. apply Static_new in Hr' as [Hr'|[files ->]]; [by apply (Hr m' p')|].
      apply prefix_app_r, Hg, known_root.
Qed.

Lemma guarded_run base e e' : guarded base e -> rtc registers e e' -> guarded base e'.
Proof. intros Hg Hrun. induction Hrun; [done|]. eauto using guarded_step. Qed.
End Guarded.

(** The handlers of a prefix, in front of the rest of a chain. *)
Definition through {C W} (l : WKHttp C) (base : list (gin_handler C W)) (next : gin_chain W) : gin_chain W :=
  foldr (fun h next => h l next) next base.

Lemma run_chain_app {C W} (l : WKHttp C) (base rest : list (gin_handler C W)) :
  run_chain l (base ++ rest) = through l base (run_chain l rest).
Proof. unfold run_chain, through. by rewrite foldr_app. Qed.

(** Handlers that each run in turn: the rest of the chain runs exactly when none
    of them has aborted. *)
Lemma in_turn_chain {C W} (l : WKHttp C) (hs rest : list (gin_handler C W)) c w :
  Forall (fun h => exists f, h l = in_turn f) hs -> aborted c = false ->
  run_chain l (hs ++ rest) c w =
  let '(c', w') := run_chain l hs c w in if aborted c' then (c', w') else run_chain l rest c' w'.
Proof.
  intros Hhs. revert c w. induction Hhs as [|h hs [f Hf] Hhs IH]; intros c w Hc.
  - cbn. by rewrite Hc.
  - change (run_chain l ((h :: hs) ++ rest) c w) with (h l (run_chain l (hs ++ rest)) c w).
    change (run_chain l (h :: hs) c w) with (h l (run_chain l hs) c w). rewrite Hf. unfold in_turn. destruct (f c w) as [c1 w1].
    destruct (aborted c1) eqn:E; [by rewrite E|]. by apply IH.
Qed.

(** ** An engine *)
Section Table.
Context {C W : Type}.

(** Groups by number, the root being number 0; the first registration of a
    pattern stays. *)
Record table_engine := mkTable {
  t_root : list (gin_handler C W);
  t_groups : list (gostring * list (gin_handler C W));
  t_routes : gmap (gostring * gostring) (list (gin_handler C W))
}.

Definition empty_engine : table_engine := mkTable [] [] ∅.

Definition t_handlers (e : table_engine) (g : nat) : list (gin_handler C W) :=
  match g with O => t_root e | S n => match t_groups e !! n with Some gr => gr.2 | None => [] end end.
Definition t_path (e : table_engine) (g : nat) : gostring :=
  match g with O => "/" | S n => match t_groups e !! n with Some gr => gr.1 | None => [] end end.
Definition t_register (k : gostring * gostring) (hs : list (gin_handler C W)) (e : table_engine) : table_engine :=
  mkTable (t_root e) (t_groups e) (match t_routes e !! k with Some _ => t_routes e | None => <[k := hs]> (t_routes e) end).

Definition no_files : gin_handler C W := fun _ _ c w => (c_AbortWithStatus 404 c, w).

#[export] Instance table : Engine C W table_engine := {|
  group := nat;
  root := O;
  group_path := t_path;
  group_handlers := t_handlers;
  route e m p := t_routes e !! (m, p);
  join_paths := path_Join;
  eng_Use g hs e := match g with
    | O => mkTable (t_root e ++ hs) (t_groups e) (t_routes e)
    | S n => mkTable (t_root e) (alter (fun gr => (gr.1, gr.2 ++ hs)) n (t_groups e)) (t_routes e)
    end;
  eng_Group g rel hs e :=
    (mkTable (t_root e) (t_groups e ++ [(path_Join (t_path e g) rel, t_handlers e g ++ hs)]) (t_routes e), S (length (t_groups e)));
  eng_Handle g m rel hs e := t_register (m, path_Join (t_path e g) rel) (t_handlers e g ++ hs) e;
  eng_Static rel _ e := t_register ("GET"%go, path_Join rel "/*filepath") (t_root e ++ [no_files]) e;
|}.

Lemma t_register_route k hs e k' :
  t_routes (t_register k hs e) !! k' = if decide (k' = k /\ t_routes e !! k = None) then Some hs else t_routes e !! k'.
Proof.
  unfold t_register. cbn. destruct (t_routes e !! k) eqn:Hk; [by rewrite decide_False by naive_solver|].
  destruct (decide (k' = k)) as [->|Hn].
  - by rewrite lookup_insert_eq, decide_True.
  - rewrite lookup_insert_ne by done. by rewrite decide_False by naive_solver.
Qed.

#[local] Arguments t_register : simpl never.

#[export, program] Instance table_laws : EngineLaws C W table_engine := {|
  known e g := (g <= length (t_groups e))%nat;
|}.
Next Obligation. intros e. apply Nat.le_0_l. Qed.
Next Obligation.
  intros [|n] hs e Hk; cbn in *; [done|]. rewrite list_lookup_alter, decide_True by done.
  destruct (lookup_lt_is_Some_2 (t_groups e) n Hk) as [gr ->]. done.
Qed.
Next Obligation.
  intros [|n] hs e [|n'] Hn; cbn in *; [done..|]. rewrite list_lookup_alter, decide_False by congruence. done.
Qed.
Next Obligation. intros [|n] hs e g'; cbn; [done|]. by rewrite length_alter. Qed.
Next Obligation.
  intros [|n] hs e [|n']; cbn; [done..|]. rewrite list_lookup_alter. case_decide as Hn; [|done].
  subst. by destruct (t_groups e !! n').
Qed.
Next Obligation. by intros [|n]. Qed.
Next Obligation.
  intros g rel hs e Hk. cbn in *. set (gs := t_groups e) in *.
  split; [lia|]. split; [by rewrite list_lookup_middle by lia|]. split; [by rewrite list_lookup_middle by lia|].
  split; [intros g''; rewrite length_app; cbn; lia|]. split; [|done].
  intros [|n] Hn; cbn; [done|]. fold gs. destruct (decide (n < length gs)%nat).
  - by rewrite lookup_app_l.
  - rewrite lookup_ge_None_2, lookup_ge_None_2; [done|fold gs; lia|]. rewrite length_app. cbn. lia.
Qed.
Next Obligation. intros m g rel hs e _ Hnew. cbn in *. rewrite t_register_route. by rewrite decide_True. Qed.
Next Obligation. intros m g rel hs e m' p Hn. cbn in *. rewrite t_register_route. rewrite decide_False; [done|]. naive_solver. Qed.
Next Obligation. done. Qed.
Next Obligation. done. Qed.
Next Obligation.
  intros rel dir e m p hs Hr. cbn in *. rewrite t_register_route. rewrite decide_False; [done|]. intros [Heq Hnone]. congruence.
Qed.
Next Obligation.
  intros rel dir e m p hs Hr. cbn in *. rewrite t_register_route in Hr. case_decide as Hd; [|by left].
  right. exists no_files. congruence.
Qed.
End Table.
Arguments table_engine C W : clear implicits.
