(* ===== verification/Server.v ===== *)
(** * Server: the HTTP server ([server/server.go])

    The routes a server has and in which order its handlers run, over the engine
    of Routes. Listening sockets, the redirect of [unrolled/secure] and the path
    parameters of gin are arguments. *)
From S2P Require Import Prelude GoStr Redis Cache Config Modules Http Routes.

#[global] Open Scope Z_scope.
#[global] Open Scope go_scope.

Section Server.
Context {C W E : Type} `{Engine C W E}.

Record Server := mkServer { s_r : E; s_sslAddr : gostring; s_addr : gostring; s_grpcAddr : gostring }.

Definition cors : HandlerFunc C W := fun _ c w => (CORSMiddleware c, w).

Definition Server_New (recovery : gin_handler C W) (cfg : Config) (e0 : E) : Server :=
  let r := New_engine recovery e0 in
  let r := Use [cors] r in
  mkServer r (cfg_SSLAddr cfg) (cfg_Addr cfg) (cfg_GRPCAddr cfg).

(** ** The server's own routes *)

Definition ping : HandlerFunc C W := fun _ c w => (ResponseOK c, w).

(** The documentation of a module, found in the list of the built ones. *)
Definition swagger {MW ME Svc MC} (c_Param : gin_ctx -> gostring -> gostring) (reg : registry (W := MW) (E := ME) (Svc := Svc) (C := MC)) : HandlerFunc C W :=
  fun _ c w =>
    let m := c_Param (gin c) "module" in
    let module := GetModuleByName m reg in
    if eqs (TrimSpace (Swagger module)) [] then (on_gin (c_Status 404) c, w)
    else (on_gin (c_String StatusOK (Swagger module)) c, w).

(** [TlsHandler]: the error flag of [Process] is set when it has answered with a
    redirect. *)
Definition TlsHandler (Process : gostring -> gin_ctx -> gin_ctx * bool) (sslAddr : gostring) : HandlerFunc C W := fun _ c w =>
  let '(g, err) := Process sslAddr (gin c) in
  let c := on_gin (fun _ => g) c in
  if err then (c, w) else (on_gin c_Next c, w).

(** ** Listening *)

(** What is started: in a goroutine of its own, or in the caller's. *)
Inductive listening := InBackground (addr : list gostring) | Listen (addr : list gostring) | ListenTLS (addr cert key : gostring).

Section Run.
Context {Err : Type} (Run : list gostring -> option Err) (RunTLS : gostring -> gostring -> gostring -> option Err) (Getwd : gostring).
Context (Process : gostring -> gin_ctx -> gin_ctx * bool) (swagger_handler : HandlerFunc C W).

Definition own_routes (r : E) : E :=
  Any "/swagger/:module" [swagger_handler] (Any "/v1/ping" [ping] (Static "/web" "./assets/web" r)).

(** [run]: the engine afterwards, what was started, the error. *)
Definition run (sslAddr : gostring) (addr : list gostring) (r : E) : E * list listening * option Err :=
  let r := own_routes r in
  let tls started :=
    if negb (eqs sslAddr []) then
      let r := Use [TlsHandler Process sslAddr] r in
      (r, started ++ [ListenTLS sslAddr (Getwd ++ "/assets/ssl/ssl.pem") (Getwd ++ "/assets/ssl/ssl.key")],
       RunTLS sslAddr (Getwd ++ "/assets/ssl/ssl.pem") (Getwd ++ "/assets/ssl/ssl.key"))
    else (r, started, None) in
  if negb (Nat.eqb (length addr) 0) then
    if negb (eqs sslAddr []) then tls [InBackground addr]
    else match Run addr with Some err => (r, [Listen addr], Some err) | None => tls [Listen addr] end
  else tls [].

(** [Start]: [run] goes on in a goroutine of its own, where an error is a panic;
    the answer is that of the modules. *)
Definition Server_Start (start_modules : option Err) (s : Server) : (E * list listening * option Err) * option Err :=
  (run (s_sslAddr s) [s_addr s] (s_r s), start_modules).
End Run.

(** A Windows service starts in the system's directory and moves to its own. *)
Definition Init {W' Err} (Dir : gostring -> gostring) (Chdir : gostring -> W' -> W' * option Err) (IsWindowsService : bool) (arg0 : gostring) (w : W') : W' * option Err :=
  if IsWindowsService then Chdir (Dir arg0) w else (w, None).

(** [Stop]: the modules' hooks. *)
Definition Server_Stop {MW ME Svc MC} (ctx : MC) (r : registry (W := MW) (E := ME) (Svc := Svc) (C := MC)) (w : MW) : registry * (MW * option ME) := Stop ctx r w.

Definition GetRoute (s : Server) : E := s_r s.

(** ** What every request meets *)

Context `{!EngineLaws C W E}.

(** gin's [Recovery] adds nothing to a chain that does not panic. *)
Definition transparent (h : gin_handler C W) : Prop := forall l next c w, h l next c w = next c w.

Definition fresh_engine (e : E) : Prop :=
  group_handlers e root = [] /\ (forall g, known e g -> g = root) /\ forall m p, route e m p = None.

(** What [CORSMiddleware] does to a request: a preflight is answered, any other
    goes on with the headers set. *)
Definition cors_headers (c : gin_ctx) : gin_ctx := gin (CORSMiddleware (S := C) (mkCtx c None)).

Lemma Server_New_guarded recovery cfg e0 : fresh_engine e0 ->
  guarded [recovery; WKHttpHandler cors] (s_r (Server_New recovery cfg e0)).
Proof.
  intros (Hh & Hk & Hr). unfold Server_New, New_engine, Use. cbn [s_r]. split.
  - intros g Hg. apply Use_known, Use_known, Hk in Hg as ->.
    rewrite Use_self by (apply known_root). rewrite Use_self by (apply known_root). by rewrite Hh.
  - intros m p hs. by rewrite !Use_route, Hr.
Qed.

Lemma cors_in_turn (l : WKHttp C) next c w : aborted c = false ->
  WKHttpHandler cors l next c w =
  if eqs (Method (Request c)) "OPTIONS" then (cors_headers c, w) else next (cors_headers c) w.
Proof.
  intros Hc. unfold WKHttpHandler, in_turn, cors, cors_headers, CORSMiddleware, aborted in *. cbn -[eqs h_Set].
  destruct (eqs (Method (Request c)) "OPTIONS"); cbn; by rewrite existsb_app, Hc.
Qed.

Lemma Use_routes_same hs (e : E) m p : route (Use hs e) m p = route e m p.
Proof. apply Use_route. Qed.
End Server.
Arguments Server E : clear implicits.

(** C15 A server whose modules register what routes they like, in whatever groups:
    a request to any of its routes, those of the server included, is a preflight
    and ends with 204 without reaching any handler behind CORS, or reaches the
    rest of its route's chain with the CORS headers set. The redirect to HTTPS is
    on no route at all: it is installed after they are registered. *)
Theorem server_requests {C W E} `{EngineLaws C W E} {Err} recovery cfg (e0 r : E) (Run : list gostring -> option Err) RunTLS wd Process sw
  (l : WKHttp C) (c : gin_ctx) w
  (Hrec : transparent recovery) (Hfresh : fresh_engine e0)
  (Hreg : rtc registers (s_r (Server_New recovery cfg e0)) r)
  (Hown : rtc registers r (own_routes sw r)) (Hc : aborted c = false) :
  let r' := (run Run RunTLS wd Process sw (cfg_SSLAddr cfg) [cfg_Addr cfg] r).1.1 in
  (forall m p, route r' m p = route (own_routes sw r) m p) /\
  forall m p hs, route r' m p = Some hs ->
    exists rest, hs = recovery :: WKHttpHandler cors :: rest /\
      serve r' l m p c w =
        Some (if eqs (Method (Request c)) "OPTIONS" then (cors_headers (C := C) c, w) else run_chain l rest (cors_headers (C := C) c) w).
Proof.
  intros r'. assert (forall m p, route r' m p = route (own_routes sw r) m p) as Hr'.
  { intros m p. subst r'. unfold run. cbn [length Nat.eqb negb].
    destruct (eqs (cfg_SSLAddr cfg) []); cbn [negb fst]; [by destruct (Run [cfg_Addr cfg])|]. by apply Use_routes_same. }
  split; [done|]. intros m p hs Hroute. unfold serve. rewrite Hroute. rewrite Hr' in Hroute.
  destruct (guarded_run _ _ _ (guarded_run _ _ _ (Server_New_guarded recovery cfg e0 Hfresh) Hreg) Hown) as [_ Hg].
  destruct (Hg m p hs Hroute) as [rest ->]. exists rest. split; [done|].
  rewrite run_chain_app. unfold through. cbn [foldr]. by rewrite Hrec, cors_in_turn.
Qed.

(** A handler that neither calls [Next] nor aborts does not end a chain in gin:
    where the redirect is in a chain, the handlers behind it run on the request
    it has just answered. *)
Lemma TlsHandler_error_continues {C W} Process sslAddr (l : WKHttp C) next (c : gin_ctx) (w : W) :
  (Process sslAddr c).2 = true -> aborted (Process sslAddr c).1 = false ->
  WKHttpHandler (TlsHandler Process sslAddr) l next c w = next (Process sslAddr c).1 w.
Proof.
  intros He Ha. unfold WKHttpHandler, in_turn, TlsHandler. cbn [gin on_gin]. destruct (Process sslAddr c) as [g err].
  cbn in *. subst err. cbn. by rewrite Ha.
Qed.

(** ** An example *)

Definition ssl_viper : Viper := {|
  vp_GetString k := if eqs k "sslAddr" then ":443" else []; vp_GetStringSlice _ := []; vp_value := unit; vp_Get _ := None; cast_ToBool _ := false;
  vp_GetBool _ := false; vp_GetInt _ := 0; vp_GetInt64 _ := 0; vp_GetDuration _ := 0 |}.

Definition ssl_config : Config := @configure ssl_viper no_env "192.168.1.7" (Config.New no_env).

(** The world is the list of the paths that were handled. *)
Definition demo_handler : HandlerFunc unit (list gostring) := fun _ c w => (ResponseOK c, URL_Path (Request (gin c)) :: w).

Definition demo_server : Server (table_engine unit (list gostring)) := Server_New (fun _ next => next) ssl_config empty_engine.

Definition demo_routes : table_engine unit (list gostring) :=
  let '(e, g) := Routes.Group New "/v1" [] (s_r demo_server) in Group_POST g "/message" [demo_handler] e.

Definition demo_redirect (host : gostring) (c : gin_ctx) : gin_ctx * bool := (c_Status 301 c, true).

Definition demo_http (method : gostring) : gin_ctx := mkGin (mkRequest method "/v1/message" ∅ [] ∅ (mkContext None)) ∅ ∅ [].

Definition demo_no_swagger : HandlerFunc unit (list gostring) := swagger (fun _ _ => []) (empty_registry (W := unit) (E := unit) (Svc := unit) (C := unit)).

(** A route of a module, asked for over plain HTTP although the server has an SSL
    address, and its preflight. *)
Lemma server_requests_witness :
  let r' := (run (Err := unit) (fun _ => None) (fun _ _ _ => None) "/srv" demo_redirect demo_no_swagger (cfg_SSLAddr ssl_config) [cfg_Addr ssl_config] demo_routes).1.1 in
  (forall m p, route r' m p = route (own_routes demo_no_swagger demo_routes) m p) /\
  snd <$> serve r' New "POST" "/v1/message" (demo_http "POST") [] = Some ["/v1/message"%go] /\
  serve r' New "POST" "/v1/message" (demo_http "OPTIONS") [] = Some (cors_headers (C := unit) (demo_http "OPTIONS"), []).
Proof.
  intros r'.
  assert (rtc registers (s_r demo_server) demo_routes) as Hreg.
  { apply rtc_l with (Routes.Group New "/v1" [] (s_r demo_server)).1; [|apply rtc_once].
    - exact (reg_Group (root : group) "/v1" [] (s_r demo_server) (known_root _)).
    - exact (reg_Handle (1%nat : group) "POST" "/message" [demo_handler] (Routes.Group New "/v1" [] (s_r demo_server)).1 (le_n 1) eq_refl). }
  assert (rtc registers demo_routes (own_routes demo_no_swagger demo_routes)) as Hown.
  { unfold own_routes, Any, any_methods. cbn [fold_left].
    do 18 (eapply rtc_r; [|apply reg_Handle; [apply known_root|by vm_compute]]). apply rtc_once, reg_Static. }
  pose proof (fun m => server_requests (fun _ next => next) ssl_config empty_engine demo_routes (Err := unit) (fun _ => None) (fun _ _ _ => None)
    "/srv" demo_redirect demo_no_swagger New (demo_http m) [] ltac:(done) ltac:(by split_and!; [|intros [|n]; cbn; [|lia]|]) Hreg Hown eq_refl) as Hs.
  split; [apply (Hs []%go)|].
  split; [vm_compute; reflexivity|].
  assert (is_Some (route r' "POST" "/v1/message")) as [hs Hhs] by (apply (bool_decide_unpack _); vm_compute; reflexivity).
  destruct (proj2 (Hs "OPTIONS"%go) _ _ _ Hhs) as (rest & _ & E). exact E.
Defined.
