(* ===== verification/Tracing.v ===== *)
(** * Tracing: spans around requests ([config/tracer.go])

    The tracer of the opentracing library is an argument: its answers are
    functions of the calls made to it so far, and the calls are recorded. A span
    is what the library returned, or the empty span of this file. *)
From S2P Require Import Prelude GoStr Redis Cache Config Http Routes.

#[global] Open Scope Z_scope.
#[global] Open Scope go_scope.

(** ** The library *)
Section Tracing.
Context {TR SP SC G F X : Type}.

(** An [opentracing.SpanContext] that is not nil: the empty one, or a tracer's. *)
Inductive SpanContext := EmptySpanContext | Traced (sc : SC).

Inductive StartSpanOption := ChildOf (sc : SpanContext) | Tag (key value : gostring).

Inductive span_op :=
| Finish | FinishWithOptions | SetOperationName (name : gostring) | SetTag (key : gostring) | LogFields | LogKV
| SetBaggageItem (key value : gostring) | LogEvent (event : gostring) | LogEventWithPayload (event : gostring) | Log_.

(** A call of the library; a start carries the span it returned. *)
Inductive trace_call :=
| TExtract (tr : TR) (format : F) (carrier : header)
| TInject (tr : TR) (sc : option SpanContext) (format : F) (carrier : header)
| TStart (tr : TR) (name : gostring) (opts : list StartSpanOption) (s : SP)
| TStartFromContext (ctx : G) (name : gostring) (opts : list StartSpanOption) (s : SP)
| TSpan (s : SP) (op : span_op).

(** What the library answers, and what it has built in. *)
Record opentracing := mkOpentracing {
  ot_start : list trace_call -> TR -> gostring -> list StartSpanOption -> SP;
  ot_start_from_context : list trace_call -> G -> gostring -> list StartSpanOption -> SP * G;
  ot_extract : list trace_call -> TR -> F -> header -> X + SpanContext;
  ot_inject : list trace_call -> TR -> option SpanContext -> F -> header -> header * option X;
  ot_span_context : SP -> SC;
  ot_context_with_span : G -> option SP -> G;
  ot_baggage : SP -> gostring -> gostring;
  Background : G;
  HTTPHeaders : F;
  (** How an interface value holds a span context, and the type assertion. *)
  span_any : option SpanContext -> any;
  any_span : any -> option SpanContext;
}.
Context (ot : opentracing).

(** ** Spans *)

Inductive Span := EmptySpan | Real (s : SP).

(** A method of a span that returns nothing, or the span: the empty span does
    nothing. *)
Definition span_do (s : Span) (op : span_op) (log : list trace_call) : list trace_call :=
  match s with EmptySpan => log | Real s => log ++ [TSpan s op] end.

(** [nil] on the empty span. *)
Definition Span_Context (s : Span) : option SpanContext :=
  match s with EmptySpan => None | Real s => Some (Traced (ot_span_context ot s)) end.
Definition Span_BaggageItem (s : Span) (restrictedKey : gostring) : gostring :=
  match s with EmptySpan => [] | Real s => ot_baggage ot s restrictedKey end.
(** The empty context has no item to hand to the callback. *)
Definition ForeachBaggageItem {A} (handler : gostring -> gostring -> A -> A * bool) (a : A) : A := a.

(** ** The tracer *)

Record jaeger_config := mkJaegerConfig { ServiceName : gostring; TraceContextHeaderName : gostring; SamplerConst : Z; LogSpans : bool; LocalAgentHostPort : gostring }.

(** [tracer] is what jaeger returned, or nil; [closer] is absent when nil. *)
Record Tracer := mkTracer { jaegerconfig : option jaeger_config; t_cfg : Config; tracer : option TR; closer : option (option X) }.

Definition On (t : Tracer) : bool := Tracing_On (cfg_Tracing (t_cfg t)).

(** [jaeger_New] is the library's constructor; the closer is known by what its
    [Close] returns. The last component is the global tracer that is set. *)
Definition NewTracer (jaeger_New : jaeger_config -> gostring -> X + (TR * option X)) (cfg : Config) : go X (Tracer * option TR) :=
  if negb (Tracing_On (cfg_Tracing cfg)) then Ok (mkTracer None cfg None None, None)
  else
    let jc := mkJaegerConfig (cfg_AppID cfg) "wukongchat-trace-id" 1 true (Tracing_Addr (cfg_Tracing cfg)) in
    match jaeger_New jc (cfg_AppID cfg) with
    | inl err => Err err
    | inr (tr, cl) => Ok (mkTracer (Some jc) cfg (Some tr) (Some cl), Some tr)
    end.

Definition Tracer_Close (t : Tracer) : option X := match closer t with Some c => c | None => None end.

(** A method of the nil tracer is a run-time panic. *)
Definition with_tracer {A} (t : Tracer) (f : TR -> A) : go X A :=
  match tracer t with Some tr => Ok (f tr) | None => Panicked "nil pointer dereference" end.

Definition StartSpanFromContext (t : Tracer) (ctx : G) (name : gostring) (opts : list StartSpanOption) (log : list trace_call) : list trace_call * (Span * G) :=
  if negb (On t) then (log, (EmptySpan, ctx))
  else let '(s, ctx') := ot_start_from_context ot log ctx name opts in (log ++ [TStartFromContext ctx name opts s], (Real s, ctx')).

Definition StartSpan (t : Tracer) (name : gostring) (opts : list StartSpanOption) (log : list trace_call) : go X (list trace_call * Span) :=
  if negb (On t) then Ok (log, EmptySpan)
  else with_tracer t (fun tr => let s := ot_start ot log tr name opts in (log ++ [TStart tr name opts s], Real s)).

Definition ContextWithSpan (t : Tracer) (ctx : G) (s : Span) : G :=
  ot_context_with_span ot ctx (match s with EmptySpan => None | Real s => Some s end).

Definition Inject (t : Tracer) (sm : option SpanContext) (format : F) (carrier : header) (log : list trace_call) : go X (list trace_call * (header * option X)) :=
  if negb (On t) then Ok (log, (carrier, None))
  else with_tracer t (fun tr => (log ++ [TInject tr sm format carrier], ot_inject ot log tr sm format carrier)).
Definition InjectHTTPHeader (t : Tracer) (sm : option SpanContext) (h : header) (log : list trace_call) : go X (list trace_call * (header * option X)) :=
  if negb (On t) then Ok (log, (h, None))
  else with_tracer t (fun tr => (log ++ [TInject tr sm (HTTPHeaders ot) h], ot_inject ot log tr sm (HTTPHeaders ot) h)).

Definition Extract (t : Tracer) (format : F) (carrier : header) (log : list trace_call) : go X (list trace_call * (X + SpanContext)) :=
  if negb (On t) then Ok (log, inr EmptySpanContext)
  else with_tracer t (fun tr => (log ++ [TExtract tr format carrier], ot_extract ot log tr format carrier)).
Definition ExtractHTTPHeader (t : Tracer) (h : header) (log : list trace_call) : go X (list trace_call * (X + SpanContext)) :=
  Extract t (HTTPHeaders ot) h log.

(** ** The middleware

    What runs under it acts on the recorded calls and a world [W]. *)
Context {C W : Type} (FullPath : gin_ctx -> gostring).

Definition with_request_header (h : header) (c : gin_ctx) : gin_ctx :=
  let r := Request c in
  mkGin (mkRequest (Method r) (URL_Path r) h (RemoteAddr r) (QueryParams r) (Context_ r)) (Keys c) (WriterHeader c) (calls c).

(** The span of a request: a child of the span named in its header, or a root. *)
Definition parent_span (t : Tracer) (c : gin_ctx) (log : list trace_call) : go X (list trace_call * Span) :=
  let! r := ExtractHTTPHeader t (RequestHeader (Request c)) log in
  match r with
  | (log, inl _) => let '(log, (s, _)) := StartSpanFromContext t (Background ot) (FullPath c) [] log in Ok (log, s)
  | (log, inr spCtx) => StartSpan t (FullPath c) [ChildOf spCtx; Tag "component" "HTTP"] log
  end.

(** What handlers act on: the recorded calls, the panic that is going up the
    stack, if there is one, and the rest of the world. *)
Definition traced : Type := (list trace_call * option gostring) * W.

(** [Next] runs the rest of the chain. The deferred [Finish] is the last thing,
    also when the rest of the chain panics; the header is then not written and
    the panic goes on. *)
Definition GinMiddle (t : Tracer) : gin_handler C traced := fun _ next c st =>
  match st with
  | ((_, Some _), _) => (c, st)
  | ((log, None), w) =>
      if On t then
        match parent_span t c log with
        | Ok (log, parentSpan) =>
            let spanContext := Span_Context parentSpan in
            let '(c, ((log, panicking), w)) := next (c_Next (c_Set "spanContext" (span_any ot spanContext) c)) ((log, None), w) in
            let '(c, (log, panicking)) :=
              match panicking with
              | Some _ => (c, (log, panicking))
              | None =>
                  match InjectHTTPHeader t spanContext (RequestHeader (Request c)) log with
                  | Ok (log, (h, _)) => (with_request_header h c, (log, None))
                  | Err _ => (c, (log, None))
                  | Panicked msg => (c, (log, Some msg))
                  end
              end in
            (c, ((span_do parentSpan Finish log, panicking), w))
        | Err _ => (c, st)
        | Panicked msg => (c, ((log, Some msg), w))
        end
      else next (c_Next (c_Set "spanContext" (span_any ot (Some EmptySpanContext)) c)) st
  end.

(** [Context.GetSpanContext] of [wkhttp/http.go]. *)
Definition GetSpanContext (c : gin_ctx) : option SpanContext :=
  match c_Get c "spanContext" with None => None | Some v => any_span ot v end.

(** ** Spans are balanced *)

Definition starts (c : trace_call) (s : SP) : Prop :=
  (exists tr name opts, c = TStart tr name opts s) \/ (exists ctx name opts, c = TStartFromContext ctx name opts s).

Definition neutral (c : trace_call) : Prop :=
  match c with
  | TExtract _ _ _ | TInject _ _ _ _ => True
  | TSpan _ op => match op with Finish | FinishWithOptions => False | _ => True end
  | _ => False
  end.

(** Every span that is started is finished, once, after the spans started since. *)
Inductive balanced : list trace_call -> Prop :=
| balanced_nil : balanced []
| balanced_neutral c l : neutral c -> balanced l -> balanced (c :: l)
| balanced_span c s inside l : starts c s -> balanced inside -> balanced l -> balanced (c :: inside ++ TSpan s Finish :: l).

Lemma balanced_app l1 l2 : balanced l1 -> balanced l2 -> balanced (l1 ++ l2).
Proof.
  intros H1 H2. induction H1 as [|c l Hc Hl IH|c s inside l Hc Hi IHi Hl IH]; [done| |].
  - by apply balanced_neutral.
  - cbn. rewrite <- app_assoc. cbn. by apply balanced_span.
Qed.

(** A rest of a chain whose own calls are balanced, whether it panics or not. *)
Definition keeps_balance (next : gin_chain traced) : Prop := forall c log w, exists c' inside panic w',
  next c ((log, None), w) = (c', ((log ++ inside, panic), w')) /\ balanced inside.

(** A tracer that [NewTracer] built has a library tracer when tracing is on. *)
Lemma NewTracer_tracer jaeger_New cfg t g : NewTracer jaeger_New cfg = Ok (t, g) ->
  On t = Tracing_On (cfg_Tracing cfg) /\ (On t = true -> exists tr, tracer t = Some tr /\ g = Some tr).
Proof.
  unfold NewTracer, On. destruct (Tracing_On (cfg_Tracing cfg)) eqn:E; cbn [negb].
  - destruct (jaeger_New _ _) as [err|[tr cl]]; [done|]. intros [= <- <-]. cbn. by split; [|eauto].
  - intros [= <- <-]. cbn. by rewrite E.
Qed.

(** The span of a request is started with one look at the header. *)
Lemma parent_span_starts t c log : On t = true -> (exists tr, tracer t = Some tr) ->
  exists look call s, parent_span t c log = Ok (log ++ [look; call], Real s) /\ neutral look /\ starts call s /\
    (forall tr, tracer t = Some tr -> look = TExtract tr (HTTPHeaders ot) (RequestHeader (Request c)) /\
      match ot_extract ot log tr (HTTPHeaders ot) (RequestHeader (Request c)) with
      | inr parent => call = TStart tr (FullPath c) [ChildOf parent; Tag "component" "HTTP"] s
      | inl _ => call = TStartFromContext (Background ot) (FullPath c) [] s
      end).
Proof.
  intros Ho [tr Htr]. unfold parent_span, ExtractHTTPHeader, Extract, StartSpan, StartSpanFromContext, with_tracer. rewrite Ho, Htr. cbn.
  destruct (ot_extract ot log tr _ _) as [e|parent] eqn:Ee.
  - destruct (ot_start_from_context ot (log ++ _) _ _ _) as [s ctx'] eqn:Es.
    eexists _, _, s. split; [by rewrite <- app_assoc|]. split; [done|]. split; [right; by eexists _, _, _|].
    intros tr' [= <-]. split; [done|]. by rewrite Ee.
  - eexists _, _, _. split; [by rewrite <- app_assoc|]. split; [done|]. split; [left; by eexists _, _, _|].
    intros tr' [= <-]. split; [done|]. by rewrite Ee.
Qed.
End Tracing.

(** C17 Around any chain whose own spans are balanced, the tracing middleware of a
    tracer that was built without an error starts one span per request, a child
    of the span the request's header names if it names one, shows its context to
    the handlers, and finishes it once, after everything they did, also when
    they panic, and the panic then goes on; so the spans of the whole are
    balanced again. With tracing off it makes no call at all and the handlers
    see the empty context. *)
Theorem GinMiddle_spans {TR SP SC G F X C W} (ot : opentracing (TR := TR) (SP := SP) (SC := SC) (G := G) (F := F) (X := X)) FullPath
  jaeger_New cfg t g (l : WKHttp C) (next : gin_chain (traced (W := W))) (c : gin_ctx) log w
  (Hcast : forall x, any_span ot (span_any ot x) = x)
  (Hnew : NewTracer jaeger_New cfg = Ok (t, g)) (Hnext : keeps_balance next) :
  let seen := fun sc => c_Next (c_Set "spanContext" (span_any ot sc) c) in
  (Tracing_On (cfg_Tracing cfg) = true ->
    exists look call s c' inside panic w' inject h,
      let after := match panic with None => [inject; TSpan s Finish] | Some _ => [TSpan s Finish] end in
      next (seen (Some (Traced (ot_span_context ot s)))) ((log ++ [look; call], None), w) = (c', (((log ++ [look; call]) ++ inside, panic), w')) /\
      GetSpanContext ot (seen (Some (Traced (ot_span_context ot s)))) = Some (Traced (ot_span_context ot s)) /\
      GinMiddle ot FullPath t l next c ((log, None), w) =
        (match panic with None => with_request_header h c' | Some _ => c' end, ((log ++ look :: call :: inside ++ after, panic), w')) /\
      starts call s /\ balanced (look :: call :: inside ++ after) /\
      (forall tr parent, tracer t = Some tr -> ot_extract ot log tr (HTTPHeaders ot) (RequestHeader (Request c)) = inr parent ->
         call = TStart tr (FullPath c) [ChildOf parent; Tag "component" "HTTP"] s)) /\
  (Tracing_On (cfg_Tracing cfg) = false ->
    GetSpanContext ot (seen (Some EmptySpanContext)) = Some EmptySpanContext /\
    GinMiddle ot FullPath t l next c ((log, None), w) = next (seen (Some EmptySpanContext)) ((log, None), w)).
Proof.
  intros seen. destruct (NewTracer_tracer jaeger_New cfg t g Hnew) as [<- Htr].
  assert (forall sc, GetSpanContext ot (seen sc) = sc) as Hseen.
  { intros sc. unfold GetSpanContext, c_Get, seen. cbn. by rewrite lookup_insert_eq, Hcast. }
  split; [|intros Ho; split; [apply Hseen|]; unfold GinMiddle; by rewrite Ho].
  intros Ho. destruct (Htr Ho) as (tr & Ht & _).
  destruct (parent_span_starts ot FullPath t c log Ho (ex_intro _ tr Ht)) as (look & call & s & Hp & Hlook & Hcall & Hparent).
  destruct (Hnext (seen (Some (Traced (ot_span_context ot s)))) (log ++ [look; call]) w) as (c' & inside & panic & w' & Hn & Hb).
  set (inject := TInject (SP := SP) (G := G) tr (Some (Traced (ot_span_context ot s))) (HTTPHeaders ot) (RequestHeader (Request c'))).
  destruct (ot_inject ot ((log ++ [look; call]) ++ inside) tr (Some (Traced (ot_span_context ot s))) (HTTPHeaders ot) (RequestHeader (Request c'))) as [h err] eqn:Ei.
  exists look, call, s, c', inside, panic, w', inject, h. cbn zeta.
  split; [done|]. split; [apply Hseen|]. split; [|split; [done|split]].
  - unfold GinMiddle. rewrite Ho, Hp. cbn [Span_Context].
    change (c_Next (c_Set "spanContext" _ c)) with (seen (Some (Traced (ot_span_context ot s)))). rewrite Hn.
    destruct panic as [msg|]; cbn [span_do].
    + do 3 f_equal. by rewrite <- !app_assoc.
    + unfold InjectHTTPHeader, with_tracer. rewrite Ho, Ht. cbn [negb]. rewrite Ei. do 3 f_equal. by rewrite <- !app_assoc.
  - apply balanced_neutral; [done|]. destruct panic as [msg|]; [by apply balanced_span; [|..|constructor]|].
    change [?i; ?f] with ([i] ++ [f]). rewrite app_assoc. apply balanced_span; [done| |constructor].
    apply balanced_app; [done|]. apply balanced_neutral; [done|constructor].
  - intros tr' parent Ht' He. destruct (Hparent tr' Ht') as [_ Hc]. by rewrite He in Hc.
Qed.

(** ** An example: spans and contexts are numbers *)

Definition demo_ot : opentracing (TR := unit) (SP := Z) (SC := Z) (G := unit) (F := unit) (X := unit) := {|
  ot_start log _ _ _ := Z.of_nat (length log);
  ot_start_from_context log ctx _ _ := (Z.of_nat (length log), ctx);
  ot_extract _ _ _ h := match h_Get h "wukongchat-trace-id" with [] => inl tt | id => inr (Traced (Atoi id).1) end;
  ot_inject _ _ sc _ h := (match sc with Some (Traced z) => h_Set "wukongchat-trace-id" (FormatInt z) h | _ => h end, None);
  ot_span_context s := 100 + s;
  ot_context_with_span g _ := g;
  ot_baggage _ _ := [];
  Background := tt; HTTPHeaders := tt;
  span_any sc := match sc with None => ANil | Some EmptySpanContext => AOther | Some (Traced z) => AInt z end;
  any_span v := match v with AOther => Some EmptySpanContext | AInt z => Some (Traced z) | _ => None end;
|}.

(** A handler that starts and finishes a span of its own; it panics on requests
    to "/v1/panic". *)
Definition demo_rest : gin_chain (traced (TR := unit) (SP := Z) (SC := Z) (G := unit) (F := unit) (W := Z)) := fun c st =>
  (c, ((st.1.1 ++ [TStart tt "sql" [] 7; TSpan 7 (SetTag "rows"); TSpan 7 Finish],
        if eqs (URL_Path (Request c)) "/v1/panic" then Some ("boom"%go) else None), st.2 + 1)).

Definition tracing_viper : Viper := {|
  vp_GetString k := []; vp_GetStringSlice _ := []; vp_value := unit; vp_Get k := if eqs k "tracing.on" then Some tt else None; cast_ToBool _ := true;
  vp_GetBool _ := false; vp_GetInt _ := 0; vp_GetInt64 _ := 0; vp_GetDuration _ := 0 |}.
Definition tracing_config : Config := @configure tracing_viper no_env "192.168.1.7" (Config.New no_env).

Definition traced_request (path id : gostring) : gin_ctx :=
  mkGin (mkRequest "GET" path (h_Set "wukongchat-trace-id" id ∅) [] ∅ (mkContext None)) ∅ ∅ [].

Lemma GinMiddle_spans_witness :
  Tracing_On (cfg_Tracing tracing_config) = true /\
  exists t g, NewTracer (fun _ _ => inr (tt, None)) tracing_config = Ok (t, g) /\
    let serve path := (GinMiddle (C := unit) demo_ot (fun c => URL_Path (Request c)) t Http.New demo_rest (traced_request path "5") (([], None), 0)).2 in
    let header := h_Set "wukongchat-trace-id" "5" ∅ in
    serve "/v1/x" =
      (([TExtract tt tt header; TStart tt "/v1/x" [ChildOf (Traced 5); Tag "component" "HTTP"] 1;
         TStart tt "sql" [] 7; TSpan 7 (SetTag "rows"); TSpan 7 Finish;
         TInject tt (Some (Traced 101)) tt header; TSpan 1 Finish], None), 1) /\
    serve "/v1/panic" =
      (([TExtract tt tt header; TStart tt "/v1/panic" [ChildOf (Traced 5); Tag "component" "HTTP"] 1;
         TStart tt "sql" [] 7; TSpan 7 (SetTag "rows"); TSpan 7 Finish; TSpan 1 Finish], Some ("boom"%go)), 1) /\
    exists s, GetSpanContext demo_ot (c_Next (c_Set "spanContext" (span_any demo_ot (Some (Traced (ot_span_context demo_ot s)))) (traced_request "/v1/x" "5"))) =
      Some (Traced (100 + s)).
Proof.
  split; [by vm_compute|]. eexists _, _. split; [reflexivity|]. split; [vm_compute; reflexivity|]. split; [vm_compute; reflexivity|].
  destruct (GinMiddle_spans (C := unit) (W := Z) demo_ot (fun c => URL_Path (Request c)) (fun _ _ => inr (tt, None)) tracing_config _ _ Http.New demo_rest (traced_request "/v1/x" "5") [] 0
    ltac:(by intros [[|]|]) eq_refl) as [Hon _].
  - intros c log w. eexists _, _, _, _. split; [reflexivity|].
    apply (balanced_span (TStart tt "sql" [] 7) 7 [TSpan 7 (SetTag "rows")] []); [left; by eexists _, _, _| |constructor].
    apply balanced_neutral; [done|constructor].
  - destruct Hon as (look & call & s & c' & inside & panic & w' & inject & h & _ & Hs & _); [by vm_compute|]. by exists s.
Defined.
