(* ===== verification/Bootstrap.v ===== *)
(** * Bootstrap: how a process is put together ([config/context.go], [config/asynctask.go],
    [config/elasticsearch.go], [pkg/db])

    The libraries that are opened here (snowflake, ants, machinery, the timing
    wheel, elastic, the SQL drivers) are arguments; the definitions say in which
    order they are opened, with which settings, and what a failure does. *)
From S2P Require Import Prelude GoStr Redis Config Cache Http Pool Tracing.

#[global] Open Scope Z_scope.
#[global] Open Scope go_scope.

(** ** Databases *)
Section Databases.
Context {Err Connector SqlDB Conn FS : Type}.

(** The pool settings of a session; its events are not reported. *)
Record session_settings := mkSettings { MaxOpenConns : Z; MaxIdleConns : Z; ConnMaxLifetime : Z; dialect : gostring }.

(** [db.NewMySQL]: the connector is instrumented, the pool is set up, nothing is
    dialled yet. *)
Definition NewMySQL_session (OpenConnector : gostring -> Err + Connector) (errText : Err -> gostring) (instrumentedConnector : Connector -> Connector)
  (addr : gostring) (maxOpenConns maxIdleConns connMaxLifetime : Z) : go unit (Connector * session_settings) :=
  match OpenConnector addr with
  | inl err => Panicked (errText err)
  | inr base => Ok (instrumentedConnector base, mkSettings maxOpenConns maxIdleConns connMaxLifetime "mysql")
  end.

(** [path.Dir]. *)
Definition path_Dir (p : gostring) : gostring :=
  path_Clean (match LastIndexByte p "/"%char with None => [] | Some i => firstn (S i) p end).

(** [Mkdir]'s error says whether the directory exists; the migrations of the
    directory are run, and any other failure is a panic. *)
Definition NewSqlite (Mkdir : gostring -> FS -> FS * option (bool * gostring)) (Open : gostring -> FS -> FS * (gostring + Conn))
  (Exec : Conn -> gostring -> FS -> FS * option gostring) (filepath sqlDir : gostring) (fs : FS) : FS * go unit Conn :=
  let '(fs, err) := Mkdir (path_Dir filepath) fs in
  match err with
  | Some (false, msg) => (fs, Panicked msg)
  | _ =>
      let '(fs, conn) := Open filepath fs in
      match conn with
      | inl msg => (fs, Panicked msg)
      | inr conn =>
          let '(fs, err) := Exec conn sqlDir fs in
          match err with Some msg => (fs, Panicked msg) | None => (fs, Ok conn) end
      end
  end.

Definition NewRedis (addr password : gostring) : Options := New_options addr password.
End Databases.

(** ** Tasks *)

Record machinery_redis := mkMachineryRedis {
  MaxIdle : Z; IdleTimeout : Z; ReadTimeout : Z; WriteTimeout : Z; ConnectTimeout : Z; NormalTasksPollPeriod : Z; DelayedTasksPollPeriod : Z }.
Record machinery_config := mkMachinery { DefaultQueue : gostring; ResultsExpireIn : Z; m_Redis : machinery_redis }.

Definition async_config : machinery_config :=
  mkMachinery "machinery_tasks" 3600 (mkMachineryRedis 3 240 15 15 15 1000 500).

Section AsyncTask.
Context {MServer Worker Task Sig Res Err Ctx : Type}.

(** The library: a server on broker and backend addresses, and its methods. *)
Class Machinery := {
  NewServer : machinery_config -> list gostring -> list gostring -> MServer;
  m_RegisterTask : gostring -> Task -> MServer -> MServer * option Err;
  m_RegisterTasks : gmap gostring Task -> MServer -> MServer * option Err;
  m_SendTask : Sig -> MServer -> MServer * (Res * option Err);
  m_SendTaskWithContext : Ctx -> Sig -> MServer -> MServer * (Res * option Err);
  NewWorker : gostring -> Z -> MServer -> Worker;
  sig_Name : Sig -> gostring;
}.

(** What the handlers of a worker log. *)
Inductive task_log := LogError (e : Err) | LogStart (name : gostring) | LogEnd (name : gostring).
Record worker_handlers := mkHandlers { on_error : Err -> task_log; on_start : Sig -> task_log; on_end : Sig -> task_log }.

Context `{Machinery}.

Definition NewAsyncTask (cfg : Config) : MServer :=
  let addrs := [DB_AsynctaskRedisAddr (cfg_DB cfg)] in NewServer async_config addrs addrs.

Definition RegisterTask (name : gostring) (taskFunc : Task) (a : MServer) : MServer * option Err := m_RegisterTask name taskFunc a.
Definition RegisterTasks (namedTaskFuncs : gmap gostring Task) (a : MServer) : MServer * option Err := m_RegisterTasks namedTaskFuncs a.
Definition SendTask (task : Sig) (a : MServer) : MServer * (Res * option Err) := m_SendTask task a.
Definition SendTaskWithContext (ctx : Ctx) (task : Sig) (a : MServer) : MServer * (Res * option Err) := m_SendTaskWithContext ctx task a.

Definition worker_logging : worker_handlers :=
  mkHandlers LogError (fun s => LogStart (sig_Name s)) (fun s => LogEnd (sig_Name s)).

Definition LaunchWorker (Launch : Worker -> worker_handlers -> option Err) (consumerTag : gostring) (concurrency : Z) (a : MServer) : option Err :=
  Launch (NewWorker consumerTag concurrency a) worker_logging.
End AsyncTask.

(** ** Search *)
Section Elastic.
Context {Client : Type} (NewClient : gostring -> gostring + Client).

(** The client is made on the first use that succeeds; a failure is a panic. *)
Definition GetElasticsearch (url : gostring) (elasticClient : option Client) : option Client * go unit (option Client) :=
  match elasticClient with
  | Some c => (Some c, Ok (Some c))
  | None => match NewClient url with inl msg => (None, Panicked msg) | inr c => (Some c, Ok (Some c)) end
  end.

(** Once there is a client it is given to every caller, and unlike the database
    and redis connections a failure is not kept: the next caller tries again. *)
Lemma GetElasticsearch_kept url c0 :
  let '(c1, r1) := GetElasticsearch url c0 in
  match r1 with
  | Ok c => c1 = c /\ GetElasticsearch url c1 = (c1, Ok c)
  | _ => c1 = c0 /\ c0 = None
  end.
Proof. unfold GetElasticsearch. destruct c0 as [c|]; [done|]. by destruct (NewClient url). Qed.
End Elastic.

(** ** Delayed tasks *)

(** The timing wheel asks for the next time after each one. *)
Record everyScheduler := mkEvery { Interval : Z }.
Definition Next (s : everyScheduler) (prev : Z) : Z := prev + Interval s.
Definition Schedule {F T} (ScheduleFunc : everyScheduler -> F -> T) (interval : Z) (f : F) : T := ScheduleFunc (mkEvery interval) f.

(** The times at which a scheduled function runs: whole intervals after the start. *)
Lemma Next_times s start n : Nat.iter n (Next s) start = start + Z.of_nat n * Interval s.
Proof. induction n as [|n IH]; cbn [Nat.iter nat_rect]; [lia|]. change (nat_rect _ start (fun _ => Next s) n) with (Nat.iter n (Next s) start). unfold Next at 1. rewrite IH. lia. Qed.

(** ** [NewContext] *)
Section NewContext.
Context {Node AP MServer Wheel TR X : Type}.
Context (NewNode : Z -> X + Node) (NewPool : Z -> X + AP) (errText : X -> gostring) (NewTask : Config -> MServer).
Context (NewTimingWheel : Z -> Z -> go unit Wheel) (jaeger_New : jaeger_config -> gostring -> X + (TR * option X)).

Record app_context := mkApp {
  a_cfg : Config; UserIDGen : Node; EventPool : Collector (P := AP); PushPool : Collector (P := AP); RobotEventPool : Collector (P := AP);
  aysncTask : MServer; timingWheel : Wheel; a_tracer : Tracer (TR := TR) (X := X); SetupTask : bool
}.

(** The parts in the order they are opened. The first failure is a panic; the
    timing wheel runs from then on. *)
Definition NewContext (cfg : Config) : go unit app_context :=
  match NewNode (Cluster_NodeID (cfg_Cluster cfg)) with
  | inl err => Panicked (errText err)
  | inr node =>
      let! ep := StartDispatcher NewPool errText (cfg_EventPoolSize cfg) in
      let! pp := StartDispatcher NewPool errText (Push_PushPoolSize (cfg_Push cfg)) in
      let! rp := StartDispatcher NewPool errText (Robot_EventPoolSize (cfg_Robot cfg)) in
      let task := NewTask cfg in
      let! wheel := NewTimingWheel (cfg_TimingWheelTick cfg) (cfg_TimingWheelSize cfg) in
      match NewTracer jaeger_New cfg with
      | Ok (t, _) => Ok (mkApp cfg node ep pp rp task wheel t false)
      | Err err => Panicked (errText err)
      | Panicked msg => Panicked msg
      end
  end.

Definition GetConfig (c : app_context) : Config := a_cfg c.
Definition AsyncTask (c : app_context) : MServer := aysncTask c.
Definition Tracer_ (c : app_context) : Tracer := a_tracer c.

(** The middleware over the context's cache, the state it acts on. *)
Definition ctx_AuthMiddleware {S} `{Cache S} (c : app_context) (r : WKHttp S) : Context S -> S -> Context S * S :=
  AuthMiddleware r (Cache_TokenCachePrefix (cfg_Cache (a_cfg c))).

(** A context that came up has its configuration, three pools of the configured
    sizes, and a tracer that is connected when tracing is on. *)
Lemma NewContext_ready cfg c : NewContext cfg = Ok c ->
  GetConfig c = cfg /\ workerCount (EventPool c) = cfg_EventPoolSize cfg /\
  workerCount (PushPool c) = Push_PushPoolSize (cfg_Push cfg) /\ workerCount (RobotEventPool c) = Robot_EventPoolSize (cfg_Robot cfg) /\
  On (Tracer_ c) = Tracing_On (cfg_Tracing cfg) /\ (On (Tracer_ c) = true -> exists tr, tracer (Tracer_ c) = Some tr).
Proof.
  assert (forall n col, StartDispatcher NewPool errText n = Ok col -> workerCount col = n) as Hn.
  { intros n col. unfold StartDispatcher. destruct (NewPool n); [done|]. by intros [= <-]. }
  unfold NewContext. destruct (NewNode _) as [|node]; [done|].
  destruct (StartDispatcher NewPool errText (cfg_EventPoolSize cfg)) as [ep| |] eqn:E1; [|done..].
  destruct (StartDispatcher NewPool errText (Push_PushPoolSize (cfg_Push cfg))) as [pp| |] eqn:E2; [|done..].
  destruct (StartDispatcher NewPool errText (Robot_EventPoolSize (cfg_Robot cfg))) as [rp| |] eqn:E3; [|done..].
  cbn [go_bind]. destruct (NewTimingWheel _ _) as [wheel| |]; [|done..]. cbn [go_bind].
  destruct (NewTracer jaeger_New cfg) as [[t g]|err|msg] eqn:Et; [|done..]. intros [= <-].
  destruct (NewTracer_tracer jaeger_New cfg t g Et) as [Ho Htr]. cbn. split_and!; auto. intros Hon. destruct (Htr Hon) as (tr & ? & _). by exists tr.
Qed.
End NewContext.

(** ** Events ([pkg/wkevent/event.go]) *)

Definition EventNone : Z := 0.
Definition EventMessage : Z := 1.
Definition EventCMD : Z := 2.
Definition StatusWait : Z := 0.
Definition StatusSuccess : Z := 1.
Definition StatusFail : Z := 2.

Record event_data (D : Type) := mkEventData { ev_Event : gostring; ev_Type : Z; ev_Data : D }.

(** The interface that the event service of a server implements, on its state;
    the context passes its calls on. *)
Class Event (W D Tx E : Type) := {
  ev_Begin : event_data D -> Tx -> W -> W * (Z * option E);
  ev_Commit : Z -> W -> W;
}.
Definition EventBegin {W D Tx E} `{Event W D Tx E} (data : event_data D) (tx : Tx) (w : W) : W * (Z * option E) := ev_Begin data tx w.
Definition EventCommit {W D Tx E} `{Event W D Tx E} (eventID : Z) (w : W) : W := ev_Commit eventID w.
