(* ===== verification/TestUtil.v ===== *)
(** * TestUtil: the server and context of tests ([testutil/test.go])

    A test server is put together from the parts the other files model: a
    context, an empty database, a session in the cache, the server with its
    tracer, the modules. Opening the connections and the database itself are
    arguments. *)
From S2P Require Import Prelude GoStr Redis Config Cache Db Modules Http Routes Server Tracing Bootstrap.

#[global] Open Scope Z_scope.
#[global] Open Scope go_scope.

Definition UID : gostring := "10000".
Definition friendUID : gostring := "10001".
Definition Token : gostring := "token122323".

(** The session of the test user is in the form the token parser reads. *)
Definition test_session : gostring := UID ++ "@test".

(** The statements are run in order up to the first error; an error of the query
    is answered only when it brought no statement. *)
Definition CleanAllTables {W} (Load : W -> W * (list gostring * option gostring)) (Exec : gostring -> W -> W * option gostring) (w : W) : W * option gostring :=
  let '(w, (dropSqls, err)) := Load w in
  (fix loop (sqls : list gostring) (err : option gostring) (w : W) : W * option gostring :=
     match sqls with
     | [] => (w, err)
     | sql :: rest => let '(w, err) := Exec sql w in match err with Some e => (w, Some e) | None => loop rest None w end
     end) dropSqls err w.

(** The test flag and the database of a configuration are set. *)
Definition for_test (db : DB) (c : Config) : Config :=
  mkConfig (cfg_Mode c) (cfg_AppID c) (cfg_AppName c) (cfg_Version c) (cfg_RootDir c) (cfg_Addr c) (cfg_GRPCAddr c)
    (cfg_SSLAddr c) (cfg_MessageSaveAcrossDevice c) (cfg_WelcomeMessage c) (cfg_PhoneSearchOff c)
    (cfg_OnlineStatusOn c) (cfg_GroupUpgradeWhenMemberCount c) (cfg_EventPoolSize c) (cfg_AdminPwd c) (cfg_External c)
    (cfg_Logger c) db (cfg_Cluster c) (cfg_Cache c) (cfg_Account c) (cfg_FileService c) (cfg_OSS c) (cfg_Minio c)
    (cfg_Seaweed c) (cfg_Qiniu c) (cfg_COS c) (cfg_S3 c) (cfg_SMSCode c) (cfg_SMSProvider c) (cfg_UniSMS c)
    (cfg_AliyunSMS c) (cfg_AliyunInternationalSMS c) (cfg_Smsbao c) (cfg_WuKongIM c) (cfg_Avatar c) (cfg_ShortNo c)
    (cfg_Robot c) (cfg_Gitee c) (cfg_Github c) (cfg_OWT c) (cfg_Livekit c) (cfg_Register c) (cfg_Organization c)
    (cfg_Friend c) (cfg_ZincSearch c) (cfg_Search c) (cfg_ESIndex c) (cfg_Group c) (cfg_Push c) (cfg_Message c)
    (cfg_Wechat c) (cfg_Tracing c) (cfg_Support c) true (cfg_QRCodeInfoURL c) (cfg_VisitorUIDPrefix c)
    (cfg_TimingWheelTick c) (cfg_TimingWheelSize c) (cfg_ElasticsearchURL c) (cfg_TablePartitionConfig c)
    (cfg_AppRSAPrivateKey c) (cfg_AppRSAPubKey c).

Definition NewTestContext {A} (newContext : Config -> go unit A) (cfg : Config) : go unit A := newContext (for_test (cfg_DB cfg) cfg).

(** The default configuration with the address of the test database. *)
Definition test_config (c : Config) : Config :=
  let db := cfg_DB c in
  for_test (mkDB "root:demo@tcp(127.0.0.1)/test?charset=utf8mb4&parseTime=true" (DB_MySQLMaxOpenConns db) (DB_MySQLMaxIdleConns db)
    (DB_MySQLConnMaxLifetime db) false (DB_RedisAddr db) (DB_RedisPass db) (DB_RedisTLS db) (DB_RedisTLSInsecureSkipVerify db)
    (DB_RedisTLSCAFile db) (DB_AsynctaskRedisAddr db)) c.

(** [W] is the rest of the world: the database, and what the modules touch. *)
Section TestServer.
Context {Node AP MServer Wheel TR SP SC G F X CS W E Svc M : Type} `{Cache CS} `{Engine CS (traced (TR := TR) (SP := SP) (SC := SC) (G := G) (F := F) (W := W)) E} `{Migrate M}.
Notation app := (app_context (Node := Node) (AP := AP) (MServer := MServer) (Wheel := Wheel) (TR := TR) (X := X)).
Context (Getenv : gostring -> gostring) (newContext : Config -> go unit app) (ot : opentracing (TR := TR) (SP := SP) (SC := SC) (G := G) (F := F) (X := X)) (FullPath : gin_ctx -> gostring).
Context (openDB openRedis : app -> go unit unit) (rd_text : rd_err -> gostring).
Context (Load : W -> W * (list gostring * option gostring)) (ExecSQL : gostring -> W -> W * option gostring).
Context (recovery : gin_handler CS (traced (TR := TR) (SP := SP) (SC := SC) (G := G) (F := F) (W := W))) (Exec : mig_err + list M -> E * W -> (E * W) * option gostring).

(** A failure on the way is a panic. [args] are not used. *)
Definition NewTestServer (args : list gostring) (e0 : E) (reg : registry (W := E * W) (E := gostring) (Svc := Svc) (C := app)) (cs : CS) (w : W) :
    go unit (Server E * app * registry (W := E * W) (E := gostring) (Svc := Svc) (C := app) * CS * W) :=
  let cfg := test_config (Config.New Getenv) in
  let! ctx := newContext cfg in
  let! _ := openDB ctx in
  let '(w, err) := CleanAllTables Load ExecSQL w in
  match err with
  | Some msg => Panicked msg
  | None =>
      let! _ := openRedis ctx in
      let '(cs, err) := cache_Set (Cache_TokenCachePrefix (cfg_Cache cfg) ++ Token) test_session cs in
      match err with
      | Some e => Panicked (rd_text e)
      | None =>
          let s := Server_New recovery cfg e0 in
          let r := UseGin [GinMiddle ot FullPath (Tracer_ ctx)] (s_r s) in
          let '(reg, (r, w), res) := Setup Exec ctx (SetupTask ctx) reg (r, w) in
          match res with
          | Ok _ => Ok (mkServer r (s_sslAddr s) (s_addr s) (s_grpcAddr s), ctx, reg, cs, w)
          | Err msg | Panicked msg => Panicked msg
          end
      end
  end.

(** A test server that came up: the cache knows the test token, for which the
    built-in parser admits the test user; and the modules registered their routes
    on an engine whose every route starts with recovery, CORS and tracing. *)
Lemma NewTestServer_ready `{!CacheLaws CS} `{!EngineLaws CS (traced (TR := TR) (SP := SP) (SC := SC) (G := G) (F := F) (W := W)) E}
  args e0 reg cs w s ctx reg' cs' w' :
  fresh_engine e0 -> good cs ->
  NewTestServer args e0 reg cs w = Ok (s, ctx, reg', cs', w') ->
  (forall l c, getTokenParser l = None -> (forall l', wk c = Some l' -> errorRenderer l' = None) -> c_GetHeader (gin c) "token" = Token ->
     admitted_as UID "test" [] c (AuthMiddleware l "token:" c cs').1) /\
  exists r w1, guarded [recovery; WKHttpHandler cors; GinMiddle ot FullPath (Tracer_ ctx)] r /\
    Setup Exec ctx (SetupTask ctx) reg (r, w1) = (reg', (s_r s, w'), Ok tt).
Proof.
  intros Hfresh Hg. unfold NewTestServer. destruct (newContext _) as [ctx0| |]; [|done..]. cbn [go_bind].
  destruct (openDB ctx0) as [| |]; [|done..]. cbn [go_bind].
  destruct (CleanAllTables Load ExecSQL w) as [w1 [msg|]]; [done|].
  destruct (openRedis ctx0) as [| |]; [|done..]. cbn [go_bind].
  pose proof (law_Set (Cache_TokenCachePrefix (cfg_Cache (test_config (Config.New Getenv))) ++ Token) test_session cs Hg) as Hset.
  destruct (cache_Set _ test_session cs) as [cs1 err]. destruct Hset as (-> & Hg1 & Hh).
  set (r := UseGin _ _). destruct (Setup Exec ctx0 (SetupTask ctx0) reg (r, w1)) as [[reg1 [r1 w2]] [[]| |]] eqn:Es; [|done..].
  intros [= <- <- <- <- <-]. split.
  - intros l c Hp Hr Ht. specialize (Hh ("token:" ++ Token)). rewrite decide_True in Hh by done.
    destruct (AuthMiddleware_decides l "token:" c cs1 Hg1 Hp Hr) as [(_ & _ & uid & name & rest & Hs & Ha)|[[Hno|Hno] _]].
    + rewrite Ht, Hh in Hs. change (Split test_session "@"%char) with [UID; "test"%go] in Hs. by simplify_eq.
    + by rewrite Ht in Hno.
    + rewrite Ht, Hh in Hno. exfalso. apply Hno. unfold test_session. set_solver.
  - exists r, w1. split; [|done]. destruct Hfresh as (Hroot & Hk & Hnone). subst r. unfold UseGin, Server_New, New_engine, Use. cbn [s_r]. split.
    + intros g Hg'. apply Use_known, Use_known, Use_known, Hk in Hg' as ->.
      rewrite !Use_self by (apply known_root). by rewrite Hroot.
    + intros m p hs. by rewrite !Use_route, Hnone.
Qed.
End TestServer.
