(* ===== verification/Pipeline.v ===== *)
(** * Pipeline: the middlewares composed

    How the parts of [pkg/wkhttp] and [server] protect a route together: the
    server's CORS headers, the allow list of origins, the limiter by address,
    authentication and the limiter by user, in the order the comments of the
    middlewares ask for, over the states of the cache and of the buckets. *)
From S2P Require Import Prelude GoStr Redis Cache Config Http Cors TokenBucket ClientIp RateLimit Routes Server.
From Stdlib Require Import QArith.

#[global] Open Scope Z_scope.
#[global] Open Scope go_scope.

Section Authenticated.
Context {C : Type} `{CacheLaws C} {S : Type} `{BucketStore S}.
Context (l : WKHttp C) (prefix : gostring) (kl : keyedLimiter).

(** [AuthMiddleware] and then [UIDRateLimitMiddleware], over the states of the
    cache and of the buckets. *)
Definition auth_then_limit (now : Q) (c : Context C) (w : C * S) : Context C * (C * S) :=
  let '(c', cs) := AuthMiddleware l prefix c w.1 in
  if passes c' then let '(c'', s) := UIDRateLimitMiddleware kl now c' w.2 in (c'', (cs, s))
  else (c', (cs, w.2)).

(** The session record of a request, and its user. *)
Definition session_record (cs : C) (c : Context C) : gostring := holds cs (prefix ++ c_GetHeader (gin c) "token").

Definition valid_session (cs : C) (c : Context C) : Prop :=
  TrimSpace (c_GetHeader (gin c) "token") <> [] /\ "@"%char ∈ session_record cs c.

Definition session_user (cs : C) (c : Context C) : option gostring :=
  if decide (valid_session cs c) then
    match Split (session_record cs c) "@"%char with uid :: _ => if eqs uid [] then None else Some uid | [] => None end
  else None.

(** The cache is read only. *)
Lemma AuthMiddleware_reads c cs : getTokenParser l = None -> good cs ->
  good (AuthMiddleware l prefix c cs).2 /\ forall k, holds (AuthMiddleware l prefix c cs).2 k = holds cs k.
Proof.
  intros Hp Hg. unfold AuthMiddleware. destruct (eqs _ []); [done|]. rewrite Hp. unfold legacyTokenParser.
  destruct (eqs (TrimSpace _) []); [done|].
  pose proof (law_Get (prefix ++ c_GetHeader (gin c) "token") cs Hg) as Hl.
  destruct (cache_Get _ cs) as [cs' [v e]]. destruct Hl as (_ & _ & Hg' & Hh).
  destruct (bool_decide _ || _); [by split|]. by destruct (Split v "@"%char) as [|uid [|name rest]]; split.
Qed.

(** What the authentication makes of a request, with what the limiter then sees. *)
Lemma AuthMiddleware_user c cs : getTokenParser l = None -> good cs -> plain_request c ->
  let c' := (AuthMiddleware l prefix c cs).1 in
  (passes c' = true <-> valid_session cs c) /\
  (valid_session cs c -> plain_request c' /\ uid_key c' = session_user cs c) /\
  (~ valid_session cs c -> session_user cs c = None).
Proof.
  intros Hp Hg [Hr Ha0] c'. unfold aborted in Ha0. unfold session_user, valid_session, session_record, c'.
  set (record := holds cs _). set (token := c_GetHeader (gin c) "token").
  destruct (AuthMiddleware_decides l prefix c cs Hg Hp Hr) as [(Ht & Hat & uid & name & rest & Hs & Ha)|[Hno Hc]].
  - destruct Ha as (Hwk & Hcalls & Huid & _). rewrite decide_True by done. split; [|split; [|by intros []]].
    + split; [done|]. intros _. unfold passes, aborted. by rewrite Hcalls, existsb_app, Ha0.
    + intros _. split; [unfold plain_request, aborted; by rewrite Hwk, Hcalls, existsb_app, Ha0|]. unfold record. rewrite Hs. revert Huid.
      unfold uid_key, Context_GetLoginUID, key_string.
      destruct (c_Get _ "uid") as [[| uid' | | | |]|]; cbn [UID]; intros <-; done || by rewrite eqs_refl.
  - rewrite decide_False by tauto. split; [|split; [tauto|done]]. split; [|tauto].
    destruct Hc as [msg ->]. unfold passes, aborted. cbn. by rewrite !existsb_app, orb_true_r.
Qed.

(** The sessions do not change while the requests are served. *)
Definition sessions_of (cs0 : C) (w : C * S) : Prop :=
  good w.1 /\ (forall k, holds w.1 k = holds cs0 k) /\ serves w.2.

Lemma session_user_same cs cs0 c : (forall k, holds cs k = holds cs0 k) -> session_user cs c = session_user cs0 c.
Proof. intros Hh. unfold session_user, valid_session, session_record. by rewrite Hh. Qed.

Lemma valid_session_same cs cs0 c : (forall k, holds cs k = holds cs0 k) -> valid_session cs c <-> valid_session cs0 c.
Proof. intros Hh. unfold valid_session, session_record. by rewrite Hh. Qed.

Lemma auth_then_limit_meters cs0 q : getTokenParser l = None -> rps kl = Fin q ->
  meters (deciding auth_then_limit) (session_user cs0) (fun w => buckets kl w.2) q (burst kl) (sessions_of cs0) plain_request.
Proof.
  intros Hp Hq now c [cs s] (Hg & Hh & Hs) Hc. cbn [fst snd] in *. unfold deciding, auth_then_limit. cbn [fst snd].
  destruct (AuthMiddleware_reads c cs Hp Hg) as [Hg' Hh']. destruct (AuthMiddleware_user c cs Hp Hg Hc) as (Hpass & Hyes & Hno).
  rewrite <- (session_user_same cs cs0 c Hh). destruct (AuthMiddleware l prefix c cs) as [c' cs']. cbn [fst snd] in *.
  assert (forall s', serves s' -> sessions_of cs0 (cs', s')) as Hinv by (intros s' Hs'; split_and!; [done|cbn; congruence|done]).
  destruct (passes c') eqn:E.
  - destruct (Hyes (proj1 Hpass eq_refl)) as [Hc' <-].
    pose proof (limited_meters kl q "uid" uid_key (UIDRateLimitMiddleware kl) Hq (UIDRateLimitMiddleware_key kl) now c' s Hs Hc') as Hm.
    unfold deciding in Hm.
    destruct (UIDRateLimitMiddleware kl now c' s) as [c'' s']. destruct Hm as (Hs' & Hother & Hkey). auto.
  - rewrite Hno by (intros Hv; by apply Hpass in Hv). split; [by apply Hinv|]. by split.
Qed.

Lemma auth_then_limit_admits now c w : getTokenParser l = None -> good w.1 -> plain_request c ->
  passes (auth_then_limit now c w).1 = true -> valid_session w.1 c.
Proof.
  intros Hp Hg Hc. destruct (AuthMiddleware_user c w.1 Hp Hg Hc) as (Hpass & _ & _). unfold auth_then_limit.
  destruct (AuthMiddleware l prefix c w.1) as [c' cs']. cbn [fst snd] in *. destruct (passes c') eqn:E.
  - intros _. by apply Hpass.
  - cbn. congruence.
Qed.

Lemma auth_then_limit_valid cs0 reqs w : getTokenParser l = None -> (exists q, rps kl = Fin q) ->
  sessions_of cs0 w -> Forall (fun r => plain_request r.2) reqs ->
  Forall2 (fun r p => p = true -> valid_session cs0 r.2) reqs (run_requests (deciding auth_then_limit) reqs w).
Proof.
  intros Hp [q Hq] Hw Hr. revert w Hw. induction Hr as [|[now c] reqs Hc Hr IH]; intros w Hw; [done|].
  cbn [run_requests]. pose proof (auth_then_limit_meters cs0 q Hp Hq now c w Hw Hc) as Hm.
  destruct Hw as (Hg & Hh & Hs). pose proof (auth_then_limit_admits now c w Hp Hg Hc) as Hv. unfold deciding in *.
  destruct (auth_then_limit now c w) as [c' w']. destruct Hm as [Hw' _]. constructor; [|by apply IH].
  cbn [fst snd] in *. intros Hpass. apply (valid_session_same _ _ c Hh). by apply Hv.
Qed.
End Authenticated.

(** A route behind authentication and the limiter by user: only requests with
    a session in the cache get through, and of one user's requests, under
    whatever tokens they come and whatever requests of others are between them,
    at most [burst] plus [rate] times the elapsed seconds. *)
Theorem authenticated_user_bound {C} `{CacheLaws C} {S} `{BucketStore S} FormatFloat (l : WKHttp C) prefix kl q b uid
  (reqs : list (Q * Context C)) cs s t0 t1
  (Hkl : UIDRateLimit_limiter FormatFloat (Fin q) b = Ok kl) (Hp : getTokenParser l = None)
  (Hg : good cs) (Hs : serves s) (Hst : wf_bucket (bucket_of s ("ratelimit:uid:" ++ uid)))
  (Hreqs : Forall (fun r => plain_request r.2) reqs)
  (Ht : times_between t0 (times_of (session_user prefix cs) uid reqs) t1) :
  Forall2 (fun r p => p = true -> valid_session prefix cs r.2) reqs (run_requests (deciding (auth_then_limit l prefix kl)) reqs (cs, s)) /\
  (inject_Z (passed_of (deciding (auth_then_limit l prefix kl)) (session_user prefix cs) uid reqs (cs, s)) <= inject_Z b + q * (t1 - t0))%Q.
Proof.
  apply newKeyedLimiter_Ok in Hkl as (-> & Hq & Hb). set (kl := mkLimiter "ratelimit:uid:" (Fin q) b 0).
  split; [apply auth_then_limit_valid; [done|by exists q|by split_and!|done]|].
  apply (metered_bound _ _ (fun w => buckets kl w.2) q b (sessions_of cs) plain_request); [|by split_and!|done|done|lia|done|done].
  by apply auth_then_limit_meters.
Qed.

(** ** The whole stack *)

(** What the handlers of a server act on, and the time at which they run. *)
Record world (C S : Type) := mkWorld { w_now : Q; w_cache : C; w_buckets : S }.
Arguments mkWorld {C S}.
Arguments w_now {C S}.
Arguments w_cache {C S}.
Arguments w_buckets {C S}.

Section Stack.
Context {C : Type} `{CacheLaws C} {S : Type} `{BucketStore S} `{Unicode}.
Context (l : WKHttp C) (origins : list gostring) (ip uid : keyedLimiter) (excl : list gostring) (prefix : gostring).

Definition secure : gin_handler C (world C S) := fun _ =>
  in_turn (fun c w => (SecureCORSOverrideMiddleware origins c, w)).
Definition by_ip : HandlerFunc C (world C S) := fun _ c w =>
  let '(c', s) := RateLimitMiddleware ip excl (w_now w) c (w_buckets w) in (c', mkWorld (w_now w) (w_cache w) s).
Definition authenticate : HandlerFunc C (world C S) := fun l c w =>
  let '(c', cs) := AuthMiddleware l prefix c (w_cache w) in (c', mkWorld (w_now w) cs (w_buckets w)).
Definition by_user : HandlerFunc C (world C S) := fun _ c w =>
  let '(c', s) := UIDRateLimitMiddleware uid (w_now w) c (w_buckets w) in (c', mkWorld (w_now w) (w_cache w) s).

Definition guards : list (gin_handler C (world C S)) :=
  [WKHttpHandler cors; secure; WKHttpHandler by_ip; WKHttpHandler authenticate; WKHttpHandler by_user].

(** A request at a time: whether it gets through all of them. *)
Definition guarded_request (now : Q) (c : gin_ctx) (w : C * S) : bool * (C * S) :=
  let '(c', w') := run_chain l guards c (mkWorld now w.1 w.2) in (negb (aborted c'), (w_cache w', w_buckets w')).

Definition context_of (c : gin_ctx) : Context C := mkCtx c (Some l).

Lemma secure_goes_on (c : gin_ctx) :
  aborted (SecureCORSOverrideMiddleware origins c) = aborted c /\ Request (SecureCORSOverrideMiddleware origins c) = Request c.
Proof.
  unfold SecureCORSOverrideMiddleware, aborted.
  destruct (eqs _ []); [|destruct (IsOriginAllowed _ origins)]; cbn; by rewrite existsb_app, orb_false_r.
Qed.

Lemma cors_goes_on (c : gin_ctx) : aborted c = false -> eqs (Method (Request c)) "OPTIONS" = false ->
  aborted (cors_headers (C := C) c) = false /\ Request (cors_headers (C := C) c) = Request c.
Proof.
  intros Hc Hm. unfold cors_headers, CORSMiddleware, aborted in *. cbn -[eqs h_Set]. rewrite Hm. cbn. by rewrite existsb_app, Hc.
Qed.

Lemma cors_preflight (c : gin_ctx) : eqs (Method (Request c)) "OPTIONS" = true -> aborted (cors_headers (C := C) c) = true.
Proof.
  intros Hm. unfold cors_headers, CORSMiddleware, aborted. cbn -[eqs h_Set]. rewrite Hm. cbn. by rewrite existsb_app, orb_true_r.
Qed.

(** What a request is once the CORS handlers have run. *)
Definition after_cors (c : gin_ctx) : Context C := context_of (SecureCORSOverrideMiddleware origins (cors_headers (C := C) c)).

Context (Hr : errorRenderer l = None) (Hp : getTokenParser l = None).

Lemma after_cors_plain (c : gin_ctx) : aborted c = false -> eqs (Method (Request c)) "OPTIONS" = false ->
  plain_request (after_cors c) /\ Request (gin (after_cors c)) = Request c.
Proof.
  intros Ha0 Hm. destruct (cors_goes_on c Ha0 Hm) as [Ha Hq]. destruct (secure_goes_on (cors_headers (C := C) c)) as [Ha' Hq'].
  split; [split; [by intros l' [= <-]|by rewrite <- Ha, <- Ha']|]. by rewrite <- Hq, <- Hq'.
Qed.

Lemma AuthMiddleware_frame (c : Context C) cs : plain_request c ->
  wk (AuthMiddleware l prefix c cs).1 = wk c /\ WriterHeader (gin (AuthMiddleware l prefix c cs).1) = WriterHeader (gin c).
Proof.
  intros [Hc _]. unfold AuthMiddleware. destruct (eqs _ []); [by rewrite RenderError_default|].
  destruct (_ (Context_ (Request (gin c))) _ cs) as [cs' [info [e|]]]; [by rewrite RenderError_default|].
  by destruct (eqs (Role info) []).
Qed.

(** The chain: a preflight ends at once; then the limiter by address decides, and
    for those it lets pass authentication and the limiter by user. *)
Lemma stack_run qi t c cs s : rps ip = Fin qi -> serves s -> aborted c = false ->
  run_chain l guards c (mkWorld t cs s) =
  if eqs (Method (Request c)) "OPTIONS" then (cors_headers (C := C) c, mkWorld t cs s)
  else
    let '(c3, s3) := RateLimitMiddleware ip excl t (after_cors c) s in
    if passes c3 then let '(c4, (cs4, s4)) := auth_then_limit l prefix uid t c3 (cs, s3) in (gin c4, mkWorld t cs4 s4)
    else (gin c3, mkWorld t cs s3).
Proof.
  intros Hq Hs Ha0. unfold guards. rewrite run_chain_cons, cors_in_turn by done.
  destruct (eqs (Method (Request c)) "OPTIONS") eqn:Hm; [done|].
  destruct (after_cors_plain c Ha0 Hm) as [Hc _]. rewrite run_chain_cons. unfold secure, in_turn at 1.
  rewrite (proj2 Hc : aborted (SecureCORSOverrideMiddleware origins (cors_headers (C := C) c)) = false).
  rewrite run_chain_cons. unfold WKHttpHandler at 1, in_turn at 1, by_ip. cbn [w_now w_cache w_buckets].
  change (mkCtx (SecureCORSOverrideMiddleware origins (cors_headers (C := C) c)) (Some l)) with (after_cors c).
  pose proof (limited_meters_frame ip qi "ip" (ip_key excl) (RateLimitMiddleware ip excl) t (after_cors c) s Hq
    (RateLimitMiddleware_key ip excl) Hs Hc) as Hf.
  destruct (RateLimitMiddleware ip excl t (after_cors c) s) as [c3 s3]. destruct Hf as (Hwk & _).
  unfold passes. destruct (aborted (gin c3)) eqn:E3; [done|]. cbn [negb].
  assert (mkCtx (gin c3) (Some l) = c3) as E by (by destruct c3; cbn in Hwk; rewrite Hwk).
  rewrite run_chain_cons. unfold WKHttpHandler at 1, in_turn at 1, authenticate, auth_then_limit. cbn [w_now w_cache w_buckets fst snd]. rewrite E.
  assert (plain_request c3) as Hc3 by (split; [rewrite Hwk; apply Hc|done]).
  destruct (AuthMiddleware_frame c3 cs Hc3) as [Hwk4 _]. destruct (AuthMiddleware l prefix c3 cs) as [c4 cs4]. cbn [fst] in Hwk4.
  unfold passes. destruct (aborted (gin c4)) eqn:E4; [done|]. cbn [negb].
  assert (mkCtx (gin c4) (Some l) = c4) as E' by (destruct c4; cbn in Hwk4; by rewrite Hwk4, Hwk).
  rewrite run_chain_cons. unfold WKHttpHandler, in_turn, by_user. cbn [w_now w_cache w_buckets]. rewrite E'.
  destruct (UIDRateLimitMiddleware uid t c4 s3) as [c5 s5]. cbn. by destruct (aborted (gin c5)).
Qed.

(** The client and the user a request is counted for, preflights aside. *)
Definition ip_client (c : gin_ctx) : option gostring :=
  if eqs (Method (Request c)) "OPTIONS" then None else ip_key excl (context_of c).
Definition user_client (cs0 : C) (c : gin_ctx) : option gostring :=
  if eqs (Method (Request c)) "OPTIONS" then None else session_user prefix cs0 (context_of c).

(** Clients and sessions are read off the request alone. *)
Lemma ip_key_request (c1 c2 : Context C) : Request (gin c1) = Request (gin c2) -> ip_key excl c1 = ip_key excl c2.
Proof. intros E. unfold ip_key, client_key. by rewrite E. Qed.

Lemma valid_session_request cs0 (c1 c2 : Context C) : Request (gin c1) = Request (gin c2) ->
  valid_session prefix cs0 c1 = valid_session prefix cs0 c2 /\ session_user prefix cs0 c1 = session_user prefix cs0 c2.
Proof.
  intros E. unfold session_user, valid_session, session_record, c_GetHeader. by rewrite E.
Qed.

Lemma auth_then_limit_elsewhere qu now c cs s : rps uid = Fin qu -> good cs -> serves s -> plain_request c ->
  forall k', (forall k, k' <> keyPrefix uid ++ k) -> bucket_of (auth_then_limit l prefix uid now c (cs, s)).2.2 k' = bucket_of s k'.
Proof.
  intros Hq Hg Hs Hc k' Hk. unfold auth_then_limit. cbn [fst snd].
  destruct (AuthMiddleware_frame c cs Hc) as [Hwk _]. destruct (AuthMiddleware l prefix c cs) as [c' cs']. cbn [fst] in Hwk.
  destruct (passes c') eqn:E; [|done].
  assert (plain_request c') as Hc' by (split; [rewrite Hwk; apply Hc|by apply negb_true_iff in E]).
  pose proof (limited_meters_frame uid qu "uid" uid_key (UIDRateLimitMiddleware uid) now c' s Hq (UIDRateLimitMiddleware_key uid) Hs Hc') as Hf.
  destruct (UIDRateLimitMiddleware uid now c' s) as [c'' s'']. by apply Hf.
Qed.

Context (qi qu : Q) (Hqi : rps ip = Fin qi) (Hqu : rps uid = Fin qu).
Context (Hip : keyPrefix ip = "ratelimit:ip:") (Huid : keyPrefix uid = "ratelimit:uid:").

(** The limiters keep their buckets apart. *)
Lemma prefixes_apart k k' : keyPrefix ip ++ k <> keyPrefix uid ++ k'.
Proof. by rewrite Hip, Huid. Qed.

(** One request, seen by both limiters and by the authentication. *)
Lemma stack_step cs0 now c w : sessions_of cs0 w -> aborted c = false ->
  let '(p, w') := guarded_request now c w in
  sessions_of cs0 w' /\
  (forall k, ip_client c <> Some k -> buckets ip w'.2 k = buckets ip w.2 k) /\
  (forall k, ip_client c = Some k ->
     let r := tokenBucketScript (buckets ip w.2 k) qi (burst ip) now in
     p = false /\ buckets ip w'.2 k = buckets ip w.2 k \/ (p = true -> allowed r = 1) /\ buckets ip w'.2 k = bucket_after (buckets ip w.2 k) r) /\
  (forall k, user_client cs0 c <> Some k -> buckets uid w'.2 k = buckets uid w.2 k) /\
  (forall k, user_client cs0 c = Some k ->
     let r := tokenBucketScript (buckets uid w.2 k) qu (burst uid) now in
     p = false /\ buckets uid w'.2 k = buckets uid w.2 k \/ (p = true -> allowed r = 1) /\ buckets uid w'.2 k = bucket_after (buckets uid w.2 k) r) /\
  (p = true -> Method (Request c) <> "OPTIONS" /\ valid_session prefix cs0 (context_of c)).
Proof.
  intros (Hg & Hh & Hs) Ha. destruct w as [cs s]. cbn [fst snd] in *.
  unfold guarded_request, ip_client, user_client. cbn [fst snd]. rewrite (stack_run qi) by done.
  destruct (eqs (Method (Request c)) "OPTIONS") eqn:Hm.
  { rewrite cors_preflight by done. cbn. by split_and!. }
  destruct (after_cors_plain c Ha Hm) as [Hc Hreq]. 
  assert (Method (Request c) <> "OPTIONS") as Hm' by (intros E; apply eqs_spec in E; congruence).
  rewrite <- (ip_key_request (after_cors c) (context_of c) Hreq).
  destruct (valid_session_request cs0 (after_cors c) (context_of c) Hreq) as [<- <-].
  pose proof (limited_meters ip qi "ip" (ip_key excl) (RateLimitMiddleware ip excl) Hqi (RateLimitMiddleware_key ip excl) now (after_cors c) s Hs Hc) as Hi.
  pose proof (limited_meters_frame ip qi "ip" (ip_key excl) (RateLimitMiddleware ip excl) now (after_cors c) s Hqi (RateLimitMiddleware_key ip excl) Hs Hc) as Hf.
  unfold deciding in Hi. destruct (RateLimitMiddleware ip excl now (after_cors c) s) as [c3 s3].
  destruct Hi as (Hs3 & Hother & Hkey). destruct Hf as (Hwk & Hreq3 & _ & _ & Helse).
  assert (forall k, buckets uid s3 k = buckets uid s k) as Hu3.
  { intros k. unfold buckets. apply Helse. intros k' E. by apply (prefixes_apart k' k). }
  destruct (passes c3) eqn:Hp3.
  - assert (plain_request c3) as Hc3 by (split; [rewrite Hwk; apply Hc|by apply negb_true_iff in Hp3]).
    assert (sessions_of cs0 (cs, s3)) as Hw3 by done.
    pose proof (auth_then_limit_meters l prefix uid cs0 qu Hp Hqu now c3 (cs, s3) Hw3 Hc3) as Hm4.
    pose proof (auth_then_limit_admits l prefix uid now c3 (cs, s3) Hp Hg Hc3) as Hv.
    pose proof (auth_then_limit_elsewhere qu now c3 cs s3 Hqu Hg Hs3 Hc3) as He.
    unfold deciding in Hm4. destruct (auth_then_limit l prefix uid now c3 (cs, s3)) as [c4 [cs4 s4]].
    destruct Hm4 as (Hw4 & Hother4 & Hkey4). cbn [fst snd w_cache w_buckets] in *.
    assert (forall k, buckets ip s4 k = buckets ip s3 k) as Hi4 by (intros k; apply He; intros k'; apply prefixes_apart).
    destruct (valid_session_request cs0 c3 (after_cors c) Hreq3) as [Ev Es]. rewrite <- Ev, <- Es.
    change (negb (aborted (gin c4))) with (passes c4).
    split_and!; [done| | | | |].
    + intros k Hk. rewrite Hi4. by apply Hother.
    + intros k Hk. right. rewrite Hi4. destruct (Hkey k Hk) as [[? _]|[Hall ->]]; [done|]. auto.
    + intros k Hk. rewrite <- (Hu3 k). by apply Hother4.
    + intros k Hk. rewrite <- (Hu3 k). by apply Hkey4.
    + intros Hpass. split; [done|]. apply (valid_session_same prefix _ _ c3 Hh). by apply Hv.
  - cbn [w_cache w_buckets fst snd]. change (negb (aborted (gin c3))) with (passes c3). rewrite Hp3.
    split_and!; [done|done|done|by intros|by left|done]. 
Qed.

Lemma stack_meters_ip cs0 : meters guarded_request ip_client (fun w => buckets ip w.2) qi (burst ip) (sessions_of cs0) (fun c => aborted c = false).
Proof.
  intros now c w Hw Hc. pose proof (stack_step cs0 now c w Hw Hc) as Hs. destruct (guarded_request now c w) as [p w']. tauto.
Qed.

Lemma stack_meters_user cs0 : meters guarded_request (user_client cs0) (fun w => buckets uid w.2) qu (burst uid) (sessions_of cs0) (fun c => aborted c = false).
Proof.
  intros now c w Hw Hc. pose proof (stack_step cs0 now c w Hw Hc) as Hs. destruct (guarded_request now c w) as [p w']. tauto.
Qed.

Lemma stack_valid cs0 reqs w : sessions_of cs0 w -> Forall (fun r => aborted r.2 = false) reqs ->
  Forall2 (fun r p => p = true -> Method (Request r.2) <> "OPTIONS" /\ valid_session prefix cs0 (context_of r.2)) reqs (run_requests guarded_request reqs w).
Proof.
  intros Hw Hreqs. revert w Hw. induction Hreqs as [|[now c] reqs Hc Hreqs IH]; intros w Hw; [done|].
  cbn [run_requests]. pose proof (stack_step cs0 now c w Hw Hc) as Hs. destruct (guarded_request now c w) as [p w'].
  destruct Hs as (Hw' & _ & _ & _ & _ & Hv). constructor; [done|]. by apply IH.
Qed.

(** Whatever becomes of a request that is no preflight, its answer names the
    origin of the request, with credentials, exactly when the origin is listed. *)
Lemma stack_cors_headers t c cs s : serves s -> aborted c = false -> Method (Request c) <> "OPTIONS" ->
  let origin := h_Get (RequestHeader (Request c)) headerOrigin in
  let h' := WriterHeader (run_chain l guards c (mkWorld t cs s)).1 in
  h_Values h' headerACAO = (if IsOriginAllowed origin origins then [origin] else []) /\
  h_Values h' headerACAC = (if IsOriginAllowed origin origins then ["true"%go] else []).
Proof.
  intros Hs Ha Hm origin h'. subst h'. rewrite (stack_run qi) by done.
  destruct (eqs (Method (Request c)) "OPTIONS") eqn:E; [by apply eqs_spec in E|].
  destruct (after_cors_plain c Ha E) as [Hc Hreq].
  pose proof (secure_answer origins (cors_headers (C := C) c)) as Hsec. cbv zeta in Hsec.
  rewrite (proj2 (cors_goes_on c Ha E)) in Hsec. fold origin in Hsec.
  change (SecureCORSOverrideMiddleware origins (cors_headers (C := C) c)) with (gin (after_cors c)) in Hsec. revert Hsec.
  assert (CanonicalMIMEHeaderKey headerACAO ∉ limit_headers /\ CanonicalMIMEHeaderKey headerACAC ∉ limit_headers) as [Hn1 Hn2].
  { split; apply (bool_decide_unpack _); vm_compute; reflexivity. }
  pose proof (limited_meters_frame ip qi "ip" (ip_key excl) (RateLimitMiddleware ip excl) t (after_cors c) s Hqi (RateLimitMiddleware_key ip excl) Hs Hc) as Hf.
  pose proof (limited_meters ip qi "ip" (ip_key excl) (RateLimitMiddleware ip excl) Hqi (RateLimitMiddleware_key ip excl) t (after_cors c) s Hs Hc) as Hi.
  unfold deciding in Hi. destruct (RateLimitMiddleware ip excl t (after_cors c) s) as [c3 s3].
  destruct Hf as (Hwk & _ & _ & Hhd & _). destruct Hi as (Hs3 & _ & _). rewrite <- (Hhd _ Hn1), <- (Hhd _ Hn2).
  destruct (passes c3) eqn:Hp3; [|done].
  assert (plain_request c3) as Hc3 by (split; [rewrite Hwk; apply Hc|by apply negb_true_iff in Hp3]).
  unfold auth_then_limit. cbn [fst snd]. destruct (AuthMiddleware_frame c3 cs Hc3) as [Hwk4 Hhd4].
  destruct (AuthMiddleware l prefix c3 cs) as [c4 cs4]. cbn [fst] in Hwk4, Hhd4. rewrite <- Hhd4.
  destruct (passes c4) eqn:Hp4; [|done].
  assert (plain_request c4) as Hc4 by (split; [rewrite Hwk4; apply Hc3|by apply negb_true_iff in Hp4]).
  pose proof (limited_meters_frame uid qu "uid" uid_key (UIDRateLimitMiddleware uid) t c4 s3 Hqu (UIDRateLimitMiddleware_key uid) Hs3 Hc4) as Hf.
  destruct (UIDRateLimitMiddleware uid t c4 s3) as [c5 s5]. destruct Hf as (_ & _ & _ & Hhd5 & _).
  by rewrite <- (Hhd5 _ Hn1), <- (Hhd5 _ Hn2).
Qed.

(** A preflight is answered by the first guard, whatever the allow list says. *)
Lemma preflight_run t c w : aborted c = false -> Method (Request c) = "OPTIONS" ->
  exists c', run_chain l guards c (mkWorld t w.1 w.2) = (c', mkWorld t w.1 w.2) /\ calls c' = calls c ++ [CAbortWithStatus 204] /\
    h_Values (WriterHeader c') headerACAO = ["*"%go] /\ h_Values (WriterHeader c') headerACAC = ["true"%go].
Proof.
  intros Ha Hm. exists (cors_headers (C := C) c). unfold guards. rewrite run_chain_cons, cors_in_turn, Hm by done. split; [done|].
  unfold cors_headers, CORSMiddleware. cbn -[h_Set h_Values eqs]. rewrite Hm, eqs_refl. cbn -[h_Set h_Values].
  split; [done|]. split; by header_cases.
Qed.

(** A route behind the stack, registered with the calls of the package. *)
Context {E : Type} `{EngineLaws C (world C S) E}.

Definition protect (p : gostring) (h : HandlerFunc C (world C S)) (e : E) : E :=
  let e := Use [by_ip] (UseGin [secure] e) in
  let '(e, g) := Routes.Group l "/v1" [authenticate; by_user] e in
  Group_POST g p [h] e.

Lemma protect_route recovery cfg e0 p h : fresh_engine e0 ->
  exists pattern, route (protect p h (s_r (Server_New recovery cfg e0))) "POST" pattern = Some (recovery :: guards ++ [WKHttpHandler h]).
Proof.
  intros (Hh & Hk & Hroute). unfold protect, Server_New, New_engine, UseGin, Use. cbn [s_r].
  set (e1 := eng_Use root _ (eng_Use root _ (eng_Use root _ (eng_Use root _ e0)))).
  assert (group_handlers e1 root = [recovery; WKHttpHandler cors; secure; WKHttpHandler by_ip]) as Hhs.
  { subst e1. do 4 rewrite Use_self by apply known_root. by rewrite Hh. }
  assert (forall m pat, route e1 m pat = None) as Hnone by (intros m pat; subst e1; by rewrite !Use_route).
  unfold Routes.Group. pose proof (Group_spec root "/v1" (handlersToGinHandleFuncs [authenticate; by_user]) e1 (known_root e1)) as Hg.
  destruct (eng_Group root "/v1" (handlersToGinHandleFuncs [authenticate; by_user]) e1) as [e2 g].
  destruct Hg as (_ & Hgh & _ & Hkn & _ & Hrt). exists (join_paths (group_path e2 g) p).
  unfold Group_POST, newRouterGroup. cbn [rg_group].
  rewrite Handle_self; [by rewrite Hgh, Hhs|apply Hkn; by right|by rewrite Hrt, Hnone].
Qed.

Lemma guards_in_turn : Forall (fun h => exists f, h l = in_turn f) guards.
Proof. repeat (constructor; [by eexists|]). constructor. Qed.
End Stack.

(** C1 A route of a server behind the allow list of origins, the limiter by
    address, authentication and the limiter by user, each registered with the
    calls of the package: a request reaches the route's handler exactly when no
    guard has stopped it, and then it is no preflight and has a session in the
    cache; of the requests of one address to paths that are limited, and of those
    of one user under whatever tokens, at most the burst plus rate times the
    elapsed seconds reach the handler, whatever other requests come between them;
    every answer but a preflight's names the request's origin, with credentials,
    exactly when the origin is on the list; and a preflight is answered 204 by
    the first guard, for any origin and with credentials, before the allow list
    is looked at, and changes neither the sessions nor the buckets. *)
Theorem pipeline_requests {C} `{CacheLaws C} {S} `{BucketStore S} `{Unicode} {E} `{EngineLaws C (world C S) E} FormatFloat
  (l : WKHttp C) origins excl prefix ip uid qi qu bi bu recovery cfg (e0 : E) p h cs s (reqs : list (Q * gin_ctx))
  (Hr : errorRenderer l = None) (Hp : getTokenParser l = None)
  (Hip : RateLimit_limiter FormatFloat (Fin qi) bi = Ok ip) (Huid : UIDRateLimit_limiter FormatFloat (Fin qu) bu = Ok uid)
  (Hrec : transparent recovery) (Hfresh : fresh_engine e0)
  (Hg : good cs) (Hs : serves s) (Hreqs : Forall (fun r => aborted r.2 = false) reqs) :
  let gate := guarded_request l origins ip uid excl prefix in
  let passed key client := passed_of gate key client reqs (cs, s) in
  let stack := guards origins ip uid excl prefix in
  (exists pattern, forall c w, aborted c = false ->
    serve (protect l origins ip uid excl prefix p h (s_r (Server_New recovery cfg e0))) l "POST" pattern c w =
    Some (let '(c', w') := run_chain l stack c w in if aborted c' then (c', w') else WKHttpHandler h l (fun c w => (c, w)) c' w')) /\
  Forall2 (fun r pass => pass = true -> Method (Request r.2) <> "OPTIONS" /\ valid_session prefix cs (context_of l r.2)) reqs (run_requests gate reqs (cs, s)) /\
  (forall client t0 t1, wf_bucket (bucket_of s ("ratelimit:ip:" ++ client)) -> times_between t0 (times_of (ip_client l excl) client reqs) t1 ->
    (inject_Z (passed (ip_client l excl) client) <= inject_Z bi + qi * (t1 - t0))%Q) /\
  (forall user t0 t1, wf_bucket (bucket_of s ("ratelimit:uid:" ++ user)) -> times_between t0 (times_of (user_client l prefix cs) user reqs) t1 ->
    (inject_Z (passed (user_client l prefix cs) user) <= inject_Z bu + qu * (t1 - t0))%Q) /\
  (forall t c, aborted c = false -> Method (Request c) <> "OPTIONS" ->
    let origin := h_Get (RequestHeader (Request c)) headerOrigin in
    let h' := WriterHeader (run_chain l stack c (mkWorld t cs s)).1 in
    h_Values h' headerACAO = (if IsOriginAllowed origin origins then [origin] else []) /\
    h_Values h' headerACAC = (if IsOriginAllowed origin origins then ["true"%go] else [])) /\
  (forall t c w, aborted c = false -> Method (Request c) = "OPTIONS" ->
    exists c', run_chain l stack c (mkWorld t w.1 w.2) = (c', mkWorld t w.1 w.2) /\ calls c' = calls c ++ [CAbortWithStatus 204] /\
      h_Values (WriterHeader c') headerACAO = ["*"%go] /\ h_Values (WriterHeader c') headerACAC = ["true"%go]).
Proof.
  apply newKeyedLimiter_Ok in Hip as (-> & Hqi & Hbi). apply newKeyedLimiter_Ok in Huid as (-> & Hqu & Hbu).
  set (ip := mkLimiter "ratelimit:ip:" (Fin qi) bi 0). set (uid := mkLimiter "ratelimit:uid:" (Fin qu) bu 0).
  intros gate passed stack. assert (sessions_of cs (cs, s)) as Hw by done. split_and!.
  - destruct (protect_route l origins ip uid excl prefix recovery cfg e0 p h Hfresh) as [pattern Hroute].
    exists pattern. intros c w Hc. unfold serve. rewrite Hroute, run_chain_cons, Hrec. f_equal.
    rewrite (in_turn_chain l stack [WKHttpHandler h]) by (done || apply guards_in_turn). done.
  - by apply (stack_valid l origins ip uid excl prefix Hr Hp qi qu).
  - intros client t0 t1 Hb Ht. apply (metered_bound gate (ip_client l excl) (fun w => buckets ip w.2) qi bi (sessions_of cs) (fun c => aborted c = false)); try done; [|lia].
    by apply (stack_meters_ip l origins ip uid excl prefix Hr Hp qi qu).
  - intros user t0 t1 Hb Ht. apply (metered_bound gate (user_client l prefix cs) (fun w => buckets uid w.2) qu bu (sessions_of cs) (fun c => aborted c = false)); try done; [|lia].
    by apply (stack_meters_user l origins ip uid excl prefix Hr Hp qi qu).
  - intros t c Hc Hm. by apply (stack_cors_headers l origins ip uid excl prefix Hr qi qu).
  - intros t c w Hc Hm. by apply preflight_run.
Qed.

(** ** Two users and a stranger *)

Definition pipeline_request (token : gostring) : Context MemoryCache := demo_ctx token.

Definition pipeline_sessions : MemoryCache :=
  mkMemoryCache (<["token:t1"%go := "u1@bob"%go]> (<["token:t2"%go := "u1@bob@admin"%go]> {["token:t3"%go := "u2@ann"%go]})).

Definition pipeline_limiter : keyedLimiter := mkLimiter "ratelimit:uid:" (Fin (1 # 2)) 2 0.

(** User [u1] comes with two tokens. *)
Definition demo_user_requests : list (Q * Context MemoryCache) :=
  [(0, pipeline_request "t1"); (0, pipeline_request "t2"); (0, pipeline_request "t3"); (0, pipeline_request "x");
   (1, pipeline_request "t1"); (2, pipeline_request "t2")]%Q.

Lemma authenticated_user_bound_witness :
  run_requests (S := MemoryCache * demo_buckets) (deciding (auth_then_limit Http.New "token:" pipeline_limiter)) demo_user_requests (pipeline_sessions, ∅) =
    [true; true; true; false; false; true] /\
  (inject_Z (passed_of (S := MemoryCache * demo_buckets) (deciding (auth_then_limit Http.New "token:" pipeline_limiter))
     (session_user "token:" pipeline_sessions) "u1" demo_user_requests (pipeline_sessions, ∅)) <= inject_Z 2 + (1 # 2) * (2 - 0))%Q.
Proof.
  split; [by vm_compute|].
  apply (@authenticated_user_bound MemoryCache _ MemoryCache_laws demo_buckets demo_runner demo_bucket_store (fun _ => []) Http.New "token:"
    pipeline_limiter (1 # 2) 2 "u1" demo_user_requests pipeline_sessions ∅ 0 2); try done.
  - unfold demo_user_requests. repeat (constructor; [split; [by intros l' [= <-]|done]|]). constructor.
  - replace (times_of _ _ _) with [0; 0; 1; 2]%Q by by vm_compute. repeat (constructor; [done|]). by constructor.
Defined.

(** ** The stack on a server *)

Definition stack_request (method token xff origin : gostring) : gin_ctx :=
  mkGin (mkRequest method "/v1/message" (h_Set headerOrigin origin (h_Set "X-Forwarded-For" xff (h_Set "token" token ∅))) [] ∅ (mkContext None)) ∅ ∅ [].

Definition ip_limiter : keyedLimiter := mkLimiter "ratelimit:ip:" (Fin 1) 3 0.

(** [u1] from two addresses, a preflight, a stranger, a second user. *)
Definition stack_requests : list (Q * gin_ctx) :=
  [(0, stack_request "POST" "t1" "203.0.113.7" "https://a.example.com"); (0, stack_request "OPTIONS" "t1" "203.0.113.7" "https://a.example.com");
   (0, stack_request "POST" "x" "203.0.113.7" "https://evil.org"); (0, stack_request "POST" "t2" "198.51.100.1" "https://a.example.com");
   (1, stack_request "POST" "t1" "198.51.100.1" "https://evil.org"); (1, stack_request "POST" "t3" "203.0.113.7" "https://evil.org")]%Q.

Definition stack_engine : Type := table_engine MemoryCache (world MemoryCache demo_buckets).
Definition ok_handler : HandlerFunc MemoryCache (world MemoryCache demo_buckets) := fun _ c w => (ResponseOK c, w).

Lemma pipeline_requests_witness :
  let gate := guarded_request (C := MemoryCache) (S := demo_buckets) Http.New ["https://*.example.com"%go] ip_limiter pipeline_limiter [] "token:" in
  run_requests gate stack_requests (pipeline_sessions, ∅) = [true; false; false; true; false; true] /\
  (inject_Z (passed_of gate (user_client Http.New "token:" pipeline_sessions) "u1" stack_requests (pipeline_sessions, ∅)) <= inject_Z 2 + (1 # 2) * (1 - 0))%Q.
Proof.
  intros gate.
  split; [by vm_compute|].
  assert (fresh_engine (empty_engine : stack_engine)) as Hfresh by (by split_and!; [|intros [|n]; cbn; [|lia]|]).
  assert (Forall (fun r : Q * gin_ctx => aborted r.2 = false) stack_requests) as Hreqs.
  { unfold stack_requests. repeat (constructor; [done|]). constructor. }
  destruct (@pipeline_requests MemoryCache _ MemoryCache_laws demo_buckets demo_runner demo_bucket_store _ stack_engine _ _ (fun _ => []) Http.New
    ["https://*.example.com"%go] [] "token:" ip_limiter pipeline_limiter 1 (1 # 2) 3 2 (fun _ next => next) ssl_config empty_engine "/message" ok_handler
    pipeline_sessions ∅ stack_requests eq_refl eq_refl eq_refl eq_refl (fun _ _ _ _ => eq_refl) Hfresh I I Hreqs) as (_ & _ & _ & Hu & _).
  apply (Hu "u1"%go 0%Q 1%Q); [done|].
  replace (times_of _ _ _) with [0; 0; 1]%Q by (vm_compute; reflexivity). repeat (constructor; [done|]). by constructor.
Defined.
