(* ===== verification/Conformance.v ===== *)
(** * Conformance: the repository's own tests, evaluated on the model

    The tables of the Go tests under [src/], entered as they are and run on the
    definitions of this development by computation. Each example names the test
    it comes from. *)
From S2P Require Import Prelude GoStr GoUrl Json Util Visibility RichText ImApi GroupMsg Redis Config Cache Msg Http Cors TokenBucket ClientIp RateLimit.
From Stdlib Require Import QArith.

#[global] Open Scope Z_scope.
#[global] Open Scope go_scope.

(** A table holds: every row evaluates to what it wants. *)
Definition table_holds {A B} `{EqDecision B} (f : A -> B) (rows : list (A * B)) : bool :=
  forallb (fun r => bool_decide (f r.1 = r.2)) rows.

#[local] Instance go_eq_dec {X A} `{EqDecision X, EqDecision A} : EqDecision (go X A).
Proof. solve_decision. Defined.
#[local] Instance richtext_err_eq_dec : EqDecision richtext_err.
Proof. solve_decision. Defined.

(** ** [pkg/util] *)

(** [common_test.go]. *)
Example test_Substr :
  table_holds (fun '(str, start, len) => Substr str start len)
    [("hello"%go, 0, 2, Ok "he"%go); ("hello"%go, 1, 3, Ok "ell"%go); ("hello"%go, 0, 0, Ok []);
     ("hello"%go, -2, 2, Ok "lo"%go); ("hello"%go, 0, 10, Ok "hello"%go)] = true.
Proof. by vm_compute. Qed.

Example test_MustNoErr : MustNoErr None = Ok tt /\ exists msg, MustNoErr (Some "test error"%go) = Panicked msg.
Proof. split; [done|]. by eexists. Qed.

(** [sign_test.go]; the first list is the order in which the map is ranged over. *)
Example test_GetSignStr :
  table_holds (fun '(keys, params) => GetSignStr keys params)
    [(["c"; "a"; "b"]%go, {["c"%go := GStr "3"%go; "a"%go := GStr "1"%go; "b"%go := GStr "2"%go]}, "a=1&b=2&c=3"%go);
     (["key"%go], {["key"%go := GStr "value"%go]}, "key=value"%go);
     ([], ∅, []);
     (["name"; "count"]%go, {["count"%go := GInt 10; "name"%go := GStr "test"%go]}, "count=10&name=test"%go);
     (["b"; "c"; "a"]%go, {["a"%go := GStr "1"%go; "b"%go := GStr []; "c"%go := GStr "3"%go]}, "a=1&c=3"%go)] = true.
Proof. by vm_compute. Qed.

(** [ip_test.go]. *)
Example test_IsIntranet :
  table_holds IsIntranet
    [("10.0.0.1"%go, true); ("10.255.255.255"%go, true); ("192.168.1.1"%go, true); ("192.168.0.100"%go, true);
     ("172.16.0.1"%go, true); ("172.31.255.255"%go, true); ("172.15.0.1"%go, false); ("172.32.0.1"%go, false);
     ("8.8.8.8"%go, false); ("1.1.1.1"%go, false)] = true.
Proof. by vm_compute. Qed.

(** [qreflect_test.go]. *)
Example test_AttrToUnderscore :
  AttrToUnderscore [("MessageID"%go, false); ("Name"%go, false); ("UserAge"%go, false)] = ["message_id"; "name"; "user_age"]%go.
Proof. by vm_compute. Qed.

(** [validate_url_test.go]. *)
Example test_isPrivateIP :
  table_holds (fun s => option_map isPrivateIP (ParseIP s))
    (map (fun r => (r.1, Some r.2))
      [("10.0.0.1"%go, true); ("10.128.0.1"%go, true); ("10.255.255.254"%go, true); ("172.16.0.1"%go, true);
       ("172.31.255.254"%go, true); ("192.168.0.1"%go, true); ("192.168.255.254"%go, true); ("127.0.0.1"%go, true);
       ("127.0.0.2"%go, true); ("169.254.1.1"%go, true); ("8.8.8.8"%go, false); ("1.1.1.1"%go, false);
       ("203.0.113.1"%go, false); ("172.15.0.1"%go, false); ("172.32.0.1"%go, false); ("::1"%go, true); ("fc00::1"%go, true);
       ("fd00::1"%go, true); ("fe80::1"%go, true); ("2001:4860:4860::8888"%go, false)]) = true /\
  length privateNetworks = 8%nat.
Proof. by vm_compute. Qed.

Example test_ValidateExternalURL :
  let dns h := if eqs h "example.com" then Some [map byte_of [93; 184; 216; 34]] else None in
  table_holds (fun url => bool_decide (ValidateExternalURL dns url <> None))
    [("https://example.com"%go, false); ("http://example.com"%go, false); ("https://example.com/path"%go, false);
     ("https://example.com:8080/path"%go, false); ("file:///etc/passwd"%go, true); ("ftp://ftp.example.com"%go, true);
     ("javascript:alert(1)"%go, true); ([], true); ("://invalid"%go, true); ("https:///path"%go, true);
     ("http://10.0.0.1"%go, true); ("http://192.168.1.1"%go, true); ("http://172.16.0.1"%go, true);
     ("http://127.0.0.1"%go, true); ("http://[::1]"%go, true); ("http://8.8.8.8"%go, false)] = true.
Proof. by vm_compute. Qed.

(** ** [common/richtext_test.go] *)

Definition decoded (raw : gostring) : option RichTextPayload :=
  match Unmarshal raw with Some v => UnmarshalJSON v | None => None end.

Definition text (s : gostring) : RichTextBlock := mkBlock RichTextBlockText s [] 0 0 0 [].
Definition image (url : gostring) (w h : Z) : RichTextBlock := mkBlock RichTextBlockImage [] url w h 0 [].

Example test_RichText_NewBlocks :
  option_map blocks (decoded (jq "{'content':[{'type':'text','text':'看图'},{'type':'image','url':'https://x/a.png','width':100,'height':80},{'type':'text','text':'结束'}]}")) =
  Some [text "看图"; image "https://x/a.png" 100 80; text "结束"].
Proof. by vm_compute. Qed.

Example test_RichText_LegacyString :
  decoded (jq "{'content':'hello world'}") = Some (mkPayload (Some [text "hello world"]) "hello world") /\
  table_holds (fun raw => option_map (fun p => length (blocks p)) (decoded raw))
    [("{}"%go, Some 0%nat); (jq "{'content':null}", Some 0%nat); (jq "{'content':[]}", Some 0%nat)] = true.
Proof. by vm_compute. Qed.

Example test_BuildRichTextPlain :
  BuildRichTextPlain [text "前"; mkBlock RichTextBlockImage [] "https://x/a.png" 0 0 0 []; text "后"] = "前[图片]后" /\
  FillPlain (mkPayload (Some [text "a"; image "https://x/i.png" 0 0]) "client-forged") =
    ("a[图片]"%go, mkPayload (Some [text "a"; image "https://x/i.png" 0 0]) "a[图片]").
Proof. by vm_compute. Qed.

Example test_ValidateRichTextBlocks :
  table_holds ValidateRichTextBlocks
    ([([image [] 1 1], Some ErrRichTextImageNoURL);
      ([image "data:image/png;base64,AAAA" 1 1], Some ErrRichTextImageBadScheme);
      ([mkBlock "video" "x" [] 0 0 0 []], Some ErrRichTextUnknownBlock);
      ([text "ok"; image "https://x/a.png" 1 1], None);
      ([text []], Some ErrRichTextTextEmpty);
      ([text ("   "%go ++ map byte_of [9; 10])], Some ErrRichTextTextEmpty);
      ([text "hi"], None);
      ([image "https://x/a.png" 0 0], Some ErrRichTextImageNoSize);
      ([image "https://x/a.png" 0 10], Some ErrRichTextImageNoSize);
      ([image "https://x/a.png" 10 0], Some ErrRichTextImageNoSize);
      ([image "https://x/a.png" (-1) 10], Some ErrRichTextImageNoSize);
      ([image "https://x/a.png" 10 (-5)], Some ErrRichTextImageNoSize)] ++
     map (fun u => ([image u 1 1], Some ErrRichTextImageBadScheme))
       ["data:image/png;base64,AAAA"; "DATA:image/png;base64,AAAA"; "  data:text/plain,hello  "; "javascript:alert(1)"; "vbscript:msgbox(1)";
        "file:///etc/passwd"; "ftp://x/a.png"; "/relative/a.png"; "x/a.png"; "http://"; "https://"]%go ++
     map (fun u => ([image u 1 1], None)) ["http://x/a.png"; "https://x/a.png"; "HTTPS://X/A.PNG"]%go) = true.
Proof. by vm_compute. Qed.

(** The error of a payload, if it is refused. *)
Definition refused_with (raw : gostring) : option richtext_err :=
  match ValidateRichTextPayload raw with Err e => Some e | _ => None end.

Example test_ValidateRichTextPayload :
  table_holds refused_with
    [("{}"%go, Some ErrRichTextEmptyContent); (jq "{'content':null}", Some ErrRichTextEmptyContent);
     (jq "{'content':[]}", Some ErrRichTextEmptyContent); (jq "{'plain':'x'}", Some ErrRichTextEmptyContent);
     (jq "{'content':[{'type':'image','width':1,'height':1}]}", Some ErrRichTextImageNoURL);
     (jq "{'content':[{'type':'image','url':'https://x/a.png'}]}", Some ErrRichTextImageNoSize);
     (jq "{'content':[{'type':'image','url':'data:x','width':1,'height':1}]}", Some ErrRichTextImageBadScheme);
     (jq "{'content':[{'type':'text','text':''}]}", Some ErrRichTextTextEmpty);
     (jq "{'content':[{'type':'video','text':'x'}]}", Some ErrRichTextUnknownBlock);
     (jq "{'content':", Some ErrJSON); (jq "{'content':'legacy'}", None)] = true.
Proof. by vm_compute. Qed.

Example test_FillPlainBounded :
  FillPlainBounded (mkPayload (Some [text "看图"; image "https://x/a.png" 10 10]) []) =
  ("看图[图片]"%go, mkPayload (Some [text "看图"; image "https://x/a.png" 10 10]) "看图[图片]", None).
Proof. by vm_compute. Qed.

Example test_RichText_RoundTrip :
  let orig := mkPayload (Some [text "看图"; mkBlock RichTextBlockImage [] "https://x/a.png" 100 80 1024 "a.png"; text "结束"]) "看图[图片]结束" in
  decoded (marshal (RichTextPayload_json orig)) = Some orig.
Proof. by vm_compute. Qed.

Example test_GetRichTextDisplayText :
  let static := GetDisplayText (ContentType_Int RichText) in
  table_holds GetRichTextDisplayText
    [(jq "{'content':[{'type':'text','text':'x'}],'plain':'已生成'}", "已生成"%go);
     (jq "{'content':[{'type':'text','text':'hi'},{'type':'image','url':'u'}]}", "hi[图片]"%go);
     ([], static); ("not-json"%go, static); (jq "{'content':[]}", static)] = true.
Proof. by vm_compute. Qed.

(** ** [contract/searchmsg] *)

(** [visibility_test.go], besides the shared vectors of Visibility. *)
Example test_ExtractVisibility :
  (exists e, ExtractVisibility (jq "{'content':'x','visibles':[]}") = Err e) /\
  ExtractVisibility (jq "{'type':1,'content':'normal chat'}") = Ok ([], None).
Proof. split; [eexists|]; by vm_compute. Qed.

(** [searchmsg_test.go]: names on the wire and members left out. *)
Definition bare_message : Visibility.Message := Visibility.mkMessage SchemaVersion "1" [] 0 [] [] [] None 0 None false 0 0 0 [].

Definition wire_keys (m : Visibility.Message) : list gostring := match Message_json m with JObj kvs => map fst kvs | _ => [] end.

Example test_Message_keys :
  forallb (fun k => bool_decide (k ∉ wire_keys bare_message)) ["space_id"; "visibles"; "message_seq"; "raw_payload"]%go = true /\
  (let m := Visibility.mkMessage SchemaVersion "1" [] 0 [] "space_1" ["u_admin1"%go] None 0 (Some (JObj [("type"%go, JInt 2)])) true 0 0 7 [] in
   forallb (fun k => bool_decide (k ∈ wire_keys m)) ["space_id"; "visibles"; "message_seq"; "raw_payload"]%go = true /\
   forallb (fun k => bool_decide (k ∉ wire_keys m)) ["spaceId"; "messageSeq"]%go = true /\
   match Message_json m with JObj kvs => list_to_map (M := gmap gostring json) kvs !! ("content"%go) = Some JNull /\
     list_to_map (M := gmap gostring json) kvs !! ("raw_excluded"%go) = Some (JBool true) | _ => False end).
Proof. by vm_compute. Qed.

(** ** [config/msg_personal_test.go] *)

Definition no_options : PersonalMsgOptions := mkPersonalMsgOptions (mkHeader 0 0 0) 0 [] None.

(** The payload of the request, read back. *)
Definition personal_payload (payload : option (gmap gostring json)) (space : gostring) (opts : PersonalMsgOptions) : option (gmap gostring json) :=
  match ms_Payload (NewPersonalMsgSendReq "peer_uid" "sender_uid" payload space opts).1 with
  | Some text => match Unmarshal text with Some (JObj kvs) => Some (list_to_map kvs) | _ => None end
  | None => None
  end.

Example test_NewPersonalMsgSendReq_space :
  let hi := {["content"%go := JStr "hi"]} : gmap gostring json in
  let forged := <["space_id"%go := JStr "client_forged_space"]> hi in
  table_holds (fun '(payload, space) => option_map (fun m : gmap gostring json => option_map marshal (m !! "space_id"%go)) (personal_payload payload space no_options))
    [((Some forged, "server_authoritative_space"%go), Some (Some (marshal (JStr "server_authoritative_space"))));
     ((Some hi, "server_authoritative_space"%go), Some (Some (marshal (JStr "server_authoritative_space"))));
     ((Some forged, []), Some None); ((Some hi, []), Some None);
     ((None, "spaceA"%go), Some (Some (marshal (JStr "spaceA"))))] = true /\
  personal_payload (Some forged) [] no_options ≫= lookup ("content"%go) = Some (JStr "hi").
Proof. by vm_compute. Qed.

Example test_NewPersonalMsgSendReq_fields :
  let opts := mkPersonalMsgOptions (mkHeader 1 1 1) 16 "stream-1" (Some ["a"; "b"]%go) in
  let req := (NewPersonalMsgSendReq "peer_uid" "sender_uid" (Some {["content"%go := JStr "hi"]}) "spaceA" opts).1 in
  ms_Header req = mkHeader 1 1 1 /\ ms_Setting req = 16 /\ ms_StreamNo req = "stream-1" /\ ms_Subscribers req = Some ["a"; "b"]%go /\
  ms_ChannelID req = "peer_uid" /\ ms_FromUID req = "sender_uid" /\ ms_ChannelType req = ChannelType_Uint8 ChannelTypePerson /\
  ms_ChannelType (NewPersonalMsgSendReq "peer_uid" "sender_uid" None [] no_options).1 = ChannelType_Uint8 ChannelTypePerson.
Proof. by vm_compute. Qed.

(** ** [config/avatar_path_test.go], with 100 partitions *)

Example test_avatar_paths :
  table_holds (GetGroupAvatarFilePath default_config "G123")
    [([], Ok "group/60/G123.png"%go); ([0], Ok "group/60/G123.png"%go); ([-1], Ok "group/60/G123.png"%go);
     ([7], Ok "group/60/G123/7.png"%go); ([1717171717], Ok "group/60/G123/1717171717.png"%go); ([7; 99; 100], Ok "group/60/G123/7.png"%go)] = true /\
  table_holds (GetCommunityAvatarFilePath default_config "C456")
    [([], Ok "community/84/C456.png"%go); ([0], Ok "community/84/C456.png"%go); ([-5], Ok "community/84/C456.png"%go);
     ([42], Ok "community/84/C456/42.png"%go)] = true /\
  table_holds (GetCommunityCoverFilePath default_config "C789")
    [([], Ok "community/89/C789_cover.png"%go); ([0], Ok "community/89/C789_cover.png"%go); ([-1], Ok "community/89/C789_cover.png"%go);
     ([9], Ok "community/89/C789/cover/9.png"%go)] = true.
Proof. by vm_compute. Qed.

(** ** [config/config_s3_test.go] *)

(** A file that sets some keys to strings. *)
Definition viper_of (kvs : gmap gostring gostring) : Viper := {|
  vp_GetString k := default [] (kvs !! k); vp_GetStringSlice _ := []; vp_value := gostring; vp_Get k := kvs !! k;
  cast_ToBool v := eqs v "true"; vp_GetBool k := eqs (default [] (kvs !! k)) "true"; vp_GetInt _ := 0; vp_GetInt64 _ := 0; vp_GetDuration _ := 0 |}.

Definition s3_of (file env : gmap gostring gostring) : S3Config :=
  cfg_S3 (@configure (viper_of file) (fun k => default [] (env !! k)) "192.168.1.7" (Config.New (fun _ => []))).

Example test_S3_file :
  s3_of ∅ ∅ = zero_S3Config /\
  s3_of (list_to_map [("s3.endpoint"%go, "s3.us-west-2.amazonaws.com"%go); ("s3.region"%go, "us-west-2"%go); ("s3.bucket"%go, "my-bucket"%go);
    ("s3.accessKeyID"%go, "AKIAEXAMPLE"%go); ("s3.secretAccessKey"%go, "secret"%go); ("s3.sessionToken"%go, "FwoGZXIvYXdzEXAMPLE"%go);
    ("s3.downloadURL"%go, "https://d123.cloudfront.net"%go); ("s3.prefix"%go, "prod/"%go); ("s3.usePathStyle"%go, "true"%go)]) ∅ =
    mkS3Config "s3.us-west-2.amazonaws.com" "us-west-2" "my-bucket" "AKIAEXAMPLE" "secret" "FwoGZXIvYXdzEXAMPLE"
      "https://d123.cloudfront.net" "prod/" true /\
  S3Config_DownloadURL (s3_of {["s3.bucketURL"%go := "https://legacy.example.com"%go]} ∅) = [].
Proof. by vm_compute. Qed.

Definition s3_credentials (env : list (gostring * gostring)) : list gostring :=
  let s := s3_of (list_to_map [("s3.accessKeyID"%go, "from-yaml-id"%go); ("s3.secretAccessKey"%go, "from-yaml-secret"%go);
    ("s3.sessionToken"%go, "from-yaml-token"%go)]) (list_to_map env) in
  [S3Config_AccessKeyID s; S3Config_SecretAccessKey s; S3Config_SessionToken s].

Example test_S3_credentials :
  let ts := [("TS_S3_ACCESS_KEY_ID"%go, "ts-id"%go); ("TS_S3_SECRET_ACCESS_KEY"%go, "ts-secret"%go); ("TS_S3_SESSION_TOKEN"%go, "ts-token"%go)] in
  let aws := [("AWS_ACCESS_KEY_ID"%go, "aws-id"%go); ("AWS_SECRET_ACCESS_KEY"%go, "aws-secret"%go); ("AWS_SESSION_TOKEN"%go, "aws-token"%go)] in
  table_holds s3_credentials
    [([], ["from-yaml-id"; "from-yaml-secret"; "from-yaml-token"]%go); (ts, ["ts-id"; "ts-secret"; "ts-token"]%go);
     (aws, ["aws-id"; "aws-secret"; "aws-token"]%go); (ts ++ aws, ["ts-id"; "ts-secret"; "ts-token"]%go)] = true.
Proof. by vm_compute. Qed.

(** ** [pkg/wkhttp/secure_cors_test.go], [cors_test.go] *)

Example test_ParseAllowedOrigins :
  table_holds ParseAllowedOrigins
    [([], []); ("https://a.com"%go, ["https://a.com"%go]); ("https://a.com,https://b.com"%go, ["https://a.com"; "https://b.com"]%go);
     ("  https://a.com  ,  https://b.com  "%go, ["https://a.com"; "https://b.com"]%go);
     ("https://a.com,,https://b.com,"%go, ["https://a.com"; "https://b.com"]%go); ("*"%go, [])] = true.
Proof. by vm_compute. Qed.

Example test_IsOriginAllowed :
  table_holds (fun '(origin, allowed) => IsOriginAllowed origin allowed)
    [(([], ["https://a.com"%go]), false); (("https://a.com"%go, ["https://a.com"%go]), true); (("HTTPS://A.com"%go, ["https://a.com"%go]), true);
     (("https://b.com"%go, ["https://a.com"%go]), false); (("https://api.a.com"%go, ["*.a.com"%go]), true);
     (("https://a.com"%go, ["*.a.com"%go]), false); (("https://api.a.com"%go, ["https://*.a.com"%go]), true);
     (("http://api.a.com"%go, ["https://*.a.com"%go]), false)] = true.
Proof. by vm_compute. Qed.

(** A request with headers and a peer, before any handler. *)
Definition request_of (method : gostring) (headers : list (gostring * gostring)) (remote : gostring) : gin_ctx :=
  mkGin (mkRequest method "/" (fold_left (fun h kv => h_Add kv.1 kv.2 h) headers ∅) remote ∅ (mkContext None)) ∅ ∅ [].

Example test_SecureCORSOverrideMiddleware :
  let answer origin := WriterHeader (SecureCORSOverrideMiddleware ["https://a.com"%go] (request_of "GET" [("Origin"%go, origin)] [])) in
  h_Get (answer "https://a.com") "Access-Control-Allow-Origin" = "https://a.com" /\
  h_Get (answer "https://a.com") "Access-Control-Allow-Credentials" = "true" /\
  h_Values (answer "https://a.com") "Vary" = ["Origin"%go] /\ h_Values (answer "https://evil.com") "Vary" = ["Origin"%go].
Proof. by vm_compute. Qed.

Example test_CORSMiddleware :
  let run method := gin (CORSMiddleware (S := MemoryCache) (mkCtx (request_of method [] []) None)) in
  h_Get (WriterHeader (run "GET")) "Access-Control-Expose-Headers" = "Content-Language, Vary" /\
  forallb (fun h => bool_decide (h ∈ map TrimSpace (Split (h_Get (WriterHeader (run "GET")) "Access-Control-Allow-Headers") ","%char)))
    ["X-Octo-Error-Envelope"; "X-Octo-Lang"; "Accept-Language"]%go = true /\
  calls (run "OPTIONS") = [CAbortWithStatus 204].
Proof. by vm_compute. Qed.

(** ** [pkg/wkhttp/ratelimit_test.go], [ratelimit_helper_test.go] *)

(** The long prefix of commas is shorter here than in the test. *)
Example test_ClientIP :
  let xff := "X-Forwarded-For"%go in let real := "X-Real-Ip"%go in let proxy := "10.0.0.5:443"%go in
  table_holds (fun '(headers, remote) => ClientIP (Request (request_of "GET" headers remote)))
    [(([(xff, "203.0.113.10, 198.51.100.24"%go); (real, "192.0.2.10"%go)], proxy), "198.51.100.24"%go);
     (([(xff, "203.0.113.10,  198.51.100.24 "%go)], proxy), "198.51.100.24"%go);
     (([(xff, "203.0.113.10"%go); (xff, "198.51.100.24"%go)], proxy), "198.51.100.24"%go);
     (([(xff, replicate (Z.to_nat 4096) ","%char ++ "198.51.100.24")], proxy), "198.51.100.24"%go);
     (([(real, "203.0.113.10"%go); (real, "198.51.100.24"%go)], proxy), []);
     (([(real, "  "%go)], "198.51.100.24:8080"%go), "198.51.100.24"%go);
     (([(xff, "203.0.113.10, not-an-ip"%go); (real, "192.0.2.10"%go)], proxy), []);
     (([(real, unknownIPKey)], proxy), []);
     (([(real, replicate (Z.to_nat 4096) "a"%char)], proxy), []);
     (([(xff, "2001:0DB8:0000:0000:0000:0000:0000:0001"%go)], proxy), "2001:db8::1"%go);
     (([(xff, "::ffff:192.0.2.10"%go)], proxy), "192.0.2.10"%go);
     (([(xff, "fe80::1%eth0"%go)], proxy), []);
     (([], "198.51.100.24:8080"%go), "198.51.100.24"%go);
     (([(xff, "203.0.113.10,  "%go)], "198.51.100.24:8080"%go), []);
     (([], "[2001:db8::24]:8080"%go), "2001:db8::24"%go);
     (([], "not-an-address"%go), []); (([], "not-an-ip:443"%go), [])] = true.
Proof. by vm_compute. Qed.

Example test_newKeyedLimiter :
  forallb (fun '(q, b) => match newKeyedLimiter (fun _ => []) "ratelimit:test:" (Fin q) b with Panicked _ => true | _ => false end)
    [(0%Q, 10); ((-3 # 2)%Q, 10); (1%Q, 0); (1%Q, -3)] = true.
Proof. by vm_compute. Qed.

Example test_rateLimitErrorSpec :
  let spec := rateLimitErrorSpec 7 in
  Code spec = "err.shared.rate.limited" /\ TransportStatus spec = 429 /\ Details spec !! "retry_after"%go = Some (JInt 7) /\ DefaultMessage spec <> [].
Proof. by vm_compute. Qed.

(** The texts the test parses. *)
Definition parse_float_demo (s : gostring) : float * bool :=
  if eqs s "3.0" then (Fin 3, false) else if eqs s "-1" then (Fin (-1), false) else if eqs s "0" then (Fin 0, false) else (Fin 0, true).

Example test_limits_from_env :
  map (fun v => ParseRPSFromEnv (fun _ => v) parse_float_demo "WKHTTP_TEST_RPS" (Fin (3 # 2))) [[]; "3.0"; "-1"; "0"; "abc"]%go =
    [Fin (3 # 2); Fin 3; Fin (3 # 2); Fin (3 # 2); Fin (3 # 2)] /\
  table_holds (fun v => ParseBurstFromEnv (fun _ => v) "WKHTTP_TEST_BURST" 10)
    [([], 10); ("25"%go, 25); ("-3"%go, 10); ("0"%go, 10); ("x"%go, 10)] = true.
Proof. by vm_compute. Qed.

(** ** [pkg/wkhttp/auth_middleware_test.go], [error_renderer_test.go], [http_test.go] *)

Definition test_cache : MemoryCache := mkMemoryCache (list_to_map
  [("token:goodtoken"%go, "uid1@alice@admin"%go); ("token:bad"%go, "not-an-at-separated-value"%go)]).

Definition authenticated (l : WKHttp MemoryCache) (token : gostring) : gin_ctx :=
  gin (AuthMiddleware l "token:" (mkCtx (request_of "GET" [("token"%go, token)] []) (Some l)) test_cache).1.

Example test_AuthMiddleware_fallback :
  map (fun token => calls (authenticated Http.New token)) [[]; "unknown"; "bad"; "goodtoken"]%go =
    [[CJSON 401 (msg_status "token不能为空，请先登录！" 401); CAbort]; [CJSON 401 (msg_status "请先登录！" 401); CAbort];
     [CJSON 401 (msg_status "token有误！" 401); CAbort]; [CNext]] /\
  let c := authenticated Http.New "goodtoken" in
  Keys c !! "uid"%go = Some (AString "uid1") /\ Keys c !! "name"%go = Some (AString "alice") /\ Keys c !! "role"%go = Some (AString "admin") /\
  UserFromCtx (Some (Context_ (Request c))) = (mkUserInfo "uid1" "alice" "admin" [], true).
Proof. by vm_compute. Qed.

(** A renderer that answers with the code. *)
Definition stubRenderer : ErrorRenderer := fun c spec =>
  c_JSON (TransportStatus spec) (JObj [("code"%go, JStr (Code spec)); ("msg"%go, JStr (DefaultMessage spec))]) c.

Example test_AuthMiddleware_renderer :
  map (fun token => match calls (authenticated (SetErrorRenderer (Some stubRenderer) Http.New) token) with
                    | CJSON _ (JObj ((_, JStr code) :: _)) :: _ => code | _ => [] end) [[]; "unknown"; "bad"]%go =
    ["err.shared.auth.token_missing"; "err.shared.auth.required"; "err.shared.auth.token_invalid"]%go.
Proof. by vm_compute. Qed.

Example test_AuthMiddleware_parser :
  let custom := SetTokenParser (Some (fun _ _ s => (s, (mkUserInfo "custom" "n" "r" "en", None)))) Http.New in
  let failing := SetTokenParser (Some (fun _ _ s => (s, (zero_UserInfo, Some (mkError "custom parser failure" []))))) (SetErrorRenderer (Some stubRenderer) Http.New) in
  UserFromCtx (Some (Context_ (Request (authenticated custom "any")))) = (mkUserInfo "custom" "n" "r" "en", true) /\
  calls (authenticated failing "any") = [CJSON 401 (JObj [("code"%go, JStr "err.shared.auth.required"); ("msg"%go, JStr "请先登录！")]); CAbort].
Proof. by vm_compute. Qed.

Example test_RenderError :
  let c l := mkCtx (request_of "GET" [] []) l : Context MemoryCache in
  let spec status := mkErrorSpec "err.x" "fallback msg" status 0 ∅ ∅ false in
  calls (gin (RenderError (spec 401) (c None))) = [CJSON 401 (msg_status "fallback msg" 401)] /\
  calls (gin (RenderError (spec 0) (c None))) = [CJSON 400 (msg_status "fallback msg" 400)] /\
  calls (gin (RenderError (spec 401) (c (Some (SetErrorRenderer None (SetErrorRenderer (Some stubRenderer) Http.New)))))) =
    [CJSON 401 (msg_status "fallback msg" 401)] /\
  calls (gin (RenderError (spec 418) (c (Some (SetErrorRenderer (Some stubRenderer) Http.New))))) =
    [CJSON 418 (JObj [("code"%go, JStr "err.x"); ("msg"%go, JStr "fallback msg")])].
Proof. by vm_compute. Qed.

Example test_responses :
  let c := mkCtx (request_of "GET" [] []) None : Context MemoryCache in
  map (fun status => calls (gin (ResponseErrorWithStatus "e" status c))) [404; 500; 403; 400; 401] =
    map (fun status => [CJSON status (msg_status "e" status)]) [404; 500; 403; 400; 401] /\
  calls (gin (ResponseError "test error" c)) = [CJSON 400 (msg_status "test error" 400)] /\
  calls (gin (ResponseOK c)) = [CJSON 200 (JObj [("status"%go, JInt 200)])].
Proof. by vm_compute. Qed.
